(* ===== verification/_CoqProject ===== *)
-Q . S2P
Prelude.v
Words.v
IpbusWire.v
MemBus.v
RpcMsg.v
CText.v
IpAcl.v
Ipbus.v
IpbusSpec.v
IpbusFrame.v
IpbusSafe.v
IpbusServer.v
IpbusRun.v
IpbusSim.v
IpbusStream.v
RpcUtils.v
RpcAmc.v
RpcSca.v
RpcOptohybrid.v
RpcTable.v
RpcDaqMonitor.v
RpcVfat3.v
RpcCalib.v
XmlText.v
XmlParser.v
XhalInterface.v
Memsvc.v
MemsvcSpec.v
Memhub.v
MemsvcOpen.v
MemsvcBounds.v
RwReg.v
Daemon.v
MemsvcSim.v
Interleave.v
Interrupted.v
HubRegisters.v
Progress.v
DaemonShared.v
ServerShared.v
