(* ===== verification/Prelude.v ===== *)
(** * xHAL: register access for the GEM CTP7 boards, verified

    xHAL gives programs on a control PC access to the registers of a CTP7
    board: by an IPbus daemon and a memory hub that run on the board, and by a
    client library that calls a remote-procedure service of the board.  This
    library models that code, statement by statement, as executable functions,
    and proves what it does.  File names below are relative to [src/].

    ** The program

    On the board ([xcompile/]):
    - [ipbus/ipbus.cpp], the server: a [select] loop over the listening socket
      and at most [MAX_CLIENTS] connections;
    - [ipbus/Client.cpp], [Client.h], one connection: [run_io] cuts the bytes
      received into frames, [process_frame] executes the transactions of a
      packet on the bus and queues the answer;
    - [ipbus/ipacl.cpp], the list of networks that may connect;
    - [memhub/memhub.cpp], the bus: one register access at a time, under a
      named semaphore the processes of the board share, with a signal handler
      that gives the semaphore back;
    - [lib_rw_ctp7/libmemsvc.c], below it: the ranges of [/etc/memsvc.conf],
      mapped on first use, and the checked word accesses;
    - [lib_rw_ctp7/rwreg.cc] and [memhub/reg_stress_test.cpp], two clients of
      these libraries.

    On the control PC ([xhalcore/]):
    - [src/common/rpc_manager/], the functions of the board as remote
      procedures, one file per kind of hardware: a request is filled key by
      key, sent, and the response copied to the caller's memory;
    - [src/common/utils/XHALXMLParser.cpp], the address table: an XML file
      that names the registers;
    - [src/common/XHALInterface.cpp], registers by name, over both.

    A register name thus goes: [XHALInterface] to the address table, to a
    [memory.read] message; or, by address, through a frame of IPbus
    transactions to [Client], to [memhub], to [libmemsvc], to the device.

    ** How it is modelled

    A function is a value of [Fn S A]: a state [S] to an outcome and a state.
    [Next a] is the value returned, [Throw e] an exception leaving it,
    [Undef u] an execution the language gives no meaning to (an access outside
    an array, [front] on an empty deque, a shift by the width, a write into a
    string literal), [Halt h] the end of the process.  Inside a body
    ([M S R A]) [Return r] is a [return] statement, which [fn] and [call]
    resolve.  An unsigned integer is a [Z] and an operation that can leave its
    width is followed by [wrap]; a signed one by [s32].  A byte is a [Z] below
    256, a deque or vector a list, a [std::unordered_map] a [gmap].  The hosts
    are little-endian.

    ** The files

    - [Prelude]: the monad, its laws, [keeps] and the weakest-precondition
      rules ([wp], [wp_step]), lemmas on lists, words and bits.
    - [Words]: [__builtin_bswap32], [ntohl], and [count_1bits] of [utils.cc].
    - [CText]: the pieces of the C and C++ libraries that work on text, and
      [strcat] on a literal.

    The daemon.
    - [IpbusWire]: [IPBusTxnHdr], [str2vec], [vec2str], [endian_swap].
    - [MemBus]: the class [MemBus], the functions [memhub.h] declares, and
      [RegisterBus], what they promise of registers.
    - [Ipbus]: [Client::process_control_packet] and the eight transaction
      handlers; the state is the two deques and the bus.
    - [IpbusSpec]: the abstract meaning of transactions ([exec_all], an
      interpreter over a register file) and that the engine refines it.
    - [IpbusFrame]: [process_frame], [run_io], [read_ready], [write_ready].
    - [IpbusSafe]: the engine on arbitrary words, on a bus of [TotalBus].
    - [IpAcl]: [ipacl.cpp].  [IpbusServer]: [main] of [ipbus.cpp], a turn of
      its loop as [server_turn], a run as [server_run].  [IpbusRun]: runs
      over arbitrary turns.  [IpbusStream]: the size of responses, and the
      bytes a connection sends.
    - [Memsvc]: [libmemsvc.c], over the class [Kernel].  [MemsvcSpec]: its
      calls on a device of independent words, some of which may be missing,
      and, where none is, as a file of registers.  [MemsvcBounds]: its accesses on
      any device.  [MemsvcOpen]: the configuration file.
    - [Memhub]: [memhub.cpp] for one process, shown to be a [RegisterBus];
      [Memhub.Processes]: several processes and signals, as a
      step relation in which an access is one step.
    - [RwReg]: [rwreg.cc] and [reg_stress_test.cpp].
    - [Daemon]: all of it composed, from the bytes of a connection to the
      registers of the configured ranges; the hub as a [TotalBus].
    - [MemsvcSim]: two devices side by side ([similar]) and the functions of
      [libmemsvc.c] run on them ([sim]).  [Interleave]: several processes, each
      [mmap], load and store of a call a step; what a process asks of the
      device next is computed by running the code of [Memsvc] on the answers it
      has got.  [Interrupted]: what a call has stored when its process is
      killed.  [HubRegisters]: the same processes as clients of one file of
      registers.  [Progress]: that they get on.
      [IpbusSim]: the packet engine, and the server around it, over two buses
      ([agree]).  [DaemonShared]: the daemon as one of these processes, packet
      by packet; [ServerShared]: with its connections and their bytes.

    The client library.
    - [RpcMsg]: the class [RpcLib], the functions of [wiscRPCMsg.h] and
      [wiscrpcsvc.h], its laws [RpcLaws], and the idioms of all the functions
      ([STANDARD_CATCH], [ASSERT], copies to the caller's memory) with the
      contracts [implements_command] and [implements_reads].
    - [RpcUtils], [RpcAmc] ([amc.cc], [gbt.cc]), [RpcSca], [RpcOptohybrid],
      [RpcVfat3], [RpcCalib], [RpcDaqMonitor]: one per file of
      [rpc_manager/]; [RpcTable]: responses copied key by key into tables and
      structures.
    - [XmlText]: [parseInt], [replaceAll], [substituteVars].  [XmlParser]:
      [Node] and the rest of [XHALXMLParser].  [XhalInterface].

    ** What is shown

    Refinement.  [Daemon.daemon_serves_frame] is the daemon end to end: the
    bytes of a frame of well-formed transactions are answered with the bytes
    of their replies, on the registers of the configured ranges.  It is put
    together from [IpbusSpec.control_packet_refines], proved against the class
    [RegisterBus], and the instance the memory hub is.
    [IpbusServer.turn_serves_in_order] says the same of a turn with several
    connections.  [XhalInterface.session_reads_declared] is the client's
    counterpart, from the XML file to the value of the register.

    Safety and bounds.  [Daemon.daemon_run_ends]: the composed daemon on
    arbitrary bytes, turns and connections, with the list of the ways it can
    stop and the turn, connection and bytes that make it do so.  [IpbusSafe.arbitrary_packet]: no packet stops the engine but one with
    a configuration write.
    [MemsvcBounds.session_in_bounds]: no sequence of calls reaches a word
    outside a mapping.  [IpbusStream.output_is_framed]: what a client of the
    daemon receives is a sequence of frames.  [IpbusFrame.frame_answered],
    [IpbusServer.turn_admits_networks], [IpbusServer.server_descriptors_bounded].

    Concurrency.  [Interleave.calls_atomic]: in every interleaving of the device
    operations of any number of processes the calls of the hub are atomic.
    [HubRegisters.hub_is_register_file]: they are steps on one file of
    registers.  [DaemonShared.daemon_among_others]: the daemon's clients do not
    notice other processes that leave their registers alone;
    [ServerShared.server_among_others]: nor does the whole server, on any
    bytes.
    [Progress.calls_complete]: where no access is a bus error, no order of
    operations leads to a state from which a process cannot complete its call.
    [Memhub.Processes.access_stays_possible]: the semaphore is not lost, for
    signals that arrive where the handler expects them;
    [Interleave.act_coarser]: but for the bus error, every operation of
    [Interleave] is a step of that coarser model, a part of one, or a death;
    [Memhub.Processes.signal_races] for the places it does not,
    [Interleave.InterleaveExamples.bus_error_locks] for the signal it is not
    installed for, and [Interleave.InterleaveExamples.rmw_lost_update] for
    what two accesses under two holds of the semaphore are not.

    Function by function.  For each function of the client library: the
    request it sends, what it takes for an error, the cells of memory it
    writes, and that it writes no other.  The keys, the layout of the tables
    and the sizes are written out in the theorems; the functions that copy
    key by key say what a missing key does ([RpcDaqMonitor], [RpcTable]), the
    others are stated for responses whose keys hold values of the expected
    type.  [XhalInterface.writeReg_readReg]: masked writes and reads as bit
    fields; [XhalInterface.failures_undefined]: how each of its calls fails.
    [MemsvcSpec.multiword_calls]: the branches of the accesses.
    [RwReg.rw_register]: those of the functions for Python.

    Text and formats.  Round trips and equivalences with a reference:
    [IpbusWire.wire_roundtrip], [MemsvcOpen.memsvc_open_config],
    [XmlText.parseInt_printed], [XmlText.substituteVars_pieces],
    [IpAcl.authorize_ip_networks], [XmlParser.getNode_declared].

    Some theorems state behaviour that is not what the code means to do; they
    say so in their comments ([Words.count_1bits_correct_iff],
    [MemsvcSpec.multiword_calls], [XhalInterface.failures_undefined],
    [IpbusFrame.niwrite_refused_desync], [RpcAmc.sbitReadOut_never_ends] and
    others).

    ** Fuel

    - [Ipbus.control_loop] has the length of the request: every turn takes at
      least the header off it ([Ipbus.control_packet_terminates]).
    - [RpcAmc.sbit_loop]: [acquireTime] turns are enough unless the board
      reports no live time for one of them or the sum passes 2^32
      ([RpcAmc.sbitReadOut_terminates]); no number is when it reports none at
      all, until the [int] that counts the runs overflows
      ([RpcAmc.sbitReadOut_never_ends]).
    - [XmlText.replace_loop] has one more than the length of the string; its
      result is [None] only for the empty pattern, with which the loop of the
      code does not advance.
    - [CText.print_loop] has the number of binary digits.
    Everything else is structural recursion on the data.

    ** What is assumed, and where

    Code outside the repository is an argument of the definitions that use
    it; what is relied on is a class, and each class has an instance the
    witnesses are evaluated with.
    - [RpcLib], [RpcLaws], [RpcMsg.MemoryService]: the remote-procedure
      library, of which the repository has the headers: a message is a map,
      and the remote memory service a file of registers.  Instances:
      [RpcMsg.Scripted], [RpcMsg.Board].
    - [Kernel]: [mmap], loads and stores of mapped words, [sigaction].
      [MemsvcSpec.Paged]: the size of a page; [MemsvcSpec.PlainDevice]: words
      that keep what is written; [MemsvcBounds.StrictMmap]: [mmap] refuses a
      length of 0; [Interleave.OwnSignals]: what [sigaction] answers does not
      depend on the device.  Instance: [MemsvcSpec.PlainMemory].
    - [MemBus], [RegisterBus], [TotalBus], [IpbusSpec.Shows] are interfaces
      between parts: the theorems of [Memhub], [Daemon] and [DaemonShared]
      discharge them.
    - The answers of [select], [recv], [send], [accept], [sem_open] and of the
      calls [memsvc_open] makes ([connect], [recvmsg], [fopen] and so on), the
      contents of the files, the order in which a [std::unordered_map] is
      traversed, the document tree Xerces builds or its failure, and the width
      of [size_t] (at least 32 bits) are plain arguments.

    ** Not modelled

    - Log messages and printed diagnostics.
    - Xerces-C, log4cplus and LMDB under [xcompile/]: third-party code built
      for the board, of which the program calls Xerces (as above), log4cplus
      (logging) and, nowhere in the modelled files, LMDB.
    - [xcompile/lib_rw_ctp7/CTP7.hh]: constants and an abstract class nothing
      implements.
    - [test/], [python/], [xhalarm/] and the build files: tests, an interactive
      front end in Python, version constants; no state of the system. *)

From stdpp Require Export base tactics list gmap strings numbers fin_maps.
From Stdlib Require Export ZArith Lia.

#[export] Set Default Goal Selector "!".
#[export] Set Warnings "-notation-for-abbreviation".
#[global] Open Scope Z_scope.

(** ** Machine integers

    A [uint8_t], [uint16_t] or [uint32_t] is a [Z]; an operation that may
    leave the range is followed by [wrap], as the conversion back to the
    unsigned type does in C++. *)

Definition wrap (w x : Z) : Z := x mod 2 ^ w.
Definition word (w x : Z) : Prop := 0 ≤ x < 2 ^ w.

#[export] Instance word_dec w x : Decision (word w x).
Proof. unfold word. apply _. Defined.

Notation w8 := (wrap 8).
Notation w16 := (wrap 16).
Notation w32 := (wrap 32).
Notation w64 := (wrap 64).

(** [int32_t] value of a 32-bit pattern. *)
Definition s32 (x : Z) : Z := (x + 2 ^ 31) mod 2 ^ 32 - 2 ^ 31.

(** ** What a statement of the program can do

    [Next a]: it completed with value [a] and control goes on;
    [Return r]: a [return r;] was executed; [Throw e]: an exception is
    propagating; [Undef u]: the C++ standard gives the execution no meaning
    from here on; [Halt h]: the process ended. *)

Inductive ub : Type :=
| OutOfBounds          (* access outside an array, a string or a buffer *)
| ShiftCount           (* shift by a negative amount or by the width or more *)
| DivideByZero
| PopEmpty             (* pop_front/front on an empty deque *)
| EmptyOptional        (* operator* on an optional without a value *)
| LiteralWrite         (* write into the array of a string literal *)
| MissingReturn        (* flowing off the end of a value-returning function *)
| Uninitialised        (* use of an indeterminate value *)
| NullPointer
| DeadJump             (* siglongjmp to a frame that has returned *)
| SignedOverflow.

Inductive halt : Type :=
| HExit (code : Z)
| HAbort
| HSignal
| HBlocked.            (* waits for ever *)

Inductive exn : Type :=
| RPCException (message : string)
| NotConnectedException (message : string)
| ConnectionFailedException (message : string)
| RPCErrorException (message : string)
| BadKeyException (key : string)
| TypeException
| BufferTooSmallException
| CorruptMessageException (reason : string)
| XhalException (m : string)
| LengthError
| OutOfRange
| InvalidArgument.

#[export] Instance ub_eq_dec : EqDecision ub.
Proof. solve_decision. Defined.
#[export] Instance halt_eq_dec : EqDecision halt.
Proof. solve_decision. Defined.
#[export] Instance exn_eq_dec : EqDecision exn.
Proof. solve_decision. Defined.

Inductive flow (R A : Type) : Type :=
| Next (a : A)
| Return (r : R)
| Throw (e : exn)
| Undef (u : ub)
| Halt (h : halt).
Arguments Next {R A} a.
Arguments Return {R A} r.
Arguments Throw {R A} e.
Arguments Undef {R A} u.
Arguments Halt {R A} h.

(** A statement over the state [S], inside a function returning [R]. *)
Definition M (S R A : Type) : Type := S → flow R A * S.

(** A whole function: nothing is left to [return]. *)
Notation Fn S A := (M S Empty_set A).

Section Monad.
Context {S R : Type}.

#[global] Instance M_ret : MRet (M S R) := λ A a s, (Next a, s).

#[global] Instance M_bind : MBind (M S R) := λ A B k m s,
  match m s with
  | (Next a, s') => k a s'
  | (Return r, s') => (Return r, s')
  | (Throw e, s') => (Throw e, s')
  | (Undef u, s') => (Undef u, s')
  | (Halt h, s') => (Halt h, s')
  end.

Definition ret {A} (r : R) : M S R A := λ s, (Return r, s).
Definition throw {A} (e : exn) : M S R A := λ s, (Throw e, s).
Definition undef {A} (u : ub) : M S R A := λ s, (Undef u, s).
Definition halt_with {A} (h : halt) : M S R A := λ s, (Halt h, s).
Definition gets {A} (f : S → A) : M S R A := λ s, (Next (f s), s).
Definition modify (f : S → S) : M S R unit := λ s, (Next tt, f s).
Definition skip : M S R unit := mret tt.
Definition when (b : bool) (m : M S R unit) : M S R unit := if b then m else skip.
Definition guard_ub (b : bool) (u : ub) : M S R unit := if b then skip else undef u.

(** [try m catch h]: the handler sees every exception and rethrows those
    none of its clauses names. *)
Definition try_catch {A} (m : M S R A) (h : exn → M S R A) : M S R A := λ s,
  match m s with
  | (Throw e, s') => h e s'
  | r => r
  end.

(** [for (auto x : l) f x] *)
Fixpoint for_each {X} (l : list X) (f : X → M S R unit) : M S R unit :=
  match l with
  | [] => skip
  | x :: l => f x ;; for_each l f
  end.

(** A call: the callee's [return] ended with the callee. *)
Definition call {A} (m : Fn S A) : M S R A := λ s,
  match m s with
  | (Next a, s') => (Next a, s')
  | (Return r, s') => match r : Empty_set with end
  | (Throw e, s') => (Throw e, s')
  | (Undef u, s') => (Undef u, s')
  | (Halt h, s') => (Halt h, s')
  end.
End Monad.

(** A function body of result type [A], closed into a function. *)
Definition fn {S A} (body : M S A A) : Fn S A := λ s,
  match body s with
  | (Next a, s') => (Next a, s')
  | (Return a, s') => (Next a, s')
  | (Throw e, s') => (Throw e, s')
  | (Undef u, s') => (Undef u, s')
  | (Halt h, s') => (Halt h, s')
  end.

(** ** Reading a run *)
Section MonadLemmas.
Context {S R : Type}.

Lemma guard_next b u (s : S) : b = true → guard_ub (R:=R) b u s = (Next tt, s).
Proof. by intros ->. Qed.

Lemma bind_next {A B} (m : M S R A) (k : A → M S R B) s a s' :
  m s = (Next a, s') → (m ≫= k) s = k a s'.
Proof. intros H. unfold mbind, M_bind. by rewrite H. Qed.

Lemma call_next {A} (m : Fn S A) s a s' :
  m s = (Next a, s') → call (R:=R) m s = (Next a, s').
Proof. intros H. unfold call. by rewrite H. Qed.

Lemma bind_return {A B} (m : M S R A) (k : A → M S R B) s r s' :
  m s = (Return r, s') → (m ≫= k) s = (Return r, s').
Proof. intros H. unfold mbind, M_bind. by rewrite H. Qed.

Lemma bind_throw {A B} (m : M S R A) (k : A → M S R B) s e s' :
  m s = (Throw e, s') → (m ≫= k) s = (Throw e, s').
Proof. intros H. unfold mbind, M_bind. by rewrite H. Qed.

Lemma bind_undef {A B} (m : M S R A) (k : A → M S R B) s u s' :
  m s = (Undef u, s') → (m ≫= k) s = (Undef u, s').
Proof. intros H. unfold mbind, M_bind. by rewrite H. Qed.

Lemma bind_halt {A B} (m : M S R A) (k : A → M S R B) s h s' :
  m s = (Halt h, s') → (m ≫= k) s = (Halt h, s').
Proof. intros H. unfold mbind, M_bind. by rewrite H. Qed.

Lemma bind_bind {A B C} (m : M S R A) (k : A → M S R B) (l : B → M S R C) s :
  ((m ≫= k) ≫= l) s = (m ≫= λ a, k a ≫= l) s.
Proof. unfold mbind, M_bind. by destruct (m s) as [[] ?]. Qed.

(** Two sequences agree when their first statements do and, if these
    complete, the rest does. *)
Lemma bind_ext {A B} (m1 m2 : M S R A) (k1 k2 : A → M S R B) s :
  m1 s = m2 s → (∀ a s', m1 s = (Next a, s') → k1 a s' = k2 a s') →
  (m1 ≫= k1) s = (m2 ≫= k2) s.
Proof.
  intros Hm Hk. unfold mbind, M_bind. rewrite <- Hm.
  destruct (m1 s) as [[a| | | |] s'] eqn:E; [|done..]. by apply Hk.
Qed.

Lemma for_each_app {X} (l1 l2 : list X) (f : X → M S R unit) s :
  for_each (l1 ++ l2) f s = (for_each l1 f ;; for_each l2 f) s.
Proof.
  revert s. induction l1 as [|x l1 IH]; intros s; [done|].
  cbn [app for_each]. rewrite bind_bind.
  unfold mbind at 1 2, M_bind at 1 2. destruct (f x s) as [[] ?]; eauto.
Qed.

(** An invariant of the state holds after a loop that completes. *)
Lemma for_each_invariant {X} (P : S → Prop) (l : list X) (f : X → M S R unit) s r s' :
  (∀ x s r s', x ∈ l → P s → f x s = (r, s') → P s') →
  P s → for_each l f s = (r, s') → P s'.
Proof.
  revert s. induction l as [|x l IH]; intros s Hf Hs; cbn [for_each].
  { intros [= _ <-]. done. }
  unfold mbind, M_bind. destruct (f x s) as [r1 s1] eqn:E.
  assert (P s1) by (eapply Hf; [apply elem_of_cons; by left|..]; eauto).
  destruct r1; [|by intros [= _ <-]..].
  apply IH; [|done]. intros y t q t' Hy. apply Hf. apply elem_of_cons. by right.
Qed.
End MonadLemmas.

(** ** Invariants of a statement

    [keeps P m]: whatever the outcome of [m], [P] holds after it if it held
    before.  The database [keeps] goes through the combinators. *)
Definition keeps {S R A} (P : S → Prop) (m : M S R A) : Prop := ∀ s, P s → P (m s).2.

Section Keeps.
Context {S R : Type} (P : S → Prop).

Lemma keeps_ret {A} (a : A) : keeps (R:=R) P (mret a).
Proof. by intros s ?. Qed.
Lemma keeps_return {A} (r : R) : keeps P (ret (A:=A) r).
Proof. by intros s ?. Qed.
Lemma keeps_throw {A} e : keeps (R:=R) P (throw (A:=A) e).
Proof. by intros s ?. Qed.
Lemma keeps_undef {A} u : keeps (R:=R) P (undef (A:=A) u).
Proof. by intros s ?. Qed.
Lemma keeps_halt {A} h : keeps (R:=R) P (halt_with (A:=A) h).
Proof. by intros s ?. Qed.
Lemma keeps_gets {A} (f : S → A) : keeps (R:=R) P (gets f).
Proof. by intros s ?. Qed.
Lemma keeps_skip : keeps (R:=R) P skip.
Proof. by intros s ?. Qed.
Lemma keeps_modify f : (∀ s, P s → P (f s)) → keeps (R:=R) P (modify f).
Proof. intros H s. apply H. Qed.
Lemma keeps_guard b u : keeps (R:=R) P (guard_ub b u).
Proof. intros s Hs. by destruct b. Qed.
Lemma keeps_when b (m : M S R unit) : keeps P m → keeps P (when b m).
Proof. intros Hm s Hs. destruct b; [by apply Hm|done]. Qed.
Lemma keeps_bind {A B} (m : M S R A) (k : A → M S R B) :
  keeps P m → (∀ a, keeps P (k a)) → keeps P (m ≫= k).
Proof.
  intros Hm Hk s Hs. specialize (Hm s Hs). unfold mbind, M_bind.
  destruct (m s) as [[] s']; cbn in *; try done. by apply Hk.
Qed.
Lemma keeps_call {A} (m : Fn S A) : keeps P m → keeps (R:=R) P (call m).
Proof.
  intros Hm s Hs. specialize (Hm s Hs). unfold call.
  by destruct (m s) as [[|[]| | |] s'].
Qed.
Lemma keeps_fn {A} (m : M S A A) : keeps P m → keeps P (fn m).
Proof. intros Hm s Hs. specialize (Hm s Hs). unfold fn. by destruct (m s) as [[] s']. Qed.
Lemma keeps_for_each {X} (l : list X) (f : X → M S R unit) :
  (∀ x, keeps P (f x)) → keeps P (for_each l f).
Proof.
  intros Hf. induction l as [|x l IH]; [apply keeps_skip|].
  apply keeps_bind; [done|]. by intros [].
Qed.
Lemma keeps_try {A} (m : M S R A) h :
  keeps P m → (∀ e, keeps P (h e)) → keeps P (try_catch m h).
Proof.
  intros Hm Hh s Hs. specialize (Hm s Hs). unfold try_catch.
  destruct (m s) as [[] s']; try done. by apply Hh.
Qed.
End Keeps.

Create HintDb keeps.
#[export] Hint Resolve keeps_ret keeps_return keeps_throw keeps_undef keeps_halt keeps_gets
  keeps_skip keeps_guard : keeps.

(** Go through the combinators of a statement; [keeps] closes the leaves. *)
Ltac keeps_step :=
  first
  [ progress eauto with keeps nocore
  | apply keeps_bind; [|intros ?]
  | apply keeps_fn
  | apply keeps_call
  | apply keeps_when
  | apply keeps_for_each; intros ?
  | apply keeps_try; [|intros ?]
  | case_match ].
Ltac keeps_tac := repeat keeps_step.

#[global] Typeclasses Opaque M.

(** ** What a statement may end with

    [wp Rt E m Q s]: from [s], [m] completes with [Q], or returns with [Rt],
    or stops in a way [E] allows.  Unlike [keeps] it says that the ways that
    are not allowed do not happen. *)
Inductive stop : Type := StopThrow (e : exn) | StopUndef (u : ub) | StopHalt (h : halt).

Definition wp {S R A} (Rt : R → S → Prop) (E : stop → S → Prop) (m : M S R A) (Q : A → S → Prop) (s : S) : Prop :=
  match m s with
  | (Next a, s') => Q a s'
  | (Return r, s') => Rt r s'
  | (Throw e, s') => E (StopThrow e) s'
  | (Undef u, s') => E (StopUndef u) s'
  | (Halt h, s') => E (StopHalt h) s'
  end.

Section Wp.
Context {S R : Type} (Rt : R → S → Prop) (E : stop → S → Prop).

Lemma wp_bind {A B} (m : M S R A) (k : A → M S R B) Q s :
  wp Rt E m (λ a, wp Rt E (k a) Q) s → wp Rt E (m ≫= k) Q s.
Proof. unfold wp, mbind, M_bind. by destruct (m s) as [[] s']. Qed.
Lemma wp_mono {A} (m : M S R A) (Q Q' : A → S → Prop) s :
  wp Rt E m Q s → (∀ a s', Q a s' → Q' a s') → wp Rt E m Q' s.
Proof. unfold wp. destruct (m s) as [[] s']; eauto. Qed.
Lemma wp_impl {A} (Rt' : R → S → Prop) (E' : stop → S → Prop) (m : M S R A) (Q Q' : A → S → Prop) s :
  wp Rt' E' m Q s → (∀ r t, Rt' r t → Rt r t) → (∀ e t, E' e t → E e t) → (∀ a t, Q a t → Q' a t) → wp Rt E m Q' s.
Proof. unfold wp. destruct (m s) as [[] t]; eauto. Qed.
Lemma wp_ret {A} (a : A) (Q : A → S → Prop) s : Q a s → wp Rt E (mret a) Q s.
Proof. done. Qed.
Lemma wp_return {A} r (Q : A → S → Prop) s : Rt r s → wp Rt E (ret r) Q s.
Proof. done. Qed.
Lemma wp_skip Q s : Q tt s → wp Rt E skip Q s.
Proof. done. Qed.
Lemma wp_gets {A} (f : S → A) Q s : Q (f s) s → wp Rt E (gets f) Q s.
Proof. done. Qed.
Lemma wp_modify f Q s : Q tt (f s) → wp Rt E (modify f) Q s.
Proof. done. Qed.
Lemma wp_guard b u Q s : b = true → Q tt s → wp Rt E (guard_ub b u) Q s.
Proof. by intros ->. Qed.
Lemma wp_stop_undef {A} u (Q : A → S → Prop) s : E (StopUndef u) s → wp Rt E (undef u) Q s.
Proof. done. Qed.
Lemma wp_when b (m : M S R unit) Q s : (b = true → wp Rt E m Q s) → (b = false → Q tt s) → wp Rt E (when b m) Q s.
Proof. destruct b; naive_solver. Qed.
Lemma wp_call {A} (m : Fn S A) Q s : wp (λ _ _, False) E m Q s → wp Rt E (call m) Q s.
Proof. unfold wp, call. by destruct (m s) as [[|[]| | |] s']. Qed.
Lemma wp_for_each {X} (P : S → Prop) (l : list X) (f : X → M S R unit) s :
  P s → (∀ x t, x ∈ l → P t → wp Rt E (f x) (λ _, P) t) → wp Rt E (for_each l f) (λ _, P) s.
Proof.
  revert s. induction l as [|x l IH]; intros s Hs Hf; [done|]. cbn [for_each]. apply wp_bind.
  eapply wp_mono; [apply Hf; [apply elem_of_cons; by left|done]|]. intros [] t Ht. apply IH; [done|].
  intros y u Hy. apply Hf. apply elem_of_cons. by right.
Qed.
End Wp.

Lemma wp_fn {S A} (E : stop → S → Prop) (m : M S A A) Rt Q s : wp Q E m Q s → wp Rt E (fn m) Q s.
Proof. unfold wp, fn. by destruct (m s) as [[] s']. Qed.

(** Go through the combinators of a statement; the assertions stay. *)
Ltac wp_step :=
  match goal with
  | |- wp _ _ (_ ≫= _) _ _ => apply wp_bind
  | |- wp _ _ (mret _) _ _ => apply wp_ret
  | |- wp _ _ (ret _) _ _ => apply wp_return
  | |- wp _ _ skip _ _ => apply wp_skip
  | |- wp _ _ (gets _) _ _ => apply wp_gets
  | |- wp _ _ (modify _) _ _ => apply wp_modify
  | |- wp _ _ (fn _) _ _ => apply wp_fn
  | |- wp _ _ (call _) _ _ => apply wp_call
  | |- wp _ _ (when _ _) _ _ => apply wp_when; intros ?
  end.

(** ** Words: lemmas *)

Lemma wrap_word w x : 0 ≤ w → word w (wrap w x).
Proof. intros. unfold word, wrap. apply Z.mod_pos_bound. lia. Qed.

Lemma wrap_small w x : word w x → wrap w x = x.
Proof. unfold word, wrap. intros. by apply Z.mod_small. Qed.

Lemma wrap_wrap w x : wrap w (wrap w x) = wrap w x.
Proof. unfold wrap. apply Zmod_mod. Qed.

Lemma word_mono v w x : v ≤ w → 0 ≤ v → word v x → word w x.
Proof. unfold word. intros. assert (2 ^ v ≤ 2 ^ w) by (apply Z.pow_le_mono_r; lia). lia. Qed.

Lemma testbit_wrap w x i : 0 ≤ w → 0 ≤ i →
  Z.testbit (wrap w x) i = (i <? w) && Z.testbit x i.
Proof.
  intros. unfold wrap. destruct (Z.ltb_spec i w).
  - rewrite Z.mod_pow2_bits_low; done.
  - rewrite Z.mod_pow2_bits_high; [done|lia].
Qed.

Lemma testbit_word w x i : 0 ≤ w → word w x → w ≤ i → Z.testbit x i = false.
Proof.
  intros Hw Hx Hi. rewrite <- (wrap_small w x Hx).
  rewrite testbit_wrap by lia. destruct (Z.ltb_spec i w); [lia|done].
Qed.

Lemma word_of_bits w x : 0 ≤ w → 0 ≤ x → (∀ i, w ≤ i → Z.testbit x i = false) → word w x.
Proof.
  intros Hw Hx Hb. unfold word. split; [done|].
  destruct (decide (x = 0)) as [->|]; [lia|].
  apply Z.log2_lt_pow2; [lia|]. destruct (Z.lt_ge_cases (Z.log2 x) w); [done|].
  specialize (Hb (Z.log2 x)). rewrite Z.bit_log2 in Hb by lia. naive_solver.
Qed.

Lemma word_land w x y : 0 ≤ w → word w x → word w (Z.land x y).
Proof.
  intros Hw Hx. apply word_of_bits; [done|apply Z.land_nonneg; left; apply Hx|].
  intros i Hi. rewrite Z.land_spec, (testbit_word w x) by done. done.
Qed.

Lemma word_lor w x y : 0 ≤ w → word w x → word w y → word w (Z.lor x y).
Proof.
  intros Hw Hx Hy. apply word_of_bits; [done|apply Z.lor_nonneg; split; [apply Hx|apply Hy]|].
  intros i Hi. rewrite Z.lor_spec, !(testbit_word w) by done. done.
Qed.

Lemma word_shiftr w x n : 0 ≤ w → 0 ≤ n → word w x → word w (x ≫ n).
Proof.
  intros Hw Hn Hx. apply word_of_bits; [done|apply Z.shiftr_nonneg; apply Hx|].
  intros i Hi. rewrite Z.shiftr_spec by lia. apply (testbit_word w); [done..|lia].
Qed.

(** A conversion to a wider type changes nothing. *)
(** Inner wrap-arounds make no difference. *)
Lemma wrap_mul_wrap_l w x y : wrap w (wrap w x * y) = wrap w (x * y).
Proof. unfold wrap. by rewrite Zmult_mod_idemp_l. Qed.
Lemma wrap_mul_wrap_r w x y : wrap w (x * wrap w y) = wrap w (x * y).
Proof. unfold wrap. by rewrite Zmult_mod_idemp_r. Qed.

Lemma wrap_wrap_le w v x : 0 ≤ v ≤ w → wrap w (wrap v x) = wrap v x.
Proof. intros. apply wrap_small, (word_mono v); [lia..|]. apply wrap_word. lia. Qed.

Create HintDb words.
#[export] Hint Resolve wrap_word word_land word_lor word_shiftr : words.

(** Words are equal when they agree on their [w] bits. *)
Lemma word_bits_eq w x y : 0 ≤ w → word w x → word w y →
  (∀ i, 0 ≤ i < w → Z.testbit x i = Z.testbit y i) → x = y.
Proof.
  intros Hw Hx Hy H. apply Z.bits_inj'. intros i Hi.
  destruct (decide (i < w)); [by apply H|].
  by rewrite !(testbit_word w) by (done || lia).
Qed.

Lemma land_ones_lit x w m : 0 ≤ w → m = Z.ones w → Z.land x m = wrap w x.
Proof. intros ? ->. unfold wrap. by apply Z.land_ones. Qed.

Lemma lor_disjoint_add a b k : 0 ≤ k → 0 ≤ a < 2 ^ k → Z.lor (b ≪ k) a = b * 2 ^ k + a.
Proof.
  intros Hk Ha. rewrite <- Z.shiftl_mul_pow2 by done.
  enough (Z.land (b ≪ k) a = 0) as H0
    by (rewrite <- Z.lxor_lor by done; by rewrite Z.add_nocarry_lxor).
  apply Z.bits_inj'. intros i Hi. rewrite Z.land_spec, Z.bits_0.
  rewrite Z.shiftl_spec by done. destruct (decide (i < k)).
  - rewrite Z.testbit_neg_r by lia. done.
  - rewrite (testbit_word k a) by (done || lia). apply andb_false_r.
Qed.

(** Case analysis on a bit index below 32, for identities between words. *)
Lemma index32_cases i : 0 ≤ i < 32 → i ∈ seqZ 0 32.
Proof. intros. apply elem_of_seqZ. lia. Qed.

(** ** Tactics *)

(** Split a boolean test in the goal and reflect it. *)
Ltac case_bool :=
  match goal with
  | |- context [ if ?x =? ?y then _ else _ ] => destruct (Z.eqb_spec x y)
  | |- context [ if ?x <? ?y then _ else _ ] => destruct (Z.ltb_spec x y)
  | |- context [ if ?x <=? ?y then _ else _ ] => destruct (Z.leb_spec x y)
  | |- context [ if bool_decide ?P then _ else _ ] => destruct (bool_decide_reflect P)
  end.

(** Unfold the statement combinators of a run. *)
Ltac run_simpl :=
  cbv beta iota zeta delta
    [mbind M_bind mret M_ret ret throw undef halt_with gets modify skip when guard_ub
     try_catch call fn] in *; cbn beta iota in *.

(** Decide a closed decidable proposition by evaluation. *)
Ltac vm_decide := apply (bool_decide_unpack _); vm_compute; exact I.
