(* ===== verification/Words.v ===== *)
(** * Words: byte order and bit counting

    [bswap32] is the compiler builtin [__builtin_bswap32] (and [ntohl],
    [htonl] on the little-endian hosts the daemons are built for);
    [count_1bits] is [xhalcore/src/common/rpc_manager/utils.cc]'s function of
    that name.  The lemmas give both in terms of the digits of the word. *)

From S2P Require Import Prelude.

(** ** Byte order *)

Definition byte_at (x k : Z) : Z := (x / 2 ^ (8 * k)) mod 2 ^ 8.

Definition bswap32 (x : Z) : Z :=
  byte_at x 0 * 2 ^ 24 + byte_at x 1 * 2 ^ 16 + byte_at x 2 * 2 ^ 8 + byte_at x 3.

Lemma byte_at_word x k : word 8 (byte_at x k).
Proof. unfold byte_at, word. apply Z.mod_pos_bound. lia. Qed.

Lemma bswap32_word x : word 32 (bswap32 x).
Proof.
  unfold bswap32, word.
  pose proof (byte_at_word x 0). pose proof (byte_at_word x 1).
  pose proof (byte_at_word x 2). pose proof (byte_at_word x 3).
  unfold word in *. lia.
Qed.

(** A word is its four bytes. *)
Lemma word_bytes x : word 32 x →
  x = byte_at x 3 * 2 ^ 24 + byte_at x 2 * 2 ^ 16 + byte_at x 1 * 2 ^ 8 + byte_at x 0.
Proof.
  unfold word, byte_at. intros.
  change (2 ^ (8 * 0)) with 1. change (2 ^ (8 * 1)) with 256.
  change (2 ^ (8 * 2)) with 65536. change (2 ^ (8 * 3)) with 16777216.
  change (2 ^ 8) with 256. change (2 ^ 24) with 16777216. change (2 ^ 16) with 65536.
  change (2 ^ 32) with 4294967296 in *.
  Z.to_euclidean_division_equations. lia.
Qed.

Lemma byte_at_sum b0 b1 b2 b3 k : word 8 b0 → word 8 b1 → word 8 b2 → word 8 b3 →
  byte_at (b3 * 2 ^ 24 + b2 * 2 ^ 16 + b1 * 2 ^ 8 + b0) k =
  if decide (k = 0) then b0 else if decide (k = 1) then b1
  else if decide (k = 2) then b2 else if decide (k = 3) then b3
  else byte_at (b3 * 2 ^ 24 + b2 * 2 ^ 16 + b1 * 2 ^ 8 + b0) k.
Proof.
  unfold word, byte_at. intros.
  change (2 ^ 8) with 256 in *. change (2 ^ 24) with 16777216. change (2 ^ 16) with 65536.
  repeat case_decide; subst; [..|done].
  - change (2 ^ (8 * 0)) with 1. Z.to_euclidean_division_equations. lia.
  - change (2 ^ (8 * 1)) with 256. Z.to_euclidean_division_equations. lia.
  - change (2 ^ (8 * 2)) with 65536. Z.to_euclidean_division_equations. lia.
  - change (2 ^ (8 * 3)) with 16777216. Z.to_euclidean_division_equations. lia.
Qed.

Lemma byte_at_bswap32 x k : 0 ≤ k < 4 → byte_at (bswap32 x) k = byte_at x (3 - k).
Proof.
  intros Hk. unfold bswap32.
  rewrite byte_at_sum by apply byte_at_word.
  repeat case_decide; subst; done || lia.
Qed.

Lemma bswap32_involutive x : word 32 x → bswap32 (bswap32 x) = x.
Proof.
  intros Hx. unfold bswap32 at 1. rewrite !byte_at_bswap32 by lia.
  change (3 - 0) with 3. change (3 - 1) with 2. change (3 - 2) with 1. change (3 - 3) with 0.
  symmetry. by apply word_bytes.
Qed.

(** ** Bit counting *)

Definition count_1bits (x : Z) : Z :=
  let x := w32 (x - Z.land (x ≫ 1) 0x55555555) in
  let x := w32 (Z.land x 0x33333333 + Z.land (x ≫ 2) 0x33333333) in
  let x := w32 (x + (x ≫ 8)) in
  let x := w32 (x + (x ≫ 16)) in
  Z.land x 0x3F.

(** The number of one bits among the [k] lowest bits of [x]. *)
Fixpoint popcount (k : nat) (x : Z) : Z :=
  match k with
  | O => 0
  | S k => x mod 2 + popcount k (x / 2)
  end.

(** Nibble by nibble: [a + 16 * b] has low nibble [a]. *)
Lemma testbit_nibble a b i : 0 ≤ a < 16 → 0 ≤ i →
  Z.testbit (a + 16 * b) i = if i <? 4 then Z.testbit a i else Z.testbit b (i - 4).
Proof.
  intros Ha Hi. replace (a + 16 * b) with (Z.lor (b ≪ 4) a)
    by (rewrite lor_disjoint_add by lia; lia).
  rewrite Z.lor_spec, Z.shiftl_spec by done. case_bool.
  - by rewrite (Z.testbit_neg_r b) by lia.
  - rewrite (testbit_word 4 a i) by (unfold word; lia). by rewrite orb_false_r.
Qed.

Lemma land_nibble a b m n : 0 ≤ a < 16 → 0 ≤ m < 16 →
  Z.land (a + 16 * b) (m + 16 * n) = Z.land a m + 16 * Z.land b n.
Proof.
  intros Ha Hm. apply Z.bits_inj'. intros i Hi.
  assert (0 ≤ Z.land a m < 16) by (apply (word_land 4); unfold word; lia).
  rewrite Z.land_spec, !testbit_nibble by done. case_bool; by rewrite Z.land_spec.
Qed.

(** [n] is one of the sixteen nibbles. *)
Ltac nibble_cases n :=
  let H := fresh "H" in
  assert (n = 0 ∨ n = 1 ∨ n = 2 ∨ n = 3 ∨ n = 4 ∨ n = 5 ∨ n = 6 ∨ n = 7 ∨ n = 8 ∨ n = 9
          ∨ n = 10 ∨ n = 11 ∨ n = 12 ∨ n = 13 ∨ n = 14 ∨ n = 15) as H by lia;
  repeat (destruct H as [->|H]); [..|subst n].

Lemma popcount_nibble k n y : 0 ≤ n < 16 →
  popcount (4 + k) (n + 16 * y) = popcount 4 n + popcount k y.
Proof.
  intros Hn. cbn [popcount Nat.add].
  replace ((n + 16 * y) / 2 / 2 / 2 / 2) with y by (Z.to_euclidean_division_equations; lia).
  Z.to_euclidean_division_equations. lia.
Qed.

Lemma popcount4_bounds n : 0 ≤ n < 16 → 0 ≤ popcount 4 n ≤ 4.
Proof. intros Hx. nibble_cases n; vm_compute; split; discriminate. Qed.

(** Bound the count of every nibble in the context. *)
Ltac nibble_bounds :=
  repeat match goal with
  | H : 0 ≤ ?n < 16 |- _ =>
      lazymatch goal with
      | _ : 0 ≤ popcount 4 n ≤ 4 |- _ => fail
      | _ => pose proof (popcount4_bounds n H)
      end
  end.

(** The first two lines count the bits of every nibble in place. *)
Lemma pair_step n y m : 0 ≤ n < 16 →
  Z.land ((n + 16 * y) ≫ 1) (5 + 16 * m) = Z.land (n ≫ 1) 5 + 16 * Z.land (y ≫ 1) m.
Proof.
  intros Hn. rewrite !Z.shiftr_div_pow2 by lia. change (2 ^ 1) with 2.
  replace ((n + 16 * y) / 2) with ((n / 2 + 8 * (y mod 2)) + 16 * (y / 2))
    by (Z.to_euclidean_division_equations; lia).
  rewrite land_nibble by (Z.to_euclidean_division_equations; lia). f_equal.
  pose proof (Z.mod_pos_bound y 2 ltac:(lia)).
  assert (y mod 2 = 0 ∨ y mod 2 = 1) as [-> | ->] by lia; nibble_cases n; reflexivity.
Qed.

Lemma quad_step n y m : 0 ≤ n < 16 →
  Z.land ((n + 16 * y) ≫ 2) (3 + 16 * m) = n / 4 + 16 * Z.land (y ≫ 2) m.
Proof.
  intros Hn. rewrite !Z.shiftr_div_pow2 by lia. change (2 ^ 2) with 4.
  replace ((n + 16 * y) / 4) with ((n / 4 + 4 * (y mod 4)) + 16 * (y / 4))
    by (Z.to_euclidean_division_equations; lia).
  rewrite land_nibble by (Z.to_euclidean_division_equations; lia). f_equal.
  pose proof (Z.mod_pos_bound y 4 ltac:(lia)).
  assert (y mod 4 = 0 ∨ y mod 4 = 1 ∨ y mod 4 = 2 ∨ y mod 4 = 3) as [-> | [-> | [-> | ->]]] by lia;
    nibble_cases n; reflexivity.
Qed.

Definition pair_counts (m x : Z) : Z := x - Z.land (x ≫ 1) m.
Definition quad_counts (m x : Z) : Z := Z.land x m + Z.land (x ≫ 2) m.

Lemma nibble_step m5 m3 n y : 0 ≤ n < 16 →
  quad_counts (3 + 16 * m3) (pair_counts (5 + 16 * m5) (n + 16 * y)) =
  popcount 4 n + 16 * quad_counts m3 (pair_counts m5 y).
Proof.
  intros Hn. unfold pair_counts at 1. rewrite pair_step by done.
  set (p := n - Z.land (n ≫ 1) 5).
  replace (n + 16 * y - (Z.land (n ≫ 1) 5 + 16 * Z.land (y ≫ 1) m5))
    with (p + 16 * pair_counts m5 y) by (unfold p, pair_counts; lia).
  assert (0 ≤ p < 16 ∧ popcount 4 n = Z.land p 3 + p / 4) as [Hp ->]
    by (subst p; nibble_cases n; (split; [split; reflexivity || (cbv; discriminate)|reflexivity])).
  unfold quad_counts. rewrite quad_step, land_nibble by lia. lia.
Qed.

(** A 32-bit word as its eight nibbles. *)
Definition of_nibbles (n0 n1 n2 n3 n4 n5 n6 n7 : Z) : Z :=
  n0 + 16 * (n1 + 16 * (n2 + 16 * (n3 + 16 * (n4 + 16 * (n5 + 16 * (n6 + 16 * n7)))))).

Lemma word_nibbles x : word 32 x → ∃ n0 n1 n2 n3 n4 n5 n6 n7,
  x = of_nibbles n0 n1 n2 n3 n4 n5 n6 n7 ∧
  0 ≤ n0 < 16 ∧ 0 ≤ n1 < 16 ∧ 0 ≤ n2 < 16 ∧ 0 ≤ n3 < 16 ∧
  0 ≤ n4 < 16 ∧ 0 ≤ n5 < 16 ∧ 0 ≤ n6 < 16 ∧ 0 ≤ n7 < 16.
Proof.
  unfold word. change (2 ^ 32) with 4294967296. intros Hx.
  exists (x mod 16), (x / 16 mod 16), (x / 256 mod 16), (x / 4096 mod 16),
    (x / 65536 mod 16), (x / 1048576 mod 16), (x / 16777216 mod 16), (x / 268435456).
  unfold of_nibbles. Z.to_euclidean_division_equations. lia.
Qed.

Lemma popcount_nibbles n0 n1 n2 n3 n4 n5 n6 n7 :
  0 ≤ n0 < 16 → 0 ≤ n1 < 16 → 0 ≤ n2 < 16 → 0 ≤ n3 < 16 →
  0 ≤ n4 < 16 → 0 ≤ n5 < 16 → 0 ≤ n6 < 16 → 0 ≤ n7 < 16 →
  popcount 32 (of_nibbles n0 n1 n2 n3 n4 n5 n6 n7) =
  popcount 4 n0 + popcount 4 n1 + popcount 4 n2 + popcount 4 n3 +
  popcount 4 n4 + popcount 4 n5 + popcount 4 n6 + popcount 4 n7.
Proof.
  intros. unfold of_nibbles. change 32%nat with (4 + (4 + (4 + (4 + (4 + (4 + (4 + 4)))))))%nat.
  rewrite !popcount_nibble by done. lia.
Qed.

Lemma in_place_counts n0 n1 n2 n3 n4 n5 n6 n7 :
  0 ≤ n0 < 16 → 0 ≤ n1 < 16 → 0 ≤ n2 < 16 → 0 ≤ n3 < 16 →
  0 ≤ n4 < 16 → 0 ≤ n5 < 16 → 0 ≤ n6 < 16 → 0 ≤ n7 < 16 →
  quad_counts 0x33333333 (pair_counts 0x55555555 (of_nibbles n0 n1 n2 n3 n4 n5 n6 n7)) =
  of_nibbles (popcount 4 n0) (popcount 4 n1) (popcount 4 n2) (popcount 4 n3)
             (popcount 4 n4) (popcount 4 n5) (popcount 4 n6) (popcount 4 n7).
Proof.
  intros. unfold of_nibbles.
  change 0x33333333 with (3 + 16 * (3 + 16 * (3 + 16 * (3 + 16 * (3 + 16 * (3 + 16 * (3 + 16 * (3 + 16 * 0)))))))).
  change 0x55555555 with (5 + 16 * (5 + 16 * (5 + 16 * (5 + 16 * (5 + 16 * (5 + 16 * (5 + 16 * (5 + 16 * 0)))))))).
  replace n7 with (n7 + 16 * 0) at 1 by lia. rewrite !nibble_step by done.
  change (quad_counts 0 (pair_counts 0 0)) with 0. lia.
Qed.

Lemma of_nibbles_bound n0 n1 n2 n3 n4 n5 n6 n7 :
  0 ≤ n0 < 16 → 0 ≤ n1 < 16 → 0 ≤ n2 < 16 → 0 ≤ n3 < 16 →
  0 ≤ n4 < 16 → 0 ≤ n5 < 16 → 0 ≤ n6 < 16 → 0 ≤ n7 < 16 →
  word 32 (of_nibbles n0 n1 n2 n3 n4 n5 n6 n7).
Proof. unfold of_nibbles, word. change (2 ^ 32) with 4294967296. lia. Qed.

Lemma pair_counts_word x m : word 32 x → 0 ≤ m → word 32 (pair_counts m x).
Proof.
  unfold word, pair_counts. intros Hx Hm.
  assert (0 ≤ Z.land (x ≫ 1) m) by (apply Z.land_nonneg; by right).
  assert (Z.land (x ≫ 1) m ≤ x ≫ 1).
  { apply Z.ldiff_le; [apply Z.shiftr_nonneg; lia|]. apply Z.bits_inj'. intros i Hi.
    rewrite Z.ldiff_spec, Z.land_spec, Z.bits_0. by do 2 destruct (Z.testbit _ i). }
  rewrite Z.shiftr_div_pow2 in * by lia. change (2 ^ 1) with 2 in *.
  Z.to_euclidean_division_equations. lia.
Qed.

(** The last three lines on a word whose nibbles are at most four. *)
Lemma add_counts c0 c1 c2 c3 c4 c5 c6 c7 :
  0 ≤ c0 ≤ 4 → 0 ≤ c1 ≤ 4 → 0 ≤ c2 ≤ 4 → 0 ≤ c3 ≤ 4 →
  0 ≤ c4 ≤ 4 → 0 ≤ c5 ≤ 4 → 0 ≤ c6 ≤ 4 → 0 ≤ c7 ≤ 4 →
  let y := of_nibbles c0 c1 c2 c3 c4 c5 c6 c7 in
  let z := w32 (y + (y ≫ 8)) in
  wrap 6 (w32 (z + (z ≫ 16))) = (c0 + c2 + c4 + c6 + 16 * (c1 + c3 + c5 + c7)) mod 64.
Proof.
  intros ? ? ? ? ? ? ? ? y z.
  assert (y ≫ 8 = c2 + 16 * (c3 + 16 * (c4 + 16 * (c5 + 16 * (c6 + 16 * c7))))) as H8.
  { rewrite Z.shiftr_div_pow2 by lia. symmetry. apply (Z.div_unique _ _ _ (c0 + 16 * c1));
      subst y; unfold of_nibbles; change (2 ^ 8) with 256; lia. }
  assert (z = y + (y ≫ 8)) as Hz.
  { apply wrap_small. rewrite H8. unfold word, y, of_nibbles. change (2 ^ 32) with 4294967296. lia. }
  assert (z ≫ 16 = (c4 + c6) + 16 * (c5 + c7) + 256 * c6 + 4096 * c7) as H16.
  { rewrite Z.shiftr_div_pow2 by lia. symmetry.
    apply (Z.div_unique _ _ _ (c0 + c2 + 16 * (c1 + c3) + 256 * (c2 + c4) + 4096 * (c3 + c5)));
      rewrite ?Hz, ?H8; subst y; unfold of_nibbles; change (2 ^ 16) with 65536; lia. }
  rewrite (wrap_small 32).
  2: { unfold word. rewrite H16, Hz, H8. unfold y, of_nibbles. change (2 ^ 32) with 4294967296. lia. }
  unfold wrap. change (2 ^ 6) with 64. rewrite H16, Hz, H8. unfold y, of_nibbles.
  rewrite <- (Z.mod_add (c0 + c2 + c4 + c6 + 16 * (c1 + c3 + c5 + c7))
    (4 * c2 + 64 * c3 + 1024 * c4 + 16384 * c5 + 262144 * c6 + 4194304 * c7
     + 4 * c4 + 64 * c5 + 1024 * c6 + 16384 * c7 + 4 * c6 + 64 * c7)) by lia.
  f_equal. lia.
Qed.

(** The last three lines add the eight counts, but keep only six bits of two
    partial sums that overlap. *)
Lemma count_1bits_nibbles n0 n1 n2 n3 n4 n5 n6 n7 :
  0 ≤ n0 < 16 → 0 ≤ n1 < 16 → 0 ≤ n2 < 16 → 0 ≤ n3 < 16 →
  0 ≤ n4 < 16 → 0 ≤ n5 < 16 → 0 ≤ n6 < 16 → 0 ≤ n7 < 16 →
  count_1bits (of_nibbles n0 n1 n2 n3 n4 n5 n6 n7) =
  (popcount 4 n0 + popcount 4 n2 + popcount 4 n4 + popcount 4 n6
   + 16 * (popcount 4 n1 + popcount 4 n3 + popcount 4 n5 + popcount 4 n7)) mod 64.
Proof.
  intros. set (x := of_nibbles _ _ _ _ _ _ _ _).
  assert (word 32 x) by by apply of_nibbles_bound.
  unfold count_1bits. fold (pair_counts 0x55555555 x).
  rewrite (wrap_small 32 (pair_counts _ _)) by (apply pair_counts_word; [done|lia]).
  fold (quad_counts 0x33333333 (pair_counts 0x55555555 x)).
  subst x. rewrite in_place_counts by done.
  nibble_bounds.
  rewrite (wrap_small 32 (of_nibbles _ _ _ _ _ _ _ _)) by (apply of_nibbles_bound; lia).
  rewrite (land_ones_lit _ 6) by (done || lia).
  by apply add_counts.
Qed.

Lemma land_of_nibbles_even n0 n1 n2 n3 n4 n5 n6 n7 :
  0 ≤ n0 < 16 → 0 ≤ n1 < 16 → 0 ≤ n2 < 16 → 0 ≤ n3 < 16 →
  0 ≤ n4 < 16 → 0 ≤ n5 < 16 → 0 ≤ n6 < 16 → 0 ≤ n7 < 16 →
  Z.land (of_nibbles n0 n1 n2 n3 n4 n5 n6 n7) 0x0F0F0F0F = of_nibbles n0 0 n2 0 n4 0 n6 0.
Proof.
  intros. unfold of_nibbles.
  change 0x0F0F0F0F with (15 + 16 * (0 + 16 * (15 + 16 * (0 + 16 * (15 + 16 * (0 + 16 * (15 + 16 * 0))))))).
  rewrite !land_nibble by lia. rewrite !Z.land_0_r.
  rewrite !(land_ones_lit _ 4 15) by (done || lia). unfold wrap.
  rewrite !(Z.mod_small _ (2 ^ 4)) by lia. lia.
Qed.

Lemma land_of_nibbles_odd n0 n1 n2 n3 n4 n5 n6 n7 :
  0 ≤ n0 < 16 → 0 ≤ n1 < 16 → 0 ≤ n2 < 16 → 0 ≤ n3 < 16 →
  0 ≤ n4 < 16 → 0 ≤ n5 < 16 → 0 ≤ n6 < 16 → 0 ≤ n7 < 16 →
  Z.land (of_nibbles n0 n1 n2 n3 n4 n5 n6 n7) 0xF0F0F0F0 = of_nibbles 0 n1 0 n3 0 n5 0 n7.
Proof.
  intros. unfold of_nibbles.
  change 0xF0F0F0F0 with (0 + 16 * (15 + 16 * (0 + 16 * (15 + 16 * (0 + 16 * (15 + 16 * (0 + 16 * 15))))))).
  rewrite !land_nibble by lia. rewrite !Z.land_0_r.
  rewrite !(land_ones_lit _ 4 15) by (done || lia). unfold wrap.
  rewrite !(Z.mod_small _ (2 ^ 4)) by lia. lia.
Qed.

Lemma popcount4_zero n : 0 ≤ n < 16 → popcount 4 n = 0 → n = 0.
Proof. intros Hx. nibble_cases n; vm_compute; done. Qed.

Lemma popcount_bounds k x : 0 ≤ popcount k x ≤ Z.of_nat k.
Proof.
  revert x. induction k as [|k IH]; intros x; cbn [popcount]; [lia|].
  specialize (IH (x / 2)). pose proof (Z.mod_pos_bound x 2 ltac:(lia)). lia.
Qed.

(** Only 0 has no bit. *)
Lemma popcount_zero k x : word (Z.of_nat k) x → popcount k x = 0 → x = 0.
Proof.
  revert x. induction k as [|k IH]; intros x Hx; cbn [popcount]; [unfold word in Hx; cbn in Hx; lia|].
  intros H0. pose proof (popcount_bounds k (x / 2)). pose proof (Z.mod_pos_bound x 2 ltac:(lia)).
  unfold word in Hx. rewrite Nat2Z.inj_succ, Z.pow_succ_r in Hx by lia.
  assert (x / 2 = 0) as Hq by (apply IH; [unfold word; Z.to_euclidean_division_equations; lia|lia]).
  Z.to_euclidean_division_equations. lia.
Qed.

(** What the function returns, in terms of the true count of the bits of the
    even nibbles and of the odd ones. *)
Lemma count_1bits_parts x : word 32 x →
  count_1bits x = (popcount 32 (Z.land x 0x0F0F0F0F) + 16 * popcount 32 (Z.land x 0xF0F0F0F0)) mod 64
  ∧ popcount 32 x = popcount 32 (Z.land x 0x0F0F0F0F) + popcount 32 (Z.land x 0xF0F0F0F0)
  ∧ (popcount 32 (Z.land x 0xF0F0F0F0) = 0 ↔ Z.land x 0xF0F0F0F0 = 0)
  ∧ 0 ≤ popcount 32 (Z.land x 0x0F0F0F0F) ≤ 16 ∧ 0 ≤ popcount 32 (Z.land x 0xF0F0F0F0) ≤ 16.
Proof.
  intros (n0 & n1 & n2 & n3 & n4 & n5 & n6 & n7 & -> & ? & ? & ? & ? & ? & ? & ? & ?)%word_nibbles.
  rewrite land_of_nibbles_even, land_of_nibbles_odd, count_1bits_nibbles by done.
  rewrite !popcount_nibbles by lia. change (popcount 4 0) with 0.
  nibble_bounds.
  split_and!; [f_equal; lia|lia| |lia..]. split.
  - intros. rewrite (popcount4_zero n1), (popcount4_zero n3), (popcount4_zero n5),
      (popcount4_zero n7) by lia. done.
  - unfold of_nibbles. intros. assert (n1 = 0 ∧ n3 = 0 ∧ n5 = 0 ∧ n7 = 0) as (-> & -> & -> & ->) by lia.
    done.
Qed.

Lemma count_1bits_iff x : word 32 x → count_1bits x = popcount 32 x ↔ Z.land x 0xF0F0F0F0 = 0.
Proof.
  intros Hx. destruct (count_1bits_parts x Hx) as (-> & -> & <- & ? & ?).
  Z.to_euclidean_division_equations. lia.
Qed.

Lemma count_1bits_bound x : 0 ≤ count_1bits x < 64.
Proof.
  unfold count_1bits. rewrite (land_ones_lit _ 6) by (done || lia). unfold wrap.
  apply Z.mod_pos_bound. lia.
Qed.

(** [count_1bits] returns the number of one bits of [x] exactly when no bit
    of an odd nibble (bits 4-7, 12-15, 20-23, 28-31) is set; otherwise it
    returns a wrong count. *)
Theorem count_1bits_correct_iff x : word 32 x →
  count_1bits x = popcount 32 x ↔ Z.land x 0xF0F0F0F0 = 0.
Proof. apply count_1bits_iff. Qed.

Lemma count_1bits_correct_iff_witness :
  word 32 0xFFF ∧ (count_1bits 0xFFF = popcount 32 0xFFF ↔ Z.land 0xFFF 0xF0F0F0F0 = 0).
Proof. split; [vm_decide|apply (count_1bits_correct_iff 0xFFF); vm_decide]. Defined.
