(* ===== verification/IpbusWire.v ===== *)
(** * IpbusWire: the IPbus wire formats

    [xcompile/ipbus/Client.h]: the transaction header; [Client.cpp]: the
    conversions between a byte string and a deque of 32-bit words, and the
    endian swap of a deque.  A byte is a [Z] below 256.  The hosts are
    little-endian: a [uint32_t] read through a [char *] has its low byte
    first. *)

From S2P Require Import Prelude Words.

(** ** Transaction header *)

Record IPBusTxnHdr : Type := mk_hdr {
  protocol_version : Z;  (* uint8_t *)
  transaction_id : Z;    (* uint16_t *)
  words : Z;             (* uint8_t *)
  type_id : Z;           (* uint8_t *)
  info_code : Z          (* uint8_t *)
}.

Definition SUCCESS : Z := 0.
Definition BAD_HEADER : Z := 1.
Definition BUSERR_READ : Z := 4.
Definition BUSERR_WRITE : Z := 5.
Definition BUSTIMEOUT_READ : Z := 6.
Definition BUSTIMEOUT_WRITE : Z := 7.
Definition REQUEST : Z := 0xF.

(** The constructor [IPBusTxnHdr(uint32_t)]. *)
Definition parse_hdr (transaction_header : Z) : IPBusTxnHdr := {|
  protocol_version := w8 (Z.land (transaction_header ≫ 28) 0x0f);
  transaction_id := w16 (Z.land (transaction_header ≫ 16) 0x0fff);
  words := w8 (Z.land (transaction_header ≫ 8) 0xff);
  type_id := w8 (Z.land (transaction_header ≫ 4) 0x0f);
  info_code := w8 (Z.land (transaction_header ≫ 0) 0x0f)
|}.

Definition serialize (h : IPBusTxnHdr) : Z :=
  w32 (Z.lor (Z.lor (Z.lor (Z.lor
    (Z.land (protocol_version h) 0x0f ≪ 28)
    (Z.land (transaction_id h) 0x0fff ≪ 16))
    (Z.land (words h) 0xff ≪ 8))
    (Z.land (type_id h) 0x0f ≪ 4))
    (Z.land (info_code h) 0x0f ≪ 0)).

(** The assignment [transaction_header.info_code = c]. *)
Definition with_info (h : IPBusTxnHdr) (c : Z) : IPBusTxnHdr :=
  mk_hdr (protocol_version h) (transaction_id h) (words h) (type_id h) (w8 c).

(** Every field fits its place in the word. *)
Definition hdr_wf (h : IPBusTxnHdr) : Prop :=
  word 4 (protocol_version h) ∧ word 12 (transaction_id h) ∧ word 8 (words h) ∧
  word 4 (type_id h) ∧ word 4 (info_code h).

#[export] Instance hdr_wf_dec h : Decision (hdr_wf h).
Proof. unfold hdr_wf. apply _. Defined.

(** The fields by division, and the word by multiplication. *)
Lemma parse_hdr_div x :
  parse_hdr x = mk_hdr (x / 2 ^ 28 mod 2 ^ 4) (x / 2 ^ 16 mod 2 ^ 12) (x / 2 ^ 8 mod 2 ^ 8)
                       (x / 2 ^ 4 mod 2 ^ 4) (x mod 2 ^ 4).
Proof.
  unfold parse_hdr.
  rewrite !(land_ones_lit _ 4 0x0f), (land_ones_lit _ 12 0x0fff), (land_ones_lit _ 8 0xff)
    by (done || lia).
  rewrite !Z.shiftr_div_pow2, Z.pow_0_r, Z.div_1_r by lia.
  rewrite !(wrap_wrap_le _ 4), !(wrap_wrap_le _ 12), !wrap_wrap by lia. done.
Qed.

Lemma serialize_mul h :
  serialize h = w32 (wrap 4 (protocol_version h) * 2 ^ 28 + wrap 12 (transaction_id h) * 2 ^ 16
                + wrap 8 (words h) * 2 ^ 8 + wrap 4 (type_id h) * 2 ^ 4 + wrap 4 (info_code h)).
Proof.
  unfold serialize. f_equal.
  rewrite !(land_ones_lit _ 4 0x0f), (land_ones_lit _ 12 0x0fff), (land_ones_lit _ 8 0xff)
    by (done || lia).
  pose proof (wrap_word 4 (protocol_version h) ltac:(lia)). pose proof (wrap_word 12 (transaction_id h) ltac:(lia)).
  pose proof (wrap_word 8 (words h) ltac:(lia)). pose proof (wrap_word 4 (type_id h) ltac:(lia)).
  pose proof (wrap_word 4 (info_code h) ltac:(lia)). unfold word in *.
  rewrite <- !Z.lor_assoc.
  rewrite (Z.shiftl_0_r (wrap 4 (info_code h))).
  rewrite (lor_disjoint_add (wrap 4 (info_code h)) _ 4) by lia.
  rewrite (lor_disjoint_add (wrap 4 (type_id h) * 2 ^ 4 + _) _ 8) by lia.
  rewrite (lor_disjoint_add (wrap 8 (words h) * 2 ^ 8 + _) _ 16) by lia.
  rewrite (lor_disjoint_add (wrap 12 (transaction_id h) * 2 ^ 16 + _) _ 28) by lia.
  lia.
Qed.

Lemma serialize_parse_hdr x : word 32 x → serialize (parse_hdr x) = x.
Proof.
  intros Hx. rewrite serialize_mul, parse_hdr_div. cbn.
  unfold wrap, word in *. rewrite !Zmod_mod.
  change (2 ^ 4) with 16. change (2 ^ 8) with 256. change (2 ^ 12) with 4096.
  change (2 ^ 16) with 65536. change (2 ^ 28) with 268435456. change (2 ^ 32) with 4294967296 in *.
  Z.to_euclidean_division_equations. lia.
Qed.

Lemma parse_serialize_hdr h : hdr_wf h → parse_hdr (serialize h) = h.
Proof.
  intros (Hv & Hi & Hw & Ht & Hc). rewrite parse_hdr_div, serialize_mul.
  rewrite !(wrap_small 4), (wrap_small 8), (wrap_small 12) by done. destruct h as [v i w t c]; cbn in *. unfold wrap, word in *.
  change (2 ^ 4) with 16 in *. change (2 ^ 8) with 256 in *. change (2 ^ 12) with 4096 in *.
  change (2 ^ 16) with 65536 in *. change (2 ^ 28) with 268435456 in *.
  change (2 ^ 32) with 4294967296 in *.
  f_equal; Z.to_euclidean_division_equations; lia.
Qed.

Lemma serialize_word h : word 32 (serialize h).
Proof. apply wrap_word. lia. Qed.

Lemma parse_hdr_wf x : hdr_wf (parse_hdr x).
Proof.
  rewrite parse_hdr_div. unfold hdr_wf, word; cbn.
  split_and!; apply Z.mod_pos_bound; lia.
Qed.

#[export] Hint Resolve serialize_word parse_hdr_wf : words.

(** ** Byte strings and deques of words *)

(** The word whose bytes, first to last, are [b0 b1 b2 b3]. *)
Definition le32 (b0 b1 b2 b3 : Z) : Z := b3 * 2 ^ 24 + b2 * 2 ^ 16 + b1 * 2 ^ 8 + b0.

(** [str2vec]: a word is read at every offset 0, 4, 8, ... below the size.
    With one byte missing the read ends on the terminating NUL of
    [str.data()]; with two or three missing it ends past the array, [None]. *)
Fixpoint str2vec (str : list Z) : option (list Z) :=
  match str with
  | [] => Some []
  | [_] | [_; _] => None
  | [b0; b1; b2] => Some [le32 b0 b1 b2 0]
  | b0 :: b1 :: b2 :: b3 :: str => (le32 b0 b1 b2 b3 ::.) <$> str2vec str
  end.

(** [vec2str] *)
Definition bytes_of_word (v : Z) : list Z := [byte_at v 0; byte_at v 1; byte_at v 2; byte_at v 3].
Definition vec2str (vec : list Z) : list Z := vec ≫= bytes_of_word.

(** [endian_swap] *)
Definition endian_swap (vec : list Z) : list Z := bswap32 <$> vec.

Lemma le32_bytes v : word 32 v → le32 (byte_at v 0) (byte_at v 1) (byte_at v 2) (byte_at v 3) = v.
Proof. intros. symmetry. by apply word_bytes. Qed.

Lemma bytes_le32 b0 b1 b2 b3 : word 8 b0 → word 8 b1 → word 8 b2 → word 8 b3 →
  bytes_of_word (le32 b0 b1 b2 b3) = [b0; b1; b2; b3].
Proof. intros. unfold bytes_of_word, le32. f_equal; [|f_equal; [|f_equal; [|f_equal]]];
  by rewrite byte_at_sum by done. Qed.

Lemma le32_word b0 b1 b2 b3 : word 8 b0 → word 8 b1 → word 8 b2 → word 8 b3 →
  word 32 (le32 b0 b1 b2 b3).
Proof. unfold word, le32. lia. Qed.

Lemma vec2str_cons v vec : vec2str (v :: vec) = bytes_of_word v ++ vec2str vec.
Proof. done. Qed.

Lemma length_vec2str vec : length (vec2str vec) = (4 * length vec)%nat.
Proof. induction vec as [|v vec IH]; [done|].
  rewrite vec2str_cons, length_app, IH. cbn. lia. Qed.

Lemma vec2str_bytes vec : Forall (word 8) (vec2str vec).
Proof.
  induction vec as [|v vec IH]; [constructor|]. rewrite vec2str_cons.
  repeat (constructor; [apply byte_at_word|]). done.
Qed.

(** Reading back the bytes of a deque gives the deque. *)
Lemma take_vec2str k vec : take (4 * k) (vec2str vec) = vec2str (take k vec).
Proof.
  revert vec. induction k as [|k IH]; intros [|v vec]; [done..|by rewrite take_nil|]. rewrite vec2str_cons.
  replace (4 * S k)%nat with (length (bytes_of_word v) + 4 * k)%nat by (cbn; lia).
  by rewrite take_app_add, IH, firstn_cons, vec2str_cons.
Qed.

Lemma bytes_of_word_bytes v : Forall (word 8) (bytes_of_word v).
Proof. pose proof (vec2str_bytes [v]) as H. unfold vec2str in H. cbn [mbind list_bind] in H. by rewrite app_nil_r in H. Qed.

Lemma str2vec_vec2str vec : Forall (word 32) vec → str2vec (vec2str vec) = Some vec.
Proof.
  induction 1 as [|v vec Hv _ IH]; [done|].
  rewrite vec2str_cons. cbn - [le32 vec2str]. rewrite IH. cbn - [le32]. by rewrite le32_bytes.
Qed.

(** Induction on a byte string four bytes at a time. *)
Lemma bytes_ind (P : list Z → Prop) :
  P [] → (∀ a, P [a]) → (∀ a b, P [a; b]) → (∀ a b c, P [a; b; c]) →
  (∀ a b c d l, P l → P (a :: b :: c :: d :: l)) → ∀ l, P l.
Proof.
  intros H0 H1 H2 H3 H4. fix IH 1. intros l.
  refine (match l with [] => H0 | [a] => H1 a | [a; b] => H2 a b | [a; b; c] => H3 a b c
          | a :: b :: c :: d :: l => H4 a b c d l (IH l) end).
Qed.

Lemma str2vec_cons4 a b c d str :
  str2vec (a :: b :: c :: d :: str) = (le32 a b c d ::.) <$> str2vec str.
Proof. done. Qed.

Lemma str2vec_words str vec : Forall (word 8) str → str2vec str = Some vec → Forall (word 32) vec.
Proof.
  revert vec. induction str as [|a|a b|a b c|a b c d str IH] using bytes_ind;
    intros vec Hs; rewrite ?str2vec_cons4; [cbn; intros [= <-]; constructor|done|done|..].
  - intros [= <-]. decompose_Forall_hyps. constructor; [|constructor].
    apply le32_word; [done..|vm_decide].
  - intros (v & Ev & ->)%fmap_Some. decompose_Forall_hyps. constructor; [by apply le32_word|auto].
Qed.

(** Rendering the deque of a string gives the string, when its size is a
    multiple of four. *)
Lemma vec2str_str2vec str vec : Forall (word 8) str → Nat.divide 4 (length str) →
  str2vec str = Some vec → vec2str vec = str.
Proof.
  revert vec. induction str as [|a|a b|a b c|a b c d str IH] using bytes_ind;
    intros vec Hs [q Hq]; rewrite ?str2vec_cons4;
    [cbn; by intros [= <-]|done|done|cbn [length] in Hq; lia|].
  intros (v & Ev & ->)%fmap_Some. decompose_Forall_hyps.
  change (bytes_of_word (le32 a b c d) ++ vec2str v = a :: b :: c :: d :: str).
  rewrite bytes_le32 by done. cbn [app]. do 4 f_equal.
  apply IH; [done|exists (q - 1)%nat; cbn [length] in Hq; lia|done].
Qed.

Lemma str2vec_total str : Nat.divide 4 (length str) → ∃ vec, str2vec str = Some vec.
Proof.
  induction str as [|a|a b|a b c|a b c d str IH] using bytes_ind; intros [q Hq];
    [by eexists|cbn [length] in Hq; lia..|].
  destruct IH as [vec E]; [exists (q - 1)%nat; cbn [length] in Hq; lia|].
  rewrite str2vec_cons4, E. by eexists.
Qed.

Lemma endian_swap_involutive vec : Forall (word 32) vec → endian_swap (endian_swap vec) = vec.
Proof.
  induction 1 as [|v vec Hv _ IH]; [done|]. unfold endian_swap in *. cbn.
  by rewrite bswap32_involutive, IH.
Qed.

Lemma endian_swap_words vec : Forall (word 32) (endian_swap vec).
Proof. apply Forall_fmap, Forall_true. intros. apply bswap32_word. Qed.

#[export] Hint Resolve endian_swap_words : words.

(** C21: The wire formats lose nothing: a header is recovered from its word and a
    word from its header; words sent as bytes come back, bytes in fours that
    are read as words are sent back as they were, and a second change of byte
    order undoes the first. *)
Theorem wire_roundtrip h x vec str : hdr_wf h → word 32 x → Forall (word 32) vec →
  Forall (word 8) str → Nat.divide 4 (length str) →
  parse_hdr (serialize h) = h ∧ serialize (parse_hdr x) = x ∧
  str2vec (vec2str vec) = Some vec ∧ endian_swap (endian_swap vec) = vec ∧
  ∃ v, str2vec str = Some v ∧ vec2str v = str.
Proof.
  intros Hh Hx Hv Hs Hd. split_and!; auto using parse_serialize_hdr, serialize_parse_hdr,
    str2vec_vec2str, endian_swap_involutive.
  destruct (str2vec_total str Hd) as [v E]. exists v. eauto using vec2str_str2vec.
Qed.

Lemma wire_roundtrip_witness :
  parse_hdr (serialize (mk_hdr 2 5 1 3 0)) = mk_hdr 2 5 1 3 0 ∧ serialize (parse_hdr 0x200005ff) = 0x200005ff ∧
  str2vec (vec2str [0xdeadbeef]) = Some [0xdeadbeef] ∧ endian_swap (endian_swap [0xdeadbeef]) = [0xdeadbeef] ∧
  ∃ v, str2vec [1; 2; 3; 255] = Some v ∧ vec2str v = [1; 2; 3; 255].
Proof.
  apply wire_roundtrip.
  - vm_decide.
  - vm_decide.
  - vm_decide.
  - vm_decide.
  - by exists 1%nat.
Defined.
