(* ===== verification/MemBus.v ===== *)
(** * MemBus: what the clients of the memory hub rely on

    [xcompile/memhub/memhub.h] declares the three functions every client of
    the hub calls.  [MemBus] is that interface; [RegisterBus] is what it
    promises of plain read/write registers: a one-word read returns the
    register and changes none, a one-word write changes that register only,
    and an access to an address that is not mapped, or not writeable, reports
    an error and changes none.  The IPbus daemon is verified against these
    two classes; the model of [libmemsvc] discharges them. *)

From S2P Require Import Prelude.

Class MemBus (B : Type) : Type := {
  (** the value returned *)
  memhub_open : Fn B Z;
  (** the value returned and what was stored in [data] *)
  memhub_read (addr words : Z) : Fn B (Z * list Z);
  (** the value returned *)
  memhub_write (addr words : Z) (data : list Z) : Fn B Z
}.

Class RegisterBus (B : Type) `{MemBus B} : Type := {
  bus_ok : B → Prop;
  reg : B → Z → option Z;
  writeable : B → Z → bool;
  reg_word b a v : bus_ok b → reg b a = Some v → word 32 v;
  read_reg b a v : bus_ok b → reg b a = Some v → ∃ b',
    memhub_read a 1 b = (Next (0, [v]), b') ∧ bus_ok b' ∧
    (∀ c, reg b' c = reg b c) ∧ (∀ c, writeable b' c = writeable b c);
  read_unmapped b a : bus_ok b → reg b a = None → ∃ rc data b',
    memhub_read a 1 b = (Next (rc, data), b') ∧ rc ≠ 0 ∧ bus_ok b' ∧
    (∀ c, reg b' c = reg b c) ∧ (∀ c, writeable b' c = writeable b c);
  write_reg b a v w : bus_ok b → reg b a = Some v → writeable b a = true → word 32 w → ∃ b',
    memhub_write a 1 [w] b = (Next 0, b') ∧ bus_ok b' ∧
    (∀ c, reg b' c = if decide (c = a) then Some w else reg b c) ∧
    (∀ c, writeable b' c = writeable b c);
  write_refused b a w : bus_ok b → reg b a = None ∨ writeable b a = false → word 32 w → ∃ rc b',
    memhub_write a 1 [w] b = (Next rc, b') ∧ rc ≠ 0 ∧ bus_ok b' ∧
    (∀ c, reg b' c = reg b c) ∧ (∀ c, writeable b' c = writeable b c)
}.

(** ** The simplest bus: a finite map of registers, all writeable.
    A multi-word access touches consecutive words. *)
Module Ram.
Abbreviation ram := (gmap Z Z).

Fixpoint read_words (n : nat) (a : Z) (m : ram) : option (list Z) :=
  match n with
  | O => Some []
  | S n => v ← m !! a; l ← read_words n (a + 4) m; Some (v :: l)
  end.

Fixpoint write_words (a : Z) (l : list Z) (m : ram) : option ram :=
  match l with
  | [] => Some m
  | v :: l => _ ← m !! a; write_words (a + 4) l (<[a := w32 v]> m)
  end.

Lemma read_words_1 a m : read_words (Z.to_nat 1) a m = (λ v, [v]) <$> m !! a.
Proof. change (Z.to_nat 1) with 1%nat. cbn. by destruct (m !! a). Qed.

Lemma write_words_1 a v m :
  write_words a (take (Z.to_nat 1) [v]) m = (λ _, <[a := w32 v]> m) <$> m !! a.
Proof. change (Z.to_nat 1) with 1%nat. cbn. by destruct (m !! a). Qed.

#[export] Instance ram_bus : MemBus ram := {
  memhub_open := λ m, (Next 0, m);
  memhub_read addr words := λ m,
    (Next (match read_words (Z.to_nat words) addr m with
           | Some l => (0, w32 <$> l) | None => (-1, []) end), m);
  memhub_write addr words data := λ m,
    match write_words addr (take (Z.to_nat words) data) m with
    | Some m' => (Next 0, m')
    | None => (Next (-1), m)
    end
}.

#[export] Program Instance ram_registers : RegisterBus ram := {
  bus_ok _ := True;
  reg m a := w32 <$> m !! a;
  writeable _ _ := true
}.
Next Obligation.
  intros m a v _ (x & _ & ->)%fmap_Some. apply wrap_word. lia.
Qed.
Next Obligation.
  intros m a v _ (x & Hx & ->)%fmap_Some. exists m. cbn - [read_words Z.to_nat].
  by rewrite read_words_1, Hx.
Qed.
Next Obligation.
  intros m a _ Hx%fmap_None. exists (-1), [], m. cbn - [read_words Z.to_nat].
  rewrite read_words_1, Hx. by split_and!.
Qed.
Next Obligation.
  intros m a v w _ (x & Hx & _)%fmap_Some _ Hw. cbn - [write_words Z.to_nat take].
  rewrite write_words_1, Hx. cbn. eexists. split_and!; [done|done| |done].
  intros c. rewrite lookup_insert. repeat case_decide; subst; try done.
  cbn. by rewrite wrap_wrap, wrap_small.
Qed.
Next Obligation.
  intros m a w _ [Hx%fmap_None|]; [|done]. cbn - [write_words Z.to_nat take].
  rewrite write_words_1, Hx. intros _. exists (-1), m. by split_and!.
Qed.
End Ram.
