(* ===== verification/RpcMsg.v ===== *)
(** * RpcMsg: the RPC library the client code is written against

    [include/xhal/rpc/wiscRPCMsg.h] and [wiscrpcsvc.h] declare a library whose
    code is not in the repository.  [RpcLib] is what the client calls, [RpcLaws]
    what it relies on: a message is a finite map from keys to values.  The rest
    of the file is the idioms every RPC function repeats: the static [req] and
    [rsp] of its file, [STANDARD_CATCH], [ASSERT], and the caller's memory. *)

From Stdlib Require Export Ascii.
From S2P Require Import Prelude.

#[global] Open Scope string_scope.
#[global] Open Scope Z_scope.

(** ** The library *)

(** Why a call of the library does not return. *)
Inductive lib_error : Type :=
| BadKey (key : string)
| WrongType
| BufferTooSmall
| CorruptMessage (reason : string)
| OtherRPC (message : string)          (* RPCException itself *)
| NotConnected (message : string)
| ConnectionFailed (message : string)
| RPCError (message : string).

Inductive result (A : Type) : Type :=
| Ok (a : A)
| Err (e : lib_error).
Arguments Ok {A} a.
Arguments Err {A} e.

(** What a key of a message holds. *)
Inductive value : Type :=
| VWord (w : Z)
| VWords (l : list Z)
| VString (s : string)
| VStrings (l : list string)
| VBinary (l : list Z).

(** The characters of [RPCMsg::key_characters]. *)
Definition key_characters : string :=
  "ABCDEFGHIJKLMNOPQRSTUVWXYZabcdefghijklmnopqrstuvwxyz0123456789._".

Definition key_char (c : ascii) : bool := bool_decide (c ∈ String.list_ascii_of_string key_characters).
Fixpoint key_chars (s : string) : bool :=
  match s with EmptyString => true | String c s => key_char c && key_chars s end.
Definition key_ok (s : string) : bool := negb (bool_decide (s = EmptyString)) && key_chars s.

Class RpcLib : Type := {
  msg : Type;
  svc : Type;
  RPCMsg : string → msg;
  msg_get_key_exists : string → msg → bool;
  msg_get_word : string → msg → result Z;
  msg_set_word : string → Z → msg → result msg;
  msg_get_string : string → msg → result string;
  msg_set_string : string → string → msg → result msg;
  msg_set_string_array : string → list string → msg → result msg;
  msg_get_word_array_size : string → msg → result Z;
  msg_get_word_array : string → msg → result (list Z);
  (* the [int] count and the words the pointer designates *)
  msg_set_word_array : string → Z → list Z → msg → result msg;
  msg_set_binarydata : string → list Z → msg → result msg;
  svc_init : svc;
  svc_connect : string → svc → result unit * svc;
  svc_disconnect : svc → result unit * svc;
  svc_load_module : string → string → svc → result bool * svc;
  svc_call_method : msg → svc → result msg * svc
}.

Class RpcLaws `{RpcLib} : Type := {
  method : msg → string;
  contents : msg → gmap string value;
  method_new name : method (RPCMsg name) = name;
  contents_new name : contents (RPCMsg name) = ∅;
  key_exists_contents k m : msg_get_key_exists k m = bool_decide (is_Some (contents m !! k));
  get_word_contents k m w : contents m !! k = Some (VWord w) → msg_get_word k m = Ok w;
  get_string_contents k m s : contents m !! k = Some (VString s) → msg_get_string k m = Ok s;
  get_word_array_size_contents k m l : contents m !! k = Some (VWords l) →
    msg_get_word_array_size k m = Ok (Z.of_nat (length l));
  get_word_array_contents k m l : contents m !! k = Some (VWords l) → msg_get_word_array k m = Ok l;
  set_word_contents k w m : key_ok k = true → ∃ m', msg_set_word k w m = Ok m' ∧
    method m' = method m ∧ contents m' = <[k := VWord w]> (contents m);
  set_string_contents k s m : key_ok k = true → ∃ m', msg_set_string k s m = Ok m' ∧
    method m' = method m ∧ contents m' = <[k := VString s]> (contents m);
  set_string_array_contents k l m : key_ok k = true → ∃ m', msg_set_string_array k l m = Ok m' ∧
    method m' = method m ∧ contents m' = <[k := VStrings l]> (contents m);
  set_word_array_contents k l m : key_ok k = true →
    ∃ m', msg_set_word_array k (Z.of_nat (length l)) l m = Ok m' ∧
    method m' = method m ∧ contents m' = <[k := VWords l]> (contents m);
  set_binarydata_contents k l m : key_ok k = true → ∃ m', msg_set_binarydata k l m = Ok m' ∧
    method m' = method m ∧ contents m' = <[k := VBinary l]> (contents m)
}.

(** ** The exceptions the library raises

    Throwing starts by running the exception's constructor; that of
    [BadKeyException] ([wiscRPCMsg.h]) calls [abort]. *)
Definition raise {R A} (e : lib_error) : flow R A :=
  match e with
  | BadKey _ => Halt HAbort
  | WrongType => Throw TypeException
  | BufferTooSmall => Throw BufferTooSmallException
  | CorruptMessage r => Throw (CorruptMessageException r)
  | OtherRPC m => Throw (RPCException m)
  | NotConnected m => Throw (NotConnectedException m)
  | ConnectionFailed m => Throw (ConnectionFailedException m)
  | RPCError m => Throw (RPCErrorException m)
  end.

(** The exceptions derived from [RPCException], itself included. *)
Definition is_RPCException (e : exn) : bool :=
  match e with
  | RPCException _ | NotConnectedException _ | ConnectionFailedException _ | RPCErrorException _ => true
  | _ => false
  end.

(** ** The memory of the caller

    Words by word address; a cell that is not in the map is not the caller's. *)
Notation heap := (gmap Z Z).

Fixpoint store (p : Z) (l : list Z) (h : heap) : option heap :=
  match l with
  | [] => Some h
  | x :: l => match h !! p with None => None | Some _ => store (p + 1) l (<[p := x]> h) end
  end.

Fixpoint load (p : Z) (n : nat) (h : heap) : option (list Z) :=
  match n with
  | O => Some []
  | S n => x ← h !! p; l ← load (p + 1) n h; Some (x :: l)
  end.

(** [n] words are the caller's from [p] on. *)
Definition allocated (p : Z) (n : nat) (h : heap) : Prop := ∀ i, p ≤ i < p + Z.of_nat n → is_Some (h !! i).

Section Heap.
Implicit Types h : heap.

Lemma allocated_S p n h : allocated p (S n) h ↔ is_Some (h !! p) ∧ allocated (p + 1) n h.
Proof.
  split.
  - intros H. split; [apply H; lia|]. intros i Hi. apply H. lia.
  - intros [H0 H] i Hi. destruct (decide (i = p)) as [->|]; [done|]. apply H. lia.
Qed.

Lemma allocated_insert p n h i x : allocated p n h → allocated p n (<[i := x]> h).
Proof.
  intros H j Hj. destruct (decide (i = j)) as [->|]; [by rewrite lookup_insert_eq|].
  rewrite lookup_insert_ne by done. by apply H.
Qed.

(** The cells a store leaves: those of the list, and the others as they
    were. *)
Lemma store_allocated p l h : allocated p (length l) h → ∃ h', store p l h = Some h' ∧
  ∀ i, h' !! i = if decide (p ≤ i < p + Z.of_nat (length l)) then l !! Z.to_nat (i - p) else h !! i.
Proof.
  revert p h. induction l as [|x l IH]; intros p h Ha.
  { exists h. split; [done|]. intros i. rewrite decide_False by (cbn; lia). done. }
  cbn [length] in Ha. apply allocated_S in Ha as [[y Hy] Ha]. cbn [store]. rewrite Hy.
  destruct (IH (p + 1) (<[p := x]> h)) as (h' & Hs & Hl); [by apply allocated_insert|].
  exists h'. split; [done|]. intros i. rewrite Hl. cbn [length].
  destruct (decide (i = p)) as [->|Hne].
  { rewrite decide_False, decide_True by lia. rewrite lookup_insert_eq. by rewrite Z.sub_diag. }
  rewrite lookup_insert_ne by done.
  destruct (decide (p + 1 ≤ i < p + 1 + Z.of_nat (length l))).
  - rewrite decide_True by lia. replace (Z.to_nat (i - p)) with (S (Z.to_nat (i - (p + 1)))) by lia. done.
  - rewrite decide_False by lia. done.
Qed.

Lemma store_allocated_inv p l h h' : store p l h = Some h' → allocated p (length l) h.
Proof.
  revert p h. induction l as [|x l IH]; intros p h; cbn [store length]; [intros _ i Hi; lia|].
  destruct (h !! p) as [y|] eqn:E; [|done]. intros Hs%IH. apply allocated_S. split; [by rewrite E|].
  intros i Hi. specialize (Hs i Hi). by rewrite lookup_insert_ne in Hs by lia.
Qed.

Lemma load_allocated p n h : allocated p n h → ∃ l, load p n h = Some l ∧ length l = n ∧
  ∀ i, p ≤ i < p + Z.of_nat n → h !! i = l !! Z.to_nat (i - p).
Proof.
  revert p. induction n as [|n IH]; intros p Ha.
  { exists []. split_and!; [done..|]. lia. }
  apply allocated_S in Ha as [[x Hx] Ha]. destruct (IH _ Ha) as (l & Hl & Hlen & Hi).
  exists (x :: l). cbn [load]. rewrite Hx. cbn. rewrite Hl. cbn. split_and!; [done|lia|].
  intros i Hr. destruct (decide (i = p)) as [->|]; [by rewrite Z.sub_diag|].
  rewrite Hi by lia. replace (Z.to_nat (i - p)) with (S (Z.to_nat (i - (p + 1)))) by lia. done.
Qed.

Lemma load_length p n h l : load p n h = Some l → length l = n.
Proof.
  revert p l. induction n as [|n IH]; intros p l; cbn [load]; [by intros [= <-]|].
  destruct (h !! p) as [x|]; cbn; [|done]. destruct (load (p + 1) n h) as [l'|] eqn:E; cbn; [|done].
  intros [= <-]. cbn. f_equal. by eapply IH.
Qed.
End Heap.

(** ** The statements of an RPC function

    Every source file has its own static [req] and [rsp]; [getRPCptr] gives all
    of them the one connection of [utils.cc].  [Mem] is the memory the caller's
    pointers designate. *)
Section Rpc.
Context {L : RpcLib} {Mem : Type}.

Record rstate : Type := mk_rstate { rpc : svc; req : msg; rsp : msg; mem : Mem }.

Definition with_req (m : msg) (s : rstate) : rstate := mk_rstate (rpc s) m (rsp s) (mem s).
Definition with_mem (h : Mem) (s : rstate) : rstate := mk_rstate (rpc s) (req s) (rsp s) h.

Section Statements.
Context {R : Type}.

Definition of_result {A} (x : result A) : M rstate R A :=
  match x with Ok a => mret a | Err e => λ s, (raise e, s) end.

Definition set_req (f : msg → result msg) : M rstate R unit :=
  m ← gets req; m' ← of_result (f m); modify (with_req m').

(** [req = wisc::RPCMsg(name)] and the setters *)
Definition new_req (name : string) : M rstate R unit := modify (with_req (RPCMsg name)).
Definition set_word (k : string) (w : Z) : M rstate R unit := set_req (msg_set_word k w).
Definition set_string (k s : string) : M rstate R unit := set_req (msg_set_string k s).
Definition set_string_array (k : string) (l : list string) : M rstate R unit :=
  set_req (msg_set_string_array k l).
Definition set_binarydata (k : string) (l : list Z) : M rstate R unit := set_req (msg_set_binarydata k l).

(** [rsp = rpc_loc->call_method(req)] *)
Definition call_method : M rstate R unit := λ s,
  match svc_call_method (req s) (rpc s) with
  | (Ok x, v) => (Next tt, mk_rstate v (req s) x (mem s))
  | (Err e, v) => (raise e, mk_rstate v (req s) (rsp s) (mem s))
  end.

Definition get_key_exists (k : string) : M rstate R bool := gets (λ s, msg_get_key_exists k (rsp s)).
Definition get_word (k : string) : M rstate R Z := m ← gets rsp; of_result (msg_get_word k m).
Definition get_string (k : string) : M rstate R string := m ← gets rsp; of_result (msg_get_string k m).
Definition get_word_array_size (k : string) : M rstate R Z :=
  m ← gets rsp; of_result (msg_get_word_array_size k m).
Definition get_words (k : string) : M rstate R (list Z) := m ← gets rsp; of_result (msg_get_word_array k m).
End Statements.

(** [catch ... ] of [STANDARD_CATCH] ([utils.h]) *)
Definition STANDARD_CATCH {A} (e : exn) : M rstate Z A :=
  match e with
  | NotConnectedException _ => ret 1
  | RPCErrorException _ => ret 1
  | RPCException _ | ConnectionFailedException _ => ret 1
  | BadKeyException _ => ret 0xdeaddead
  | _ => throw e
  end.

(** [ASSERT] ([utils.h]) *)
Definition ASSERT (x : bool) : M rstate Z unit := when (negb x) (ret 1).

(** [if (rsp.get_key_exists("error")) { printf(..., rsp.get_string("error")); return c; }] *)
Definition return_if_error (c : Z) : M rstate Z unit :=
  e ← get_key_exists "error";
  when e (get_string "error" ;; ret c).
End Rpc.
Arguments rstate {L} Mem.

Definition bool_word (b : bool) : Z := if b then 1 else 0.

Section RpcHeap.
Context {L : RpcLib}.

(** [req.set_word_array(k, p, count)], the count converted to [int] *)
Definition set_word_array (k : string) (p count : Z) : M (rstate heap) Z unit :=
  h ← gets mem;
  match load p (Z.to_nat count) h with
  | None => undef OutOfBounds
  | Some l => set_req (msg_set_word_array k count l)
  end.

(** [rsp.get_word_array(k, p)] *)
Definition get_word_array (k : string) (p : Z) : M (rstate heap) Z unit :=
  l ← get_words k;
  h ← gets mem;
  match store p l h with
  | None => undef OutOfBounds
  | Some h' => modify (with_mem h')
  end.

(** [*p = w] *)
Definition write_cell (p w : Z) : M (rstate heap) Z unit :=
  h ← gets mem;
  match store p [w] h with
  | None => undef OutOfBounds
  | Some h' => modify (with_mem h')
  end.

(** [if (rsp.get_key_exists(k)) { ASSERT(rsp.get_word_array_size(k) == size);
    rsp.get_word_array(k, p); } else { printf(...); return 1; }] *)
Definition read_array (k : string) (size p : Z) : M (rstate heap) Z unit :=
  e ← get_key_exists k;
  if (e : bool) then
    n ← get_word_array_size k;
    ASSERT (n =? size) ;;
    get_word_array k p
  else ret 1.
End RpcHeap.

(** ** What an RPC function promises *)

(** The fields of a request, in the order they are set. *)
Definition fields_of (l : list (string * value)) : gmap string value :=
  foldl (λ f kv, <[kv.1 := kv.2]> f) ∅ l.

(** What a function returns when [call_method] raised [e] under
    [STANDARD_CATCH]. *)
Definition caught {R} (one : flow R Z) (e : lib_error) : flow R Z :=
  match e with
  | OtherRPC _ | NotConnected _ | ConnectionFailed _ | RPCError _ => one
  | _ => raise e
  end.

Section Contracts.
Context {L : RpcLib} {LL : RpcLaws}.

Definition has_error (x : msg) : bool := bool_decide (is_Some (contents x !! "error")).

(** The response's [error], when there is one, is a string. *)
Definition error_ok (x : msg) : Prop :=
  match contents x !! "error" with None | Some (VString _) => True | _ => False end.

(** The function sends one message, [name] with [fields]; when the call
    fails it ends with [fail], and otherwise it goes on as [K] from the state
    with the response in [rsp]. *)
Definition sends_with {Mem R A} (fail : lib_error → flow R A) (P : M (rstate Mem) R A) (s : rstate Mem)
    (name : string) (fields : gmap string value) (K : M (rstate Mem) R A) : Prop :=
  ∃ m, method m = name ∧ contents m = fields ∧ ∀ r v, svc_call_method m (rpc s) = (r, v) →
    P s = match r with
          | Ok x => K (mk_rstate v m x (mem s))
          | Err e => (fail e, mk_rstate v m (rsp s) (mem s))
          end.

(** With [STANDARD_CATCH] of [utils.h]: 1 on a failed call (or the exception
    let through). *)
Definition sends {Mem} := @sends_with Mem Z Z (caught (Return 1)).

(** A command: 1 when the call fails or the response has an error, 0
    otherwise; the caller's memory is never touched. *)
Definition implements_command {Mem} (F : Fn (rstate Mem) Z) (s : rstate Mem) (name : string)
    (fields : list (string * value)) (failure : Z) : Prop :=
  ∃ m : msg, method m = name ∧ contents m = fields_of fields ∧ ∀ r v, svc_call_method m (rpc s) = (r, v) →
    match r with
    | Err e => F s = (caught (Next 1) e, mk_rstate v m (rsp s) (mem s))
    | Ok x => error_ok x → F s = (Next (if has_error x then failure else 0), mk_rstate v m x (mem s))
    end.

(** The arrays a response must hold, with their lengths and where they go. *)
Definition array_or_absent (x : msg) (k : string) : Prop :=
  match contents x !! k with None | Some (VWords _) => True | _ => False end.

Fixpoint reads (l : list (string * Z * Z)) (x : msg) (h : heap) : flow Empty_set Z * heap :=
  match l with
  | [] => (Next 0, h)
  | (k, size, p) :: l =>
      match contents x !! k with
      | Some (VWords ws) =>
          if Z.of_nat (length ws) =? size then
            match store p ws h with
            | Some h' => reads l x h'
            | None => (Undef OutOfBounds, h)
            end
          else (Next 1, h)
      | _ => (Next 1, h)
      end
  end.

Definition implements_reads (F : Fn (rstate heap) Z) (s : rstate heap) (name : string)
    (fields : list (string * value)) (arrays : list (string * Z * Z)) : Prop :=
  ∃ m : msg, method m = name ∧ contents m = fields_of fields ∧ ∀ r v, svc_call_method m (rpc s) = (r, v) →
    match r with
    | Err e => F s = (caught (Next 1) e, mk_rstate v m (rsp s) (mem s))
    | Ok x =>
        error_ok x → Forall (λ a : string * Z * Z, array_or_absent x a.1.1) arrays →
        F s = (if has_error x then (Next 1, mk_rstate v m x (mem s))
               else ((reads arrays x (mem s)).1, mk_rstate v m x (reads arrays x (mem s)).2))
    end.

(** *** Building the request *)
Section Build.
Context {Mem R A : Type} (fail : lib_error → flow R A).
Implicit Types (s : rstate Mem) (P K : M (rstate Mem) R A).

Lemma sends_set_req f g P s name fields K :
  (∃ m', f (req s) = Ok m' ∧ method m' = method (req s) ∧ contents m' = g (contents (req s))) →
  (∀ m, method m = method (req s) → contents m = g (contents (req s)) →
        sends_with fail P (with_req m s) name fields K) →
  sends_with fail (set_req f ;; P) s name fields K.
Proof.
  intros (m & Hf & Hm & Hc) HP. destruct (HP m Hm Hc) as (m' & ? & ? & Hr). exists m'.
  split_and!; [done..|]. intros r v Hcall. specialize (Hr r v Hcall).
  erewrite bind_next; [exact Hr|]. unfold set_req. erewrite bind_next by reflexivity. cbn beta.
  rewrite Hf. reflexivity.
Qed.

Lemma sends_new_req n P s name fields K :
  (∀ m, method m = n → contents m = ∅ → sends_with fail P (with_req m s) name fields K) →
  sends_with fail (new_req n ;; P) s name fields K.
Proof. intros HP. apply (HP (RPCMsg n)); [apply method_new|apply contents_new]. Qed.

Lemma sends_set_word k w P s name fields K : key_ok k = true →
  (∀ m, method m = method (req s) → contents m = <[k := VWord w]> (contents (req s)) →
        sends_with fail P (with_req m s) name fields K) →
  sends_with fail (set_word k w ;; P) s name fields K.
Proof. intros Hk. apply sends_set_req. by apply set_word_contents. Qed.

Lemma sends_set_string k w P s name fields K : key_ok k = true →
  (∀ m, method m = method (req s) → contents m = <[k := VString w]> (contents (req s)) →
        sends_with fail P (with_req m s) name fields K) →
  sends_with fail (set_string k w ;; P) s name fields K.
Proof. intros Hk. apply sends_set_req. by apply set_string_contents. Qed.

Lemma sends_set_string_array k l P s name fields K : key_ok k = true →
  (∀ m, method m = method (req s) → contents m = <[k := VStrings l]> (contents (req s)) →
        sends_with fail P (with_req m s) name fields K) →
  sends_with fail (set_string_array k l ;; P) s name fields K.
Proof. intros Hk. apply sends_set_req. by apply set_string_array_contents. Qed.

Lemma sends_set_binarydata k l P s name fields K : key_ok k = true →
  (∀ m, method m = method (req s) → contents m = <[k := VBinary l]> (contents (req s)) →
        sends_with fail P (with_req m s) name fields K) →
  sends_with fail (set_binarydata k l ;; P) s name fields K.
Proof. intros Hk. apply sends_set_req. by apply set_binarydata_contents. Qed.

Lemma sends_assoc (a b : M (rstate Mem) R unit) P s name fields K :
  sends_with fail (a ;; (b ;; P)) s name fields K → sends_with fail ((a ;; b) ;; P) s name fields K.
Proof.
  intros (m & ? & ? & Hr). exists m. split_and!; [done..|]. intros r v Hc.
  rewrite <- (Hr r v Hc). apply bind_bind.
Qed.

(** A statement of the prefix that does nothing. *)
Lemma sends_skip P s name fields K :
  sends_with fail P s name fields K → sends_with fail (skip ;; P) s name fields K.
Proof. done. Qed.

Lemma sends_ext P s name fields K K' : (∀ t, K t = K' t) →
  sends_with fail P s name fields K → sends_with fail P s name fields K'.
Proof.
  intros HK (m & ? & ? & Hr). exists m. split_and!; [done..|]. intros r v Hc.
  rewrite (Hr r v Hc). by destruct r.
Qed.

End Build.

Section After.
Context {Mem : Type}.
Implicit Types (s : rstate Mem) (P K : M (rstate Mem) Z Z).

Lemma sends_call K s name fields :
  method (req s) = name → contents (req s) = fields →
  sends (try_catch call_method STANDARD_CATCH ;; K) s name fields K.
Proof.
  intros Hm Hc. exists (req s). split_and!; [done..|]. intros r v Hcall.
  unfold mbind, M_bind, try_catch, call_method. rewrite Hcall.
  by destruct r as [x|[]].
Qed.

(** *** After the call *)
Lemma return_if_error_none c s : has_error (rsp s) = false →
  return_if_error c s = (Next tt, s).
Proof.
  intros He. unfold return_if_error. erewrite bind_next by reflexivity. cbn beta.
  rewrite key_exists_contents. unfold has_error in He. by rewrite He.
Qed.

Lemma return_if_error_some c s : error_ok (rsp s) → has_error (rsp s) = true →
  return_if_error c s = (Return c, s).
Proof.
  intros Hok He. unfold return_if_error. erewrite bind_next by reflexivity. cbn beta.
  rewrite key_exists_contents. unfold has_error in He. rewrite He. unfold error_ok in Hok.
  apply bool_decide_eq_true in He as [y Hy]. rewrite Hy in Hok.
  destruct y as [| |e| |]; try done. cbn [when]. unfold get_string. rewrite bind_bind.
  erewrite bind_next by reflexivity. cbn beta. by erewrite get_string_contents.
Qed.

Lemma implements_commandI P s name fields c :
  sends P s name (fields_of fields) (return_if_error c ;; mret 0) →
  implements_command (fn P) s name fields c.
Proof.
  intros (m & ? & ? & Hr). exists m. split_and!; [done..|]. intros r v Hc.
  specialize (Hr r v Hc). unfold fn. destruct r as [x|e].
  - intros Hok. rewrite Hr. destruct (has_error x) eqn:He.
    + by erewrite bind_return by (by apply return_if_error_some).
    + by erewrite bind_next by (by apply return_if_error_none).
  - rewrite Hr. by destruct e.
Qed.

(** The same for a function that returns without looking at the text of
    the error. *)
Definition return_if_error' (c : Z) : M (rstate Mem) Z unit :=
  e ← get_key_exists "error"; when e (ret c).

Lemma implements_commandI' P s name fields c :
  sends P s name (fields_of fields) (return_if_error' c ;; mret 0) →
  implements_command (fn P) s name fields c.
Proof.
  intros (m & ? & ? & Hr). exists m. split_and!; [done..|]. intros r v Hc.
  specialize (Hr r v Hc). unfold fn. destruct r as [x|e].
  - intros Hok. rewrite Hr. unfold return_if_error'. rewrite bind_bind.
    erewrite bind_next by reflexivity. cbn [rsp]. rewrite key_exists_contents. fold (has_error x).
    by destruct (has_error x).
  - rewrite Hr. by destruct e.
Qed.
End After.

Lemma sends_set_word_array k p n l (P : M (rstate heap) Z Z) s name fields K : key_ok k = true →
  0 ≤ n → load p (Z.to_nat n) (mem s) = Some l →
  (∀ m, method m = method (req s) → contents m = <[k := VWords l]> (contents (req s)) →
        sends P (with_req m s) name fields K) →
  sends (set_word_array k p n ;; P) s name fields K.
Proof.
  intros Hk Hn Hl HP.
  assert (sends (set_req (msg_set_word_array k n l) ;; P) s name fields K) as (m & ? & ? & Hr).
  { apply (sends_set_req _ _ (λ c, <[k := VWords l]> c)); [|done].
    pose proof (set_word_array_contents k l (req s) Hk) as Hs.
    by rewrite (load_length _ _ _ _ Hl), Z2Nat.id in Hs. }
  exists m. split_and!; [done..|]. intros r v Hc. rewrite <- (Hr r v Hc).
  unfold set_word_array. rewrite bind_bind. erewrite bind_next by reflexivity. cbn beta. by rewrite Hl.
Qed.

(** *** Reading the arrays *)
Definition read_arrays (l : list (string * Z * Z)) : M (rstate heap) Z Z :=
  foldr (λ a k, read_array a.1.1 a.1.2 a.2 ;; k) (mret 0) l.

Lemma read_arrays_reads l s : Forall (λ a : string * Z * Z, array_or_absent (rsp s) a.1.1) l →
  fn (read_arrays l) s = ((reads l (rsp s) (mem s)).1, with_mem (reads l (rsp s) (mem s)).2 s).
Proof.
  unfold fn. revert s. induction l as [|[[k n] p] l IH]; intros s Hl; [by destruct s|].
  apply Forall_cons in Hl as [Hk Hl]. cbn [read_arrays foldr reads fst snd] in *. fold (read_arrays l).
  unfold array_or_absent in Hk. unfold read_array. rewrite bind_bind.
  erewrite bind_next by reflexivity. cbn beta. rewrite key_exists_contents.
  destruct (contents (rsp s) !! k) as [[]|] eqn:Hc; try done; [|by destruct s].
  rewrite bool_decide_true by done. rewrite bind_bind.
  erewrite bind_next by (unfold get_word_array_size; erewrite bind_next by reflexivity; cbn beta;
    by erewrite get_word_array_size_contents). cbn beta.
  unfold ASSERT. destruct (_ =? n); [|by destruct s]. cbn [negb when]. rewrite bind_bind.
  erewrite bind_next by reflexivity. cbn beta.
  unfold get_word_array, get_words. rewrite !bind_bind. erewrite bind_next by reflexivity. cbn beta.
  erewrite get_word_array_contents by done. erewrite bind_next by reflexivity. cbn beta.
  rewrite bind_bind. erewrite bind_next by reflexivity. cbn beta.
  destruct (store p l0 (mem s)) as [h|]; [|by destruct s].
  erewrite bind_next by reflexivity. cbn beta. by rewrite (IH (with_mem h s) Hl).
Qed.

Lemma implements_readsI P s name fields arrays :
  sends P s name (fields_of fields) (return_if_error 1 ;; read_arrays arrays) →
  implements_reads (fn P) s name fields arrays.
Proof.
  intros (m & ? & ? & Hr). exists m. split_and!; [done..|]. intros r v Hc.
  specialize (Hr r v Hc). destruct r as [x|e].
  - intros Hok Ha. unfold fn. rewrite Hr. destruct (has_error x) eqn:He.
    + by erewrite bind_return by (by apply return_if_error_some).
    + erewrite bind_next by (by apply return_if_error_none).
      by apply (read_arrays_reads arrays (mk_rstate v m x (mem s))).
  - unfold fn. rewrite Hr. by destruct e.
Qed.

(** *** Arrays that do not overlap *)
Definition in_array (i : Z) (a : string * Z * Z) : bool := (a.2 <=? i) && (i <? a.2 + a.1.2).

Fixpoint apart (l : list (string * Z * Z)) : Prop :=
  match l with
  | [] => True
  | a :: l => Forall (λ b, ∀ i, in_array i a = true → in_array i b = false) l ∧ apart l
  end.

(** The response holds the array, of the right length, and the caller has
    the memory for it. *)
Definition array_ready (x : msg) (h : heap) (a : string * Z * Z) : Prop :=
  ∃ ws, contents x !! a.1.1 = Some (VWords ws) ∧ Z.of_nat (length ws) = a.1.2 ∧
    allocated a.2 (length ws) h.

(** The memory after all the arrays are stored: each cell comes from the
    array that covers it. *)
Definition placed (x : msg) (l : list (string * Z * Z)) (h : heap) (i : Z) : option Z :=
  match find (in_array i) l with
  | Some (k, _, p) =>
      match contents x !! k with Some (VWords ws) => ws !! Z.to_nat (i - p) | _ => None end
  | None => h !! i
  end.

Lemma find_apart i a (l : list (string * Z * Z)) :
  Forall (λ b, ∀ i, in_array i a = true → in_array i b = false) l →
  in_array i a = true → find (in_array i) l = None.
Proof.
  intros Hf Hi. induction Hf as [|b l Hb _ IH]; [done|]. cbn [find]. by rewrite (Hb i Hi).
Qed.

Lemma reads_ready l x h : apart l → Forall (array_ready x h) l →
  ∃ h', reads l x h = (Next 0, h') ∧ ∀ i, h' !! i = placed x l h i.
Proof.
  revert h. induction l as [|[[k n] p] l IH]; intros h; [by exists h|].
  intros [Hap Hap'] [Hr Hall]%Forall_cons. destruct Hr as (ws & Hk & Hn & Ha). cbn [fst snd] in *.
  destruct (store_allocated p ws h Ha) as (h1 & Hs & Hh1).
  destruct (IH h1 Hap') as (h' & Hreads & Hh').
  { eapply Forall_impl; [exact Hall|]. intros a (vs & ? & ? & Hal). exists vs. split_and!; [done..|].
    intros j Hj. rewrite Hh1. case_decide; [|by apply Hal]. apply lookup_lt_is_Some. lia. }
  exists h'. cbn [reads]. rewrite Hk, Hn, Z.eqb_refl, Hs. split; [done|].
  intros i. rewrite Hh'. unfold placed. cbn [find].
  destruct (in_array i (k, n, p)) eqn:Hi.
  - rewrite (find_apart i (k, n, p)) by done. unfold in_array in Hi. cbn in Hi.
    rewrite Hh1, Hk, decide_True by lia. done.
  - destruct (find _ l) as [[[k' ?] p']|]; [done|]. unfold in_array in Hi. cbn in Hi.
    rewrite Hh1, decide_False by lia. done.
Qed.

(** What a completed read leaves in memory. *)
Lemma reads_one k size p x h ws : contents x !! k = Some (VWords ws) →
  Z.of_nat (length ws) = size → allocated p (length ws) h →
  ∃ h', reads [(k, size, p)] x h = (Next 0, h') ∧
    ∀ i, h' !! i = if decide (p ≤ i < p + size) then ws !! Z.to_nat (i - p) else h !! i.
Proof.
  intros Hc Hs Ha. cbn [reads]. rewrite Hc, Hs, Z.eqb_refl.
  destruct (store_allocated p ws h Ha) as (h' & -> & Hh'). exists h'. by rewrite Hs in Hh'.
Qed.
End Contracts.

(** ** The remote memory service

    [memory.read] and [memory.write] of a connected service, as a file of
    32-bit registers: what [getReg], [putReg] and [XHALInterface] rely on. *)
Definition read_fields (a : Z) : gmap string value := fields_of [("address", VWord a); ("count", VWord 1)].
Definition write_fields (a x : Z) : gmap string value :=
  fields_of [("address", VWord a); ("data", VWords [x])].

Class MemoryService {L : RpcLib} {LL : RpcLaws} : Type := {
  registers : svc → Z → option Z;
  memory_read m v a : method m = "memory.read" → contents m = read_fields a → ∃ x v',
    svc_call_method m v = (Ok x, v') ∧ (∀ b, registers v' b = registers v b) ∧
    match registers v a with
    | Some w => contents x !! "error" = None ∧ contents x !! "data" = Some (VWords [w])
    | None => ∃ t, contents x !! "error" = Some (VString t)
    end;
  memory_write m v a w : method m = "memory.write" → contents m = write_fields a w → ∃ x v',
    svc_call_method m v = (Ok x, v') ∧
    match registers v a with
    | Some _ => contents x !! "error" = None ∧
        ∀ b, registers v' b = if decide (b = a) then Some w else registers v b
    | None => (∃ t, contents x !! "error" = Some (VString t)) ∧ ∀ b, registers v' b = registers v b
    end
}.

(** ** A library to run the functions with

    A message is its method and its map; the service answers the calls with a
    list of scripted replies and fails with [NotConnected] after them. *)
Module Scripted.
Record smsg : Type := mk_smsg { sm_method : string; sm_fields : gmap string value }.
Record ssvc : Type := mk_ssvc { up : bool; sent : list smsg; replies : list (result smsg) }.

Definition field (k : string) (m : smsg) : result value :=
  match sm_fields m !! k with Some v => Ok v | None => Err (BadKey k) end.
Definition put (k : string) (v : value) (m : smsg) : result smsg :=
  if key_ok k then Ok (mk_smsg (sm_method m) (<[k := v]> (sm_fields m))) else Err (BadKey k).
Definition as_word (r : result value) : result Z :=
  match r with Ok (VWord w) => Ok w | Ok _ => Err WrongType | Err e => Err e end.
Definition as_words (r : result value) : result (list Z) :=
  match r with Ok (VWords l) => Ok l | Ok _ => Err WrongType | Err e => Err e end.
Definition as_string (r : result value) : result string :=
  match r with Ok (VString s) => Ok s | Ok _ => Err WrongType | Err e => Err e end.

(** The messages, with any service behind them. *)
Definition lib_with (S : Type) (init : S) (connect : string → S → result unit * S)
    (disconnect : S → result unit * S) (load : string → string → S → result bool * S)
    (answer : smsg → S → result smsg * S) : RpcLib := {|
  msg := smsg;
  svc := S;
  RPCMsg name := mk_smsg name ∅;
  msg_get_key_exists k m := bool_decide (is_Some (sm_fields m !! k));
  msg_get_word k m := as_word (field k m);
  msg_set_word k w := put k (VWord w);
  msg_get_string k m := as_string (field k m);
  msg_set_string k s := put k (VString s);
  msg_set_string_array k l := put k (VStrings l);
  msg_get_word_array_size k m :=
    match as_words (field k m) with Ok l => Ok (Z.of_nat (length l)) | Err e => Err e end;
  msg_get_word_array k m := as_words (field k m);
  msg_set_word_array k _ l := put k (VWords l);
  msg_set_binarydata k l := put k (VBinary l);
  svc_init := init;
  svc_connect := connect;
  svc_disconnect := disconnect;
  svc_load_module := load;
  svc_call_method := answer
|}.

Lemma laws_with S init connect disconnect load answer :
  @RpcLaws (lib_with S init connect disconnect load answer).
Proof.
  refine (let L := lib_with S init connect disconnect load answer in
    {| method := (sm_method : @msg L → string); contents := (sm_fields : @msg L → _) |});
    try done; cbn; unfold field, put.
  - by intros k m w ->.
  - by intros k m s ->.
  - by intros k m l ->.
  - by intros k m l ->.
  - intros k w m ->. by eexists.
  - intros k s m ->. by eexists.
  - intros k l m ->. by eexists.
  - intros k l m ->. by eexists.
  - intros k l m ->. by eexists.
Defined.

#[export] Instance lib : RpcLib := lib_with ssvc (mk_ssvc false [] [])
  (λ host v, if bool_decide (host = EmptyString) then (Err (ConnectionFailed "no host"), v)
             else (Ok tt, mk_ssvc true (sent v) (replies v)))
  (λ v, if up v then (Ok tt, mk_ssvc false (sent v) (replies v)) else (Err (NotConnected "closed"), v))
  (λ _ _ v, (Ok (up v), v))
  (λ m v, match replies v with
          | [] => (Err (NotConnected "closed"), mk_ssvc (up v) (sent v ++ [m]) [])
          | r :: rs => (r, mk_ssvc (up v) (sent v ++ [m]) rs)
          end).

#[export] Instance laws : RpcLaws := laws_with _ _ _ _ _ _.

(** A service that always answers the same. *)
Definition always (r : result smsg) : RpcLib :=
  lib_with unit tt (λ _ v, (Ok tt, v)) (λ v, (Ok tt, v)) (λ _ _ v, (Ok true, v)) (λ _ v, (r, v)).
Definition always_laws r : @RpcLaws (always r) := laws_with _ _ _ _ _ _.
Definition idle {Mem} (r : result smsg) (h : Mem) : @rstate (always r) Mem :=
  @mk_rstate (always r) _ tt (mk_smsg EmptyString ∅) (mk_smsg EmptyString ∅) h.

(** A state about to run a function: what the next call answers, and the
    caller's memory. *)
Definition start {Mem} (rs : list (result smsg)) (h : Mem) : rstate Mem :=
  mk_rstate (mk_ssvc true [] rs : @svc lib) (mk_smsg EmptyString ∅ : @msg lib) (mk_smsg EmptyString ∅ : @msg lib) h.
Definition reply (l : list (string * value)) : result smsg := Ok (mk_smsg EmptyString (fields_of l)).
(** [n] words of caller's memory at [p]. *)
Definition cells (p n : Z) : heap := list_to_map ((λ i, (i, 0)) <$> seqZ p n).

Lemma cells_allocated p n q k : p ≤ q → q + Z.of_nat k ≤ p + n → allocated q k (cells p n).
Proof.
  intros Hp Hq i Hi. exists 0. apply elem_of_list_to_map_1.
  - rewrite <- list_fmap_compose. cbn. rewrite list_fmap_id. apply NoDup_seqZ.
  - apply list_elem_of_fmap. exists i. split; [done|]. apply elem_of_seqZ. lia.
Qed.
End Scripted.

(** A board: its registers behind [memory.read] and [memory.write]. *)
Module Board.
Import Scripted.

Definition address_of (m : smsg) : option Z :=
  match sm_fields m !! "address" with Some (VWord a) => Some a | _ => None end.
Definition data_of (m : smsg) : option Z :=
  match sm_fields m !! "data" with Some (VWords [w]) | Some (VWord w) => Some w | _ => None end.
Definition refuse : result smsg := Ok (mk_smsg EmptyString {[ "error" := VString "bus" ]}).

Definition answer (m : smsg) (v : gmap Z Z) : result smsg * gmap Z Z :=
  match address_of m with
  | None => (refuse, v)
  | Some a =>
      match v !! a with
      | None => (refuse, v)
      | Some x =>
          if bool_decide (sm_method m = "memory.write") then
            match data_of m with
            | Some w => (Ok (mk_smsg EmptyString ∅), <[a := w]> v)
            | None => (refuse, v)
            end
          else (Ok (mk_smsg EmptyString {[ "data" := VWords [x] ]}), v)
      end
  end.

Definition board_lib : RpcLib :=
  lib_with (gmap Z Z) ∅ (λ _ v, (Ok tt, v)) (λ v, (Ok tt, v)) (λ _ _ v, (Ok true, v)) answer.
Definition board_laws : @RpcLaws board_lib := laws_with _ _ _ _ _ _.

Lemma answer_read m v a : sm_method m = "memory.read" → sm_fields m = read_fields a →
  answer m v = (match v !! a with
                | Some x => Ok (mk_smsg EmptyString {[ "data" := VWords [x] ]})
                | None => refuse
                end, v).
Proof.
  intros Hm Hc. unfold answer, address_of. rewrite Hc, Hm.
  rewrite (eq_refl : read_fields a !! "address" = Some (VWord a)). by destruct (v !! a).
Qed.

Lemma answer_write m v a w : sm_method m = "memory.write" → sm_fields m = write_fields a w →
  answer m v = match v !! a with
               | Some _ => (Ok (mk_smsg EmptyString ∅), <[a := w]> v)
               | None => (refuse, v)
               end.
Proof.
  intros Hm Hc. unfold answer, address_of, data_of. rewrite Hc, Hm.
  rewrite (eq_refl : write_fields a w !! "address" = Some (VWord a)).
  rewrite (eq_refl : write_fields a w !! "data" = Some (VWords [w])). by destruct (v !! a).
Qed.

Lemma board_memory : @MemoryService board_lib board_laws.
Proof.
  refine (@Build_MemoryService board_lib board_laws (λ (v : @svc board_lib) a, (v : gmap Z Z) !! a) _ _).
  - intros m v a Hm Hc. pose proof (answer_read m v a Hm Hc) as Ha.
    destruct ((v : gmap Z Z) !! a) as [y|] eqn:Hy; do 2 eexists; (split; [exact Ha|]).
    + by split.
    + split; [done|by eexists].
  - intros m v a w Hm Hc. pose proof (answer_write m v a w Hm Hc) as Ha.
    destruct ((v : gmap Z Z) !! a) as [y|] eqn:Hy; do 2 eexists; (split; [exact Ha|]).
    + split; [done|]. intros b. case_decide as Hb; [by rewrite Hb, lookup_insert_eq|].
      by rewrite lookup_insert_ne.
    + split; [by eexists|done].
Defined.

Definition board (v : gmap Z Z) : @rstate board_lib heap :=
  @mk_rstate board_lib _ (v : @svc board_lib) (mk_smsg EmptyString ∅ : @msg board_lib)
    (mk_smsg EmptyString ∅ : @msg board_lib) ∅.
End Board.

(** Build a request: one [sends_...] lemma per setter. *)
Ltac rpc_send :=
  repeat first
  [ apply sends_new_req; intros ?m ?Hm ?Hc
  | apply sends_set_word; [reflexivity|intros ?m ?Hm ?Hc]
  | apply sends_set_string; [reflexivity|intros ?m ?Hm ?Hc]
  | apply sends_set_string_array; [reflexivity|intros ?m ?Hm ?Hc]
  | apply sends_set_binarydata; [reflexivity|intros ?m ?Hm ?Hc]
  | eapply sends_set_word_array; [reflexivity|lia|eassumption|intros ?m ?Hm ?Hc]
  | apply sends_assoc
  | apply sends_skip ];
  try (apply sends_call; cbn [req with_req rsp rpc mem] in *; [congruence|];
       repeat match goal with H : contents _ = _ |- _ => rewrite H; clear H end; reflexivity).

(** A whole command, or a whole read. *)
Ltac rpc_command :=
  intros; first [solve [apply implements_commandI; rpc_send] | apply implements_commandI'; rpc_send].
Ltac rpc_reads := intros; apply implements_readsI; rpc_send.
