(* ===== verification/CText.v ===== *)
(** * CText: text in the C and C++ standard libraries

    The parts of [<ctype.h>], [strtoul], [strcat], [fgets], [std::search] and
    [std::to_string] the program uses on text, with the lemmas that read back
    what was printed. *)

From S2P Require Import Prelude RpcMsg.

(** ** Characters *)

Definition char_is (c d : ascii) : bool := bool_decide (c = d).
Definition is_space (c : ascii) : bool :=
  let n := Z.of_nat (nat_of_ascii c) in (n =? 32) || ((9 <=? n) && (n <=? 13)).

(** The value of a digit, of any base up to 16. *)
Definition digit_value (c : ascii) : option Z :=
  let n := Z.of_nat (nat_of_ascii c) in
  if (48 <=? n) && (n <=? 57) then Some (n - 48)
  else if (65 <=? n) && (n <=? 70) then Some (n - 55)
  else if (97 <=? n) && (n <=? 102) then Some (n - 87)
  else None.

Definition digit (d : Z) : ascii := ascii_of_nat (Z.to_nat (if d <? 10 then 48 + d else 87 + d)).

Fixpoint all_chars (P : ascii → bool) (s : string) : bool :=
  match s with EmptyString => true | String c s => P c && all_chars P s end.

Fixpoint str_take (n : nat) (s : string) : string :=
  match n, s with S n, String c s => String c (str_take n s) | _, _ => EmptyString end.
Fixpoint str_drop (n : nat) (s : string) : string :=
  match n, s with S n, String _ s => str_drop n s | _, _ => s end.

(** [std::search(current, end, from.begin(), from.end())], as an offset; the
    length of [s] when there is no occurrence. *)
Fixpoint search (from s : string) : nat :=
  if String.prefix from s then O
  else match s with EmptyString => O | String _ s => S (search from s) end.

(** [s.find(sub) != std::string::npos], for a [sub] that is not empty *)
Definition contains (sub s : string) : bool := Nat.ltb (search sub s) (String.length s).

(** ** Numbers *)

Fixpoint skip_space (s : string) : string :=
  match s with String c s' => if is_space c then skip_space s' else s | EmptyString => s end.

(** The sign, and the rest. *)
Definition split_sign (s : string) : bool * string :=
  match s with
  | String c s' => if char_is c "-"%char then (true, s') else if char_is c "+"%char then (false, s') else (false, s)
  | EmptyString => (false, s)
  end.

Definition skip_0x (s : string) : string :=
  match s with
  | String c (String d s') =>
      if char_is c "0"%char && (char_is d "x"%char || char_is d "X"%char) then s' else s
  | _ => s
  end.

Fixpoint leading_digits (base : Z) (s : string) : list Z :=
  match s with
  | EmptyString => []
  | String c s =>
      match digit_value c with
      | Some d => if d <? base then d :: leading_digits base s else []
      | None => []
      end
  end.

Definition number (base : Z) (ds : list Z) : Z := foldl (λ a d, a * base + d) 0 ds.

(** The digits of a natural number, the most significant first. *)
Fixpoint print_loop (fuel : nat) (base x : Z) (acc : string) : string :=
  match fuel with
  | O => acc
  | S fuel =>
      let acc := String (digit (x mod base)) acc in
      if x / base =? 0 then acc else print_loop fuel base (x / base) acc
  end.
Definition print (base x : Z) : string := print_loop (S (Z.to_nat (Z.log2 x))) base x EmptyString.

(** [std::to_string(int)] *)
Definition to_string (x : Z) : string := if x <? 0 then "-" ++ print 10 (- x) else print 10 x.

(** ** Character arrays *)

(** What a [char *] the program hands to [strcat] points at: a string literal,
    or an array with room for [capacity] characters. *)
Inductive char_array : Type :=
| Literal (text : string)
| Array (capacity : nat) (text : string).

(** [strcat(dest, src)]: the text then at [dest].  It writes behind the text of
    [dest], which a literal does not allow. *)
Definition strcat {S R} (dest : char_array) (src : string) : M S R string :=
  match dest with
  | Literal _ => undef LiteralWrite
  | Array capacity text =>
      if Nat.ltb (String.length text + String.length src) capacity then mret (text ++ src)%string
      else undef OutOfBounds
  end.

(** ** Lines *)

(** [fgets(buf, 1024, cf)] until the end of the file: lines with their
    newline, cut after 1023 characters. *)
Fixpoint fgets_lines (room : nat) (s line : string) : list string :=
  match s with
  | EmptyString => if bool_decide (line = EmptyString) then [] else [line]
  | String c s =>
      let line := (line ++ String c EmptyString)%string in
      match room with
      | S (S _ as room) => if char_is c "010" then line :: fgets_lines 1023 s EmptyString else fgets_lines room s line
      | _ => line :: fgets_lines 1023 s EmptyString
      end
  end.

Definition newline : string := String "010" EmptyString.
Definition not_newline (c : ascii) : bool := negb (char_is c "010"%char).

(** ** Lemmas: strings *)
Section Strings.
Implicit Types (s t : string) (P : ascii → bool).

Lemma str_app_cons c s t : String c s ++ t = String c (s ++ t).
Proof. reflexivity. Qed.

Lemma str_app_nil_l s : "" ++ s = s.
Proof. reflexivity. Qed.

Lemma str_app_nil s : s ++ "" = s.
Proof. induction s as [|c s IH]; [done|]. rewrite !str_app_cons. by rewrite IH. Qed.

Lemma str_app_assoc s t u : s ++ (t ++ u) = (s ++ t) ++ u.
Proof. induction s as [|c s IH]; [done|]. rewrite !str_app_cons. by rewrite IH. Qed.

Lemma length_str_app s t : String.length (s ++ t) = (String.length s + String.length t)%nat.
Proof. induction s as [|c s IH]; [done|]. rewrite str_app_cons. cbn. by rewrite IH. Qed.

Lemma str_drop_app s t : str_drop (String.length s) (s ++ t) = t.
Proof. induction s as [|c s IH]; [by destruct t|]. apply IH. Qed.

Lemma str_take_drop n s : str_take n s ++ str_drop n s = s.
Proof.
  revert s. induction n as [|n IH]; intros [|c s]; [done..|]. cbn. rewrite str_app_cons. by rewrite IH.
Qed.

Lemma prefix_cons c s d t :
  String.prefix (String c s) (String d t) = char_is c d && String.prefix s t.
Proof. unfold char_is. cbn. case_bool_decide; destruct (ascii_dec c d); done. Qed.

Lemma prefix_iff s t : String.prefix s t = true ↔ ∃ u, t = s ++ u.
Proof.
  revert t. induction s as [|c s IH]; intros t.
  { split; [intros _; by exists t|by destruct t]. }
  destruct t as [|d t].
  { split; [done|]. by intros [u Hu]. }
  rewrite prefix_cons, andb_true_iff, IH. unfold char_is. rewrite bool_decide_eq_true. split.
  - intros [-> [u ->]]. by exists u.
  - intros [u Hu]. rewrite str_app_cons in Hu. injection Hu as -> ->. eauto.
Qed.

Lemma all_chars_app P s t : all_chars P (s ++ t) = all_chars P s && all_chars P t.
Proof. induction s as [|c s IH]; [done|]. rewrite str_app_cons. cbn. rewrite IH. by rewrite andb_assoc. Qed.

Lemma all_chars_impl P Q s : (∀ c, P c = true → Q c = true) → all_chars P s = true → all_chars Q s = true.
Proof.
  intros H. induction s as [|c s IH]; [done|]. cbn. rewrite !andb_true_iff. naive_solver.
Qed.

Lemma search_nil from : search from EmptyString = O.
Proof. unfold search. by destruct (String.prefix from ""). Qed.

Lemma search_cons from c s : search from (String c s) =
  if String.prefix from (String c s) then O else S (search from s).
Proof. reflexivity. Qed.

Lemma search_le from s : (search from s ≤ String.length s)%nat.
Proof.
  induction s as [|c s IH]; [by rewrite search_nil|]. rewrite search_cons.
  destruct (String.prefix from (String c s)); cbn; lia.
Qed.

(** Without an occurrence the search ends at the end. *)
Lemma search_none from s P : all_chars P s = true → all_chars P from = false →
  search from s = String.length s.
Proof.
  intros Hs Hf. induction s as [|c s IH]; [by rewrite search_nil|].
  cbn in Hs. apply andb_true_iff in Hs as [Hc Hs]. rewrite search_cons.
  destruct (String.prefix from (String c s)) eqn:E; [|by rewrite IH].
  apply prefix_iff in E as [u Hu].
  assert (all_chars P (from ++ u) = true) as Hall by (rewrite <- Hu; cbn; by rewrite Hc).
  rewrite all_chars_app, Hf in Hall. done.
Qed.

Lemma contains_none from s P : all_chars P s = true → all_chars P from = false → contains from s = false.
Proof. intros Hs Hf. unfold contains. rewrite (search_none _ _ P) by done. apply Nat.ltb_irrefl. Qed.

Lemma contains_prefix from s : from ≠ EmptyString → contains from (from ++ s) = true.
Proof.
  intros Hf. unfold contains. destruct from as [|c from]; [done|].
  assert (String.prefix (String c from) (String c from ++ s) = true) as Hp by (apply prefix_iff; by exists s).
  rewrite str_app_cons in *. rewrite search_cons, Hp. apply Nat.ltb_lt. cbn. lia.
Qed.
End Strings.

(** ** Lemmas: numbers *)
Section Numbers.

Lemma digit_value_digit d : 0 ≤ d < 16 → digit_value (digit d) = Some d.
Proof.
  intros Hd. assert (Forall (λ d, digit_value (digit d) = Some d) (seqZ 0 16)) as H by vm_decide.
  rewrite Forall_forall in H. apply H, elem_of_seqZ. lia.
Qed.

(** A character that is no space, sign or [x], and whose value is below
    [base]. *)
Definition plain_digit (base : Z) (c : ascii) : bool :=
  match digit_value c with Some d => d <? base | None => false end &&
  negb (is_space c || char_is c "-"%char || char_is c "+"%char || char_is c "x"%char || char_is c "X"%char ||
        char_is c "$"%char).

Lemma plain_digit_digit base d : 0 ≤ d < base → base ≤ 16 → plain_digit base (digit d) = true.
Proof.
  intros Hd Hb. unfold plain_digit. rewrite digit_value_digit by lia.
  destruct (Z.ltb_spec d base); [|lia].
  assert (Forall (λ d, negb (is_space (digit d) || char_is (digit d) "-"%char || char_is (digit d) "+"%char ||
    char_is (digit d) "x"%char || char_is (digit d) "X"%char || char_is (digit d) "$"%char) = true) (seqZ 0 16)) as H'
    by vm_decide.
  rewrite Forall_forall in H'. apply H', elem_of_seqZ. lia.
Qed.

Lemma leading_digits_app base s t : all_chars (plain_digit base) s = true →
  leading_digits base (s ++ t) = (leading_digits base s ++ leading_digits base t)%list.
Proof.
  induction s as [|c s IH]; [done|]. rewrite str_app_cons. cbn. rewrite andb_true_iff. intros [Hc Hs].
  unfold plain_digit in Hc. apply andb_true_iff in Hc as [Hc _].
  destruct (digit_value c) as [d|]; [|done]. rewrite Hc. cbn. f_equal. by apply IH.
Qed.

(** What [print_loop] does, on the digits. *)
Lemma print_loop_spec fuel base x acc : 1 < base ≤ 16 → 0 ≤ x → (Z.to_nat (Z.log2 x) < fuel)%nat →
  ∃ s, print_loop fuel base x acc = s ++ acc ∧ all_chars (plain_digit base) s = true ∧
    s ≠ EmptyString ∧ number base (leading_digits base s) = x.
Proof.
  intros Hb. revert x acc. induction fuel as [|fuel IH]; intros x acc Hx Hf; [lia|].
  cbn [print_loop]. pose proof (Z.mod_pos_bound x base ltac:(lia)) as Hm.
  pose proof (plain_digit_digit base (x mod base) Hm ltac:(lia)) as Hd.
  assert (leading_digits base (String (digit (x mod base)) "") = [x mod base]) as Hl.
  { cbn. rewrite digit_value_digit by lia. by destruct (Z.ltb_spec (x mod base) base); [|lia]. }
  assert (x = base * (x / base) + x mod base) as Hdm by (apply Z.div_mod; lia).
  destruct (Z.eqb_spec (x / base) 0) as [H0|H0].
  - exists (String (digit (x mod base)) ""). split_and!; [done| |done|].
    + cbn [all_chars]. by rewrite Hd.
    + rewrite Hl. unfold number. cbn. lia.
  - assert (0 < x / base) by (pose proof (Z.div_pos x base); lia).
    assert (x / base ≤ x / 2) as Hdiv by (apply Z.div_le_compat_l; lia).
    assert (Z.log2 (x / base) < Z.log2 x) as Hlog.
    { assert (Z.log2 (x / 2) = Z.log2 x - 1) as Hh.
      { change 2 with (2 ^ 1). rewrite <- Z.shiftr_div_pow2 by lia. rewrite Z.log2_shiftr by lia.
        assert (1 ≤ Z.log2 x) by (apply Z.log2_le_pow2; lia). lia. }
      pose proof (Z.log2_le_mono (x / base) (x / 2) Hdiv). lia. }
    pose proof (Z.log2_nonneg (x / base)).
    destruct (IH (x / base) (String (digit (x mod base)) acc)) as (s & Hs & Hall & Hne & Hn); [lia..|].
    exists (s ++ String (digit (x mod base)) ""). split_and!.
    + rewrite Hs, <- str_app_assoc. done.
    + rewrite all_chars_app, Hall. cbn [all_chars]. by rewrite Hd.
    + by destruct s.
    + rewrite leading_digits_app, Hl by done. unfold number in *. rewrite foldl_app, Hn. cbn. lia.
Qed.

Lemma print_spec base x : 1 < base ≤ 16 → 0 ≤ x →
  all_chars (plain_digit base) (print base x) = true ∧ print base x ≠ EmptyString ∧
  number base (leading_digits base (print base x)) = x.
Proof.
  intros Hb Hx. destruct (print_loop_spec (S (Z.to_nat (Z.log2 x))) base x "" Hb Hx ltac:(lia))
    as (s & Hs & ? & ? & ?). unfold print. rewrite Hs, str_app_nil. done.
Qed.

(** Digits are read as they are: nothing before them is skipped. *)
Lemma plain_start base s : all_chars (plain_digit base) s = true → s ≠ EmptyString →
  skip_space s = s ∧ split_sign s = (false, s).
Proof.
  destruct s as [|c s]; [done|]. cbn. intros [[_ Hc]%andb_true_iff _]%andb_true_iff _.
  apply negb_true_iff in Hc. rewrite !orb_false_iff in Hc. destruct Hc as [[[[[-> ->] ->] _] _] _]. done.
Qed.
Lemma leading_digits_stop base c s t : all_chars (plain_digit base) s = true → digit_value c = None →
  leading_digits base (s ++ String c t) = leading_digits base s.
Proof.
  intros Hs Hc. rewrite leading_digits_app by done. cbn. rewrite Hc. by rewrite app_nil_r.
Qed.

Lemma leading_digits_length base s : all_chars (plain_digit base) s = true →
  length (leading_digits base s) = String.length s.
Proof.
  induction s as [|c s IH]; [done|]. cbn. rewrite andb_true_iff. intros [Hc Hs].
  unfold plain_digit in Hc. apply andb_true_iff in Hc as [Hc _].
  destruct (digit_value c) as [d|]; [|done]. rewrite Hc. cbn. f_equal. by apply IH.
Qed.

(** What is read is never negative. *)
Lemma leading_digits_nonneg base s : Forall (λ d, 0 ≤ d) (leading_digits base s).
Proof.
  induction s as [|c s IH]; cbn; [done|]. destruct (digit_value c) as [d|] eqn:E; [|done].
  destruct (d <? base); [|done]. constructor; [|done]. unfold digit_value in E.
  repeat (case_match; simplify_eq; try lia).
Qed.

Lemma number_nonneg base ds : 0 ≤ base → Forall (λ d, 0 ≤ d) ds → 0 ≤ number base ds.
Proof.
  intros Hb Hd. unfold number. assert (0 ≤ 0) as Ha by lia. revert Ha. generalize 0 at 2 4 as acc.
  induction Hd as [|d ds Hd _ IH]; intros acc Ha; [done|]. cbn. apply IH. nia.
Qed.

Lemma plain_head base s t : all_chars (plain_digit base) s = true → s ≠ EmptyString →
  skip_space (s ++ t) = (s ++ t)%string ∧ split_sign (s ++ t) = (false, (s ++ t)%string).
Proof.
  destruct s as [|c s]; [done|]. rewrite str_app_cons. cbn. intros [[_ Hc]%andb_true_iff _]%andb_true_iff _.
  apply negb_true_iff in Hc. rewrite !orb_false_iff in Hc. destruct Hc as [[[[[-> ->] ->] _] _] _]. done.
Qed.

Lemma print_loop_length fuel base x acc k : 1 < base → 0 ≤ x < base ^ Z.of_nat (S k) →
  (String.length (print_loop fuel base x acc) ≤ S k + String.length acc)%nat.
Proof.
  intros Hb. revert x acc k. induction fuel as [|fuel IH]; intros x acc k Hx; cbn [print_loop]; [lia|].
  destruct (Z.eqb_spec (x / base) 0) as [E|E]; [cbn; lia|].
  destruct k as [|k].
  { exfalso. apply E. apply Z.div_small. change (Z.of_nat 1) with 1 in Hx. by rewrite Z.pow_1_r in Hx. }
  specialize (IH (x / base) (String (digit (x mod base)) acc) k). cbn [String.length] in IH.
  etrans; [apply IH|lia]. split; [apply Z.div_pos; lia|]. apply Z.div_lt_upper_bound; [lia|].
  rewrite <- Z.pow_succ_r by lia. replace (Z.succ (Z.of_nat (S k))) with (Z.of_nat (S (S k))) by lia. lia.
Qed.

Lemma plain_not_newline base c : plain_digit base c = true → not_newline c = true.
Proof.
  unfold plain_digit, not_newline. rewrite andb_true_iff. intros [_ H%negb_true_iff]. rewrite !orb_false_iff in H.
  destruct H as [[[[[H _] _] _] _] _]. apply negb_true_iff. apply bool_decide_eq_false. by intros ->.
Qed.

End Numbers.

(** ** Lemmas: lines *)
Section Lines.

Lemma fgets_line s t acc room : all_chars not_newline s = true → (String.length s < room)%nat →
  fgets_lines room ((s ++ newline) ++ t) acc = (acc ++ s ++ newline)%string :: fgets_lines 1023 t EmptyString.
Proof.
  revert acc room. induction s as [|c s IH]; intros acc room Hs Hr.
  - rewrite str_app_nil_l. unfold newline. rewrite str_app_cons, str_app_nil_l. cbn [fgets_lines].
    destruct room as [|[|room]]; [done|done|]. done.
  - cbn in Hs. apply andb_true_iff in Hs as [Hc Hs]. rewrite !str_app_cons. cbn [String.length] in Hr.
    destruct room as [|[|room]]; [lia|lia|]. cbn [fgets_lines]. unfold not_newline in Hc.
    apply negb_true_iff in Hc. rewrite Hc. rewrite IH by (done || lia).
    f_equal. rewrite <- str_app_assoc. done.
Qed.
End Lines.
