(* ===== verification/IpAcl.v ===== *)
(** * IpAcl: the address filter of the IPbus daemon

    [xcompile/ipbus/ipacl.cpp]: the textual form of an address, and the list
    of allowed networks.  The contents of the file are a parameter. *)

From S2P Require Import Prelude Words RpcMsg CText.

Local Open Scope list_scope.

(** [ip2string(ip, str, strsize)]: the value returned, and what [snprintf]
    leaves in [str]. *)
Definition ip2string (ip : Z) (strsize : nat) : Z * string :=
  let text := (to_string (Z.land (ip ≫ 24) 0xff) ++ "." ++ to_string (Z.land (ip ≫ 16) 0xff) ++ "." ++
               to_string (Z.land (ip ≫ 8) 0xff) ++ "." ++ to_string (Z.land ip 0xff))%string in
  (Z.of_nat (String.length text), str_take (strsize - 1) text).

(** The loop that ends the line at its first [#] or newline. *)
Fixpoint cut_comment (linebuf : string) : string :=
  match linebuf with
  | EmptyString => EmptyString
  | String c s => if char_is c "#" || char_is c "010" then EmptyString else String c (cut_comment s)
  end.

(** A [%hhu] of [sscanf]: the byte, and the rest of the text. *)
Definition scan_hhu (s : string) : option (Z * string) :=
  let '(negative, t) := split_sign (skip_space s) in
  match leading_digits 10 t with
  | [] => None
  | ds =>
      let v := number 10 ds in
      let v := if 2 ^ 32 - 1 <? v then 2 ^ 32 - 1 else if negative then w32 (- v) else v in
      Some (w8 v, str_drop (length ds) t)
  end.

(** A [%hhu] and the character after it. *)
Definition scan_hhu_then (c : ascii) (s : string) : option (Z * string) :=
  match scan_hhu s with
  | Some (v, String d rest) => if char_is d c then Some (v, rest) else None
  | _ => None
  end.

(** [sscanf(linebuf, "%hhu.%hhu.%hhu.%hhu/%hhu", ...) == 5] *)
Definition scan_network (linebuf : string) : option (Z * Z * Z * Z * Z) :=
  '(a, s) ← scan_hhu_then "." linebuf;
  '(b, s) ← scan_hhu_then "." s;
  '(c, s) ← scan_hhu_then "." s;
  '(d, s) ← scan_hhu_then "/" s;
  '(n, _) ← scan_hhu s;
  Some (a, b, c, d, n).

(** The loop over the lines. *)
Fixpoint authorize_loop (ip : Z) (lines : list string) : Fn unit bool :=
  match lines with
  | [] => mret false
  | linebuf :: lines =>
      let linebuf := cut_comment linebuf in
      if bool_decide (linebuf = EmptyString) then authorize_loop ip lines
      else
        match scan_network linebuf with
        | Some (a, b, c, d, cidrlen) =>
            let allowip := Z.lor (Z.lor (Z.lor (a ≪ 24) (b ≪ 16)) (c ≪ 8)) d in
            guard_ub ((0 <=? 32 - cidrlen) && (32 - cidrlen <? 32)) ShiftCount ;;
            let cidrmask := w32 (0xFFFFFFFF ≪ (32 - cidrlen)) in
            if Z.land ip cidrmask =? Z.land allowip cidrmask then mret true
            else authorize_loop ip lines
        | None => authorize_loop ip lines
        end
  end.

(** [None]: the file cannot be opened. *)
Definition authorize_ip (file : option string) (ip : Z) : Fn unit bool :=
  match file with
  | None => mret false
  | Some text => authorize_loop ip (fgets_lines 1023 text EmptyString)
  end.

(** ** An access list *)

Inductive acl_line : Type :=
| Allow (a b c d len : Z)
| Comment (text : string).

Definition print_line (l : acl_line) : string :=
  match l with
  | Allow a b c d len =>
      print 10 a ++ "." ++ print 10 b ++ "." ++ print 10 c ++ "." ++ print 10 d ++ "/" ++ print 10 len
  | Comment text => "#" ++ text
  end.
Definition print_acl (l : list acl_line) : string :=
  foldr (λ x s, (print_line x ++ newline) ++ s)%string EmptyString l.

Definition acl_line_ok (l : acl_line) : Prop :=
  match l with
  | Allow a b c d len => word 8 a ∧ word 8 b ∧ word 8 c ∧ word 8 d ∧ 1 ≤ len ≤ 32
  | Comment text => all_chars not_newline text = true ∧ (String.length text < 1000)%nat
  end.

(** The address is in the network: the first [len] bits are the same. *)
Definition allows (ip : Z) (l : acl_line) : bool :=
  match l with
  | Allow a b c d len =>
      ip / 2 ^ (32 - len) =? (a * 2 ^ 24 + b * 2 ^ 16 + c * 2 ^ 8 + d) / 2 ^ (32 - len)
  | Comment _ => false
  end.

Section Acl.

Lemma scan_hhu_print x t : word 8 x → leading_digits 10 t = [] → scan_hhu (print 10 x ++ t) = Some (x, t).
Proof.
  intros Hx Ht. destruct (print_spec 10 x) as (Hall & Hne & Hv); [lia|apply Hx|].
  destruct (plain_head 10 (print 10 x) t Hall Hne) as [Hs1 Hs2].
  unfold scan_hhu. rewrite Hs1, Hs2, leading_digits_app, Ht, app_nil_r by done.
  pose proof (leading_digits_length 10 _ Hall) as Hlen.
  destruct (leading_digits 10 (print 10 x)) as [|d ds] eqn:Ed; [by destruct (print 10 x)|].
  rewrite Hv, Hlen, str_drop_app. pose proof (word_mono 8 32 x ltac:(lia) ltac:(lia) Hx) as [_ Hx32].
  destruct (Z.ltb_spec (2 ^ 32 - 1) x); [lia|]. by rewrite wrap_small.
Qed.

Lemma scan_then_print x c t : word 8 x → digit_value c = None →
  scan_hhu_then c (print 10 x ++ String c t) = Some (x, t).
Proof.
  intros Hx Hc. unfold scan_hhu_then. rewrite scan_hhu_print; [|done|by cbn; rewrite Hc].
  unfold char_is. by rewrite bool_decide_true.
Qed.

Lemma scan_print_line a b c d len : acl_line_ok (Allow a b c d len) →
  scan_network (print_line (Allow a b c d len)) = Some (a, b, c, d, len).
Proof.
  intros (Ha & Hb & Hc & Hd & Hl). assert (word 8 len) as Hlen by (unfold word; lia).
  unfold print_line, scan_network. rewrite !str_app_cons, !str_app_nil_l.
  do 4 (rewrite scan_then_print by done; cbn [mbind option_bind]).
  rewrite <- (str_app_nil (print 10 len)). by rewrite scan_hhu_print.
Qed.

Definition entry_char (c : ascii) : bool := negb (char_is c "#" || char_is c "010").

Lemma cut_comment_id s : all_chars entry_char s = true → cut_comment (s ++ newline) = s.
Proof.
  induction s as [|c s IH]; [done|]. cbn [all_chars]. rewrite andb_true_iff. intros [Hc%negb_true_iff Hs].
  rewrite str_app_cons. cbn [cut_comment]. rewrite Hc. by rewrite IH.
Qed.

Lemma plain_entry_char c : plain_digit 10 c = true → entry_char c = true.
Proof.
  intros H. pose proof (plain_not_newline 10 c H) as Hn%negb_true_iff. unfold entry_char. rewrite Hn.
  unfold char_is. rewrite bool_decide_false; [done|]. intros ->. by cbn in H.
Qed.

Lemma print_byte x : word 8 x → all_chars entry_char (print 10 x) = true ∧ (String.length (print 10 x) ≤ 3)%nat.
Proof.
  intros [Hx0 Hx]. destruct (print_spec 10 x) as (Hall & _); [lia..|]. split.
  - by apply (all_chars_impl _ _ _ plain_entry_char).
  - unfold print. pose proof (print_loop_length (S (Z.to_nat (Z.log2 x))) 10 x EmptyString 2 ltac:(lia)) as H.
    change (10 ^ Z.of_nat 3) with 1000 in H. cbn [String.length] in *. lia.
Qed.

Lemma entry_not_newline c : entry_char c = true → not_newline c = true.
Proof. unfold entry_char, not_newline. rewrite negb_orb, andb_true_iff. tauto. Qed.

(** What the printed lines are to [fgets] and to the comment loop. *)
Lemma print_line_ok l : acl_line_ok l →
  all_chars not_newline (print_line l) = true ∧ (String.length (print_line l) < 1023)%nat ∧
  match l with
  | Allow _ _ _ _ _ => cut_comment (print_line l ++ newline) = print_line l ∧ print_line l ≠ EmptyString
  | Comment _ => cut_comment (print_line l ++ newline) = EmptyString
  end.
Proof.
  destruct l as [a b c d len|text]; cbn [acl_line_ok].
  - intros (Ha & Hb & Hc & Hd & Hl). assert (word 8 len) as Hlen by (unfold word; lia).
    destruct (print_byte a Ha) as [Ea La], (print_byte b Hb) as [Eb Lb], (print_byte c Hc) as [Ec Lc],
      (print_byte d Hd) as [Ed Ld], (print_byte len Hlen) as [El Ll].
    assert (all_chars entry_char (print_line (Allow a b c d len)) = true) as He
      by (cbn [print_line]; by rewrite !all_chars_app, Ea, Eb, Ec, Ed, El).
    split_and!.
    + by apply (all_chars_impl _ _ _ entry_not_newline).
    + cbn [print_line]. rewrite !length_str_app. cbn [String.length]. lia.
    + by apply cut_comment_id.
    + cbn [print_line]. destruct (print_spec 10 a) as (_ & Hne & _); [lia|apply Ha|]. by destruct (print 10 a).
  - intros [Ht Hlen]. cbn [print_line]. rewrite str_app_cons, str_app_nil_l. split_and!; [exact Ht|cbn; lia|done].
Qed.

Lemma fgets_acl l : Forall acl_line_ok l →
  fgets_lines 1023 (print_acl l) EmptyString = (λ x, print_line x ++ newline)%string <$> l.
Proof.
  induction 1 as [|x l Hx _ IH]; [done|]. cbn [print_acl foldr]. fold (print_acl l).
  destruct (print_line_ok x Hx) as (Hn & Hlen & _). rewrite (fgets_line (print_line x)) by done. by rewrite IH.
Qed.

(** The mask keeps the bits above the host part. *)
Lemma land_mask x k : word 32 x → 0 ≤ k < 32 → Z.land x (w32 (0xFFFFFFFF ≪ k)) = x / 2 ^ k * 2 ^ k.
Proof.
  intros Hx Hk. rewrite <- Z.shiftr_div_pow2, <- Z.shiftl_mul_pow2 by lia. apply Z.bits_inj'. intros i Hi.
  rewrite Z.land_spec, testbit_wrap, Z.shiftl_spec, Z.shiftl_spec by lia. change 0xFFFFFFFF with (Z.ones 32).
  destruct (Z.ltb_spec i 32); cbn [andb].
  - destruct (decide (i < k)).
    + rewrite (Z.testbit_neg_r (Z.ones 32)), (Z.testbit_neg_r (x ≫ k)) by lia. apply andb_false_r.
    + rewrite Z.ones_spec_low by lia. rewrite Z.shiftr_spec by lia. rewrite andb_true_r. f_equal. lia.
  - rewrite andb_false_r, Z.shiftr_spec by lia. rewrite (testbit_word 32) by (done || lia). done.
Qed.

Lemma allowip_sum a b c d : word 8 a → word 8 b → word 8 c → word 8 d →
  Z.lor (Z.lor (Z.lor (a ≪ 24) (b ≪ 16)) (c ≪ 8)) d = a * 2 ^ 24 + b * 2 ^ 16 + c * 2 ^ 8 + d.
Proof.
  unfold word. intros Ha Hb Hc Hd. rewrite (lor_disjoint_add (b ≪ 16) a 24) by (rewrite ?Z.shiftl_mul_pow2; lia).
  assert (a * 2 ^ 24 + b ≪ 16 = (a * 2 ^ 8 + b) ≪ 16) as -> by (rewrite !Z.shiftl_mul_pow2; lia).
  rewrite (lor_disjoint_add (c ≪ 8) _ 16) by (rewrite ?Z.shiftl_mul_pow2; lia).
  assert ((a * 2 ^ 8 + b) * 2 ^ 16 + c ≪ 8 = ((a * 2 ^ 8 + b) * 2 ^ 8 + c) ≪ 8) as -> by (rewrite !Z.shiftl_mul_pow2; lia).
  rewrite (lor_disjoint_add d _ 8) by lia. lia.
Qed.

Lemma authorize_print l ip : word 32 ip → Forall acl_line_ok l →
  authorize_ip (Some (print_acl l)) ip tt = (Next (existsb (allows ip) l), tt) ∧
  authorize_ip None ip tt = (Next false, tt).
Proof.
  intros Hip Hl. split; [|done]. cbn [authorize_ip]. rewrite fgets_acl by done.
  induction Hl as [|x l Hx _ IH]; [done|]. cbn [fmap list_fmap authorize_loop existsb].
  change (list_fmap _ _ ?f l) with (f <$> l). destruct (print_line_ok x Hx) as (_ & _ & Hcut).
  destruct x as [a b c d len|text].
  - destruct Hcut as [-> Hne]. rewrite bool_decide_false by done. rewrite scan_print_line by done.
    destruct Hx as (Ha & Hb & Hc & Hd & Hlen). destruct (Z.leb_spec 0 (32 - len)); [|lia].
    destruct (Z.ltb_spec (32 - len) 32); [|lia]. cbn [andb]. erewrite bind_next by reflexivity. cbv zeta.
    rewrite allowip_sum by done. rewrite !land_mask; [|unfold word in *; lia|lia|done|lia].
    cbn [allows]. assert (0 < 2 ^ (32 - len)) by (apply Z.pow_pos_nonneg; lia).
    destruct (Z.eqb_spec (ip / 2 ^ (32 - len)) ((a * 2 ^ 24 + b * 2 ^ 16 + c * 2 ^ 8 + d) / 2 ^ (32 - len))) as [E|E].
    + rewrite E, Z.eqb_refl. done.
    + destruct (Z.eqb_spec (ip / 2 ^ (32 - len) * 2 ^ (32 - len))
        ((a * 2 ^ 24 + b * 2 ^ 16 + c * 2 ^ 8 + d) / 2 ^ (32 - len) * 2 ^ (32 - len))) as [E'|E']; [|exact IH].
      by apply Z.mul_cancel_r in E'; [|lia].
  - rewrite Hcut, bool_decide_true by done. exact IH.
Qed.

(** C25: An address is authorised exactly when a network of the list contains it;
    comments allow nothing, and without a file nobody is allowed. *)
Theorem authorize_ip_networks l ip : word 32 ip → Forall acl_line_ok l →
  authorize_ip (Some (print_acl l)) ip tt = (Next (existsb (allows ip) l), tt) ∧
  authorize_ip None ip tt = (Next false, tt).
Proof. apply authorize_print. Qed.

Lemma land_byte x k : 0 ≤ k → Z.land (x ≫ (8 * k)) 0xff = byte_at x k.
Proof.
  intros Hk. rewrite (land_ones_lit _ 8) by done. unfold byte_at, wrap. by rewrite Z.shiftr_div_pow2 by lia.
Qed.

Definition dotted (a b c d : Z) : string :=
  print 10 a ++ "." ++ print 10 b ++ "." ++ print 10 c ++ "." ++ print 10 d.

Lemma to_string_byte x : word 8 x → to_string x = print 10 x.
Proof. intros [Hx _]. unfold to_string. by destruct (Z.ltb_spec x 0); [lia|]. Qed.

Lemma str_take_all n s : (String.length s ≤ n)%nat → str_take n s = s.
Proof.
  revert s. induction n as [|n IH]; intros [|c s] Hs; cbn in *; [done|lia|done|]. f_equal. apply IH. lia.
Qed.

Lemma dotted_length a b c d : word 8 a → word 8 b → word 8 c → word 8 d → (String.length (dotted a b c d) ≤ 15)%nat.
Proof.
  intros Ha Hb Hc Hd. destruct (print_byte a Ha) as [_ La], (print_byte b Hb) as [_ Lb],
    (print_byte c Hc) as [_ Lc], (print_byte d Hd) as [_ Ld].
  unfold dotted. rewrite !length_str_app. cbn [String.length]. lia.
Qed.

Lemma ip2string_dotted ip : let text := dotted (byte_at ip 3) (byte_at ip 2) (byte_at ip 1) (byte_at ip 0) in
  ip2string ip 16 = (Z.of_nat (String.length text), text).
Proof.
  cbv zeta. pose proof (dotted_length _ _ _ _ (byte_at_word ip 3) (byte_at_word ip 2) (byte_at_word ip 1)
    (byte_at_word ip 0)) as Hlen.
  assert (Z.land ip 0xff = byte_at ip 0) as H0 by (rewrite <- (land_byte ip 0) by lia; by rewrite Z.shiftr_0_r).
  unfold ip2string. change (ip ≫ 24) with (ip ≫ (8 * 3)). change (ip ≫ 16) with (ip ≫ (8 * 2)).
  change (ip ≫ 8) with (ip ≫ (8 * 1)). rewrite H0, !land_byte by lia.
  rewrite !to_string_byte by apply byte_at_word. cbv zeta.
  fold (dotted (byte_at ip 3) (byte_at ip 2) (byte_at ip 1) (byte_at ip 0)).
  rewrite str_take_all; [done|exact Hlen].
Qed.

(** The text of an address fits the 16 bytes its callers provide, and read
    back as an entry of the list it gives the address. *)
Theorem ip2string_entry ip : word 32 ip →
  (ip2string ip 16).1 = Z.of_nat (String.length (ip2string ip 16).2) ∧ (ip2string ip 16).1 < 16 ∧
  ∃ a b c d, scan_network ((ip2string ip 16).2 ++ "/32") = Some (a, b, c, d, 32) ∧
    ip = a * 2 ^ 24 + b * 2 ^ 16 + c * 2 ^ 8 + d.
Proof.
  intros Hip. rewrite ip2string_dotted. cbn [fst snd]. split; [done|]. split.
  { pose proof (dotted_length _ _ _ _ (byte_at_word ip 3) (byte_at_word ip 2) (byte_at_word ip 1)
      (byte_at_word ip 0)). lia. }
  exists (byte_at ip 3), (byte_at ip 2), (byte_at ip 1), (byte_at ip 0). split; [|by apply word_bytes].
  rewrite <- (scan_print_line _ _ _ _ 32); [|by split_and!; try apply byte_at_word].
  unfold dotted, print_line. rewrite <- !str_app_assoc. done.
Qed.
End Acl.

(** The entry that should allow everybody shifts a 32-bit word by 32. *)
Lemma allow_all_undefined : authorize_ip (Some "0.0.0.0/0") 0x7f000001 tt = (Undef ShiftCount, tt).
Proof. vm_compute. reflexivity. Qed.

Lemma authorize_ip_networks_witness :
  let l := [Comment " lab"; Allow 192 168 0 0 16; Allow 10 0 0 7 32] in
  print_acl l = ("# lab" ++ newline ++ "192.168.0.0/16" ++ newline ++ "10.0.0.7/32" ++ newline)%string ∧
  authorize_ip (Some (print_acl l)) 0xc0a80105 tt = (Next true, tt) ∧
  authorize_ip (Some (print_acl l)) 0x0a000008 tt = (Next false, tt).
Proof.
  cbn zeta. split; [vm_compute; reflexivity|].
  assert (Forall acl_line_ok [Comment " lab"; Allow 192 168 0 0 16; Allow 10 0 0 7 32]) as Hl.
  { repeat constructor; cbn; lia. }
  split.
  - apply (authorize_ip_networks [Comment " lab"; Allow 192 168 0 0 16; Allow 10 0 0 7 32] 0xc0a80105); [by split|exact Hl].
  - apply (authorize_ip_networks [Comment " lab"; Allow 192 168 0 0 16; Allow 10 0 0 7 32] 0x0a000008); [by split|exact Hl].
Defined.

Lemma ip2string_entry_witness : ip2string 0xc0a80105 16 = (11, "192.168.1.5") ∧
  (ip2string 0xc0a80105 16).1 = Z.of_nat (String.length (ip2string 0xc0a80105 16).2) ∧
  (ip2string 0xc0a80105 16).1 < 16 ∧
  ∃ a b c d, scan_network ((ip2string 0xc0a80105 16).2 ++ "/32") = Some (a, b, c, d, 32) ∧
    0xc0a80105 = a * 2 ^ 24 + b * 2 ^ 16 + c * 2 ^ 8 + d.
Proof. split; [vm_compute; reflexivity|]. apply (ip2string_entry 0xc0a80105). by split. Defined.
