(* ===== verification/Ipbus.v ===== *)
(** * Ipbus: the transaction engine of the IPbus daemon

    [xcompile/ipbus/Client.cpp] from [process_frame] down.  The state of a
    call is the two deques it was given by reference and the bus behind the
    memory hub; the transaction header is a by-value parameter. *)

From S2P Require Import Prelude Words IpbusWire MemBus.

Section Ipbus.
Context {B : Type} {HB : MemBus B}.

Record pstate : Type := mk_pstate {
  request : list Z;
  response : list Z;
  memsvc_inited : bool;    (* the file's static flag *)
  bus : B
}.

Definition set_request (l : list Z) (s : pstate) : pstate :=
  mk_pstate l (response s) (memsvc_inited s) (bus s).
Definition set_response (l : list Z) (s : pstate) : pstate :=
  mk_pstate (request s) l (memsvc_inited s) (bus s).
Definition set_inited (b : bool) (s : pstate) : pstate :=
  mk_pstate (request s) (response s) b (bus s).
Definition set_bus (b : B) (s : pstate) : pstate :=
  mk_pstate (request s) (response s) (memsvc_inited s) b.

Section Statements.
Context {R : Type}.

(** [request.front()] followed by [request.pop_front()] *)
Definition request_pop : M pstate R Z := λ s,
  match request s with
  | [] => (Undef PopEmpty, s)
  | x :: l => (Next x, set_request l s)
  end.

Definition response_pop_front : M pstate R unit := λ s,
  match response s with
  | [] => (Undef PopEmpty, s)
  | _ :: l => (Next tt, set_response l s)
  end.

Definition push_back (x : Z) : M pstate R unit :=
  modify (λ s, set_response (response s ++ [x]) s).
Definition push_front (x : Z) : M pstate R unit :=
  modify (λ s, set_response (x :: response s) s).
Definition response_clear : M pstate R unit := modify (set_response []).

Definition on_bus {A} (m : Fn B A) : M pstate R A := λ s,
  match m (bus s) with
  | (Next a, b) => (Next a, set_bus b s)
  | (Return r, b) => match r : Empty_set with end
  | (Throw e, b) => (Throw e, set_bus b s)
  | (Undef u, b) => (Undef u, set_bus b s)
  | (Halt h, b) => (Halt h, set_bus b s)
  end.
End Statements.

(** [response.push_back(h.serialize()); return;] with the info code set *)
Definition reply_hdr {R} (h : IPBusTxnHdr) (c : Z) : M pstate R unit :=
  push_back (serialize (with_info h c)).

Definition modifyAddress (base_addr_ : Z) : Z :=
  let res := w32 (base_addr_ ≪ 2) in
  w32 (res + 0x64000000).

Definition process_read_txn (h : IPBusTxnHdr) : Fn pstate unit := fn (
  size ← gets (λ s, length (request s));
  if decide (size < 1)%nat then reply_hdr h BAD_HEADER ;; ret tt else
  base_addr ← request_pop;
  let base_addr := modifyAddress base_addr in
  '(rc, data) ← on_bus (memhub_read base_addr (words h));
  if rc =? 0 then
    reply_hdr h SUCCESS ;;
    for_each (seqZ 0 (words h)) (λ i,
      match data !! Z.to_nat i with
      | Some d => push_back d
      | None => undef Uninitialised
      end)
  else reply_hdr h BUSERR_READ).

(** The loop that fills [data]; it returns from the function when the
    request runs out. *)
Fixpoint fill_data (h : IPBusTxnHdr) (n : nat) (data : list Z) : M pstate unit (list Z) :=
  match n with
  | O => mret data
  | S n =>
      size ← gets (λ s, length (request s));
      if decide (size = 0)%nat then reply_hdr h BAD_HEADER ;; ret tt else
      d ← request_pop;
      fill_data h n (data ++ [d])
  end.

Definition process_write_txn (h : IPBusTxnHdr) : Fn pstate unit := fn (
  size ← gets (λ s, length (request s));
  if decide (Z.of_nat size < 1 + words h) then reply_hdr h BAD_HEADER ;; ret tt else
  base_addr ← request_pop;
  let base_addr := modifyAddress base_addr in
  data ← fill_data h (Z.to_nat (words h)) [];
  rc ← on_bus (memhub_write base_addr (words h) data);
  if rc =? 0 then reply_hdr h SUCCESS else reply_hdr h BUSERR_READ).

(** The loop of [process_niread_txn]: [words] single-word reads. *)
Fixpoint niread_loop (h : IPBusTxnHdr) (base_addr : Z) (n : nat) (rspdata : list Z)
    : M pstate unit (list Z) :=
  match n with
  | O => mret rspdata
  | S n =>
      '(rc, data) ← on_bus (memhub_read base_addr 1);
      if rc =? 0 then
        match data with
        | d :: _ => niread_loop h base_addr n (rspdata ++ [d])
        | [] => undef Uninitialised
        end
      else reply_hdr h BUSERR_READ ;; ret tt
  end.

Definition process_niread_txn (h : IPBusTxnHdr) : Fn pstate unit := fn (
  size ← gets (λ s, length (request s));
  if decide (size < 1)%nat then reply_hdr h BAD_HEADER ;; ret tt else
  base_addr ← request_pop;
  let base_addr := modifyAddress base_addr in
  rspdata ← niread_loop h base_addr (Z.to_nat (words h)) [];
  reply_hdr h SUCCESS ;;
  modify (λ s, set_response (response s ++ rspdata) s)).

Fixpoint niwrite_loop (h : IPBusTxnHdr) (base_addr : Z) (n : nat) : M pstate unit unit :=
  match n with
  | O => skip
  | S n =>
      d ← request_pop;
      rc ← on_bus (memhub_write base_addr 1 [d]);
      if rc =? 0 then niwrite_loop h base_addr n
      else reply_hdr h BUSERR_WRITE ;; ret tt
  end.

Definition process_niwrite_txn (h : IPBusTxnHdr) : Fn pstate unit := fn (
  size ← gets (λ s, length (request s));
  if decide (Z.of_nat size < 1 + words h) then reply_hdr h BAD_HEADER ;; ret tt else
  base_addr ← request_pop;
  let base_addr := modifyAddress base_addr in
  niwrite_loop h base_addr (Z.to_nat (words h)) ;;
  reply_hdr h SUCCESS).

Definition process_rmwbits_txn (h : IPBusTxnHdr) : Fn pstate unit := fn (
  size ← gets (λ s, length (request s));
  if decide (words h ≠ 1 ∨ (size < 3)%nat) then reply_hdr h BAD_HEADER ;; ret tt else
  base_addr ← request_pop;
  let base_addr := modifyAddress base_addr in
  and_term ← request_pop;
  or_term ← request_pop;
  '(rc, predata) ← on_bus (memhub_read base_addr 1);
  if negb (rc =? 0) then reply_hdr h BUSERR_READ ;; ret tt else
  match predata with
  | [] => undef Uninitialised
  | predata :: _ =>
      let data := Z.lor (Z.land predata and_term) or_term in
      rc ← on_bus (memhub_write base_addr 1 [data]);
      if negb (rc =? 0) then reply_hdr h BUSERR_WRITE ;; ret tt else
      reply_hdr h SUCCESS ;;
      push_back predata
  end).

Definition process_rmwsum_txn (h : IPBusTxnHdr) : Fn pstate unit := fn (
  size ← gets (λ s, length (request s));
  if decide (words h ≠ 1 ∨ (size < 2)%nat) then reply_hdr h BAD_HEADER ;; ret tt else
  base_addr ← request_pop;
  let base_addr := modifyAddress base_addr in
  addend ← request_pop;
  '(rc, predata) ← on_bus (memhub_read base_addr 1);
  if negb (rc =? 0) then reply_hdr h BUSERR_READ ;; ret tt else
  match predata with
  | [] => undef Uninitialised
  | predata :: _ =>
      let data := w32 (predata + addend) in
      rc ← on_bus (memhub_write base_addr 1 [data]);
      if negb (rc =? 0) then reply_hdr h BUSERR_WRITE ;; ret tt else
      reply_hdr h SUCCESS ;;
      push_back predata
  end).

Definition process_cfgread_txn (h : IPBusTxnHdr) : Fn pstate unit := fn (
  size ← gets (λ s, length (request s));
  if decide (size < 1)%nat then reply_hdr h BAD_HEADER ;; ret tt else
  request_pop ;;
  reply_hdr h SUCCESS ;;
  for_each (seqZ 0 (words h)) (λ _, push_back 0)).

(** The words to be ignored are popped from [response], not from
    [request], as in the source. *)
Definition process_cfgwrite_txn (h : IPBusTxnHdr) : Fn pstate unit := fn (
  size ← gets (λ s, length (request s));
  if decide (Z.of_nat size < 1 + words h) then reply_hdr h BAD_HEADER ;; ret tt else
  request_pop ;;
  for_each (seqZ 0 (words h)) (λ _, response_pop_front) ;;
  reply_hdr h SUCCESS).

Definition process_status_packet : Fn pstate unit := fn skip.

(** One turn of the [while] loop of [process_control_packet]; a [return]
    of it leaves the whole function. *)
Definition control_step : M pstate unit unit :=
  x ← request_pop;
  let h := parse_hdr x in
  if negb (protocol_version h =? 2) then response_clear ;; ret tt else
  if negb (info_code h =? 0xf) then response_clear ;; ret tt else
  if type_id h =? 0x0 then call (process_read_txn h) else
  if type_id h =? 0x1 then call (process_write_txn h) else
  if type_id h =? 0x2 then call (process_niread_txn h) else
  if type_id h =? 0x3 then call (process_niwrite_txn h) else
  if type_id h =? 0x4 then call (process_rmwbits_txn h) else
  if type_id h =? 0x5 then call (process_rmwsum_txn h) else
  if type_id h =? 0x6 then call (process_cfgread_txn h) else
  if type_id h =? 0x7 then call (process_cfgwrite_txn h) else
  reply_hdr h BAD_HEADER.

(** [while (request.size())] with [fuel] turns at most. *)
Fixpoint control_loop (fuel : nat) : M pstate unit unit :=
  match fuel with
  | O => skip
  | S fuel =>
      size ← gets (λ s, length (request s));
      if decide (size = 0)%nat then skip else
      control_step ;; control_loop fuel
  end.

Definition process_control_packet : Fn pstate unit := fn (
  size ← gets (λ s, length (request s));
  if decide (size < 1)%nat then ret tt else
  control_loop size).

Definition process_frame : Fn pstate unit := fn (
  inited ← gets memsvc_inited;
  (if negb inited then
     rc ← on_bus memhub_open;
     if negb (rc =? 0) then halt_with (HExit 1) else
     modify (set_inited true)
   else skip) ;;
  response_clear ;;
  size ← gets (λ s, length (request s));
  if decide (size < 1)%nat then ret tt else
  packet_header ← request_pop;
  '(packet_header, reverse_endian) ← (
    if Z.land packet_header 0xff0000f0 =? 0x200000f0 then
      mret (packet_header, false)
    else if Z.land packet_header 0x0f0000ff =? 0x0f000020 then
      modify (λ s, set_request (endian_swap (request s)) s) ;;
      mret (bswap32 packet_header, true)
    else ret tt);
  let packet_type := w8 (Z.land packet_header 0x0f) in
  (if packet_type =? 0x0 then call process_control_packet
   else if packet_type =? 0x1 then call process_status_packet
   else if packet_type =? 0x2 then ret tt
   else ret tt) ;;
  rsize ← gets (λ s, length (response s));
  if decide (rsize = 0)%nat then ret tt else
  push_front packet_header ;;
  when reverse_endian (modify (λ s, set_response (endian_swap (response s)) s))).
End Ipbus.
Arguments pstate B : clear implicits.

(** ** The loop over the transactions of a packet ends *)

Section Shrink.
Context {B : Type} {HB : MemBus B} {R : Type}.

(** The request holds at most [n] words. *)
Definition at_most (n : nat) (s : pstate B) : Prop := (length (request s) ≤ n)%nat.

Lemma keeps_request_pop n : keeps (R:=R) (at_most n) request_pop.
Proof.
  intros s Hs. unfold request_pop, at_most in *. destruct (request s) eqn:E; cbn in *; [|lia].
  by rewrite E.
Qed.
Lemma keeps_response_pop n : keeps (R:=R) (at_most n) response_pop_front.
Proof. intros s Hs. unfold response_pop_front. by destruct (response s). Qed.
Lemma keeps_push_back n x : keeps (R:=R) (at_most n) (push_back x).
Proof. by intros s ?. Qed.
Lemma keeps_append n l :
  keeps (R:=R) (at_most n) (modify (λ s, set_response (response s ++ l) s)).
Proof. by intros s ?. Qed.
Lemma keeps_clear n : keeps (R:=R) (at_most n) response_clear.
Proof. by intros s ?. Qed.
Lemma keeps_reply n h c : keeps (R:=R) (at_most n) (reply_hdr h c).
Proof. by intros s ?. Qed.
Lemma keeps_on_bus {A} n (m : Fn B A) : keeps (R:=R) (at_most n) (on_bus m).
Proof. intros s Hs. unfold on_bus. by destruct (m (bus s)) as [[|[]| | |] ?]. Qed.
End Shrink.

#[export] Hint Resolve keeps_request_pop keeps_response_pop keeps_push_back keeps_append
  keeps_clear keeps_reply keeps_on_bus : keeps.

Section Control.
Context {B : Type} {HB : MemBus B}.
Implicit Types s : pstate B.

Lemma keeps_fill_data n h k data : keeps (S := pstate B) (at_most n) (fill_data h k data).
Proof. revert data. induction k; intros; cbn; keeps_tac. Qed.
Lemma keeps_niread_loop n h a k data : keeps (S := pstate B) (at_most n) (niread_loop h a k data).
Proof. revert data. induction k; intros; cbn; keeps_tac. Qed.
Lemma keeps_niwrite_loop n h a k : keeps (S := pstate B) (at_most n) (niwrite_loop h a k).
Proof. induction k; intros; cbn; keeps_tac. Qed.
#[local] Hint Resolve keeps_fill_data keeps_niread_loop keeps_niwrite_loop : keeps.

(** After the header is popped no handler adds to the request. *)
Lemma control_step_shrinks s r s' : request s ≠ [] → control_step s = (r, s') →
  (length (request s') < length (request s))%nat.
Proof.
  intros Hne Hs. destruct (request s) as [|x l] eqn:E; [done|].
  unfold control_step in Hs. erewrite bind_next in Hs by (unfold request_pop; by rewrite E).
  match type of Hs with ?m ?t = _ => assert (keeps (at_most (length l)) m) as Hk; [|specialize (Hk t)] end.
  - unfold process_read_txn, process_write_txn, process_niread_txn, process_niwrite_txn,
      process_rmwbits_txn, process_rmwsum_txn, process_cfgread_txn, process_cfgwrite_txn.
    cbv zeta. keeps_tac.
  - rewrite Hs in Hk. unfold at_most in Hk. cbn in *. specialize (Hk ltac:(done)). lia.
Qed.

Lemma control_loop_nil k s : request s = [] → control_loop k s = (Next tt, s).
Proof. intros E. destruct k; [done|]. cbn. unfold gets, mbind, M_bind. by rewrite E. Qed.

Lemma control_loop_cons k s : request s ≠ [] →
  control_loop (S k) s = (control_step ;; control_loop k) s.
Proof.
  intros E. cbn [control_loop]. erewrite bind_next by done.
  case_decide as Hd; [|done]. by apply length_zero_iff_nil in Hd.
Qed.

(** Any fuel of at least the length of the request gives the same run, and
    a run that goes on has consumed the whole request. *)
Lemma control_loop_fuel k s : (length (request s) ≤ k)%nat →
  control_loop k s = control_loop (length (request s)) s ∧
  ∀ s', control_loop k s = (Next tt, s') → request s' = [].
Proof.
  remember (length (request s)) as n eqn:En. revert k s En.
  induction n as [n IH] using (well_founded_induction lt_wf). intros k s -> Hk.
  destruct (request s) as [|x l] eqn:E.
  { rewrite !control_loop_nil by done. split; [done|]. by intros ? [= <-]. }
  destruct k as [|k]; [cbn in Hk; lia|]. cbn [length] in *.
  rewrite !control_loop_cons by (by rewrite E).
  unfold mbind, M_bind. destruct (control_step s) as [r s1] eqn:Hs.
  apply control_step_shrinks in Hs; [|by rewrite E]. rewrite E in Hs. cbn in Hs.
  destruct r; [|done..].
  destruct (IH (length (request s1)) ltac:(lia) k s1 eq_refl ltac:(lia)) as [-> Hend].
  destruct (IH (length (request s1)) ltac:(lia) (length l) s1 eq_refl ltac:(lia)) as [-> _].
  split; [done|]. intros s'. destruct (IH (length (request s1)) ltac:(lia) (length (request s1)) s1 eq_refl ltac:(lia)) as [_ He].
  apply He.
Qed.

Lemma control_loop_enough s fuel : (length (request s) ≤ fuel)%nat →
  fn (control_loop fuel) s = process_control_packet s ∧
  ∀ s', control_loop fuel s = (Next tt, s') → request s' = [].
Proof.
  intros Hf. destruct (control_loop_fuel fuel s Hf) as [Heq Hend]. split; [|done].
  unfold process_control_packet, fn. erewrite bind_next by done. rewrite Heq.
  case_decide as Hd; [|done]. destruct (request s) eqn:E; [|cbn in Hd; lia].
  by rewrite control_loop_nil.
Qed.

(** C38: The loop over a control packet ends: each turn takes at least the header
    off the request, so the number of words of the request is enough fuel,
    and a run that completes has consumed the whole request. *)
Theorem control_packet_terminates s fuel : (length (request s) ≤ fuel)%nat →
  fn (control_loop fuel) s = process_control_packet s ∧
  ∀ s', control_loop fuel s = (Next tt, s') → request s' = [].
Proof. apply control_loop_enough. Qed.
End Control.

(** ** Loops that only push *)
Section Push.
Context {B : Type} {R : Type}.
Implicit Types s : pstate B.

Lemma push_all l (f : Z → M (pstate B) R unit) (g : Z → Z) s :
  (∀ x, x ∈ l → f x = push_back (g x)) →
  for_each l f s = (Next tt, set_response (response s ++ (g <$> l)) s).
Proof.
  revert s. induction l as [|x l IH]; intros s Hf; cbn.
  - destruct s; cbn. unfold set_response; cbn. by rewrite app_nil_r.
  - rewrite Hf by (apply elem_of_cons; by left). erewrite bind_next by reflexivity.
    rewrite IH by (intros; apply Hf; apply elem_of_cons; by right).
    destruct s; cbn. unfold set_response; cbn. by rewrite <- app_assoc.
Qed.

Lemma push_data data s :
  for_each (R:=R) (seqZ 0 (Z.of_nat (length data))) (λ i,
    match data !! Z.to_nat i with
    | Some d => push_back d
    | None => undef Uninitialised
    end) s = (Next tt, set_response (response s ++ data) s).
Proof.
  rewrite (push_all _ _ (λ i, default 0 (data !! Z.to_nat i))).
  - do 3 f_equal. apply list_eq. intros i. rewrite list_lookup_fmap.
    destruct (decide (i < length data)%nat) as [Hi|Hi].
    + rewrite lookup_seqZ_lt by lia. cbn. rewrite Z.add_0_l, Nat2Z.id.
      by destruct (lookup_lt_is_Some_2 data i Hi) as [d ->].
    + rewrite lookup_seqZ_ge by lia. by rewrite lookup_ge_None_2 by lia.
  - intros x [Hx1 Hx2]%elem_of_seqZ.
    destruct (lookup_lt_is_Some_2 data (Z.to_nat x)) as [d ->]; [lia|done].
Qed.

Lemma push_zeros n s :
  for_each (R:=R) (seqZ 0 (Z.of_nat n)) (λ _, push_back 0) s
    = (Next tt, set_response (response s ++ replicate n 0) s).
Proof.
  rewrite (push_all _ _ (λ _, 0)) by done. do 3 f_equal.
  apply list_eq. intros i. rewrite list_lookup_fmap.
  destruct (decide (i < n)%nat).
  - by rewrite lookup_seqZ_lt, lookup_replicate_2 by lia.
  - rewrite lookup_seqZ_ge, lookup_ge_None_2; [done|rewrite length_replicate; lia|lia].
Qed.
End Push.

Module IpbusExamples.
Import Ram.

(** A read whose address is missing, and a header of another version. *)
Lemma control_packet_terminates_witness :
  let s := mk_pstate (B := ram) [0x2001010f; 0x1001010f; 5] [] true ∅ in
  (length (request s) ≤ 3)%nat ∧ fn (control_loop 3) s = process_control_packet s ∧
  ∀ s', control_loop 3 s = (Next tt, s') → request s' = [].
Proof. split; [cbn; lia|]. apply control_packet_terminates. cbn. lia. Defined.
End IpbusExamples.
