(* ===== verification/IpbusSpec.v ===== *)
(** * IpbusSpec: what a control packet means

    The contract of the daemon's transaction engine as a small interpreter
    over a register file, and the proof that [Ipbus.process_control_packet]
    implements it on every bus of the class [RegisterBus]: transactions are
    executed in order, each on the registers the previous ones left, and the
    replies are returned in the same order.  Block transfers of more than one
    word are outside this contract, because the class says nothing of them
    (see [Memsvc] for what the library does with them). *)

From S2P Require Import Prelude Words IpbusWire MemBus Ipbus.

(** A transaction, without its identifier. *)
Inductive txn : Type :=
| TRead (addr : Z)
| TWrite (addr v : Z)
| TNiRead (addr : Z) (n : nat)
| TNiWrite (addr : Z) (vs : list Z)
| TRmwBits (addr and_term or_term : Z)
| TRmwSum (addr addend : Z)
| TCfgRead (addr : Z) (n : nat)
| TUnknown (ty : Z).

Definition txn_type (t : txn) : Z :=
  match t with
  | TRead _ => 0 | TWrite _ _ => 1 | TNiRead _ _ => 2 | TNiWrite _ _ => 3
  | TRmwBits _ _ _ => 4 | TRmwSum _ _ => 5 | TCfgRead _ _ => 6 | TUnknown ty => ty
  end.

Definition txn_words (t : txn) : Z :=
  match t with
  | TRead _ | TWrite _ _ | TRmwBits _ _ _ | TRmwSum _ _ => 1
  | TNiRead _ n | TCfgRead _ n => Z.of_nat n
  | TNiWrite _ vs => Z.of_nat (length vs)
  | TUnknown _ => 0
  end.

Definition txn_body (t : txn) : list Z :=
  match t with
  | TRead a | TNiRead a _ | TCfgRead a _ => [a]
  | TWrite a v => [a; v]
  | TNiWrite a vs => a :: vs
  | TRmwBits a x y => [a; x; y]
  | TRmwSum a x => [a; x]
  | TUnknown _ => []
  end.

Definition txn_hdr (id : Z) (t : txn) : IPBusTxnHdr :=
  mk_hdr 2 id (txn_words t) (txn_type t) REQUEST.

Definition encode (p : Z * txn) : list Z :=
  serialize (txn_hdr p.1 p.2) :: txn_body p.2.

(** ** The register file *)
Definition regs : Type := Z → option Z.

Definition upd (f : regs) (a v : Z) : regs := λ c, if decide (c = a) then Some v else f c.

Section Exec.
Variable wr : Z → bool.   (* the writeable addresses *)

Definition hdr_reply (p : Z * txn) (code : Z) : Z :=
  serialize (with_info (txn_hdr p.1 p.2) code).

(** The reply of one transaction and the registers after it. *)
Definition exec (p : Z * txn) (f : regs) : list Z * regs :=
  let H := hdr_reply p in
  match p.2 with
  | TRead a =>
      match f (modifyAddress a) with
      | Some v => ([H SUCCESS; v], f)
      | None => ([H BUSERR_READ], f)
      end
  | TWrite a v =>
      match f (modifyAddress a), wr (modifyAddress a) with
      | Some _, true => ([H SUCCESS], upd f (modifyAddress a) v)
      | _, _ => ([H BUSERR_READ], f)
      end
  | TNiRead a n =>
      match n, f (modifyAddress a) with
      | O, _ => ([H SUCCESS], f)
      | _, Some v => (H SUCCESS :: replicate n v, f)
      | _, None => ([H BUSERR_READ], f)
      end
  | TNiWrite a vs =>
      match last vs, f (modifyAddress a), wr (modifyAddress a) with
      | None, _, _ => ([H SUCCESS], f)
      | Some v, Some _, true => ([H SUCCESS], upd f (modifyAddress a) v)
      | Some _, _, _ => ([H BUSERR_WRITE], f)
      end
  | TRmwBits a x y =>
      match f (modifyAddress a), wr (modifyAddress a) with
      | None, _ => ([H BUSERR_READ], f)
      | Some v, false => ([H BUSERR_WRITE], f)
      | Some v, true => ([H SUCCESS; v], upd f (modifyAddress a) (Z.lor (Z.land v x) y))
      end
  | TRmwSum a x =>
      match f (modifyAddress a), wr (modifyAddress a) with
      | None, _ => ([H BUSERR_READ], f)
      | Some v, false => ([H BUSERR_WRITE], f)
      | Some v, true => ([H SUCCESS; v], upd f (modifyAddress a) (w32 (v + x)))
      end
  | TCfgRead _ n => (H SUCCESS :: replicate n 0, f)
  | TUnknown _ => ([H BAD_HEADER], f)
  end.

Fixpoint exec_all (ts : list (Z * txn)) (f : regs) : list Z * regs :=
  match ts with
  | [] => ([], f)
  | t :: ts =>
      let '(r, f) := exec t f in
      let '(rs, f) := exec_all ts f in
      (r ++ rs, f)
  end.

(** The fields of the transaction fit the wire.  A non-incrementing write
    of several words must not be refused: the handler then leaves its
    unwritten words in the request (see [niwrite_refused_desync]). *)
Definition txn_ok (f : regs) (p : Z * txn) : Prop :=
  word 12 p.1 ∧ word 8 (txn_words p.2) ∧
  match p.2 with
  | TWrite _ v => word 32 v
  | TNiWrite a vs => Forall (word 32) vs ∧
      ((length vs ≤ 1)%nat ∨ (is_Some (f (modifyAddress a)) ∧ wr (modifyAddress a) = true))
  | TRmwBits _ x y => word 32 x ∧ word 32 y
  | TUnknown ty => 8 ≤ ty < 16
  | _ => True
  end.

Lemma exec_mapped p f c : is_Some ((exec p f).2 c) ↔ is_Some (f c).
Proof.
  destruct p as [id []]; cbn; repeat case_match; cbn; try done;
    unfold upd; case_decide; subst; naive_solver.
Qed.

Lemma exec_all_mapped ts f c : is_Some ((exec_all ts f).2 c) ↔ is_Some (f c).
Proof.
  revert f. induction ts as [|t ts IH]; intros f; [done|]. cbn [exec_all].
  pose proof (exec_mapped t f c) as He. destruct (exec t f) as [r f1]. cbn [snd] in He.
  specialize (IH f1). destruct (exec_all ts f1) as [rs f2]. cbn [snd] in *. by rewrite IH.
Qed.

(** Whether a transaction is well-formed depends on which addresses are
    registers, not on what they hold. *)
Lemma txn_ok_mapped f g p : (∀ a, is_Some (g a) ↔ is_Some (f a)) → txn_ok f p → txn_ok g p.
Proof. intros Hfg. destruct p as [id []]; unfold txn_ok; cbn; try done. by rewrite Hfg. Qed.

Lemma txn_ok_exec p q f : txn_ok f q → txn_ok (exec p f).2 q.
Proof. apply txn_ok_mapped. intros a. apply exec_mapped. Qed.
End Exec.

(** The addresses a transaction uses. *)
Definition txn_on (dom : Z → Prop) (t : txn) : Prop :=
  match t with
  | TRead a | TWrite a _ | TNiRead a _ | TNiWrite a _ | TRmwBits a _ _ | TRmwSum a _ => dom (modifyAddress a)
  | TCfgRead _ _ | TUnknown _ => True
  end.

(** ** Registers on a bus

    All the engine relies on: as long as the bus is in the relation [rep] to
    the registers [f], a one-word access to one of the addresses [dom] does
    what it does on [f].  What the bus does at other addresses, and what else
    happens on it, is not said. *)
Class Shows {B : Type} {HB : MemBus B} (rep : B → regs → Prop) (wr : Z → bool) (dom : Z → Prop) : Prop := {
  shows_read b f a : rep b f → dom a → ∃ rc data b',
    memhub_read a 1 b = (Next (rc, data), b') ∧ rep b' f ∧
    match f a with Some v => rc = 0 ∧ data = [v] ∧ word 32 v | None => rc ≠ 0 end;
  shows_write b f a v : rep b f → dom a → word 32 v → ∃ rc b',
    memhub_write a 1 [v] b = (Next rc, b') ∧
    match f a, wr a with
    | Some _, true => rc = 0 ∧ rep b' (upd f a v)
    | _, _ => rc ≠ 0 ∧ rep b' f
    end;
  shows_ext b f g : (∀ c, f c = g c) → rep b f → rep b g
}.

(** A [RegisterBus] shows its registers, at every address. *)
Section Registers.
Context {B : Type} {HB : MemBus B} {HR : RegisterBus B}.
Variable wr : Z → bool.
Implicit Types (b : B) (f : regs).

Definition represents b f : Prop :=
  bus_ok b ∧ (∀ c, reg b c = f c) ∧ (∀ c, writeable b c = wr c).

Lemma read_represents b f a : represents b f → ∃ rc data b',
  memhub_read a 1 b = (Next (rc, data), b') ∧ represents b' f ∧
  match f a with Some v => rc = 0 ∧ data = [v] ∧ word 32 v | None => rc ≠ 0 end.
Proof.
  intros (Hok & Hf & Hw). destruct (f a) as [v|] eqn:E.
  - assert (reg b a = Some v) as Hv by by rewrite Hf.
    destruct (read_reg b a v Hok Hv) as (b' & Hr & ? & Hf' & Hw').
    exists 0, [v], b'. unfold represents. split_and!; try done.
    + intros. by rewrite Hf', Hf.
    + intros. by rewrite Hw', Hw.
    + by apply (reg_word b a).
  - destruct (read_unmapped b a Hok) as (rc & data & b' & Hr & ? & ? & Hf' & Hw'); [by rewrite Hf|].
    exists rc, data, b'. unfold represents. split_and!; try done.
    + intros. by rewrite Hf', Hf.
    + intros. by rewrite Hw', Hw.
Qed.

Lemma write_represents b f a v : represents b f → word 32 v → ∃ rc b',
  memhub_write a 1 [v] b = (Next rc, b') ∧
  match f a, wr a with
  | Some _, true => rc = 0 ∧ represents b' (upd f a v)
  | _, _ => rc ≠ 0 ∧ represents b' f
  end.
Proof.
  intros (Hok & Hf & Hw) Hv. destruct (decide (is_Some (f a) ∧ wr a = true)) as [[[x Hx] Hwr]|Hno].
  - destruct (write_reg b a x v Hok) as (b' & Hr & ? & Hf' & Hw'); [by rewrite Hf|by rewrite Hw|done|].
    exists 0, b'. rewrite Hx, Hwr. unfold represents, upd. split_and!; try done.
    + intros. by rewrite Hf', Hf.
    + intros. by rewrite Hw', Hw.
  - destruct (write_refused b a v Hok) as (rc & b' & Hr & ? & ? & Hf' & Hw'); [|done|].
    { rewrite Hf, Hw. destruct (f a); [right|by left]. destruct (wr a); naive_solver. }
    assert (represents b' f).
    { unfold represents. split_and!; [done|intros; by rewrite Hf', Hf|intros; by rewrite Hw', Hw]. }
    exists rc, b'. split; [done|]. destruct (f a), (wr a); naive_solver.
Qed.

Lemma represents_ext b f g : (∀ c, f c = g c) → represents b f → represents b g.
Proof. intros H (? & Hf & ?). split_and!; [done| |done]. intros. by rewrite <- H. Qed.

#[export] Instance represents_shows : Shows represents wr (λ _, True).
Proof.
  split.
  - intros b f a Hrep _. by apply read_represents.
  - intros b f a v Hrep _. by apply write_represents.
  - apply represents_ext.
Qed.
End Registers.

(** ** The engine implements the interpreter *)
Section Refinement.
Context {B : Type} {HB : MemBus B} {rep : B → regs → Prop} {wr : Z → bool} {dom : Z → Prop}.
Context {HS : Shows rep wr dom}.
Implicit Types (b : B) (f : regs).

Lemma on_bus_next {R A} (m : Fn B A) q r i b a b' :
  m b = (Next a, b') →
  on_bus (R:=R) m (mk_pstate q r i b) = (Next a, mk_pstate q r i b').
Proof. intros H. unfold on_bus; cbn. by rewrite H. Qed.

(** The handler of a transaction, run on its body. *)
Definition handles (m : Fn (pstate B) unit) (p : Z * txn) : Prop :=
  ∀ b f q r i, rep b f → txn_on dom p.2 → txn_ok wr f p → ∃ b',
    m (mk_pstate (txn_body p.2 ++ q) r i b)
      = (Next tt, mk_pstate q (r ++ (exec wr p f).1) i b') ∧
    rep b' (exec wr p f).2.

Ltac bus_read Hrep Hdom a :=
  let rc := fresh "rc" in let d := fresh "data" in let b' := fresh "b'" in
  let Hr := fresh "Hread" in let Hrep' := fresh "Hrep" in let Hm := fresh "Hmatch" in
  destruct (shows_read _ _ a Hrep Hdom) as (rc & d & b' & Hr & Hrep' & Hm).
Ltac bus_write Hrep Hdom a v Hv :=
  let rc := fresh "rc" in let b' := fresh "b'" in
  let Hr := fresh "Hwrite" in let Hm := fresh "Hmatch" in
  destruct (shows_write _ _ a v Hrep Hdom Hv) as (rc & b' & Hr & Hm).

(** One step of a run on a concrete request. *)
Ltac run_step :=
  first
  [ erewrite bind_next by reflexivity
  | erewrite bind_next by (apply on_bus_next; eassumption)
  | rewrite bind_bind
  | rewrite decide_False by (cbn [request length words txn_hdr txn_words]; rewrite ?length_app; lia)
  | rewrite decide_True by (cbn [request length words txn_hdr txn_words]; lia)
  | rewrite Z.eqb_refl
  | rewrite (proj2 (Z.eqb_neq _ 0)) by done ];
  cbn beta iota zeta delta [request response memsvc_inited bus set_request negb].
Ltac run_handler := unfold fn; repeat run_step.
Ltac replies :=
  run_handler; unfold push_back, modify, set_response; cbn [request response memsvc_inited bus];
  rewrite <- ?app_assoc; done.

Lemma handles_read id a : handles (process_read_txn (txn_hdr id (TRead a))) (id, TRead a).
Proof.
  intros b f q r i Hrep Hdom Hok. bus_read Hrep Hdom (modifyAddress a). exists b'.
  cbn [fst snd txn_body txn_on exec app] in *. unfold process_read_txn. run_handler.
  destruct (f (modifyAddress a)) as [v|].
  - destruct Hmatch as (-> & -> & Hv). split; [|done]. run_handler.
    change (words (txn_hdr id (TRead a))) with (Z.of_nat (length [v])).
    rewrite (push_data [v]). replies.
  - split; [|done]. replies.
Qed.

Lemma handles_write id a v :
  handles (process_write_txn (txn_hdr id (TWrite a v))) (id, TWrite a v).
Proof.
  intros b f q r i Hrep Hdom (Hid & Hw & Hv). cbn in Hv, Hdom.
  bus_write Hrep Hdom (modifyAddress a) v Hv. exists b'.
  cbn [fst snd txn_body txn_on exec app] in *. unfold process_write_txn. run_handler.
  change (Z.to_nat (words (txn_hdr id (TWrite a v)))) with 1%nat. cbn [fill_data]. run_handler.
  destruct (f (modifyAddress a)); [destruct (wr (modifyAddress a))|];
    destruct Hmatch as [? ?]; subst; (split; [replies|done]).
Qed.

Lemma niread_mapped h a v n data b f q r i : dom a → rep b f → f a = Some v → ∃ b',
  niread_loop h a n data (mk_pstate q r i b)
    = (Next (data ++ replicate n v), mk_pstate q r i b') ∧ rep b' f.
Proof.
  intros Hdom. revert data b. induction n as [|n IH]; intros data b Hrep Hv; cbn [niread_loop].
  { exists b. by rewrite app_nil_r. }
  bus_read Hrep Hdom a. rewrite Hv in Hmatch. destruct Hmatch as (-> & -> & _).
  destruct (IH (data ++ [v]) b' Hrep0 Hv) as (b'' & Hl & ?). exists b''.
  run_handler. rewrite Hl. split; [|done]. by rewrite <- app_assoc.
Qed.

Lemma niread_unmapped h a n data b f q r i : dom a → rep b f → f a = None → ∃ b',
  niread_loop h a (S n) data (mk_pstate q r i b)
    = (Return tt, mk_pstate q (r ++ [serialize (with_info h BUSERR_READ)]) i b') ∧
  rep b' f.
Proof.
  intros Hdom Hrep Hv. cbn [niread_loop]. bus_read Hrep Hdom a. rewrite Hv in Hmatch.
  exists b'. split; [|done]. run_handler. done.
Qed.

Lemma handles_niread id a n :
  handles (process_niread_txn (txn_hdr id (TNiRead a n))) (id, TNiRead a n).
Proof.
  intros b f q r i Hrep Hdom Hok. cbn [fst snd txn_body txn_on exec app] in *.
  unfold process_niread_txn, fn. run_handler.
  change (words (txn_hdr id (TNiRead a n))) with (Z.of_nat n). rewrite Nat2Z.id.
  destruct n as [|n]; [exists b; split; [cbn [niread_loop]; replies|done]|].
  destruct (f (modifyAddress a)) as [v|] eqn:Ev.
  - destruct (niread_mapped (txn_hdr id (TNiRead a (S n))) (modifyAddress a) v (S n) [] b f q r i Hdom Hrep Ev)
      as (b' & Hl & ?). exists b'. split; [|done].
    erewrite bind_next by (apply Hl). replies.
  - destruct (niread_unmapped (txn_hdr id (TNiRead a (S n))) (modifyAddress a) n [] b f q r i Hdom Hrep Ev)
      as (b' & Hl & ?). exists b'. split; [|done].
    erewrite bind_return by (apply Hl). done.
Qed.

Lemma niwrite_accepted h a vs b f q r i : dom a → rep b f →
  Forall (word 32) vs → is_Some (f a) → wr a = true → ∃ b',
  niwrite_loop h a (length vs) (mk_pstate (vs ++ q) r i b) = (Next tt, mk_pstate q r i b') ∧
  rep b' (match last vs with Some v => upd f a v | None => f end).
Proof.
  intros Hdom Hrep Hvs. revert b f Hrep. induction Hvs as [|v vs Hv _ IH]; intros b f Hrep Hf Hwr.
  { exists b. done. }
  cbn [niwrite_loop length app]. bus_write Hrep Hdom a v Hv.
  rewrite Hwr in Hmatch. destruct Hf as [x Hx]. rewrite Hx in Hmatch. destruct Hmatch as [-> Hrep'].
  destruct (IH b' (upd f a v)) as (b'' & Hl & Hrep''); [done| |done|].
  { unfold upd. by rewrite decide_True. }
  exists b''. run_handler. rewrite Hl. split; [done|].
  eapply shows_ext, Hrep''. intros c. rewrite last_cons.
  destruct (last vs); [|done]. unfold upd. by case_decide.
Qed.

Lemma niwrite_refused h a n v b f q r i : dom a → rep b f → word 32 v →
  ¬ (is_Some (f a) ∧ wr a = true) → ∃ b',
  niwrite_loop h a (S n) (mk_pstate (v :: q) r i b)
    = (Return tt, mk_pstate q (r ++ [serialize (with_info h BUSERR_WRITE)]) i b') ∧
  rep b' f.
Proof.
  intros Hdom Hrep Hv Hno. cbn [niwrite_loop]. bus_write Hrep Hdom a v Hv. exists b'.
  assert (rc ≠ 0 ∧ rep b' f) as [??]
    by (destruct (f a); [destruct (wr a); [naive_solver|]|]; done).
  split; [|done]. run_handler. done.
Qed.

Lemma handles_niwrite id a vs :
  handles (process_niwrite_txn (txn_hdr id (TNiWrite a vs))) (id, TNiWrite a vs).
Proof.
  intros b f q r i Hrep Hdom (_ & _ & Hvs & Hok). cbn [fst snd txn_body txn_on exec app] in *.
  unfold process_niwrite_txn, fn. run_handler.
  change (words (txn_hdr id (TNiWrite a vs))) with (Z.of_nat (length vs)). rewrite Nat2Z.id.
  destruct (decide (is_Some (f (modifyAddress a)) ∧ wr (modifyAddress a) = true)) as [[Hf Hwr]|Hno].
  - destruct (niwrite_accepted (txn_hdr id (TNiWrite a vs)) (modifyAddress a) vs b f q r i)
      as (b' & Hl & Hrep'); [done..|]. exists b'.
    erewrite bind_next by (apply Hl). cbn beta.
    destruct Hf as [x Hx]. rewrite Hx, Hwr. destruct (last vs); (split; [replies|done]).
  - destruct vs as [|v [|w vs]]; [exists b; split; [replies|done]| |cbn in Hok; naive_solver lia].
    inversion_clear Hvs.
    destruct (niwrite_refused (txn_hdr id (TNiWrite a [v])) (modifyAddress a) 0 v b f q r i)
      as (b' & Hl & ?); [done..|]. exists b'.
    erewrite bind_return by (apply Hl). cbn [last].
    destruct (f (modifyAddress a)); [destruct (wr (modifyAddress a)); [naive_solver|]|]; done.
Qed.

Lemma handles_rmwbits id a x y :
  handles (process_rmwbits_txn (txn_hdr id (TRmwBits a x y))) (id, TRmwBits a x y).
Proof.
  intros b f q r i Hrep Hdom (_ & _ & Hx & Hy). bus_read Hrep Hdom (modifyAddress a).
  cbn [fst snd txn_body txn_on exec app] in *. unfold process_rmwbits_txn. run_handler.
  destruct (f (modifyAddress a)) as [v|] eqn:Ev; [|exists b'; split; [replies|done]].
  destruct Hmatch as (-> & -> & Hv). run_handler.
  assert (word 32 (Z.lor (Z.land v x) y)) as Hd by (apply word_lor; auto with words lia).
  bus_write Hrep0 Hdom (modifyAddress a) (Z.lor (Z.land v x) y) Hd.
  exists b'0. rewrite Ev in Hmatch.
  destruct (wr (modifyAddress a)); destruct Hmatch; subst; (split; [replies|done]).
Qed.

Lemma handles_rmwsum id a x :
  handles (process_rmwsum_txn (txn_hdr id (TRmwSum a x))) (id, TRmwSum a x).
Proof.
  intros b f q r i Hrep Hdom _. bus_read Hrep Hdom (modifyAddress a).
  cbn [fst snd txn_body txn_on exec app] in *. unfold process_rmwsum_txn. run_handler.
  destruct (f (modifyAddress a)) as [v|] eqn:Ev; [|exists b'; split; [replies|done]].
  destruct Hmatch as (-> & -> & Hv). run_handler.
  pose proof (wrap_word 32 (v + x) ltac:(lia)) as Hd.
  bus_write Hrep0 Hdom (modifyAddress a) (w32 (v + x)) Hd.
  exists b'0. rewrite Ev in Hmatch.
  destruct (wr (modifyAddress a)); destruct Hmatch; subst; (split; [replies|done]).
Qed.

Lemma handles_cfgread id a n :
  handles (process_cfgread_txn (txn_hdr id (TCfgRead a n))) (id, TCfgRead a n).
Proof.
  intros b f q r i Hrep _ _. exists b. split; [|done].
  cbn [fst snd txn_body txn_on exec app] in *. unfold process_cfgread_txn. run_handler.
  change (words (txn_hdr id (TCfgRead a n))) with (Z.of_nat n). rewrite push_zeros. replies.
Qed.

Lemma txn_hdr_wf f p : txn_ok wr f p → hdr_wf (txn_hdr p.1 p.2).
Proof.
  destruct p as [id t]. intros (Hid & Hw & Ht). unfold hdr_wf, txn_hdr.
  cbn [fst snd protocol_version transaction_id words type_id info_code] in *.
  split_and!; [vm_decide|done|done| |vm_decide].
  unfold word. change (2 ^ 4) with 16. destruct t; cbn [txn_type]; lia.
Qed.

(** One turn of the loop executes one transaction. *)
Lemma control_step_exec p b f q r i : rep b f → txn_on dom p.2 → txn_ok wr f p → ∃ b',
  control_step (mk_pstate (encode p ++ q) r i b)
    = (Next tt, mk_pstate q (r ++ (exec wr p f).1) i b') ∧
  rep b' (exec wr p f).2.
Proof.
  intros Hrep Hdom Hok. pose proof (parse_serialize_hdr _ (txn_hdr_wf f p Hok)) as Hp.
  destruct p as [id t]. unfold control_step, encode in *. cbn [fst snd app] in *.
  erewrite bind_next by reflexivity. rewrite Hp. cbn beta zeta.
  assert (∀ m, handles m (id, t) → ∃ b',
    call (R:=unit) m (mk_pstate (txn_body t ++ q) r i b) =
      (Next tt, mk_pstate q (r ++ (exec wr (id, t) f).1) i b') ∧
    rep b' (exec wr (id, t) f).2) as Hcall.
  { intros m Hm. destruct (Hm b f q r i Hrep Hdom Hok) as (b' & Hr & ?). exists b'.
    split; [by apply call_next|done]. }
  destruct t; cbn [txn_hdr protocol_version info_code type_id txn_type negb].
  - apply Hcall, handles_read.
  - apply Hcall, handles_write.
  - apply Hcall, handles_niread.
  - apply Hcall, handles_niwrite.
  - apply Hcall, handles_rmwbits.
  - apply Hcall, handles_rmwsum.
  - apply Hcall, handles_cfgread.
  - exists b. destruct Hok as (_ & _ & Hty). cbn in Hty.
    change (2 =? 2) with true. change (REQUEST =? 15) with true. cbn [negb].
    rewrite !(proj2 (Z.eqb_neq ty _)) by lia. done.
Qed.

Lemma control_loop_exec ts b f r i n : rep b f → Forall (λ p, txn_on dom p.2) ts → Forall (txn_ok wr f) ts →
  (length ts ≤ n)%nat → ∃ b',
  control_loop n (mk_pstate (ts ≫= encode) r i b)
    = (Next tt, mk_pstate [] (r ++ (exec_all wr ts f).1) i b') ∧
  rep b' (exec_all wr ts f).2.
Proof.
  revert b f r n. induction ts as [|t ts IH]; intros b f r n Hrep Hon Hok Hn.
  { exists b. rewrite control_loop_nil by done. cbn. by rewrite app_nil_r. }
  inversion Hok as [|?? Ht Hts]; subst. apply Forall_cons in Hon as [Hot Hon]. destruct n as [|n]; [cbn in Hn; lia|].
  change ((t :: ts) ≫= encode) with (encode t ++ (ts ≫= encode)).
  rewrite control_loop_cons by (unfold encode; done).
  destruct (control_step_exec t b f (ts ≫= encode) r i Hrep Hot Ht) as (b1 & Hs & Hrep1).
  erewrite bind_next by (apply Hs). cbn beta.
  destruct (IH b1 (exec wr t f).2 (r ++ (exec wr t f).1) n) as (b2 & Hl & Hrep2); [done|done| |cbn in Hn; lia|].
  { eapply Forall_impl; [done|]. intros. by apply txn_ok_exec. }
  exists b2. rewrite Hl. cbn [exec_all]. destruct (exec wr t f) as [r1 f1]; cbn in *.
  destruct (exec_all wr ts f1) as [rs f2]; cbn in *. by rewrite app_assoc.
Qed.

Lemma length_encode_all ts : (length ts ≤ length (ts ≫= encode))%nat.
Proof.
  induction ts as [|t ts IH]; [done|].
  change ((t :: ts) ≫= encode) with (encode t ++ (ts ≫= encode)).
  rewrite length_app. unfold encode at 1. cbn [length]. lia.
Qed.

Lemma control_packet_shows ts b f r i : rep b f → Forall (λ p, txn_on dom p.2) ts → Forall (txn_ok wr f) ts → ∃ b',
  process_control_packet (mk_pstate (ts ≫= encode) r i b)
    = (Next tt, mk_pstate [] (r ++ (exec_all wr ts f).1) i b') ∧
  rep b' (exec_all wr ts f).2.
Proof.
  intros Hrep Hon Hok.
  destruct (control_loop_exec ts b f r i (length (ts ≫= encode)) Hrep Hon Hok (length_encode_all ts))
    as (b' & Hl & Hrep').
  exists b'. split; [|done]. rewrite <- (proj1 (control_loop_enough _ _ (le_n _))).
  unfold fn. cbn [request]. by rewrite Hl.
Qed.

End Refinement.

Lemma txn_on_all t : txn_on (λ _, True) t.
Proof. by destruct t. Qed.

Section AllRegisters.
Context {B : Type} {HB : MemBus B} {HR : RegisterBus B}.
Variable wr : Z → bool.
Implicit Types (b : B) (f : regs).

Lemma control_packet_exec ts b f r i : represents wr b f → Forall (txn_ok wr f) ts → ∃ b',
  process_control_packet (mk_pstate (ts ≫= encode) r i b)
    = (Next tt, mk_pstate [] (r ++ (exec_all wr ts f).1) i b') ∧
  represents wr b' (exec_all wr ts f).2.
Proof. intros Hrep. apply (control_packet_shows (rep := represents wr)); [done|]. apply Forall_true. intros. apply txn_on_all. Qed.

(** C8: A control packet that encodes a list of transactions is answered with
    the encodings of their replies, in order, and leaves the registers as
    executing the list does. *)
Theorem control_packet_refines ts b f r i : represents wr b f → Forall (txn_ok wr f) ts → ∃ b',
  process_control_packet (mk_pstate (ts ≫= encode) r i b)
    = (Next tt, mk_pstate [] (r ++ (exec_all wr ts f).1) i b') ∧
  represents wr b' (exec_all wr ts f).2.
Proof. apply control_packet_exec. Qed.
End AllRegisters.

(** ** Witness: a packet of five transactions on two registers *)
Import Ram.

Definition packet_example : list (Z * txn) :=
  [(1, TRead 0); (2, TWrite 0 7); (3, TRmwBits 1 0xF0 0x0F); (4, TNiRead 1 2); (5, TRead 9)].
Definition ram_example : gmap Z Z := {[ 0x64000000 := 5; 0x64000004 := 0xAB ]}.
Definition regs_example : regs := λ a, w32 <$> ram_example !! a.

Lemma control_packet_refines_witness :
  represents (λ _, true) ram_example regs_example ∧
  Forall (txn_ok (λ _, true) regs_example) packet_example ∧
  ∃ b', process_control_packet (mk_pstate (packet_example ≫= encode) [] true ram_example)
      = (Next tt, mk_pstate [] (exec_all (λ _, true) packet_example regs_example).1 true b') ∧
    represents (λ _, true) b' (exec_all (λ _, true) packet_example regs_example).2.
Proof.
  assert (represents (λ _, true) ram_example regs_example) as Hrep by by split_and!.
  assert (Forall (txn_ok (λ _, true) regs_example) packet_example) as Hok.
  { repeat constructor; vm_compute; intuition discriminate. }
  split; [exact Hrep|split; [exact Hok|]].
  exact (control_packet_refines (λ _, true) packet_example _ _ [] true Hrep Hok).
Defined.

(** What that packet is answered. *)
Example packet_example_reply :
  (exec_all (λ _, true) packet_example regs_example).1 =
  [0x20010100; 5; 0x20020110; 0x20030140; 0xAB; 0x20040220; 0xAF; 0xAF; 0x20050104].
Proof. vm_compute. reflexivity. Qed.
