(* ===== verification/IpbusFrame.v ===== *)
(** * IpbusFrame: packets and the byte streams around them

    [Client::process_frame]'s decision which packets are answered, and
    [Client::run_io], [Client::read_ready], [Client::write_ready] of
    [xcompile/ipbus/Client.cpp].  The kernel's answers to [recv] and [send]
    are arguments; [size_bits] is the width of [size_t]. *)

From S2P Require Import Prelude Words IpbusWire MemBus Ipbus IpbusSpec.

(** ** Which packets are answered *)

Lemma standard_header_low_byte h :
  word 32 h → Z.land h 0xff0000f0 = 0x200000f0 → byte_at h 3 = 0x20 ∧ byte_at h 0 / 16 = 0xf.
Proof.
  intros (n0 & n1 & n2 & n3 & n4 & n5 & n6 & n7 & -> & ? & ? & ? & ? & ? & ? & ? & ?)%word_nibbles.
  unfold of_nibbles at 1.
  change 0xff0000f0 with (0 + 16 * (15 + 16 * (0 + 16 * (0 + 16 * (0 + 16 * (0 + 16 * (15 + 16 * 15))))))).
  rewrite !land_nibble by lia. rewrite !Z.land_0_r, !(land_ones_lit _ 4 15) by (done || lia).
  rewrite !wrap_small by (unfold word; lia). intros E.
  assert (n1 = 15 ∧ n6 = 0 ∧ n7 = 2) as (-> & -> & ->) by lia.
  unfold byte_at, of_nibbles. change (2 ^ (8 * 3)) with 16777216. change (2 ^ (8 * 0)) with 1.
  change (2 ^ 8) with 256. split; Z.to_euclidean_division_equations; lia.
Qed.

Lemma reverse_header_top_nibble h :
  word 32 h → Z.land h 0x0f0000ff = 0x0f000020 → byte_at h 0 = 0x20 ∧ byte_at h 3 mod 16 = 0xf.
Proof.
  intros (n0 & n1 & n2 & n3 & n4 & n5 & n6 & n7 & -> & ? & ? & ? & ? & ? & ? & ? & ?)%word_nibbles.
  unfold of_nibbles at 1.
  change 0x0f0000ff with (15 + 16 * (15 + 16 * (0 + 16 * (0 + 16 * (0 + 16 * (0 + 16 * (15 + 16 * 0))))))).
  rewrite !land_nibble by lia. rewrite !Z.land_0_r, !(land_ones_lit _ 4 15) by (done || lia).
  rewrite !wrap_small by (unfold word; lia). intros E.
  assert (n0 = 0 ∧ n1 = 2 ∧ n6 = 15) as (-> & -> & ->) by lia.
  unfold byte_at, of_nibbles. change (2 ^ (8 * 3)) with 16777216. change (2 ^ (8 * 0)) with 1.
  change (2 ^ 8) with 256. split; Z.to_euclidean_division_equations; lia.
Qed.

(** A header that passes the reverse-endian test has packet type 15 once
    its bytes are swapped. *)
Lemma reverse_packet_type h : word 32 h → Z.land h 0x0f0000ff = 0x0f000020 →
  w8 (Z.land (bswap32 h) 0x0f) = 15.
Proof.
  intros Hw Hh. destruct (reverse_header_top_nibble h Hw Hh) as [_ Ht].
  rewrite (land_ones_lit _ 4 0x0f) by (done || lia). rewrite wrap_wrap_le by lia.
  unfold wrap, bswap32. change (2 ^ 4) with 16. change (2 ^ 24) with 16777216.
  change (2 ^ 16) with 65536. change (2 ^ 8) with 256.
  Z.to_euclidean_division_equations. lia.
Qed.

Section Frame.
Context {B : Type} {HB : MemBus B}.
Implicit Types s : pstate B.

(** [process_frame] once the memory service is connected. *)
Lemma process_frame_inited s : memsvc_inited s = true → request s = [] →
  process_frame s = (Next tt, set_response [] s).
Proof.
  intros Hi Hq. destruct s as [q r i b]; cbn in *; subst. reflexivity.
Qed.

(** The test of the packet header, as the source writes it. *)
Definition standard_header (h : Z) : bool := Z.land h 0xff0000f0 =? 0x200000f0.
Definition reverse_header (h : Z) : bool := Z.land h 0x0f0000ff =? 0x0f000020.

Lemma frame_tail ph rev q b :
  fn ((if w8 (Z.land ph 0x0f) =? 0 then call process_control_packet
       else if w8 (Z.land ph 0x0f) =? 1 then call process_status_packet
       else if w8 (Z.land ph 0x0f) =? 2 then ret () else ret ()) ;;
      rsize ← gets (λ s, length (response s));
      if decide (rsize = 0%nat) then ret () else
      push_front ph ;;
      when rev (modify (λ s, set_response (endian_swap (response s)) s)))
    (mk_pstate q [] true b) =
  if w8 (Z.land ph 0x0f) =? 0 then
    match process_control_packet (mk_pstate q [] true b) with
    | (Next _, s) =>
        (Next tt, match response s with [] => s
                  | l => set_response ((if rev then endian_swap else id) (ph :: l)) s end)
    | (Return v, s) => match v : Empty_set with end
    | (Throw e, s) => (Throw e, s) | (Undef u, s) => (Undef u, s) | (Halt x, s) => (Halt x, s)
    end
  else (Next tt, mk_pstate q [] true b).
Proof.
  unfold fn. destruct (_ =? 0); [|by destruct (_ =? 1); [|destruct (_ =? 2)]].
  unfold mbind, M_bind, call.
  destruct (process_control_packet (mk_pstate q [] true b)) as [[[]|[]| | |] s]; [|done..].
  unfold gets. destruct s as [q' [|y l] i b']; [done|by destruct rev].
Qed.

Lemma process_frame_cases h q r b :
  process_frame (mk_pstate (h :: q) r true b) =
  if standard_header h then
    if w8 (Z.land h 0x0f) =? 0 then
      match process_control_packet (mk_pstate q [] true b) with
      | (Next _, s) => (Next tt, match response s with [] => s | l => set_response (h :: l) s end)
      | (Return v, s) => match v : Empty_set with end
      | (Throw e, s) => (Throw e, s) | (Undef u, s) => (Undef u, s) | (Halt x, s) => (Halt x, s)
      end
    else (Next tt, mk_pstate q [] true b)
  else if reverse_header h then
    if w8 (Z.land (bswap32 h) 0x0f) =? 0 then
      match process_control_packet (mk_pstate (endian_swap q) [] true b) with
      | (Next _, s) =>
          (Next tt, match response s with [] => s
                    | l => set_response (endian_swap (bswap32 h :: l)) s end)
      | (Return v, s) => match v : Empty_set with end
      | (Throw e, s) => (Throw e, s) | (Undef u, s) => (Undef u, s) | (Halt x, s) => (Halt x, s)
      end
    else (Next tt, mk_pstate (endian_swap q) [] true b)
  else (Next tt, mk_pstate q [] true b).
Proof.
  unfold process_frame, standard_header, reverse_header, fn.
  repeat (first [erewrite bind_next by reflexivity | rewrite decide_False by (cbn; lia)];
    cbn beta iota zeta delta [memsvc_inited negb request response bus set_response]).
  destruct (_ =? 0x200000f0); [|destruct (_ =? 0x0f000020)]; [| |reflexivity].
  - erewrite bind_next by reflexivity. cbv beta iota. apply frame_tail.
  - erewrite bind_next by reflexivity. cbv beta iota. apply frame_tail.
Qed.

(** The first packet opens the memory service, once. *)
Lemma process_frame_opens q r b b' : memhub_open b = (Next 0, b') →
  process_frame (mk_pstate q r false b) = process_frame (mk_pstate q r true b').
Proof.
  intros Ho. unfold process_frame, fn.
  erewrite bind_next by reflexivity. erewrite (bind_next (gets memsvc_inited)) by reflexivity. cbn [memsvc_inited negb].
  erewrite (bind_next _ _ (mk_pstate q r true b') tt) by reflexivity.
  erewrite bind_next; [reflexivity|]. erewrite bind_next by (unfold on_bus; cbn [bus]; rewrite Ho; reflexivity).
  reflexivity.
Qed.

(** What answers a packet: nothing when no transaction replied. *)
Definition answer (h : Z) (replies : list Z) : list Z := match replies with [] => [] | _ => h :: replies end.

(** A control packet in host order is answered with its header and what
    [process_control_packet] replies. *)
Lemma process_frame_control h q r b s : standard_header h = true → Z.land h 0x0f = 0 →
  process_control_packet (mk_pstate q [] true b) = (Next tt, s) →
  process_frame (mk_pstate (h :: q) r true b) = (Next tt, set_response (answer h (response s)) s).
Proof.
  intros Hs Ht Hp. rewrite process_frame_cases, Hs, Ht. change (w8 0 =? 0) with true. cbv iota. rewrite Hp.
  destruct s as [q' [|x l] i b']; done.
Qed.

(** Only control packets with the header in host order are answered. *)
Theorem frame_answered h q r b s' : word 32 h →
  process_frame (mk_pstate (h :: q) r true b) = (Next tt, s') → response s' ≠ [] →
  Z.land h 0xff0000f0 = 0x200000f0 ∧ Z.land h 0x0f = 0.
Proof.
  intros Hw. rewrite process_frame_cases. unfold standard_header, reverse_header.
  destruct (Z.eqb_spec (Z.land h 0xff0000f0) 0x200000f0) as [Hs|_].
  - destruct (Z.eqb_spec (w8 (Z.land h 0x0f)) 0) as [H0|_]; [|by intros [= <-]].
    rewrite (land_ones_lit _ 4 0x0f), wrap_wrap_le in H0 by (done || lia).
    rewrite (land_ones_lit _ 4 0x0f) by (done || lia). done.
  - destruct (Z.eqb_spec (Z.land h 0x0f0000ff) 0x0f000020) as [Hr|_]; [|by intros [= <-]].
    rewrite reverse_packet_type by done. by intros [= <-].
Qed.

(** A control packet sent in the other byte order is dropped: nothing is
    answered and the bus is not touched. *)
Theorem reverse_endian_dropped h q r b : word 32 h →
  Z.land h 0xff0000f0 = 0x200000f0 → Z.land h 0x0f = 0 → ∃ q',
  process_frame (mk_pstate (endian_swap (h :: q)) r true b) = (Next tt, mk_pstate q' [] true b).
Proof.
  intros Hw Hs Ht. change (endian_swap (h :: q)) with (bswap32 h :: endian_swap q).
  rewrite process_frame_cases. unfold standard_header, reverse_header.
  destruct (Z.eqb_spec (Z.land (bswap32 h) 0xff0000f0) 0x200000f0) as [Hs'|_].
  - apply standard_header_low_byte in Hs'; [|apply bswap32_word].
    apply standard_header_low_byte in Hs; [|done].
    rewrite !byte_at_bswap32 in Hs' by lia. change (3 - 3) with 0 in Hs'.
    destruct Hs as [_ Hs], Hs' as [Hs' _]. rewrite Hs' in Hs. done.
  - destruct (Z.eqb_spec (Z.land (bswap32 h) 0x0f0000ff) 0x0f000020) as [Hr|_]; [|by eexists].
    rewrite reverse_packet_type; [by eexists|apply bswap32_word|done].
Qed.
End Frame.

(** ** Configuration-space writes *)
Section CfgWrite.
Context {B : Type} {HB : MemBus B}.

Lemma response_pops n : ∀ q r i (b : B) l, length l = n →
  for_each (R:=unit) l (λ _ : Z, response_pop_front) (mk_pstate q r i b) =
  if decide (n ≤ length r)%nat then (Next tt, mk_pstate q (drop n r) i b)
  else (Undef PopEmpty, mk_pstate q [] i b).
Proof.
  induction n as [|n IH]; intros q r i b [|x l] Hl; try done; cbn [for_each].
  destruct r as [|y r]; [done|].
  erewrite bind_next by reflexivity. cbn beta. unfold set_response.
  cbn [request response memsvc_inited bus]. rewrite IH by (by injection Hl).
  cbn [drop length]. repeat case_decide; done || lia.
Qed.

(** A configuration write takes the words it ignores out of [response]:
    the replies of earlier transactions are lost and its own data stay in
    the request; with fewer replies than words the deque is popped empty. *)
Theorem cfgwrite_pops_response h a q r i (b : B) : 0 ≤ words h ≤ Z.of_nat (length q) →
  process_cfgwrite_txn h (mk_pstate (a :: q) r i b) =
  if decide (words h ≤ Z.of_nat (length r))
  then (Next tt, mk_pstate q (drop (Z.to_nat (words h)) r ++ [serialize (with_info h SUCCESS)]) i b)
  else (Undef PopEmpty, mk_pstate q [] i b).
Proof.
  intros Hw. unfold process_cfgwrite_txn, fn. erewrite bind_next by reflexivity. cbn beta.
  rewrite decide_False by (cbn [request length]; lia).
  erewrite bind_next by reflexivity. cbn beta. unfold set_request.
  cbn [request response memsvc_inited bus].
  unfold mbind, M_bind. rewrite (response_pops (Z.to_nat (words h))) by (rewrite length_seqZ; lia).
  repeat case_decide; done || lia.
Qed.
End CfgWrite.

(** ** A refused multi-word non-incrementing write *)
Section Desync.
Context {B : Type} {HB : MemBus B} {HR : RegisterBus B}.

(** The first refused word ends the handler: the error is replied and the
    words not yet written stay at the front of the request, where the loop
    takes them for the next transaction headers. *)
Theorem niwrite_refused_desync wr f h a v vs q r i (b : B) :
  represents wr b f → word 32 v → words h = Z.of_nat (length (v :: vs)) →
  ¬ (is_Some (f (modifyAddress a)) ∧ wr (modifyAddress a) = true) → ∃ b',
  process_niwrite_txn h (mk_pstate (a :: v :: vs ++ q) r i b) =
    (Next tt, mk_pstate (vs ++ q) (r ++ [serialize (with_info h BUSERR_WRITE)]) i b') ∧
  represents wr b' f.
Proof.
  intros Hrep Hv Hw Hno.
  destruct (niwrite_refused (rep := represents wr) h (modifyAddress a) (length vs) v b f (vs ++ q) r i)
    as (b' & Hl & Hrep'); [done..|]. exists b'. split; [|done].
  unfold process_niwrite_txn, fn. erewrite bind_next by reflexivity. cbn beta.
  rewrite decide_False by (rewrite Hw; cbn [request length]; rewrite length_app; lia).
  erewrite bind_next by reflexivity. cbn beta zeta. rewrite Hw, Nat2Z.id. cbn [length].
  erewrite bind_return by (apply Hl). done.
Qed.
End Desync.

(** ** The byte stream of a client *)

(** What [recv] returned. *)
Inductive recv_result : Type :=
| RecvData (l : list Z)      (* at least one byte, at most 128 *)
| RecvEof                    (* 0: the peer closed *)
| RecvAgain                  (* -1 with errno EAGAIN *)
| RecvError.                 (* -1 with another errno *)

Section Client.
Context {B : Type} {HB : MemBus B}.
Variable size_bits : Z.    (* the width of size_t *)

Record client : Type := mk_client {
  ibuf : list Z;
  obuf : list Z;
  c_inited : bool;
  c_bus : B
}.

Definition MAX_OBUF : Z := 512 * 1024.

Definition write_ready (c : client) : bool := negb (Z.of_nat (length (obuf c)) =? 0).
Definition read_ready (c : client) : bool := Z.of_nat (length (obuf c)) <? MAX_OBUF.

(** The first four bytes of [ibuf.data()], the terminating NUL included. *)
Definition frame_size_of (l : list Z) : option Z :=
  match l with
  | b0 :: b1 :: b2 :: b3 :: _ => Some (bswap32 (le32 b0 b1 b2 b3))
  | [b0; b1; b2] => Some (bswap32 (le32 b0 b1 b2 0))
  | _ => None
  end.

(** [str.erase(0, n)] for a [size_t] count *)
Definition erase_front (n : Z) (l : list Z) : list Z :=
  drop (Z.to_nat (Z.min n (Z.of_nat (length l)))) l.

(** [str.substr(4, n)] of a string of at least four bytes *)
Definition substr4 (n : Z) (l : list Z) : list Z :=
  take (Z.to_nat (Z.min n (Z.of_nat (length l)))) (drop 4 l).

(** [process_frame(req, rsp)] on fresh deques. *)
Definition run_frame (req : list Z) : M client bool (list Z) := λ c,
  match process_frame (mk_pstate req [] (c_inited c) (c_bus c)) with
  | (Next _, s) => (Next (response s), mk_client (ibuf c) (obuf c) (memsvc_inited s) (bus s))
  | (Return v, s) => match v : Empty_set with end
  | (Throw e, s) => (Throw e, mk_client (ibuf c) (obuf c) (memsvc_inited s) (bus s))
  | (Undef u, s) => (Undef u, mk_client (ibuf c) (obuf c) (memsvc_inited s) (bus s))
  | (Halt h, s) => (Halt h, mk_client (ibuf c) (obuf c) (memsvc_inited s) (bus s))
  end.

Definition set_ibuf (l : list Z) (c : client) : client :=
  mk_client l (obuf c) (c_inited c) (c_bus c).
Definition set_obuf (l : list Z) (c : client) : client :=
  mk_client (ibuf c) l (c_inited c) (c_bus c).

(** The statement under [if (this->ibuf.size())]. *)
Definition extract_frame : M client bool unit :=
  buf ← gets ibuf;
  match frame_size_of buf with
  | None => undef OutOfBounds
  | Some frame_size =>
      if decide (wrap size_bits (Z.of_nat (length buf) - 4) ≤ frame_size) then
        if decide (length buf < 4)%nat then throw OutOfRange else
        let framedata := substr4 frame_size buf in
        modify (set_ibuf (erase_front (w32 (4 + frame_size)) buf)) ;;
        match str2vec framedata with
        | None => undef OutOfBounds
        | Some req =>
            rsp ← run_frame req;
            let frame_size := bswap32 (w32 (Z.of_nat (length rsp) * 4)) in
            modify (λ c, set_obuf (obuf c ++ bytes_of_word frame_size ++ vec2str rsp) c)
        end
      else skip
  end.

(** [rx] is what [recv] returned, [writecount] what [send] returned (-1 on
    an error); the result is [false] to disconnect. *)
Definition run_io (rx : recv_result) (writecount : Z) : Fn client bool := fn (
  match rx with
  | RecvError => ret false
  | RecvAgain => throw LengthError          (* std::string(buf, -1) *)
  | RecvEof => skip
  | RecvData l => modify (λ c, set_ibuf (ibuf c ++ l) c)
  end ;;
  buf ← gets ibuf;
  when (negb (bool_decide (buf = []))) extract_frame ;;
  out ← gets obuf;
  when (negb (bool_decide (out = [])))
    (modify (set_obuf (erase_front (wrap size_bits writecount) out))) ;;
  mret true).
End Client.
Arguments client B : clear implicits.

(** ** Properties of the byte stream *)

(** A payload with its length prefix, in network order. *)
Definition frame (payload : list Z) : list Z :=
  bytes_of_word (bswap32 (w32 (Z.of_nat (length payload)))) ++ payload.

Section ClientLemmas.
Context {B : Type} {HB : MemBus B}.
Variable size_bits : Z.
Hypothesis size_bits_ok : 32 ≤ size_bits.
Implicit Types c : client B.

Lemma frame_size_of_frame payload : frame_size_of (frame payload) = Some (w32 (Z.of_nat (length payload))).
Proof.
  unfold frame, frame_size_of, bytes_of_word. cbn [app].
  rewrite le32_bytes by apply bswap32_word.
  by rewrite bswap32_involutive by (apply wrap_word; lia).
Qed.

Lemma frame_size_word buf n : Forall (word 8) buf → frame_size_of buf = Some n → word 32 n.
Proof.
  unfold frame_size_of. destruct buf as [|b0 [|b1 [|b2 [|b3 l]]]]; try done;
    intros _ [= <-]; apply bswap32_word.
Qed.

Lemma erase_front_all n l : Z.of_nat (length l) ≤ n → erase_front n l = [].
Proof. intros. unfold erase_front. apply drop_ge. lia. Qed.

Lemma substr4_all n l : Z.of_nat (length l) - 4 ≤ n → (4 ≤ length l)%nat → substr4 n l = drop 4 l.
Proof. intros. unfold substr4. apply take_ge. rewrite length_drop. lia. Qed.

(** The engine runs on whatever follows the length, as soon as that is no
    longer than the length announces. *)
Lemma extract_frame_runs c n req s' :
  frame_size_of (ibuf c) = Some n → (4 ≤ length (ibuf c))%nat →
  Z.of_nat (length (ibuf c)) < 2 ^ 32 → Z.of_nat (length (ibuf c)) ≤ 4 + n → 4 + n < 2 ^ 32 →
  str2vec (drop 4 (ibuf c)) = Some req →
  process_frame (mk_pstate req [] (c_inited c) (c_bus c)) = (Next tt, s') →
  extract_frame size_bits c =
    (Next tt, mk_client [] (obuf c ++ frame (vec2str (response s'))) (memsvc_inited s') (bus s')).
Proof.
  intros Hn Hlen Hmax Hle Hn32 Hreq Hrun. unfold extract_frame.
  assert (2 ^ 32 ≤ 2 ^ size_bits) by (apply Z.pow_le_mono_r; lia).
  erewrite bind_next by reflexivity. cbn beta. rewrite Hn.
  rewrite decide_True by (rewrite wrap_small by (unfold word; lia); lia).
  rewrite decide_False by lia. cbn zeta. erewrite bind_next by reflexivity. cbn beta.
  rewrite substr4_all, Hreq by lia.
  rewrite erase_front_all by (rewrite wrap_small by (unfold word; lia); lia).
  erewrite bind_next.
  2: { unfold run_frame, set_ibuf; cbn. by rewrite Hrun. }
  cbn zeta. unfold modify, set_obuf, frame; cbn [ibuf obuf c_inited c_bus].
  by rewrite length_vec2str, (Nat2Z.inj_mul 4), (Z.mul_comm (Z.of_nat 4)).
Qed.

(** The words of the first [k] of a frame. *)
Lemma take_frame k req : (k ≤ length req)%nat → ∃ pre,
  take (4 + 4 * k) (frame (vec2str req)) = pre ++ vec2str (take k req) ∧ length pre = 4%nat ∧
  frame_size_of (take (4 + 4 * k) (frame (vec2str req))) = Some (w32 (Z.of_nat (length (vec2str req)))).
Proof.
  intros Hk. exists (bytes_of_word (bswap32 (w32 (Z.of_nat (length (vec2str req)))))).
  assert (take (4 + 4 * k) (frame (vec2str req)) =
    bytes_of_word (bswap32 (w32 (Z.of_nat (length (vec2str req))))) ++ vec2str (take k req)) as E.
  { unfold frame. rewrite take_app_add' by done. by rewrite take_vec2str. }
  split_and!; [exact E|done|]. rewrite E. exact (frame_size_of_frame (vec2str req)).
Qed.

(** [run_io] when a run of the engine is due, and when none is. *)
Lemma run_io_extracted c l writecount c' : ibuf c ++ l ≠ [] →
  extract_frame size_bits (set_ibuf (ibuf c ++ l) c) = (Next tt, c') →
  run_io size_bits (RecvData l) writecount c =
    (Next true, set_obuf (erase_front (wrap size_bits writecount) (obuf c')) c').
Proof.
  intros Hne Hx. unfold run_io, fn. erewrite bind_next by reflexivity. cbn beta.
  erewrite bind_next by reflexivity. cbn beta. cbn [ibuf set_ibuf]. rewrite bool_decide_eq_false_2 by done.
  cbn [negb when]. erewrite bind_next by exact Hx. cbn beta. erewrite bind_next by reflexivity. cbn beta.
  case_bool_decide as Ho; cbn [negb when].
  - erewrite bind_next by reflexivity. rewrite Ho. destruct c'; cbn in *; subst. unfold erase_front. by rewrite drop_nil.
  - by erewrite bind_next by reflexivity.
Qed.

(** [k] words of a frame have come: the engine takes them for the packet. *)
Lemma run_io_part c l req k s' writecount : (k ≤ length req)%nat →
  ibuf c ++ l = take (4 + 4 * k) (frame (vec2str req)) → Forall (word 32) req →
  4 + Z.of_nat (length (vec2str req)) < 2 ^ 32 →
  process_frame (mk_pstate (take k req) [] (c_inited c) (c_bus c)) = (Next tt, s') →
  run_io size_bits (RecvData l) writecount c =
    (Next true, mk_client []
      (erase_front (wrap size_bits writecount) (obuf c ++ frame (vec2str (response s'))))
      (memsvc_inited s') (bus s')).
Proof.
  intros Hk Hbuf Hreq Hlen Hrun. destruct (take_frame k req Hk) as (pre & Htk & Hpre & Hfs).
  rewrite <- Hbuf in Htk, Hfs. rewrite wrap_small in Hfs by (unfold word; lia).
  assert (length (vec2str (take k req)) ≤ length (vec2str req))%nat as Hle
    by (rewrite !length_vec2str, length_take; lia).
  refine (run_io_extracted c l writecount (mk_client [] _ _ _) _ _).
  { rewrite Htk. by destruct pre. }
  apply (extract_frame_runs (set_ibuf (ibuf c ++ l) c) _ (take k req) s' Hfs); [..|exact Hrun];
    cbn [ibuf set_ibuf]; rewrite ?Htk, ?length_app, ?Hpre; [lia..|].
  rewrite drop_app_length' by done. apply str2vec_vec2str. by apply Forall_take.
Qed.

Lemma run_io_frame c l req s' writecount :
  ibuf c ++ l = frame (vec2str req) → Forall (word 32) req →
  4 + Z.of_nat (length (vec2str req)) < 2 ^ 32 →
  process_frame (mk_pstate req [] (c_inited c) (c_bus c)) = (Next tt, s') →
  run_io size_bits (RecvData l) writecount c =
    (Next true, mk_client []
      (erase_front (wrap size_bits writecount) (obuf c ++ frame (vec2str (response s'))))
      (memsvc_inited s') (bus s')).
Proof.
  intros Hbuf Hreq Hlen Hrun. apply (run_io_part c l req (length req)); [done| |done|done|].
  - rewrite Hbuf, take_ge; [done|]. unfold frame. rewrite length_app, length_vec2str. cbn. lia.
  - by rewrite take_ge.
Qed.

(** The input buffer holds more than one frame. *)
Definition overfull c : Prop :=
  Forall (word 8) (ibuf c) ∧ Z.of_nat (length (ibuf c)) < 2 ^ 32 ∧
  ∃ n, frame_size_of (ibuf c) = Some n ∧ 4 + n < Z.of_nat (length (ibuf c)).

Lemma frame_size_of_app l k n : (4 ≤ length l)%nat →
  frame_size_of l = Some n → frame_size_of (l ++ k) = Some n.
Proof. destruct l as [|? [|? [|? [|]]]]; cbn; lia || done. Qed.

Lemma extract_frame_overfull c : overfull c → extract_frame size_bits c = (Next tt, c).
Proof.
  intros (Hb & Hlen & n & Hn & Hlt). pose proof (frame_size_word _ _ Hb Hn) as [? ?].
  assert (2 ^ 32 ≤ 2 ^ size_bits) by (apply Z.pow_le_mono_r; lia).
  unfold extract_frame. erewrite bind_next by reflexivity. cbn beta. rewrite Hn.
  rewrite decide_False; [done|]. rewrite wrap_small by (unfold word; lia). lia.
Qed.

Lemma overfull_frame req rest c : ibuf c = frame (vec2str req) ++ rest → rest ≠ [] → Forall (word 8) rest →
  4 + Z.of_nat (length (vec2str req) + length rest) < 2 ^ 32 → overfull c.
Proof.
  intros Hc Hne Hr Hlen. unfold overfull. rewrite Hc.
  assert (length rest ≠ 0)%nat by by destruct rest.
  assert (length (frame (vec2str req)) = 4 + length (vec2str req))%nat as Hfl by (unfold frame; by rewrite length_app).
  split_and!.
  - apply Forall_app. split; [|done]. unfold frame. apply Forall_app. split; [apply bytes_of_word_bytes|].
    apply vec2str_bytes.
  - rewrite length_app, Hfl. lia.
  - exists (Z.of_nat (length (vec2str req))). split.
    + rewrite (frame_size_of_app _ _ (Z.of_nat (length (vec2str req)))); [done|lia|].
      rewrite frame_size_of_frame, wrap_small by (unfold word; lia). done.
    + rewrite length_app, Hfl. lia.
Qed.

(** More than a frame in the buffer: only the output moves. *)
Lemma run_io_overfull c l writecount : overfull (set_ibuf (ibuf c ++ l) c) →
  run_io size_bits (RecvData l) writecount c =
    (Next true, mk_client (ibuf c ++ l) (erase_front (wrap size_bits writecount) (obuf c)) (c_inited c) (c_bus c)).
Proof.
  intros Hover. refine (run_io_extracted c l writecount (set_ibuf (ibuf c ++ l) c) _ _); [|by apply extract_frame_overfull].
  destruct Hover as (_ & _ & n & Hn & _). cbn in Hn. by intros E; rewrite E in Hn.
Qed.

(** Once more than one frame is buffered, no later call of [run_io] runs
    the engine again: whatever arrives, the bus is not touched, nothing is
    added to the output and the buffer only grows. *)
Theorem run_io_overfull_starves c l writecount :
  overfull c → Forall (word 8) l → Z.of_nat (length (ibuf c ++ l)) < 2 ^ 32 →
  ∃ c', run_io size_bits (RecvData l) writecount c = (Next true, c') ∧
    overfull c' ∧ ibuf c' = ibuf c ++ l ∧ c_bus c' = c_bus c ∧ obuf c' `suffix_of` obuf c.
Proof.
  intros (Hb & Hlen & n & Hn & Hlt) Hl Hlen'. pose proof (frame_size_word _ _ Hb Hn) as [? _].
  assert (overfull (set_ibuf (ibuf c ++ l) c)) as Hover.
  { split_and!; cbn; [by apply Forall_app|done|]. exists n. split; [apply frame_size_of_app; [lia|done]|].
    rewrite length_app. lia. }
  eexists. split; [by apply run_io_overfull|]. split; [exact Hover|]. split_and!; [done..|].
  apply suffix_drop.
Qed.

(** C16: What a call of [run_io] makes of the bytes of a frame, when nothing of it
    has been taken before.  As soon as the length and some words [k] of it are
    there the engine is run on those words as if they were the packet - on the
    whole packet when [k] is all of them - the input buffer is emptied and the
    frame of the response added to the output, of which [send] takes its part.
    With any byte of a following frame behind it the frame is not run at all. *)
Theorem run_io_serves_frame c l req k rest writecount : (k ≤ length req)%nat → Forall (word 32) req →
  Forall (word 8) rest → 4 + Z.of_nat (length (vec2str req ++ rest)) < 2 ^ 32 →
  (∀ s', ibuf c ++ l = take (4 + 4 * k) (frame (vec2str req)) →
    process_frame (mk_pstate (take k req) [] (c_inited c) (c_bus c)) = (Next tt, s') →
    run_io size_bits (RecvData l) writecount c =
      (Next true, mk_client []
        (erase_front (wrap size_bits writecount) (obuf c ++ frame (vec2str (response s'))))
        (memsvc_inited s') (bus s'))) ∧
  (ibuf c ++ l = frame (vec2str req) ++ rest → rest ≠ [] →
    run_io size_bits (RecvData l) writecount c =
      (Next true, mk_client (ibuf c ++ l) (erase_front (wrap size_bits writecount) (obuf c)) (c_inited c) (c_bus c))).
Proof.
  intros Hk Hreq Hrest Hlen. rewrite length_app in Hlen. split.
  { intros s' Hbuf Hrun. apply (run_io_part c l req k s' writecount Hk Hbuf Hreq); [lia|done]. }
  intros Hbuf Hne. apply run_io_overfull. apply (overfull_frame req rest); cbn [ibuf set_ibuf]; [done..|lia].
Qed.
End ClientLemmas.

(** ** Witnesses *)
Import Ram.

Lemma frame_answered_witness :
  let s := mk_pstate (0x200000f0 :: encode (1, TRead 0)) [] true ram_example in
  let s' := (process_frame s).2 in
  word 32 0x200000f0 ∧ process_frame s = (Next tt, s') ∧ response s' ≠ [] ∧
  Z.land 0x200000f0 0xff0000f0 = 0x200000f0 ∧ Z.land 0x200000f0 0x0f = 0.
Proof.
  cbv zeta. split; [vm_decide|]. split; [vm_compute; reflexivity|]. split; [vm_compute; discriminate|].
  apply (frame_answered 0x200000f0 (encode (1, TRead 0)) [] ram_example
    (process_frame (mk_pstate (0x200000f0 :: encode (1, TRead 0)) [] true ram_example)).2);
    [vm_decide|vm_compute; reflexivity|vm_compute; discriminate].
Defined.

Lemma reverse_endian_dropped_witness :
  word 32 0x200000f0 ∧ Z.land 0x200000f0 0xff0000f0 = 0x200000f0 ∧ Z.land 0x200000f0 0x0f = 0 ∧ ∃ q',
    process_frame (mk_pstate (endian_swap (0x200000f0 :: encode (1, TRead 0))) [] true ram_example)
      = (Next tt, mk_pstate q' [] true ram_example).
Proof.
  split; [vm_decide|]. split; [reflexivity|]. split; [reflexivity|].
  apply (reverse_endian_dropped 0x200000f0); [vm_decide|reflexivity|reflexivity].
Defined.

Lemma cfgwrite_pops_response_witness :
  let h := mk_hdr 2 1 1 7 REQUEST in
  0 ≤ words h ≤ Z.of_nat (length [42]) ∧
  process_cfgwrite_txn h (mk_pstate [0; 42] [] true ram_example)
    = (Undef PopEmpty, mk_pstate [42] [] true ram_example) ∧
  process_cfgwrite_txn h (mk_pstate [0; 42] [7; 8] true ram_example)
    = (Next tt, mk_pstate [42] [8; serialize (with_info h SUCCESS)] true ram_example).
Proof.
  cbv zeta. split; [vm_compute; split; discriminate|]. split.
  - rewrite (cfgwrite_pops_response (mk_hdr 2 1 1 7 REQUEST) 0 [42] [] true ram_example);
      [reflexivity|vm_compute; split; discriminate].
  - rewrite (cfgwrite_pops_response (mk_hdr 2 1 1 7 REQUEST) 0 [42] [7; 8] true ram_example);
      [reflexivity|vm_compute; split; discriminate].
Defined.

Lemma niwrite_refused_desync_witness :
  let h := mk_hdr 2 1 2 3 REQUEST in
  represents (λ _, true) ram_example regs_example ∧ word 32 5 ∧
  words h = Z.of_nat (length [5; 6]) ∧
  ¬ (is_Some (regs_example (modifyAddress 9)) ∧ true = true) ∧ ∃ b',
    process_niwrite_txn h (mk_pstate [9; 5; 6] [] true ram_example) =
      (Next tt, mk_pstate [6] [serialize (with_info h BUSERR_WRITE)] true b') ∧
    represents (λ _, true) b' regs_example.
Proof.
  cbv zeta. assert (¬ (is_Some (regs_example (modifyAddress 9)) ∧ true = true)) as Hno.
  { intros [[x Hx] _]. vm_compute in Hx. discriminate. }
  split; [by split_and!|]. split; [vm_decide|]. split; [reflexivity|]. split; [exact Hno|].
  apply (niwrite_refused_desync (λ _, true) regs_example (mk_hdr 2 1 2 3 REQUEST) 9 5 [6] [] [] true
    ram_example); [by split_and!|vm_decide|reflexivity|exact Hno].
Defined.

(** A read packet arriving in pieces: three bytes are not enough to look at
    the length; without its last word it is a read without an address; with a
    byte of the next frame it is not run. *)
Definition request_example : list Z := 0x200000f0 :: encode (1, TRead 0).
Definition client_example : client ram := mk_client (take 3 (frame (vec2str request_example))) [] true ram_example.

Lemma run_io_serves_frame_witness :
  let buf := frame (vec2str request_example) in
  run_io 64 (RecvData (take 3 buf)) 0 (mk_client [] [] true ram_example) = (Next true, client_example) ∧
  run_io 64 (RecvData (drop 3 buf)) 12 client_example =
    (Next true, mk_client [] (vec2str [5]) true ram_example) ∧
  run_io 64 (RecvData (drop 3 (take 12 buf))) 0 client_example =
    (Next true, mk_client []
      (frame (vec2str [0x200000f0; serialize (mk_hdr 2 1 1 0 BAD_HEADER)])) true ram_example) ∧
  run_io 64 (RecvData (drop 3 buf ++ [7])) 0 client_example =
    (Next true, mk_client (buf ++ [7]) [] true ram_example).
Proof.
  cbv zeta. split; [vm_compute; reflexivity|]. split_and!.
  - rewrite (proj1 (run_io_serves_frame 64 ltac:(lia) client_example (drop 3 (frame (vec2str request_example)))
      request_example 3 [] 12 ltac:(vm_decide) ltac:(vm_decide) ltac:(vm_decide) ltac:(vm_compute; reflexivity))
      (process_frame (mk_pstate request_example [] true ram_example)).2);
      [vm_compute; reflexivity|vm_compute; reflexivity|vm_compute; reflexivity].
  - rewrite (proj1 (run_io_serves_frame 64 ltac:(lia) client_example (drop 3 (take 12 (frame (vec2str request_example))))
      request_example 2 [] 0 ltac:(vm_decide) ltac:(vm_decide) ltac:(vm_decide) ltac:(vm_compute; reflexivity))
      (process_frame (mk_pstate (take 2 request_example) [] true ram_example)).2);
      [vm_compute; reflexivity|vm_compute; reflexivity|vm_compute; reflexivity].
  - rewrite (proj2 (run_io_serves_frame 64 ltac:(lia) client_example (drop 3 (frame (vec2str request_example)) ++ [7])
      request_example 3 [7] 0 ltac:(vm_decide) ltac:(vm_decide) ltac:(vm_decide) ltac:(vm_compute; reflexivity)));
      [vm_compute; reflexivity|vm_compute; reflexivity|discriminate].
Defined.

Lemma run_io_overfull_starves_witness :
  let buf := frame (vec2str request_example) ++ frame (vec2str request_example) in
  let c := mk_client buf [] true ram_example in
  overfull c ∧ ∃ c', run_io 64 (RecvData []) 0 c = (Next true, c') ∧
    overfull c' ∧ ibuf c' = buf ++ [] ∧ c_bus c' = ram_example ∧ obuf c' `suffix_of` [].
Proof.
  cbv zeta. assert (overfull (mk_client (frame (vec2str request_example) ++ frame (vec2str request_example))
    [] true ram_example)) as Hover.
  { split; [vm_decide|split; [vm_compute; reflexivity|]]. exists 12. split; vm_compute; reflexivity. }
  split; [exact Hover|].
  apply (run_io_overfull_starves 64 ltac:(lia) _ [] 0 Hover); [constructor|].
  rewrite app_nil_r. vm_compute; reflexivity.
Defined.
