(* ===== verification/IpbusSafe.v ===== *)
(** * IpbusSafe: the packet engine on arbitrary input

    [IpbusSpec] says what well-formed packets mean.  Here the packet is any
    sequence of words, as a client may send it, block transfers included: on
    a bus of the class [TotalBus] the engine of [Client.cpp] always completes
    and answers 32-bit words, with one exception - a configuration write may
    pop an empty deque. *)

From S2P Require Import Prelude Words IpbusWire MemBus Ipbus IpbusSpec IpbusFrame.

Local Open Scope list_scope.

(** What the engine needs of a bus, whatever is behind it: every access of
    at most 255 words returns, and a read that succeeds stores every word. *)
Class TotalBus (B : Type) `{MemBus B} : Type := {
  bus_inv : B → Prop;
  read_total b a n : bus_inv b → 0 ≤ n < 256 → ∃ rc data b',
    memhub_read a n b = (Next (rc, data), b') ∧ bus_inv b' ∧
    (rc = 0 → length data = Z.to_nat n ∧ Forall (word 32) data);
  write_total b a data : bus_inv b → Z.of_nat (length data) < 256 → Forall (word 32) data → ∃ rc b',
    memhub_write a (Z.of_nat (length data)) data b = (Next rc, b') ∧ bus_inv b'
}.

Section Safe.
Context {B : Type} {HB : MemBus B} {TB : TotalBus B}.
Variable packet : list Z.    (* the words after the packet header *)
Implicit Types s : pstate B.

(** The words still to be read are the last ones of the packet, and both
    deques hold 32-bit words. *)
Definition inv s : Prop := bus_inv (bus s) ∧ request s `suffix_of` packet ∧
  Forall (word 32) (request s) ∧ Forall (word 32) (response s).

(** A word of the packet that reads as the header of a configuration write. *)
Definition cfgwrite_header (x : Z) : bool := type_id (parse_hdr x) =? 7.

(** The only way to stop: [response.pop_front()] on an empty deque. *)
Definition allowed (e : stop) s : Prop :=
  e = StopUndef PopEmpty ∧ existsb cfgwrite_header packet = true ∧ inv s.

Notation goes m Q := (wp (λ _, inv) allowed m Q).
Notation safe m := (∀ s, inv s → wp (λ _, inv) allowed m (λ _, inv) s).

(** ** The statements *)

Lemma inv_pop s x l : inv s → request s = x :: l → word 32 x ∧ x ∈ packet ∧ inv (set_request l s).
Proof.
  intros (Hb & Hs & Hq & Hr) E. unfold inv. cbn. rewrite E in *. apply Forall_cons in Hq as [Hx Hq].
  split; [done|]. split; [|split_and!; [done| |done..]].
  - destruct Hs as [k ->]. apply elem_of_app. right. apply elem_of_cons. by left.
  - etrans; [|exact Hs]. by exists [x].
Qed.

Lemma pop_goes {R} (Q : Z → pstate B → Prop) s : inv s → request s ≠ [] →
  (∀ x t, word 32 x → x ∈ packet → inv t → length (request s) = S (length (request t)) → Q x t) →
  wp (R:=R) (λ _, inv) allowed request_pop Q s.
Proof.
  intros Hi Hne Hq. unfold wp, request_pop. destruct (request s) as [|x l] eqn:E; [done|].
  destruct (inv_pop s x l Hi E) as (Hx & Hm & Hi'). by apply Hq.
Qed.

Lemma nonempty_request s n : (n ≤ length (request s))%nat → (0 < n)%nat → request s ≠ [].
Proof. destruct (request s); cbn; [lia|done]. Qed.

Lemma push_safe x s : word 32 x → inv s → inv (set_response (response s ++ [x]) s).
Proof. intros Hx (Hb & Hs & Hq & Hr). split_and!; try done. cbn. apply Forall_app. split; [done|by constructor]. Qed.

Lemma append_safe l s : Forall (word 32) l → inv s → inv (set_response (response s ++ l) s).
Proof. intros Hx (Hb & Hs & Hq & Hr). split_and!; try done. cbn. by apply Forall_app. Qed.

Lemma clear_safe s : inv s → inv (set_response [] s).
Proof. intros (Hb & Hs & Hq & Hr). by split_and!. Qed.

Lemma reply_goes {R} h c (Q : unit → pstate B → Prop) s :
  inv s → (∀ t, inv t → request t = request s → Q tt t) → wp (R:=R) (λ _, inv) allowed (reply_hdr h c) Q s.
Proof. intros Hi Hq. unfold reply_hdr, push_back. apply wp_modify, Hq; [|done]. apply push_safe; [apply serialize_word|done]. Qed.

Lemma read_goes {R} a n (Q : Z * list Z → pstate B → Prop) s : inv s → 0 ≤ n < 256 →
  (∀ rc data t, inv t → request t = request s → (rc = 0 → length data = Z.to_nat n ∧ Forall (word 32) data) →
     Q (rc, data) t) →
  wp (R:=R) (λ _, inv) allowed (on_bus (memhub_read a n)) Q s.
Proof.
  intros (Hb & Hi) Hn Hq. destruct (read_total (bus s) a n Hb Hn) as (rc & data & b' & Hr & Hb' & Hd).
  unfold wp, on_bus. rewrite Hr. by apply Hq.
Qed.

Lemma write_goes {R} a n data (Q : Z → pstate B → Prop) s : inv s → n = Z.of_nat (length data) → n < 256 →
  Forall (word 32) data → (∀ rc t, inv t → request t = request s → Q rc t) →
  wp (R:=R) (λ _, inv) allowed (on_bus (memhub_write a n data)) Q s.
Proof.
  intros (Hb & Hi) -> Hn Hd Hq. destruct (write_total (bus s) a data Hb Hn Hd) as (rc & b' & Hr & Hb').
  unfold wp, on_bus. rewrite Hr. by apply Hq.
Qed.

Lemma words_bounds x : 0 ≤ words (parse_hdr x) < 256.
Proof.
  assert (word 8 (words (parse_hdr x))) as H; [|exact H].
  unfold parse_hdr. cbn [words]. apply wrap_word. lia.
Qed.
(** ** The handlers *)

Lemma fill_data_goes h n data s (Q : list Z → pstate B → Prop) : inv s → Forall (word 32) data →
  (∀ l t, inv t → length l = (length data + n)%nat → Forall (word 32) l → Q l t) →
  wp (λ _, inv) allowed (fill_data h n data) Q s.
Proof.
  revert data s. induction n as [|n IH]; intros data s Hi Hd Hq; cbn [fill_data].
  { apply wp_ret, Hq; [done|lia|done]. }
  wp_step. wp_step. case_decide as Hl.
  - wp_step. apply reply_goes; [done|]. intros t Ht _. by apply wp_return.
  - wp_step. apply pop_goes; [done|by destruct (request s)|]. intros x t Hx _ Ht _.
    apply IH; [done|apply Forall_app; by split; [|constructor]|].
    intros l u Hu Hlen. apply Hq; [done|]. rewrite length_app in Hlen. cbn in Hlen. lia.
Qed.

Lemma niread_loop_goes h a n data s (Q : list Z → pstate B → Prop) : inv s → Forall (word 32) data →
  (∀ l t, inv t → Forall (word 32) l → Q l t) →
  wp (λ _, inv) allowed (niread_loop h a n data) Q s.
Proof.
  revert data s. induction n as [|n IH]; intros data s Hi Hd Hq; cbn [niread_loop].
  { apply wp_ret, Hq; done. }
  wp_step. apply read_goes; [done|lia|]. intros rc l t Ht _ Hl. destruct (Z.eqb_spec rc 0) as [E|_].
  - destruct (Hl E) as [Hlen Hw]. destruct l as [|x l]; [done|]. apply Forall_cons in Hw as [Hx _].
    apply IH; [done|apply Forall_app; by split; [|constructor]|done].
  - wp_step. apply reply_goes; [done|]. intros u Hu _. by apply wp_return.
Qed.

Lemma niwrite_loop_goes h a n s (Q : unit → pstate B → Prop) : inv s → (n ≤ length (request s))%nat →
  (∀ t, inv t → Q tt t) → wp (λ _, inv) allowed (niwrite_loop h a n) Q s.
Proof.
  revert s. induction n as [|n IH]; intros s Hi Hl Hq; cbn [niwrite_loop].
  { apply wp_skip, Hq; done. }
  wp_step. apply pop_goes; [done|by eapply nonempty_request, Nat.lt_0_succ|]. intros x t Hx _ Ht Hlen.
  wp_step. apply write_goes; [done|done|lia|by constructor|]. intros rc u Hu Hru.
  destruct (Z.eqb_spec rc 0) as [E|_].
  - apply IH; [done| |done]. rewrite Hru. lia.
  - wp_step. apply reply_goes; [done|]. intros v Hv _. by apply wp_return.
Qed.

Section Handlers.
Variable h : IPBusTxnHdr.
Hypothesis words_ok : 0 ≤ words h < 256.

Notation handled m := (∀ s, inv s → wp (λ _ _, False) allowed m (λ _, inv) s).

(** The refusal of a transaction that is too short. *)
Lemma bad_header_goes {A} s (Q : A → pstate B → Prop) : inv s →
  wp (λ _ : unit, inv) allowed (reply_hdr h BAD_HEADER ;; ret tt) Q s.
Proof. intros Hi. wp_step. apply reply_goes; [done|]. intros t Ht _. by apply wp_return. Qed.

Lemma push_loop_goes l (f : Z → M (pstate B) unit unit) s : inv s →
  (∀ i, i ∈ l → ∃ x, word 32 x ∧ f i = push_back x) → wp (λ _, inv) allowed (for_each l f) (λ _, inv) s.
Proof.
  intros Hi Hf. apply wp_for_each; [done|]. intros i t Hin Ht. destruct (Hf i Hin) as (x & Hx & ->).
  unfold push_back. apply wp_modify. by apply push_safe.
Qed.

Lemma read_txn_safe : handled (process_read_txn h).
Proof.
  intros s Hi. unfold process_read_txn. do 3 wp_step. case_decide as Hl; [by apply bad_header_goes|].
  wp_step. apply pop_goes; [done|apply (nonempty_request _ 1); lia|]. intros a t _ _ Ht _. cbv zeta. wp_step.
  apply read_goes; [done|done|]. intros rc data u Hu _ Hd. destruct (Z.eqb_spec rc 0) as [E|_].
  - destruct (Hd E) as [Hlen Hw]. wp_step. apply reply_goes; [done|]. intros v Hv _. apply push_loop_goes; [done|].
    intros i Hin%elem_of_seqZ. destruct (lookup_lt_is_Some_2 data (Z.to_nat i)) as [x Hx]; [lia|].
    exists x. rewrite Hx. split; [|done]. by eapply Forall_lookup_1.
  - apply reply_goes; [done|]. by intros.
Qed.

Lemma write_txn_safe : handled (process_write_txn h).
Proof.
  intros s Hi. unfold process_write_txn. do 3 wp_step. case_decide as Hl; [by apply bad_header_goes|].
  wp_step. apply pop_goes; [done|apply (nonempty_request _ 1); lia|]. intros a t _ _ Ht _. cbv zeta. wp_step.
  apply fill_data_goes; [done|done|]. intros data u Hu Hlen Hd. cbn in Hlen. wp_step.
  apply write_goes; [done|lia|lia|done|]. intros rc v Hv _. destruct (rc =? 0); (apply reply_goes; [done|]; by intros).
Qed.

Lemma niread_txn_safe : handled (process_niread_txn h).
Proof.
  intros s Hi. unfold process_niread_txn. do 3 wp_step. case_decide as Hl; [by apply bad_header_goes|].
  wp_step. apply pop_goes; [done|apply (nonempty_request _ 1); lia|]. intros a t _ _ Ht _. cbv zeta. wp_step.
  apply niread_loop_goes; [done|done|]. intros data u Hu Hd. wp_step. apply reply_goes; [done|]. intros v Hv _.
  wp_step. by apply append_safe.
Qed.

Lemma niwrite_txn_safe : handled (process_niwrite_txn h).
Proof.
  intros s Hi. unfold process_niwrite_txn. do 3 wp_step. case_decide as Hl; [by apply bad_header_goes|].
  wp_step. apply pop_goes; [done|apply (nonempty_request _ 1); lia|]. intros a t _ _ Ht Hlen. cbv zeta. wp_step.
  apply niwrite_loop_goes; [done|lia|]. intros u Hu. apply reply_goes; [done|]. by intros.
Qed.

(** The access both read-modify-writes share; [f] computes the new word. *)
Lemma rmw_goes a (f : Z → Z) s : (∀ x, word 32 x → word 32 (f x)) → inv s →
  wp (λ _ : unit, inv) allowed
    ('(rc, predata) ← on_bus (memhub_read a 1);
     if negb (rc =? 0) then reply_hdr h BUSERR_READ ;; ret tt else
     match predata with
     | [] => undef Uninitialised
     | predata :: _ =>
         rc ← on_bus (memhub_write a 1 [f predata]);
         if negb (rc =? 0) then reply_hdr h BUSERR_WRITE ;; ret tt else
         reply_hdr h SUCCESS ;;
         push_back predata
     end) (λ _, inv) s.
Proof.
  intros Hf Hi. wp_step. apply read_goes; [done|lia|]. intros rc data u Hu _ Hd.
  destruct (Z.eqb_spec rc 0) as [E|_]; cbn [negb].
  - destruct (Hd E) as [Hlen Hw]. destruct data as [|x data]; [done|]. apply Forall_cons in Hw as [Hx _].
    wp_step. apply write_goes; [done|done|lia|constructor; [by apply Hf|done]|]. intros rc' v Hv _.
    destruct (rc' =? 0); cbn [negb].
    + wp_step. apply reply_goes; [done|]. intros w Hw _. apply wp_modify. by apply push_safe.
    + wp_step. apply reply_goes; [done|]. intros w Hw _. by apply wp_return.
  - wp_step. apply reply_goes; [done|]. intros w Hw _. by apply wp_return.
Qed.

Lemma rmwbits_txn_safe : handled (process_rmwbits_txn h).
Proof.
  intros s Hi. unfold process_rmwbits_txn. do 3 wp_step. case_decide as Hl; [by apply bad_header_goes|].
  wp_step. apply pop_goes; [done|apply (nonempty_request _ 1); lia|]. intros a t _ _ Ht Hlt. cbv zeta.
  wp_step. apply pop_goes; [done|apply (nonempty_request _ 1); lia|]. intros x u Hx _ Hu Hlu.
  wp_step. apply pop_goes; [done|apply (nonempty_request _ 1); lia|]. intros y v Hy _ Hv _.
  apply (rmw_goes _ (λ d, Z.lor (Z.land d x) y)); [|done]. intros d Hd. apply word_lor; [lia| |done].
  apply word_land; [lia|done].
Qed.

Lemma rmwsum_txn_safe : handled (process_rmwsum_txn h).
Proof.
  intros s Hi. unfold process_rmwsum_txn. do 3 wp_step. case_decide as Hl; [by apply bad_header_goes|].
  wp_step. apply pop_goes; [done|apply (nonempty_request _ 1); lia|]. intros a t _ _ Ht Hlt. cbv zeta.
  wp_step. apply pop_goes; [done|apply (nonempty_request _ 1); lia|]. intros x u Hx _ Hu Hlu.
  apply (rmw_goes _ (λ d, w32 (d + x))); [|done]. intros d Hd. apply wrap_word. lia.
Qed.

Lemma cfgread_txn_safe : handled (process_cfgread_txn h).
Proof.
  intros s Hi. unfold process_cfgread_txn. do 3 wp_step. case_decide as Hl; [by apply bad_header_goes|].
  wp_step. apply pop_goes; [done|apply (nonempty_request _ 1); lia|]. intros a t _ _ Ht _. wp_step.
  apply reply_goes; [done|]. intros u Hu _. apply push_loop_goes; [done|]. intros i _. exists 0. by split; [vm_decide|].
Qed.

Lemma cfgwrite_txn_safe : existsb cfgwrite_header packet = true → handled (process_cfgwrite_txn h).
Proof.
  intros Hc s Hi. unfold process_cfgwrite_txn. do 3 wp_step. case_decide as Hl; [by apply bad_header_goes|].
  wp_step. apply pop_goes; [done|apply (nonempty_request _ 1); lia|]. intros a t _ _ Ht _. wp_step.
  eapply wp_mono; [apply (wp_for_each _ _ inv); [done|]|].
  - intros i u _ Hu. unfold wp, response_pop_front. destruct (response u) as [|x l] eqn:E; [done|].
    destruct Hu as (Hb & Hs & Hq & Hr). rewrite E in Hr. apply Forall_cons in Hr as [_ Hr]. by split_and!.
  - intros [] u Hu. apply reply_goes; [done|]. by intros.
Qed.
End Handlers.

(** ** Packets and frames *)

Lemma control_step_safe s : inv s → request s ≠ [] → wp (λ _ : unit, inv) allowed control_step (λ _, inv) s.
Proof.
  intros Hi Hne. unfold control_step. wp_step. apply pop_goes; [done|done|]. intros x t _ Hx Ht _. cbv zeta.
  pose proof (words_bounds x) as Hw.
  assert (∀ b : bool, b = true → wp (A:=unit) (λ _ : unit, inv) allowed (response_clear ;; ret tt) (λ _, inv) t) as Hbad.
  { intros b _. unfold response_clear. wp_step. wp_step. apply wp_return. by apply clear_safe. }
  repeat case_match; try (by eapply Hbad); try (wp_step; eauto using read_txn_safe, write_txn_safe, niread_txn_safe,
    niwrite_txn_safe, rmwbits_txn_safe, rmwsum_txn_safe, cfgread_txn_safe).
  - apply cfgwrite_txn_safe; [done| |done]. apply existsb_exists. exists x. split; [by apply list_elem_of_In|done].
  - apply reply_goes; [done|]. by intros.
Qed.

Lemma control_loop_safe n s : inv s → wp (λ _ : unit, inv) allowed (control_loop n) (λ _, inv) s.
Proof.
  revert s. induction n as [|n IH]; intros s Hi; cbn [control_loop]; [by apply wp_skip|].
  wp_step. wp_step. case_decide as Hd; [by apply wp_skip|]. wp_step.
  eapply wp_mono; [apply control_step_safe; [done|by destruct (request s)]|]. intros []. apply IH.
Qed.

Lemma control_packet_safe s : inv s → wp (λ _ _, False) allowed process_control_packet (λ _, inv) s.
Proof.
  intros Hi. unfold process_control_packet. do 3 wp_step. case_decide; [by apply wp_return|].
  by apply control_loop_safe.
Qed.
End Safe.

Section AnyPacket.
Context {B : Type} {HB : MemBus B} {TB : TotalBus B}.

(** Any packet; only a control packet in host order can fail. *)
Lemma packet_ends h q r (b : B) : bus_inv b → word 32 h → Forall (word 32) q →
  let res := process_frame (mk_pstate (h :: q) r true b) in
  (res.1 = Next tt ∨ res.1 = Undef PopEmpty ∧
     standard_header h = true ∧ Z.land h 0x0f = 0 ∧ existsb cfgwrite_header q = true) ∧
  bus_inv (bus res.2) ∧ Forall (word 32) (response res.2).
Proof.
  intros Hb Hh Hq res. subst res. rewrite process_frame_cases.
  destruct (standard_header h) eqn:Hs; [|destruct (reverse_header h) eqn:Hr].
  - destruct (Z.eqb_spec (w8 (Z.land h 0x0f)) 0) as [Ht|]; [|by split; [left|]].
    rewrite (land_ones_lit _ 4 0x0f), wrap_wrap_le in Ht by (done || lia). rewrite <- (land_ones_lit _ 4 0x0f) in Ht by (done || lia).
    assert (inv q (mk_pstate q [] true b)) as Hi by (by split_and!).
    pose proof (control_packet_safe q _ Hi) as Hp. unfold wp in Hp.
    destruct (process_control_packet _) as [[[]|[]| | |] s].
    + destruct Hp as (Hb' & _ & _ & Hr). cbn [fst snd]. split; [by left|].
      destruct (response s) as [|x l] eqn:E; [by rewrite E|]. split; [done|]. cbn. by constructor.
    + by destruct Hp.
    + destruct Hp as ([= ->] & Hc & Hb' & _ & _ & Hr). cbn [fst snd]. split; [by right|done].
    + by destruct Hp.
  - unfold reverse_header in Hr. apply Z.eqb_eq in Hr. rewrite reverse_packet_type by done. by split; [left|].
  - by split; [left|].
Qed.
(** C9: Whatever words a client sends, [process_frame] completes, the bus is in
    order and the answer is made of 32-bit words; the one exception is a
    packet with a word that reads as the header of a configuration write,
    which may pop the empty response. *)
Theorem arbitrary_packet h q r (b : B) : bus_inv b → word 32 h → Forall (word 32) q →
  let res := process_frame (mk_pstate (h :: q) r true b) in
  (res.1 = Next tt ∨ res.1 = Undef PopEmpty ∧ existsb cfgwrite_header q = true) ∧
  bus_inv (bus res.2) ∧ Forall (word 32) (response res.2).
Proof.
  intros Hb Hh Hq res. destruct (packet_ends h q r b Hb Hh Hq) as ([Hr|(Hr & _ & _ & Hc)] & Hrest); auto.
Qed.
End AnyPacket.

(** ** The simplest bus is total *)
Import Ram.

Lemma read_words_length n a m l : read_words n a m = Some l → length l = n.
Proof.
  revert a l. induction n as [|n IH]; intros a l; cbn; [by intros [= <-]|].
  destruct (m !! a) as [v|]; [|done]. cbn. destruct (read_words n (a + 4) m) as [k|] eqn:E; [|done].
  cbn. intros [= <-]. cbn. f_equal. by eapply IH.
Qed.

#[export] Program Instance ram_total : TotalBus ram := { bus_inv _ := True }.
Next Obligation.
  intros m a n _ Hn. cbn - [read_words Z.to_nat]. destruct (read_words (Z.to_nat n) a m) as [l|] eqn:E.
  - exists 0, (w32 <$> l), m. split; [done|]. split; [done|]. intros _. split.
    + rewrite length_fmap. by eapply read_words_length.
    + apply Forall_fmap, Forall_true. intros. apply wrap_word. lia.
  - by exists (-1), [], m.
Qed.
Next Obligation.
  intros m a data _ _ _. cbn - [write_words Z.to_nat take].
  destruct (write_words a (take (Z.to_nat (Z.of_nat (length data))) data) m) as [m'|]; [by exists 0, m'|by exists (-1), m].
Qed.

(** A block read followed by a word of no meaning, and a configuration write
    before any reply. *)
Lemma arbitrary_packet_witness :
  let garbage := [0x2001020f; 0; 0xdeadbeef] in
  let cfgwrite := [0x2001017f; 0; 5] in
  (process_frame (mk_pstate (0x200000f0 :: garbage) [] true ram_example)).1 = Next tt ∧
  (process_frame (mk_pstate (0x200000f0 :: cfgwrite) [] true ram_example)).1 = Undef PopEmpty ∧
  existsb cfgwrite_header garbage = false ∧ existsb cfgwrite_header cfgwrite = true ∧
  Forall (word 32) (response (process_frame (mk_pstate (0x200000f0 :: garbage) [] true ram_example)).2).
Proof.
  cbv zeta. split; [vm_compute; reflexivity|]. split; [vm_compute; reflexivity|]. split; [reflexivity|]. split; [reflexivity|].
  apply (arbitrary_packet (TB:=ram_total) 0x200000f0 [0x2001020f; 0; 0xdeadbeef] [] ram_example I); [vm_decide|vm_decide].
Defined.
