(* ===== verification/IpbusServer.v ===== *)
(** * IpbusServer: the event loop of the IPbus daemon

    [xcompile/ipbus/ipbus.cpp], [main].  One turn of [while (true)] is
    [server_turn]; what the kernel answers to [select], [recv], [send] and
    [accept] in that turn is its argument.  The check of the address of a new
    connection is compiled only with [IP_ACL_FILE], whose definition is
    commented out at the top of the file: [acl] is [None] for the program as
    it is, and [Some] with the contents of the file for the other one. *)

From S2P Require Import Prelude Words RpcMsg CText IpAcl IpbusWire MemBus Ipbus IpbusSpec IpbusFrame.

Local Open Scope list_scope.

Definition MAX_CLIENTS : nat := 1000.
Definition FD_SETSIZE : Z := 1024.

(** ** Before the loop *)

(** The descriptor to listen on, or the status the process exits with. *)
Definition main_setup (listenfd bind_rc fork1 fork2 : Z) : flow Z Z :=
  if decide (listenfd < 0) then Return 1 else
  if decide (bind_rc < 0) then Return 1 else
  if negb (fork1 =? 0) then Halt (HExit 0) else
  if negb (fork2 =? 0) then Halt (HExit 0) else
  Next listenfd.

(** ** The loop *)

Record conn : Type := mk_conn { fd : Z; c_ibuf : list Z; c_obuf : list Z }.

Inductive select_result : Type :=
| SelectError (eintr : bool)
| SelectReady (listen_ready : bool) (ready : Z → bool).   (* FD_ISSET in rfds or wfds *)

Record turn_input : Type := mk_input {
  in_select : select_result;
  in_io : Z → recv_result * Z;     (* recv and send of a descriptor *)
  in_accept : Z;                   (* accept *)
  in_addr : Z                      (* ntohl(client_addr.sin_addr.s_addr) *)
}.

(** The local [rfds], [wfds] and [maxfd] of a turn. *)
Record fd_sets : Type := mk_sets { rfds : list Z; wfds : list Z; maxfd : Z }.

Section Server.
Context {B : Type} {HB : MemBus B}.
Variable size_bits : Z.
Variable listenfd : Z.
(* without IP_ACL_FILE; or with it, and the file's text when it can be opened *)
Variable acl : option (option string).

Record server : Type := mk_server {
  clients : list conn;
  closed : list Z;               (* descriptors passed to close, in order *)
  s_inited : bool;
  s_bus : B
}.

Definition client_of (s : server) (c : conn) : client B :=
  mk_client (c_ibuf c) (c_obuf c) (s_inited s) (s_bus s).

(** [it->run_io()], its result ignored; [before] and [after] are the other
    connections. *)
Definition serve_one (io : recv_result * Z) (before : list conn) (c : conn) (after : list conn)
    : M server Z unit := λ s,
  let put (k : client B) :=
    mk_server (before ++ mk_conn (fd c) (ibuf k) (obuf k) :: after) (closed s) (c_inited k) (c_bus k) in
  match run_io size_bits io.1 io.2 (client_of s c) with
  | (Next _, k) => (Next tt, put k)
  | (Return v, _) => match v : Empty_set with end
  | (Throw e, k) => (Throw e, put k)
  | (Undef u, k) => (Undef u, put k)
  | (Halt h, k) => (Halt h, put k)
  end.

(** The loop over the existing connections, from position [n] on. *)
Fixpoint serve_from (k : nat) (n : nat) (ready : Z → bool) (io : Z → recv_result * Z)
    : M server Z unit :=
  match k with
  | O => skip
  | S k =>
      cs ← gets clients;
      match cs !! n with
      | None => skip
      | Some c =>
          (if ready (fd c) then serve_one (io (fd c)) (take n cs) c (drop (S n) cs) else skip) ;;
          serve_from k (S n) ready io
      end
  end.

(** At the limit every connection is closed and forgotten. *)
Definition drain : M server Z unit :=
  modify (λ s,
    if decide (length (clients s) < MAX_CLIENTS)%nat then s
    else mk_server [] (closed s ++ (fd <$> clients s)) (s_inited s) (s_bus s)).

(** [FD_SET(f, &set)] *)
Definition FD_SET (f : Z) (set : list Z) : M server Z (list Z) :=
  guard_ub (bool_decide (0 ≤ f < FD_SETSIZE)) OutOfBounds ;;
  mret (f :: set).

(** The body of the loop over the connections. *)
Definition fd_set_client (x : fd_sets) (c : conn) : M server Z fd_sets :=
  k ← gets (λ s, client_of s c);
  x ← (if write_ready k then
         wfds' ← FD_SET (fd c) (wfds x);
         mret (mk_sets (rfds x) wfds' (if maxfd x <? fd c then fd c else maxfd x))
       else mret x);
  if read_ready k then
    rfds' ← FD_SET (fd c) (rfds x);
    mret (mk_sets rfds' (wfds x) (if maxfd x <? fd c then fd c else maxfd x))
  else mret x.

Fixpoint fd_set_clients (x : fd_sets) (cs : list conn) : M server Z fd_sets :=
  match cs with
  | [] => mret x
  | c :: cs => x ← fd_set_client x c; fd_set_clients x cs
  end.

Definition fill_sets : M server Z fd_sets :=
  cs ← gets clients;
  rfds ← FD_SET listenfd [];
  fd_set_clients (mk_sets rfds [] listenfd) cs.

(** [#ifdef IP_ACL_FILE if (authorize_ip(...))] *)
Definition authorized (addr : Z) : M server Z bool := λ s,
  match acl with
  | None => (Next true, s)
  | Some file =>
      match authorize_ip file addr tt with
      | (Next b, _) => (Next b, s)
      | (Return v, _) => match v : Empty_set with end
      | (Throw e, _) => (Throw e, s)
      | (Undef u, _) => (Undef u, s)
      | (Halt h, _) => (Halt h, s)
      end
  end.

(** A connection that is refused is closed, and its address logged. *)
Definition accept_client (clientfd addr : Z) : M server Z unit :=
  ok ← authorized addr;
  modify (λ s,
    if ok : bool then mk_server (clients s ++ [mk_conn clientfd [] []]) (closed s) (s_inited s) (s_bus s)
    else mk_server (clients s) (closed s ++ [clientfd]) (s_inited s) (s_bus s)).

(** One turn; [ret 1] is the [break] that ends [main] with status 1. *)
Definition server_turn (i : turn_input) : M server Z unit :=
  drain ;;
  _ ← fill_sets;
  match in_select i with
  | SelectError true => skip
  | SelectError false => ret 1
  | SelectReady listen_ready ready =>
      cs ← gets clients;
      serve_from (length cs) 0 ready (in_io i) ;;
      when listen_ready (accept_client (in_accept i) (in_addr i))
  end.

Fixpoint server_run (ins : list turn_input) : M server Z unit :=
  match ins with
  | [] => skip
  | i :: ins => server_turn i ;; server_run ins
  end.

(** ** Connections *)
Definition fds (s : server) : list Z := fd <$> clients s.

Definition drained (s : server) : bool := bool_decide (MAX_CLIENTS ≤ length (clients s))%nat.

Lemma serve_one_fds io before c after s r s' :
  clients s = before ++ c :: after → serve_one io before c after s = (r, s') →
  fds s' = fds s ∧ closed s' = closed s ∧ length (clients s') = length (clients s).
Proof.
  intros Hc Hs. unfold fds. rewrite Hc. unfold serve_one in Hs.
  destruct (run_io _ _ _ _) as [[|[]| | |] k]; simplify_eq; cbn;
    rewrite !fmap_app, !length_app; done.
Qed.

Lemma serve_from_fds k n ready io s r s' :
  serve_from k n ready io s = (r, s') →
  fds s' = fds s ∧ closed s' = closed s ∧ length (clients s') = length (clients s).
Proof.
  revert n s. induction k as [|k IH]; intros n s; cbn [serve_from]; [by intros [= _ <-]|].
  erewrite bind_next by reflexivity. cbn beta.
  destruct (clients s !! n) as [c|] eqn:Hc; [|by intros [= _ <-]].
  unfold mbind, M_bind.
  destruct (ready (fd c)); [|exact (IH (S n) s)].
  destruct (serve_one _ _ _ _ s) as [r1 s1] eqn:H1.
  apply serve_one_fds in H1 as (Hf & Hcl & Hlen); [|symmetry; by apply take_drop_middle].
  destruct r1; [|by intros [= _ <-]..]. intros H2. apply IH in H2 as (-> & -> & ->). done.
Qed.

Lemma keeps_fd_set_clients (P : server → Prop) x cs : keeps P (fd_set_clients x cs).
Proof. revert x. induction cs as [|c cs IH]; intros x; cbn [fd_set_clients]; unfold fd_set_client, FD_SET; keeps_tac. Qed.

(** Computing the descriptor sets changes nothing. *)
Lemma fill_sets_state s r s' : fill_sets s = (r, s') → s' = s.
Proof.
  intros H. enough (keeps (λ t, t = s) fill_sets) as Hk
    by (specialize (Hk s eq_refl); by rewrite H in Hk).
  unfold fill_sets, FD_SET. pose proof keeps_fd_set_clients. keeps_tac.
Qed.

Definition after_drain (s : server) : server :=
  if decide (length (clients s) < MAX_CLIENTS)%nat then s
  else mk_server [] (closed s ++ (fd <$> clients s)) (s_inited s) (s_bus s).

Lemma drained_fds s :
  fds (after_drain s) = (if drained s then [] else fds s) ∧
  closed (after_drain s) = closed s ++ (if drained s then fds s else []).
Proof.
  unfold after_drain, drained. case_decide; case_bool_decide; try lia; [by rewrite app_nil_r|done].
Qed.

(** The descriptors a turn adds, and those it refuses. *)
Definition admitted (addr : Z) : bool :=
  match acl with
  | None => true
  | Some file => match (authorize_ip file addr tt).1 with Next b => b | _ => false end
  end.
Definition accepted (i : turn_input) : list Z :=
  match in_select i with SelectReady true _ => if admitted (in_addr i) then [in_accept i] else [] | _ => [] end.
Definition refused (i : turn_input) : list Z :=
  match in_select i with SelectReady true _ => if admitted (in_addr i) then [] else [in_accept i] | _ => [] end.

Lemma accept_client_fds f addr s s' : accept_client f addr s = (Next tt, s') →
  fds s' = fds s ++ (if admitted addr then [f] else []) ∧ closed s' = closed s ++ (if admitted addr then [] else [f]).
Proof.
  unfold accept_client, admitted, mbind, M_bind, authorized, modify. destruct acl as [file|].
  - destruct (authorize_ip file addr tt) as [[[]|[]| | |] u]; intros [= <-]; cbn; rewrite ?app_nil_r; [|done].
    split; [|done]. unfold fds. cbn. by rewrite fmap_app.
  - intros [= <-]. cbn. rewrite app_nil_r. split; [|done]. unfold fds. cbn. by rewrite fmap_app.
Qed.

Lemma server_turn_fds i s s' : server_turn i s = (Next tt, s') →
  fds s' = fds (after_drain s) ++ accepted i ∧ closed s' = closed (after_drain s) ++ refused i.
Proof.
  unfold server_turn, accepted, refused. erewrite bind_next by reflexivity. cbn beta.
  change (if decide _ then s else _) with (after_drain s). set (s1 := after_drain s).
  unfold mbind at 1, M_bind at 1.
  destruct (fill_sets s1) as [[| | | |] s2] eqn:H2; [|done..].
  apply fill_sets_state in H2 as ->. destruct (in_select i) as [[]|listen ready].
  - intros [= <-]. by rewrite !app_nil_r.
  - done.
  - erewrite bind_next by reflexivity. cbn beta. unfold mbind, M_bind.
    destruct (serve_from _ _ _ _ s1) as [[[]| | | |] s3] eqn:H3; [|done..].
    apply serve_from_fds in H3 as (Hf & Hc & _). rewrite <- Hf, <- Hc. destruct listen; cbn [when].
    + apply accept_client_fds.
    + intros [= <-]. by rewrite !app_nil_r.
Qed.

(** What a turn that goes on does to the connections: they are all closed
    when there are [MAX_CLIENTS] of them, one is added when the listening
    socket is ready and its address is admitted, and is closed when it is
    not; none is ever removed or closed otherwise, whatever [run_io] returned
    for it. *)
Theorem server_turn_connections i s s' : server_turn i s = (Next tt, s') →
  fds s' = (if drained s then [] else fds s) ++ accepted i ∧
  closed s' = (closed s ++ (if drained s then fds s else [])) ++ refused i.
Proof.
  intros H. apply server_turn_fds in H as [-> ->]. by destruct (drained_fds s) as [-> ->].
Qed.

(** ** Descriptors

    The kernel gives a new connection the lowest descriptor not in use;
    [base] are those the process has besides its connections. *)
Definition lowest_free (used : list Z) (f : Z) : Prop :=
  0 ≤ f ∧ (f ∉ used) ∧ ∀ g, 0 ≤ g < f → g ∈ used.

Inductive reaches (base : list Z) (s0 : server) : server → Prop :=
| reaches_refl : reaches base s0 s0
| reaches_turn i s s' :
    reaches base s0 s →
    server_turn i s = (Next tt, s') →
    lowest_free (base ++ fds (after_drain s)) (in_accept i) →
    reaches base s0 s'.

(** A free descriptor that is the lowest one is at most the number of those
    in use. *)
Lemma lowest_free_bound used f : lowest_free used f → f ≤ Z.of_nat (length used).
Proof.
  intros (H0 & _ & Hlow).
  assert (seqZ 0 f ⊆+ used) as Hsub.
  { apply NoDup_submseteq; [apply NoDup_seqZ|]. intros g Hg%elem_of_seqZ. apply Hlow. lia. }
  apply submseteq_length in Hsub. rewrite length_seqZ in Hsub. lia.
Qed.

Lemma length_fds s : length (fds s) = length (clients s).
Proof. apply length_fmap. Qed.

Lemma after_drain_length s : (length (clients (after_drain s)) < MAX_CLIENTS)%nat.
Proof. unfold after_drain. case_decide; [done|cbn; unfold MAX_CLIENTS; lia]. Qed.


Lemma reaches_bounds base s0 s : (length base ≤ 23)%nat → clients s0 = [] → reaches base s0 s →
  (length (clients s) ≤ MAX_CLIENTS)%nat ∧ Forall (λ f, 0 ≤ f < FD_SETSIZE) (fds s).
Proof.
  intros Hb H0. induction 1 as [|i s s' _ [IHlen IHfd] Hturn Hfree].
  { unfold fds. rewrite H0. split; [apply Nat.le_0_l|constructor]. }
  apply server_turn_fds in Hturn as [Hf _]. pose proof (after_drain_length s) as Hlt.
  assert (Forall (λ f, 0 ≤ f < FD_SETSIZE) (fds (after_drain s))) as Hd.
  { destruct (drained_fds s) as [-> _]. case_match; [constructor|done]. }
  assert (0 ≤ in_accept i < FD_SETSIZE) as Ha.
  { split; [apply Hfree|]. apply lowest_free_bound in Hfree.
    rewrite length_app, length_fds in Hfree. unfold MAX_CLIENTS, FD_SETSIZE in *. lia. }
  split.
  - rewrite <- length_fds, Hf, length_app, length_fds.
    unfold accepted. destruct (in_select i) as [|[]]; [|destruct (admitted _)|]; cbn; lia.
  - rewrite Hf. apply Forall_app. split; [done|].
    unfold accepted. destruct (in_select i) as [|[]]; [|destruct (admitted _)|]; repeat constructor; lia.
Qed.

(** The sets that are computed: the connections of [cs] are watched, for
    input or for output, and [select] is told of every descriptor set. *)
Definition watches (cs : list conn) (x : fd_sets) : Prop :=
  Forall (λ c, fd c ∈ rfds x ∨ fd c ∈ wfds x) cs ∧ listenfd ∈ rfds x ∧
  Forall (λ f, 0 ≤ f ≤ maxfd x) (rfds x ++ wfds x) ∧ maxfd x < FD_SETSIZE.

(** A connection with no output waits for input. *)
Lemma ready_some (k : client B) : write_ready k = false → read_ready k = true.
Proof. unfold write_ready, read_ready. destruct (obuf k); [done|]. by cbn. Qed.

Lemma FD_SET_in f l s : 0 ≤ f < FD_SETSIZE → FD_SET f l s = (Next (f :: l), s).
Proof. intros Hf. unfold FD_SET. by rewrite bool_decide_true. Qed.
Lemma FD_SET_out f l s : ¬ (0 ≤ f < FD_SETSIZE) → FD_SET f l s = (Undef OutOfBounds, s).
Proof. intros Hf. unfold FD_SET. by rewrite bool_decide_false. Qed.

(** One descriptor more. *)
Lemma watches_read cs x f : watches cs x → 0 ≤ f < FD_SETSIZE →
  watches cs (mk_sets (f :: rfds x) (wfds x) (if maxfd x <? f then f else maxfd x)).
Proof.
  intros (Hc & Hl & Ha & Hm) Hf. split_and!; cbn.
  - eapply Forall_impl; [exact Hc|]. intros c [?|?]; [left; by right|by right].
  - by right.
  - constructor; [case_match; lia|]. eapply Forall_impl; [exact Ha|]. intros g Hg. cbn in Hg. case_match; lia.
  - case_match; lia.
Qed.
Lemma watches_write cs x f : watches cs x → 0 ≤ f < FD_SETSIZE →
  watches cs (mk_sets (rfds x) (f :: wfds x) (if maxfd x <? f then f else maxfd x)).
Proof.
  intros (Hc & Hl & Ha & Hm) Hf. split_and!; cbn.
  - eapply Forall_impl; [exact Hc|]. intros c [?|?]; [by left|right; by right].
  - done.
  - rewrite <- Permutation_middle. constructor; [case_match; lia|]. eapply Forall_impl; [exact Ha|].
    intros g Hg. cbn in Hg. case_match; lia.
  - case_match; lia.
Qed.

Lemma fd_set_client_watches cs x c s : watches cs x → 0 ≤ fd c < FD_SETSIZE →
  ∃ x', fd_set_client x c s = (Next x', s) ∧ watches (c :: cs) x'.
Proof.
  intros Hx Hc. unfold fd_set_client. erewrite bind_next by reflexivity. cbn beta. set (k := client_of s c).
  assert (∀ x1, (fd c ∈ rfds x1 ∨ fd c ∈ wfds x1) → watches cs x1 → watches (c :: cs) x1) as Hcons.
  { intros x1 Hin (H1 & H2). split; [by constructor|done]. }
  destruct (write_ready k) eqn:Hw; [rewrite bind_bind; erewrite bind_next by (by apply FD_SET_in)|];
    erewrite bind_next by reflexivity; cbn beta.
  - pose proof (watches_write cs x (fd c) Hx Hc) as Hx1. set (x1 := mk_sets _ _ _) in *.
    destruct (read_ready k); [erewrite bind_next by (by apply FD_SET_in)|]; (eexists; split; [reflexivity|]); apply Hcons.
    + left. by left.
    + by apply watches_read.
    + right. by left.
    + done.
  - rewrite (ready_some k Hw). erewrite bind_next by (by apply FD_SET_in). eexists; split; [reflexivity|]. apply Hcons.
    + left. by left.
    + by apply watches_read.
Qed.

Lemma fd_set_clients_watches cs0 x cs s : watches cs0 x → Forall (λ f, 0 ≤ f < FD_SETSIZE) (fd <$> cs) →
  ∃ x', fd_set_clients x cs s = (Next x', s) ∧ watches (rev cs ++ cs0) x'.
Proof.
  revert cs0 x. induction cs as [|c cs IH]; intros cs0 x Hx; [by exists x|]. intros [Hc Hcs]%Forall_cons.
  cbn [fd_set_clients]. destruct (fd_set_client_watches cs0 x c s Hx Hc) as (x1 & H1 & Hx1).
  erewrite bind_next by exact H1. destruct (IH _ x1 Hx1 Hcs) as (x2 & H2 & Hx2). exists x2. split; [exact H2|].
  cbn [rev]. by rewrite <- app_assoc.
Qed.

Lemma watches_listen : 0 ≤ listenfd < FD_SETSIZE → watches [] (mk_sets [listenfd] [] listenfd).
Proof. intros Hl. split; [done|]. split; [by left|]. split; [|apply Hl]. apply Forall_singleton. cbn. lia. Qed.

Lemma fill_sets_watches s : 0 ≤ listenfd < FD_SETSIZE → Forall (λ f, 0 ≤ f < FD_SETSIZE) (fds s) →
  ∃ x, fill_sets s = (Next x, s) ∧ watches (clients s) x.
Proof.
  intros Hl Hs. unfold fill_sets. erewrite bind_next by reflexivity. cbn beta.
  erewrite bind_next by (by apply FD_SET_in). cbn beta.
  destruct (fd_set_clients_watches [] (mk_sets [listenfd] [] listenfd) (clients s) s) as (x & Hx & Hw); [by apply watches_listen|done|].
  exists x. split; [exact Hx|]. rewrite app_nil_r in Hw. destruct Hw as [Hc Hr]. split; [|done].
  apply Forall_rev in Hc. by rewrite rev_involutive in Hc.
Qed.

(** C17: The limit on the connections keeps [FD_SET] within its bit array: as long
    as [accept] succeeds and hands out the lowest free descriptor
    ([failed_accept_undefined]) and the process has at most 23 of its own, there are never more than [MAX_CLIENTS] connections
    and computing the sets is always defined.  Every connection is in one of
    them, and [select] is called with a bound on all their descriptors. *)
Theorem server_descriptors_bounded base s0 s :
  (length base ≤ 23)%nat → 0 ≤ listenfd < FD_SETSIZE → clients s0 = [] → reaches base s0 s →
  (length (clients s) ≤ MAX_CLIENTS)%nat ∧
  ∃ x, fill_sets (after_drain s) = (Next x, after_drain s) ∧ watches (clients (after_drain s)) x.
Proof.
  intros Hb Hl H0 H. destruct (reaches_bounds base s0 s Hb H0 H) as [Hlen Hfd].
  split; [done|]. apply fill_sets_watches; [done|].
  destruct (drained_fds s) as [-> _]. case_match; [constructor|done].
Qed.

Lemma fd_set_clients_app x cs1 cs2 s :
  fd_set_clients x (cs1 ++ cs2) s = (x ← fd_set_clients x cs1; fd_set_clients x cs2) s.
Proof.
  revert x s. induction cs1 as [|c cs1 IH]; intros x s; cbn [app fd_set_clients]; [done|].
  rewrite bind_bind. unfold mbind, M_bind. destruct (fd_set_client x c s) as [[y|?|?|?|?] t]; [|done..]. apply IH.
Qed.

(** A failed [accept] is not noticed: its -1 is kept as a connection, and
    the next turn hands it to [FD_SET]. *)
Theorem failed_accept_undefined i j s s' :
  in_select i = SelectReady true (λ _, false) → in_accept i = -1 → admitted (in_addr i) = true →
  0 ≤ listenfd < FD_SETSIZE → (length (clients s) < 999)%nat →
  Forall (λ f, 0 ≤ f < FD_SETSIZE) (fds s) →
  server_turn i s = (Next tt, s') → server_turn j s' = (Undef OutOfBounds, s').
Proof.
  intros Hi Ha Had Hl Hlen Hfd H. pose proof H as [Hf _]%server_turn_fds.
  assert (after_drain s = s) as Hd by (unfold after_drain; rewrite decide_True; [done|unfold MAX_CLIENTS; lia]).
  unfold accepted in Hf. rewrite Hi, Ha, Had, Hd in Hf.
  assert (after_drain s' = s') as Hd'.
  { unfold after_drain. rewrite decide_True; [done|].
    rewrite <- length_fds, Hf, length_app, length_fds. cbn. unfold MAX_CLIENTS. lia. }
  unfold server_turn. erewrite bind_next by reflexivity. cbn beta.
  change (if decide _ then s' else _) with (after_drain s'). rewrite Hd'.
  apply fmap_app_inv in Hf as (cs & cs' & Hcs & Hc & Hcl).
  destruct cs' as [|c []]; cbn in Hc; simplify_eq.
  apply bind_undef. unfold fill_sets. erewrite bind_next by reflexivity. cbn beta.
  erewrite bind_next by (by apply FD_SET_in). cbn beta. rewrite Hcl, fd_set_clients_app.
  destruct (fd_set_clients_watches [] (mk_sets [listenfd] [] listenfd) cs s') as (x & Hx & _); [by apply watches_listen|by rewrite <- Hcs|].
  erewrite bind_next by exact Hx. cbn [fd_set_clients]. apply bind_undef.
  unfold fd_set_client. erewrite bind_next by reflexivity. cbn beta. set (k := client_of s' c).
  destruct (write_ready k) eqn:Hw; [apply bind_undef, bind_undef, FD_SET_out; lia|].
  erewrite bind_next by reflexivity. cbn beta. rewrite (ready_some k Hw). apply bind_undef, FD_SET_out. lia.
Qed.
End Server.
Arguments server B : clear implicits.

(** C18: Built with [IP_ACL_FILE], a turn takes a new connection exactly when a
    network of the list contains its address, and closes it otherwise;
    without the file nobody gets in.  Built without, as it is, everybody
    does. *)
Theorem turn_admits_networks {B} {HB : MemBus B} size_bits listenfd l ready i (s s0 s1 s2 : server B) :
  Forall acl_line_ok l → word 32 (in_addr i) → in_select i = SelectReady true ready →
  server_turn size_bits listenfd (Some (Some (print_acl l))) i s = (Next tt, s0) →
  server_turn size_bits listenfd (Some None) i s = (Next tt, s1) →
  server_turn size_bits listenfd None i s = (Next tt, s2) →
  let ok := existsb (allows (in_addr i)) l in
  fds s0 = fds (after_drain s) ++ (if ok then [in_accept i] else []) ∧
  closed s0 = closed (after_drain s) ++ (if ok then [] else [in_accept i]) ∧
  fds s1 = fds (after_drain s) ∧ closed s1 = closed (after_drain s) ++ [in_accept i] ∧
  fds s2 = fds (after_drain s) ++ [in_accept i] ∧ closed s2 = closed (after_drain s).
Proof.
  intros Hl Ha Hsel H0 H1 H2 ok. destruct (authorize_print l (in_addr i) Ha Hl) as [E0 E1].
  apply server_turn_fds in H0 as [-> ->], H1 as [-> ->], H2 as [-> ->].
  unfold accepted, refused, admitted. rewrite Hsel, E0, E1. cbn [fst]. fold ok.
  rewrite !app_nil_r. by destruct ok.
Qed.

(** ** A turn on registers

    What a turn means when every connection that is ready brings the end of
    a frame with one control packet: the packets are executed one after the
    other, in the order of the connections. *)
Section Turn.
Context {B : Type} {HB : MemBus B} {HR : RegisterBus B}.
Variable size_bits : Z.
Hypothesis size_bits_ok : 32 ≤ size_bits.
Variable wr : Z → bool.
Variable ready : Z → bool.
Variable io : Z → recv_result * Z.
(* the packet header and the transactions a connection sends *)
Variable job : Z → Z * list (Z * txn).

Definition packet_of (f : Z) : list Z := (job f).1 :: ((job f).2 ≫= encode).

Fixpoint serve_spec (cs : list conn) (f : regs) : list conn * regs :=
  match cs with
  | [] => ([], f)
  | c :: cs =>
      if ready (fd c) then
        let run := exec_all wr (job (fd c)).2 f in
        let out := c_obuf c ++ frame (vec2str (answer (job (fd c)).1 run.1)) in
        let rest := serve_spec cs run.2 in
        (mk_conn (fd c) [] (erase_front (wrap size_bits (io (fd c)).2) out) :: rest.1, rest.2)
      else let rest := serve_spec cs f in (c :: rest.1, rest.2)
  end.

(** The connection brings the last bytes of its frame. *)
Definition brings (f : regs) (c : conn) : Prop := ready (fd c) = true →
  (∃ l, (io (fd c)).1 = RecvData l ∧ c_ibuf c ++ l = frame (vec2str (packet_of (fd c)))) ∧
  standard_header (job (fd c)).1 = true ∧ Z.land (job (fd c)).1 0x0f = 0 ∧
  Forall (word 32) (packet_of (fd c)) ∧ 4 + Z.of_nat (length (vec2str (packet_of (fd c)))) < 2 ^ 32 ∧
  Forall (txn_ok wr f) (job (fd c)).2.

Lemma brings_later f ts c : brings f c → brings (exec_all wr ts f).2 c.
Proof.
  intros Hc Hr. destruct (Hc Hr) as (? & ? & ? & ? & ? & Hts). split_and!; try done.
  eapply Forall_impl; [exact Hts|]. intros t. apply txn_ok_mapped. intros a. apply exec_all_mapped.
Qed.

Lemma serve_one_brings before c after cl (b : B) f : represents wr b f → brings f c → ready (fd c) = true →
  let run := exec_all wr (job (fd c)).2 f in ∃ b',
  serve_one size_bits (io (fd c)) before c after (mk_server (before ++ c :: after) cl true b) =
    (Next tt, mk_server (before ++ mk_conn (fd c) [] (erase_front (wrap size_bits (io (fd c)).2)
      (c_obuf c ++ frame (vec2str (answer (job (fd c)).1 run.1)))) :: after) cl true b') ∧
  represents wr b' run.2.
Proof.
  intros Hrep Hc Hr run. destruct (Hc Hr) as ((l & Hl & Hb) & Hs & Ht & Hw & Hlen & Hts).
  destruct (control_packet_exec wr (job (fd c)).2 b f [] true Hrep Hts) as (b' & Hp & Hrep').
  exists b'. split; [|done]. unfold serve_one, client_of. cbn [s_inited s_bus].
  rewrite Hl. erewrite (run_io_frame size_bits size_bits_ok _ l (packet_of (fd c))); [|exact Hb|exact Hw|exact Hlen|].
  2: { cbn [c_inited c_bus]. unfold packet_of. exact (process_frame_control _ _ _ _ _ Hs Ht Hp). }
  reflexivity.
Qed.

Lemma serve_from_spec before cs cl (b : B) f : represents wr b f → Forall (brings f) cs → ∃ b',
  serve_from size_bits (length cs) (length before) ready io (mk_server (before ++ cs) cl true b) =
    (Next tt, mk_server (before ++ (serve_spec cs f).1) cl true b') ∧
  represents wr b' (serve_spec cs f).2.
Proof.
  revert before b f. induction cs as [|c cs IH]; intros before b f Hrep Hcs; [by exists b|].
  apply Forall_cons in Hcs as [Hc Hcs]. cbn [length serve_from serve_spec].
  erewrite bind_next by reflexivity. cbn beta. cbn [clients]. rewrite list_lookup_middle by done. cbv iota beta.
  rewrite take_app_length, drop_app. rewrite (drop_ge before) by lia.
  replace (S (length before) - length before)%nat with 1%nat by lia. cbn [drop app].
  destruct (ready (fd c)) eqn:Hr.
  - destruct (serve_one_brings before c cs cl b f Hrep Hc Hr) as (b1 & Hone & Hrep1).
    erewrite bind_next by exact Hone. cbn [fst snd].
    set (c' := mk_conn _ _ _). set (run := exec_all wr _ f) in *.
    destruct (IH (before ++ [c']) b1 run.2 Hrep1) as (b2 & Hrest & Hrep2).
    { eapply Forall_impl; [exact Hcs|]. intros. by apply brings_later. }
    exists b2. rewrite length_app, Nat.add_1_r, <- !app_assoc in Hrest. by split.
  - erewrite bind_next by reflexivity. destruct (IH (before ++ [c]) b f Hrep Hcs) as (b2 & Hrest & Hrep2).
    exists b2. rewrite length_app, Nat.add_1_r, <- !app_assoc in Hrest. by split.
Qed.

(** C10: In one turn the connections that are ready are served in their order,
    each packet on the registers the previous ones left; the other
    connections stay as they are. *)
Theorem turn_serves_in_order listenfd clientfd addr listen cs cl (b : B) f :
  (length cs < MAX_CLIENTS)%nat → 0 ≤ listenfd < FD_SETSIZE → Forall (λ c, 0 ≤ fd c < FD_SETSIZE) cs →
  represents wr b f → Forall (brings f) cs → ∃ b',
  server_turn size_bits listenfd None (mk_input (SelectReady listen ready) io clientfd addr) (mk_server cs cl true b) =
    (Next tt, mk_server ((serve_spec cs f).1 ++ if listen then [mk_conn clientfd [] []] else []) cl true b') ∧
  represents wr b' (serve_spec cs f).2.
Proof.
  intros Hlen Hl Hfd Hrep Hcs. destruct (serve_from_spec [] cs cl b f Hrep Hcs) as (b' & Hs & Hrep').
  exists b'. split; [|done]. unfold server_turn. cbn [app length] in Hs.
  erewrite (bind_next drain _ _ tt (mk_server cs cl true b)).
  2: { unfold drain, modify. cbn [clients]. by rewrite decide_True. }
  destruct (fill_sets_watches listenfd (mk_server cs cl true b)) as (x & Hx & _); [done|by apply Forall_fmap|].
  erewrite bind_next by exact Hx.
  cbn [in_select in_io in_accept]. erewrite bind_next by reflexivity. cbn beta. cbn [clients].
  erewrite bind_next by exact Hs. destruct listen; cbn; [done|]. by rewrite app_nil_r.
Qed.
End Turn.

(** ** Witnesses *)
Import Ram.

Definition server_example : server ram := mk_server [mk_conn 4 [] []] [] true ram_example.
Definition turn_example : turn_input :=
  mk_input (SelectReady true (λ f, f =? 4))
    (λ _, (RecvData (frame (vec2str request_example)), 16)) 5 0.

Lemma server_turn_connections_witness :
  let s' := (server_turn 64 3 None turn_example server_example).2 in
  server_turn 64 3 None turn_example server_example = (Next tt, s') ∧
  fds s' = [4; 5] ∧ closed s' = [].
Proof.
  cbv zeta. split; [vm_compute; reflexivity|].
  apply (server_turn_connections 64 3 None turn_example server_example). vm_compute. reflexivity.
Defined.

Definition quiet_turn (clientfd : Z) : turn_input :=
  mk_input (SelectReady true (λ _, false)) (λ _, (RecvEof, 0)) clientfd 0.
Definition idle_server (cs : list conn) : server ram := mk_server cs [] true ram_example.

Lemma server_descriptors_bounded_witness :
  let s := idle_server [mk_conn 4 [] []] in
  (length (clients s) ≤ MAX_CLIENTS)%nat ∧ ∃ x, fill_sets 3 (after_drain s) = (Next x, after_drain s) ∧ watches 3 (clients (after_drain s)) x.
Proof.
  cbv zeta. assert (reaches 64 3 None [0; 1; 2; 3] (idle_server []) (idle_server [mk_conn 4 [] []])) as Hr.
  { apply (reaches_turn 64 3 None _ _ (quiet_turn 4) (idle_server [])); [apply reaches_refl|vm_compute; reflexivity|].
    split; [cbn; lia|]. split; [vm_decide|]. intros g [H0 H4].
    change (g ∈ [0; 1; 2; 3]). cbn in H4.
    assert (g = 0 ∨ g = 1 ∨ g = 2 ∨ g = 3) as [->|[->|[->| ->]]] by lia; vm_decide. }
  apply (server_descriptors_bounded 64 3 None [0; 1; 2; 3] (idle_server []) (idle_server [mk_conn 4 [] []]));
    [cbn; lia|unfold FD_SETSIZE; lia|reflexivity|exact Hr].
Defined.

Lemma failed_accept_undefined_witness :
  let s' := idle_server [mk_conn (-1) [] []] in
  in_accept (quiet_turn (-1)) = -1 ∧ server_turn 64 3 None turn_example s' = (Undef OutOfBounds, s').
Proof.
  cbv zeta. split; [reflexivity|].
  apply (failed_accept_undefined 64 3 None (quiet_turn (-1)) turn_example (idle_server []) (idle_server [mk_conn (-1) [] []]));
    [reflexivity|reflexivity|reflexivity|unfold FD_SETSIZE; lia|cbn; lia|vm_decide|vm_compute; reflexivity].
Defined.

(** Two connections in one turn: the second one's packet reads what the first
    one's wrote; the third is not ready. *)
Definition turn_jobs (f : Z) : Z * list (Z * txn) :=
  if f =? 4 then (0x200001f0, [(1, TWrite 0 9)]) else (0x200002f0, [(2, TRead 0)]).
Definition turn_io (f : Z) : recv_result * Z := (RecvData (frame (vec2str (packet_of turn_jobs f))), 0).
Definition turn_conns : list conn := [mk_conn 4 [] []; mk_conn 5 [] []; mk_conn 6 [] []].

Lemma turn_serves_in_order_witness : ∃ b',
  server_turn 64 3 None (mk_input (SelectReady false (λ f, f <? 6)) turn_io 7 0) (mk_server turn_conns [] true ram_example) =
    (Next tt, mk_server
      [mk_conn 4 [] (frame (vec2str [0x200001f0; 0x20010110])); mk_conn 5 [] (frame (vec2str [0x200002f0; 0x20020100; 9]));
       mk_conn 6 [] []] [] true b') ∧
  represents (λ _, true) b' (upd regs_example 0x64000000 9).
Proof.
  apply (turn_serves_in_order 64 ltac:(lia) (λ _, true) (λ f, f <? 6) turn_io turn_jobs 3 7 0 false turn_conns []
    ram_example regs_example).
  - cbn. unfold MAX_CLIENTS. lia.
  - unfold FD_SETSIZE. lia.
  - vm_decide.
  - by split_and!.
  - apply Forall_cons; split; [intros _|apply Forall_cons; split; [intros _|constructor; [intros [=]|constructor]]].
    all: split; [eexists; split; [reflexivity|reflexivity]|].
    all: split; [reflexivity|]; split; [reflexivity|]; split; [vm_decide|]; split; [vm_compute; reflexivity|].
    all: repeat constructor; vm_compute; intuition discriminate.
Defined.

Definition lab : list acl_line := [Comment " lab"; Allow 192 168 0 0 16].
Definition outsider : turn_input := mk_input (SelectReady true (λ _, false)) (λ _, (RecvEof, 0)) 5 0x0a000001.

Lemma turn_admits_networks_witness :
  let s := idle_server [mk_conn 4 [] []] in
  let run acl := (server_turn 64 3 acl outsider s).2 in
  Forall acl_line_ok lab ∧ existsb (allows 0x0a000001) lab = false ∧
  fds (run (Some (Some (print_acl lab)))) = [4] ∧ closed (run (Some (Some (print_acl lab)))) = [5] ∧
  fds (run (Some None)) = [4] ∧ fds (run None) = [4; 5].
Proof.
  intros s run. assert (Forall acl_line_ok lab) as Hl by (repeat constructor; cbn; lia).
  split; [exact Hl|]. split; [reflexivity|].
  destruct (turn_admits_networks 64 3 lab (λ _, false) outsider s (run (Some (Some (print_acl lab)))) (run (Some None))
    (run None) Hl ltac:(by split) eq_refl) as (-> & -> & -> & _ & -> & _).
  - vm_compute. reflexivity.
  - vm_compute. reflexivity.
  - vm_compute. reflexivity.
  - by vm_compute.
Defined.
