(* ===== verification/IpbusRun.v ===== *)
(** * IpbusRun: the server on arbitrary input

    [IpbusServer] says what turns mean when the clients behave.  Here they
    need not: for any bytes they send, in any pieces and any order, the ways
    the daemon can end are listed, each with its cause. *)

From S2P Require Import Prelude Words RpcMsg CText IpAcl IpbusWire MemBus Ipbus IpbusSpec IpbusFrame IpbusSafe IpbusServer.

Local Open Scope list_scope.

Section Run.
Context {B : Type} {HB : MemBus B} {TB : TotalBus B}.
Variable size_bits : Z.    (* the width of size_t *)
Hypothesis size_bits_ok : 32 ≤ size_bits.

(** The bus is in order, or the first packet will open it. *)
Definition serviceable (inited : bool) (b : B) : Prop :=
  if inited then bus_inv b else ∃ b', memhub_open b = (Next 0, b') ∧ bus_inv b'.

(** *** The flag, once set, stays *)
Notation keeps_inited := (keeps (λ s : pstate B, memsvc_inited s = true)).

Lemma inited_pop {R} : keeps_inited (request_pop (R:=R)).
Proof. intros s Hs. unfold request_pop. by destruct (request s). Qed.
Lemma inited_pop_front {R} : keeps_inited (response_pop_front (R:=R)).
Proof. intros s Hs. unfold response_pop_front. by destruct (response s). Qed.
Lemma inited_modify {R} f : (∀ s, memsvc_inited (f s) = memsvc_inited s ∨ memsvc_inited (f s) = true) →
  keeps_inited (modify (R:=R) f).
Proof. intros Hf s Hs. cbn. destruct (Hf s) as [-> | ->]; done. Qed.
Lemma inited_bus {R A} (m : Fn B A) : keeps_inited (on_bus (R:=R) m).
Proof. intros s Hs. unfold on_bus. by destruct (m (bus s)) as [[|[]| | |] b]. Qed.
Lemma inited_push_back {R} x : keeps_inited (push_back (R:=R) x).
Proof. apply inited_modify. by left. Qed.
Hint Resolve inited_pop inited_pop_front inited_bus inited_push_back : keeps.
Hint Extern 1 (keeps _ (modify _)) => apply inited_modify; intros ?; first [by left|by right] : keeps.

Lemma inited_fill_data h n data : keeps_inited (fill_data h n data).
Proof. revert data. induction n as [|n IH]; intros data; cbn [fill_data]; unfold reply_hdr; keeps_tac. Qed.
Lemma inited_niread_loop h a n data : keeps_inited (niread_loop h a n data).
Proof. revert data. induction n as [|n IH]; intros data; cbn [niread_loop]; unfold reply_hdr; keeps_tac. Qed.
Lemma inited_niwrite_loop h a n : keeps_inited (niwrite_loop h a n).
Proof. induction n as [|n IH]; cbn [niwrite_loop]; unfold reply_hdr; keeps_tac. Qed.
Hint Resolve inited_fill_data inited_niread_loop inited_niwrite_loop : keeps.

Lemma inited_control_step : keeps_inited control_step.
Proof.
  unfold control_step, process_read_txn, process_write_txn, process_niread_txn, process_niwrite_txn,
    process_rmwbits_txn, process_rmwsum_txn, process_cfgread_txn, process_cfgwrite_txn, response_clear, reply_hdr.
  keeps_tac.
Qed.
Lemma inited_control_loop n : keeps_inited (control_loop n).
Proof.
  induction n as [|n IH]; cbn [control_loop]; [apply keeps_skip|]. apply keeps_bind; [apply keeps_gets|]. intros k.
  case_match; [apply keeps_skip|]. apply keeps_bind; [apply inited_control_step|done].
Qed.
Lemma inited_frame : keeps_inited process_frame.
Proof.
  unfold process_frame, process_control_packet, process_status_packet, response_clear, push_front.
  pose proof inited_control_loop. keeps_tac.
Qed.

(** A control packet in host order with a word that reads as the header of a
    configuration write. *)
Definition cfgwrite_packet (req : list Z) : Prop := ∃ h q, req = h :: q ∧
  standard_header h = true ∧ Z.land h 0x0f = 0 ∧ existsb cfgwrite_header q = true.

(** [process_frame], whatever the request. *)
Lemma process_frame_ends q inited b : serviceable inited b → Forall (word 32) q →
  let res := process_frame (mk_pstate q [] inited b) in
  (res.1 = Next tt ∨ res.1 = Undef PopEmpty ∧ cfgwrite_packet q) ∧ memsvc_inited res.2 = true ∧ bus_inv (bus res.2).
Proof.
  intros Hs Hq. assert (∃ b', bus_inv b' ∧
    process_frame (mk_pstate q [] inited b) = process_frame (mk_pstate q [] true b')) as (b' & Hb & ->).
  { unfold serviceable in Hs. destruct inited; [by exists b|]. destruct Hs as (b' & Ho & Hb). exists b'.
    split; [done|]. by apply process_frame_opens. }
  destruct q as [|h q]; [by split; [left|]|]. apply Forall_cons in Hq as [Hh Hq].
  destruct (packet_ends h q [] b' Hb Hh Hq) as (Hr & Hb' & _). split_and!; [|by apply inited_frame|done].
  destruct Hr as [Hr|(Hr & ? & ? & ?)]; [by left|right]. split; [done|]. by exists h, q.
Qed.

(** ** One connection *)

Definition client_inv (c : client B) : Prop := Forall (word 8) (ibuf c) ∧ serviceable (c_inited c) (c_bus c).

(** What [recv] adds to the buffer. *)
Definition received (rx : recv_result) : list Z := match rx with RecvData l => l | _ => [] end.

(** The frame [run_io] takes from a buffer: as many bytes after the length as
    it says, or as there are. *)
Definition takes (buf frame : list Z) : Prop := ∃ n, (4 ≤ length buf)%nat ∧ frame_size_of buf = Some n ∧
  wrap size_bits (Z.of_nat (length buf) - 4) ≤ n ∧ frame = take (Z.to_nat n) (drop 4 buf).

(** Too few bytes for a length, or a frame whose last word is cut after one
    or two bytes: behind the bytes of a string there is only its
    terminator. *)
Definition cut_short (buf : list Z) : Prop :=
  length buf = 1%nat ∨ length buf = 2%nat ∨
  ∃ frame, takes buf frame ∧ (length frame mod 4 = 1 ∨ length frame mod 4 = 2)%nat.

Definition pops_empty (buf : list Z) : Prop :=
  ∃ frame req, takes buf frame ∧ str2vec frame = Some req ∧ cfgwrite_packet req.

(** How [run_io] can end instead of returning: an access past the end of the
    buffer, [response.pop_front()] on an empty deque, and the string of length
    -1 when [recv] had nothing. *)
Definition io_stop (rx : recv_result) (buf : list Z) (e : stop) : Prop :=
  e = StopUndef OutOfBounds ∧ cut_short buf ∨ e = StopUndef PopEmpty ∧ pops_empty buf ∨
  e = StopThrow LengthError ∧ rx = RecvAgain.

Lemma str2vec_None l : str2vec l = None → (length l mod 4 = 1 ∨ length l mod 4 = 2)%nat.
Proof.
  remember (length l) as n eqn:Hn. revert l Hn. induction (lt_wf n) as [n _ IH]. intros l Hn.
  destruct l as [|b0 [|b1 [|b2 [|b3 l]]]]; subst n; try done; [by left|by right|].
  rewrite str2vec_cons4. destruct (str2vec l) eqn:E; [done|]. intros _.
  cbn [length]. replace (S (S (S (S (length l))))) with (length l + 1 * 4)%nat by lia. rewrite Nat.Div0.mod_add.
  exact (IH (length l) ltac:(cbn; lia) l eq_refl E).
Qed.

Lemma substr4_take n (l : list Z) : substr4 n l = take (Z.to_nat n) (drop 4 l).
Proof.
  unfold substr4. destruct (Z.min_spec n (Z.of_nat (length l))) as [[_ ->]|[? ->]]; [done|].
  rewrite !(take_ge (drop 4 l)) by (rewrite length_drop; lia). done.
Qed.

(** Three bytes are never taken for a frame, whatever the width of [size_t]. *)
Lemma frame_size_long buf n : Forall (word 8) buf → frame_size_of buf = Some n →
  wrap size_bits (Z.of_nat (length buf) - 4) ≤ n → (4 ≤ length buf)%nat.
Proof.
  intros Hb Hn Hle. pose proof (frame_size_word buf n Hb Hn) as [_ Hn32].
  destruct buf as [|b0 [|b1 [|b2 [|b3 l]]]]; try done; [|cbn; lia]. exfalso. cbn in Hn. injection Hn as <-.
  assert (2 ^ 32 ≤ 2 ^ size_bits) by (apply Z.pow_le_mono_r; lia).
  assert (wrap size_bits (Z.of_nat (length [b0; b1; b2]) - 4) = 2 ^ size_bits - 1) as Hw.
  { unfold wrap. change (Z.of_nat (length [b0; b1; b2]) - 4) with (-1). symmetry. apply (Z.mod_unique _ _ (-1)); lia. }
  rewrite Hw in Hle. decompose_Forall_hyps.
  assert (word 32 (le32 b0 b1 b2 0)) as Hl by (apply le32_word; [done..|vm_decide]).
  assert (bswap32 (le32 b0 b1 b2 0) = 2 ^ 32 - 1) as E by lia.
  apply (f_equal bswap32) in E. rewrite bswap32_involutive in E by done.
  change (bswap32 (2 ^ 32 - 1)) with (2 ^ 32 - 1) in E. unfold le32, word in *. lia.
Qed.

Lemma run_frame_ends Rt req c : client_inv c → Forall (word 32) req →
  wp Rt (λ e _, e = StopUndef PopEmpty ∧ cfgwrite_packet req) (run_frame req) (λ _, client_inv) c.
Proof.
  intros [Hb Hs] Hq. destruct (process_frame_ends req _ _ Hs Hq) as (Hr & Hi & Hbus). unfold wp, run_frame.
  destruct (process_frame _) as [[[]|[]| | |] s]; destruct Hr as [Hr|[Hr Hc]]; try discriminate Hr.
  - split; [done|]. cbn in Hi |- *. by rewrite Hi.
  - injection Hr as ->. by split.
Qed.

Lemma extract_frame_ends rx Rt c : client_inv c → ibuf c ≠ [] →
  wp Rt (λ e _, io_stop rx (ibuf c) e) (extract_frame size_bits) (λ _, client_inv) c.
Proof.
  intros Hc Hne. pose proof Hc as [Hb Hs]. unfold extract_frame. wp_step. wp_step. set (buf := ibuf c) in *.
  destruct (frame_size_of buf) as [n|] eqn:En.
  2: { left. split; [done|]. destruct buf as [|b0 [|b1 [|b2 [|b3 l]]]]; try done; [by left|by right; left]. }
  case_decide as Hle; [|by wp_step].
  pose proof (frame_size_long _ _ Hb En Hle). rewrite decide_False by lia. wp_step. wp_step. rewrite substr4_take.
  assert (takes buf (take (Z.to_nat n) (drop 4 buf))) as Ht by by exists n.
  destruct (str2vec _) as [req|] eqn:Eq.
  2: { left. split; [done|]. right; right. eexists. split; [exact Ht|]. by apply str2vec_None. }
  wp_step. eapply wp_impl; [apply (run_frame_ends Rt)| | |].
  - split; [|done]. unfold erase_front. cbn [ibuf set_ibuf]. by apply Forall_drop.
  - eapply str2vec_words; [|exact Eq]. by apply Forall_take, Forall_drop.
  - done.
  - intros e t [-> Hcfg]. right; left. split; [done|]. by eexists _, req.
  - intros rsp t [Ht1 Ht2]. by wp_step.
Qed.

Lemma run_io_ends rx wc c : client_inv c → (∀ l, rx = RecvData l → Forall (word 8) l) →
  wp (λ _ _, False) (λ e _, io_stop rx (ibuf c ++ received rx) e) (run_io size_bits rx wc) (λ _, client_inv) c.
Proof.
  intros Hc Hl. set (buf := ibuf c ++ received rx). unfold run_io. wp_step. wp_step.
  eapply (wp_mono _ _ _ (λ _ t, client_inv t ∧ ibuf t = buf)).
  { unfold buf. destruct rx as [l| | |]; cbn [received]; rewrite ?app_nil_r; [|done|by right; right|done].
    destruct Hc as [Hb Hs]. wp_step. split; [|done]. split; [|done]. apply Forall_app. split; [done|]. by apply Hl. }
  clearbody buf. clear c Hc. intros [] c [Hc Hbuf]. wp_step. wp_step. wp_step. eapply (wp_mono _ _ _ (λ _, client_inv)).
  { rewrite <- Hbuf. case_bool_decide; cbn [negb when]; [done|by apply extract_frame_ends]. }
  clear c Hc Hbuf. intros [] c Hc. wp_step. wp_step. wp_step. eapply (wp_mono _ _ _ (λ _, client_inv)).
  { destruct (negb _); [|done]. by destruct Hc. }
  intros [] t Ht. by wp_step.
Qed.
End Run.

(** ** The access list

    A line with the prefix length 0, or one above 32, shifts by the width. *)
Definition wide_shift (text : string) : Prop := ∃ line a b c d len,
  line ∈ fgets_lines 1023 text EmptyString ∧ scan_network (cut_comment line) = Some (a, b, c, d, len) ∧
  ¬ 1 ≤ len ≤ 32.

Lemma authorize_ends text ip :
  wp (λ _ _, False) (λ e _, e = StopUndef ShiftCount ∧ wide_shift text) (authorize_ip (Some text) ip) (λ _ _, True) tt.
Proof.
  unfold authorize_ip, wide_shift. generalize (fgets_lines 1023 text EmptyString).
  intros lines. induction lines as [|line lines IH]; cbn [authorize_loop]; [done|].
  assert (wp (λ _ _, False) (λ e _, e = StopUndef ShiftCount ∧ ∃ l a b c d len, l ∈ line :: lines ∧
    scan_network (cut_comment l) = Some (a, b, c, d, len) ∧ ¬ 1 ≤ len ≤ 32) (authorize_loop ip lines) (λ _ _, True) tt) as IH'.
  { eapply wp_impl; [exact IH|done| |done].
    intros e t (-> & l & a & b & c & d & n & Hl & Hn). split; [done|]. exists l, a, b, c, d, n. split; [by right|done]. }
  case_match; [done|]. destruct (scan_network (cut_comment line)) as [[[[[a b] c] d] n]|] eqn:E; [|done].
  unfold guard_ub. destruct (Z.leb_spec 0 (32 - n)), (Z.ltb_spec (32 - n) 32); cbn [andb].
  { wp_step. wp_step. by case_match. }
  all: apply wp_bind; cbn; split; [done|]; exists line, a, b, c, d, n; split; [by left|]; split; [done|lia].
Qed.

(** ** The server *)
Section Server.
Context {B : Type} {HB : MemBus B} {TB : TotalBus B}.
Variable size_bits : Z.
Hypothesis size_bits_ok : 32 ≤ size_bits.
Variable listenfd : Z.
Hypothesis listenfd_ok : 0 ≤ listenfd < FD_SETSIZE.
Variable acl : option (option string).
Notation turn := (server_turn size_bits listenfd acl).

Definition fd_ok (f : Z) : Prop := 0 ≤ f < FD_SETSIZE.

Definition server_inv (s : server B) : Prop :=
  Forall (λ c, Forall (word 8) (c_ibuf c)) (clients s) ∧ Forall fd_ok (fds s) ∧ serviceable (s_inited s) (s_bus s).

(** What the kernel may answer: the bytes received are bytes, and a connection
    has a descriptor [FD_SET] can take ([server_descriptors_bounded]). *)
Definition input_ok (i : turn_input) : Prop :=
  fd_ok (in_accept i) ∧ ∀ f l, (in_io i f).1 = RecvData l → Forall (word 8) l.

(** A connection of [cs] is served in the turn, and [P] holds of what [recv]
    gives it and of its buffer with that. *)
Definition served (i : turn_input) (cs : list conn) (P : recv_result → list Z → Prop) : Prop :=
  ∃ c listen ready, c ∈ cs ∧ in_select i = SelectReady listen ready ∧ ready (fd c) = true ∧
    P (in_io i (fd c)).1 (c_ibuf c ++ received (in_io i (fd c)).1).

(** The ways a turn with the connections [cs] can end otherwise than by going
    on or breaking off the loop. *)
Definition turn_stop (cs : list conn) (i : turn_input) (e : stop) (s : server B) : Prop :=
  served i cs (λ rx buf, io_stop size_bits rx buf e) ∨
  (e = StopUndef ShiftCount ∧ ∃ text, acl = Some (Some text) ∧ wide_shift text).

(** [break], after an error of [select] *)
Definition broken (i : turn_input) (r : Z) (s : server B) : Prop := r = 1 ∧ in_select i = SelectError false.

Lemma after_drain_inv s : server_inv s → server_inv (after_drain s).
Proof. intros (Hc & Hf & Hb). unfold after_drain. by case_decide; split_and!. Qed.

Lemma fill_sets_keeps i s : server_inv s → wp (broken i) (turn_stop (clients s) i) (fill_sets listenfd) (λ _ t, t = s) s.
Proof.
  intros Hs. unfold wp. destruct (fill_sets_watches listenfd s) as (x & -> & _); [done|apply Hs|done].
Qed.

Lemma serve_one_keeps i f before c after s : input_ok i → server_inv s → clients s = before ++ c :: after →
  wp (broken i) (λ e _, io_stop size_bits (in_io i f).1 (c_ibuf c ++ received (in_io i f).1) e)
    (serve_one size_bits (in_io i f) before c after)
    (λ _ t, server_inv t ∧ ∃ c', clients t = before ++ c' :: after) s.
Proof.
  intros [_ Hi] (Hc & Hf & Hb) Hcs. rewrite Hcs in Hc. apply Forall_app in Hc as [Hc1 [Hc Hc2]%Forall_cons].
  assert (client_inv (client_of s c)) as Hk by done.
  pose proof (run_io_ends size_bits size_bits_ok (in_io i f).1 (in_io i f).2 _ Hk (Hi f)) as Hr.
  unfold wp, serve_one in *. destruct (run_io _ _ _ _) as [[b|[]|e|u|h] k]; [|exact Hr..].
  destruct Hr as [Hb1 Hb2]. split; [|by eexists]. split_and!; cbn; [by apply Forall_app; split; [|constructor]| |done].
  unfold fds in *. rewrite Hcs in Hf. cbn. by rewrite !fmap_app in *.
Qed.

(** The connections not yet served are as the turn found them. *)
Lemma serve_from_keeps cs i k n listen ready s : input_ok i → in_select i = SelectReady listen ready →
  server_inv s → drop n (clients s) = drop n cs →
  wp (broken i) (turn_stop cs i) (serve_from size_bits k n ready (in_io i)) (λ _, server_inv) s.
Proof.
  intros Hi Hsel. revert n s. induction k as [|k IH]; intros n s Hs Hd; cbn [serve_from]; [done|]. wp_step. wp_step.
  destruct (clients s !! n) as [c|] eqn:Hc; [|done]. wp_step.
  eapply (wp_mono _ _ _ (λ _ t, server_inv t ∧ drop (S n) (clients t) = drop (S n) cs)).
  2: { intros [] t [Ht Hdt]. by apply IH. }
  assert (drop (S n) (clients s) = drop (S n) cs) as Hd' by (replace (S n) with (n + 1)%nat by lia; by rewrite <- !drop_drop, Hd).
  destruct (ready (fd c)) eqn:Hr; [|done].
  eapply wp_impl; [apply (serve_one_keeps i (fd c)); [done..|]; symmetry; by apply take_drop_middle|done| |].
  - intros e t He. left. exists c, listen, ready. split_and!; [|done..].
    rewrite <- (Nat.add_0_r n), <- lookup_drop, Hd, lookup_drop in Hc. by eapply list_elem_of_lookup_2.
  - intros [] t (Ht & c' & Hct). split; [done|]. rewrite Hct, <- Hd'.
    apply lookup_lt_Some in Hc. rewrite drop_app, length_take, (Nat.min_l n) by lia.
    rewrite drop_ge by (rewrite length_take; lia). by replace (S n - n)%nat with 1%nat by lia.
Qed.

Lemma accept_client_keeps cs i s : input_ok i → server_inv s →
  wp (broken i) (turn_stop cs i) (accept_client acl (in_accept i) (in_addr i)) (λ _, server_inv) s.
Proof.
  intros [Ha _] (Hc & Hf & Hb). unfold accept_client. wp_step.
  assert (∀ b : bool, wp (broken i) (turn_stop cs i) (modify (λ s0,
    if b then mk_server (clients s0 ++ [mk_conn (in_accept i) [] []]) (closed s0) (s_inited s0) (s_bus s0)
    else mk_server (clients s0) (closed s0 ++ [in_accept i]) (s_inited s0) (s_bus s0))) (λ _, server_inv) s) as Hadd.
  { intros []; wp_step; [|done]. split_and!; cbn; [by apply Forall_app; split; [|repeat constructor]| |done].
    unfold fds in *. cbn. rewrite fmap_app. apply Forall_app. by split; [|apply Forall_singleton]. }
  unfold wp at 1, authorized. destruct acl as [[text|]|] eqn:Eacl; [|exact (Hadd false)|exact (Hadd true)].
  pose proof (authorize_ends text (in_addr i)) as He. unfold wp in He.
  destruct (authorize_ip _ _ _) as [[b|[]|e|u|h] u']; [apply Hadd|..].
  all: destruct He as [He Hw]; try discriminate He; right; rewrite He; eauto.
Qed.

Lemma turn_keeps i s : input_ok i → server_inv s →
  wp (broken i) (turn_stop (clients (after_drain s)) i) (turn i) (λ _, server_inv) s.
Proof.
  intros Hi Hs. unfold server_turn. wp_step. unfold drain. wp_step. fold (after_drain s).
  pose proof (after_drain_inv s Hs) as Hd. set (d := after_drain s) in *. clearbody d. clear s Hs.
  wp_step. eapply wp_mono; [by apply fill_sets_keeps|]. intros x t ->.
  destruct (in_select i) as [[]|listen ready] eqn:Esel; [done|by wp_step|]. wp_step. wp_step. wp_step.
  eapply wp_mono; [by eapply serve_from_keeps|]. intros [] t Ht. wp_step; [by apply accept_client_keeps|done].
Qed.

(** After the turns [pre] of [ins] the server is still going, and [P] holds of
    the next turn and of the connections it starts with. *)
Definition met (ins : list turn_input) (s : server B) (P : turn_input → list conn → Prop) : Prop :=
  ∃ pre i post t, ins = pre ++ i :: post ∧ server_run size_bits listenfd acl pre s = (Next tt, t) ∧
    P i (clients (after_drain t)).

(** How a run of the server over the turns [ins] comes out: it is still going,
    [select] failed, or it stopped, with the cause in the input. *)
Definition run_outcome (ins : list turn_input) (s : server B) (res : flow Z unit * server B) : Prop :=
  match res.1 with
  | Next _ => server_inv res.2
  | Return r => r = 1 ∧ met ins s (λ i _, in_select i = SelectError false)
  | Throw e => e = LengthError ∧ met ins s (λ i cs, served i cs (λ rx _, rx = RecvAgain))
  | Undef u =>
      u = OutOfBounds ∧ met ins s (λ i cs, served i cs (λ _ buf, cut_short size_bits buf)) ∨
      u = PopEmpty ∧ met ins s (λ i cs, served i cs (λ _ buf, pops_empty size_bits buf)) ∨
      u = ShiftCount ∧ ∃ text, acl = Some (Some text) ∧ wide_shift text
  | Halt _ => False
  end.

Lemma met_here i ins s (P : turn_input → list conn → Prop) : P i (clients (after_drain s)) → met (i :: ins) s P.
Proof. intros HP. by exists [], i, ins, s. Qed.

Lemma met_later i ins s t (P : turn_input → list conn → Prop) :
  turn i s = (Next tt, t) → met ins t P → met (i :: ins) s P.
Proof.
  intros Ht (pre & j & post & u & -> & Hr & HP). exists (i :: pre), j, post, u. split_and!; [done| |done].
  cbn [server_run]. by erewrite bind_next by exact Ht.
Qed.

Lemma served_impl i cs (P Q : recv_result → list Z → Prop) : served i cs P → (∀ rx buf, P rx buf → Q rx buf) → served i cs Q.
Proof. intros (c & l & r & ? & ? & ? & HP) HPQ. exists c, l, r. auto. Qed.

Lemma server_run_outcome ins s : server_inv s → Forall input_ok ins →
  run_outcome ins s (server_run size_bits listenfd acl ins s).
Proof.
  intros Hs Hi. revert s Hs. induction Hi as [|i ins Hi _ IH]; intros s Hs; [done|]. cbn [server_run].
  pose proof (turn_keeps i s Hi Hs) as Ht. unfold wp in Ht. unfold mbind, M_bind.
  destruct (turn i s) as [[[]|r|e|u|h] t] eqn:Et; unfold run_outcome; cbn [fst snd].
  - specialize (IH t Ht). pose proof (λ P, met_later i ins s t P Et) as Hl. unfold run_outcome in IH.
    destruct (server_run _ _ _ ins t) as [[]]; cbn [fst snd] in *; naive_solver.
  - destruct Ht as [-> He]. split; [done|]. by apply met_here.
  - destruct Ht as [Ht|[Ht _]]; [|done]. assert (e = LengthError) as ->.
    { destruct Ht as (? & ? & ? & _ & _ & _ & [[? _]|[[? _]|[He _]]]); congruence. }
    split; [done|]. apply met_here. eapply served_impl; [exact Ht|]. intros rx buf [[? _]|[[? _]|[_ He]]]; congruence.
  - destruct Ht as [Ht|[[= ->] Ht]]; [|auto]. assert (u = OutOfBounds ∨ u = PopEmpty) as [-> | ->].
    { destruct Ht as (? & ? & ? & _ & _ & _ & [[? _]|[[? _]|[? _]]]); [left|right|]; congruence. }
    + left. split; [done|]. apply met_here. eapply served_impl; [exact Ht|]. by intros rx buf [[_ ?]|[[? _]|[? _]]].
    + right; left. split; [done|]. apply met_here. eapply served_impl; [exact Ht|]. by intros rx buf [[? _]|[[_ ?]|[? _]]].
  - destruct Ht as [(? & ? & ? & _ & _ & _ & [[? _]|[[? _]|[? _]]])|[? _]]; congruence.
Qed.
End Server.
