(* ===== verification/IpbusSim.v ===== *)
(** * IpbusSim: the packet engine over two buses at once

    [Client.cpp] uses the memory hub only through the calls of [memhub.h]: what
    the engine does with a packet depends on the bus through its answers alone.
    [agree] says so of two runs over two buses that answer alike for as long as
    the first of them answers at all. *)

From S2P Require Import Prelude Words IpbusWire MemBus RpcMsg CText IpAcl Ipbus IpbusSpec IpbusFrame IpbusServer.

Local Open Scope list_scope.

(** ** Statements in step *)
Section Agree.
Context {S1 S2 : Type} (al : S1 → S2 → Prop).

(** From states in the relation [al] two statements have the same outcome in
    states in the relation, or the first is blocked. *)
Definition agree {R A} (m1 : M S1 R A) (m2 : M S2 R A) : Prop :=
  ∀ s t, al s t → (m1 s).1 = (m2 t).1 ∧ al (m1 s).2 (m2 t).2 ∨ (m1 s).1 = Halt HBlocked.

Lemma agree_stop {R A} (r : flow R A) : agree (λ s, (r, s)) (λ t, (r, t)).
Proof. intros s t Hst. by left. Qed.
Lemma agree_ret {R A} (a : A) : agree (R:=R) (mret a) (mret a).
Proof. apply agree_stop. Qed.
Lemma agree_return {R A} (r : R) : agree (A:=A) (ret r) (ret r).
Proof. apply agree_stop. Qed.
Lemma agree_throw {R A} e : agree (R:=R) (A:=A) (throw e) (throw e).
Proof. apply agree_stop. Qed.
Lemma agree_undef {R A} u : agree (R:=R) (A:=A) (undef u) (undef u).
Proof. apply agree_stop. Qed.
Lemma agree_halt {R A} h : agree (R:=R) (A:=A) (halt_with h) (halt_with h).
Proof. apply agree_stop. Qed.
Lemma agree_skip {R} : agree (R:=R) skip skip.
Proof. apply agree_stop. Qed.
Lemma agree_guard {R} b u : agree (R:=R) (guard_ub b u) (guard_ub b u).
Proof. destruct b; apply agree_stop. Qed.

Lemma agree_gets {R A} (f : S1 → A) (g : S2 → A) : (∀ s t, al s t → f s = g t) → agree (R:=R) (gets f) (gets g).
Proof. intros Hfg s t Hst. left. split; [|done]. cbn. by rewrite (Hfg s t). Qed.
Lemma agree_modify {R} (f : S1 → S1) (g : S2 → S2) : (∀ s t, al s t → al (f s) (g t)) →
  agree (R:=R) (modify f) (modify g).
Proof. intros Hfg s t Hst. left. split; [done|]. by apply Hfg. Qed.

Lemma agree_bind {R A C} (m1 : M S1 R A) m2 (k1 : A → M S1 R C) k2 : agree m1 m2 →
  (∀ a, agree (k1 a) (k2 a)) → agree (m1 ≫= k1) (m2 ≫= k2).
Proof.
  intros Hm Hk s t Hst. specialize (Hm s t Hst). unfold mbind, M_bind.
  destruct (m1 s) as [f1 s'], (m2 t) as [f2 t']. cbn in Hm. destruct Hm as [[<- Hst']| ->]; [|by right].
  destruct f1; [by apply Hk|by left..].
Qed.

(** What is looked up may be of different types. *)
Lemma agree_bind_gets {R A1 A2 C} (f : S1 → A1) (g : S2 → A2) (k1 : A1 → M S1 R C) (k2 : A2 → M S2 R C) :
  (∀ s t, al s t → agree (k1 (f s)) (k2 (g t))) → agree (gets f ≫= k1) (gets g ≫= k2).
Proof. intros Hk s t Hst. by apply Hk. Qed.

Lemma agree_when {R} b (m1 : M S1 R unit) m2 : agree m1 m2 → agree (when b m1) (when b m2).
Proof. intros Hm. destruct b; [done|apply agree_skip]. Qed.

Lemma agree_fn {A} (m1 : M S1 A A) m2 : agree m1 m2 → agree (fn m1) (fn m2).
Proof.
  intros Hm s t Hst. specialize (Hm s t Hst). unfold fn. destruct (m1 s) as [f1 s'], (m2 t) as [f2 t']. cbn in Hm.
  destruct Hm as [[<- Hst']| ->]; [left; by destruct f1|by right].
Qed.

Lemma agree_call {R A} (m1 : Fn S1 A) m2 : agree m1 m2 → agree (R:=R) (call m1) (call m2).
Proof.
  intros Hm s t Hst. specialize (Hm s t Hst). unfold call. destruct (m1 s) as [f1 s'], (m2 t) as [f2 t']. cbn in Hm.
  destruct Hm as [[<- Hst']| ->]; [left; by destruct f1 as [|[]| | |]|by right].
Qed.

Lemma agree_for_each {R X} (l : list X) (f1 : X → M S1 R unit) f2 : (∀ x, agree (f1 x) (f2 x)) →
  agree (for_each l f1) (for_each l f2).
Proof. intros Hf. induction l as [|x l IH]; cbn [for_each]; [apply agree_skip|]. by apply agree_bind. Qed.
End Agree.

(** ** The engine's statements *)

(** Two buses in the relation [rel] answer alike, or the first does not
    answer. *)
Notation answers_like rel := (agree (R:=Empty_set) rel).

Record like {B1 B2} {H1 : MemBus B1} {H2 : MemBus B2} (rel : B1 → B2 → Prop) : Prop := {
  like_open : answers_like rel memhub_open memhub_open;
  like_read a n : answers_like rel (memhub_read a n) (memhub_read a n);
  like_write a n data : answers_like rel (memhub_write a n data) (memhub_write a n data)
}.

Section Statements.
Context {B1 B2 : Type} {H1 : MemBus B1} {H2 : MemBus B2} (rel : B1 → B2 → Prop).

Definition alike (s : pstate B1) (t : pstate B2) : Prop :=
  request s = request t ∧ response s = response t ∧ memsvc_inited s = memsvc_inited t ∧ rel (bus s) (bus t).

Lemma agree_on_bus {R A} (m1 : Fn B1 A) m2 : answers_like rel m1 m2 → agree alike (R:=R) (on_bus m1) (on_bus m2).
Proof.
  intros Hm s t (Hq & Hr & Hi & Hb). specialize (Hm _ _ Hb). unfold on_bus.
  destruct (m1 (bus s)) as [f1 b1], (m2 (bus t)) as [f2 b2]. cbn in Hm.
  destruct Hm as [[<- Hb']| ->]; [left|by right]. by destruct f1 as [|[]| | |].
Qed.

Lemma agree_size {R} : agree alike (R:=R) (gets (λ s, length (request s))) (gets (λ s, length (request s))).
Proof. intros s t Hst. left. split; [|done]. cbn. by destruct Hst as (-> & _). Qed.
Lemma agree_rsize {R} : agree alike (R:=R) (gets (λ s, length (response s))) (gets (λ s, length (response s))).
Proof. intros s t Hst. left. split; [|done]. cbn. by destruct Hst as (_ & -> & _). Qed.
Lemma agree_inited {R} : agree alike (R:=R) (gets memsvc_inited) (gets memsvc_inited).
Proof. intros s t Hst. left. split; [|done]. cbn. by destruct Hst as (_ & _ & -> & _). Qed.

Lemma agree_response {R} (f : list Z → list Z) :
  agree alike (R:=R) (modify (λ s, set_response (f (response s)) s)) (modify (λ s, set_response (f (response s)) s)).
Proof. apply agree_modify. intros s t (Hq & Hr & Hi & Hb). unfold alike. cbn. by rewrite Hr. Qed.
Lemma agree_request {R} (f : list Z → list Z) :
  agree alike (R:=R) (modify (λ s, set_request (f (request s)) s)) (modify (λ s, set_request (f (request s)) s)).
Proof. apply agree_modify. intros s t (Hq & Hr & Hi & Hb). unfold alike. cbn. by rewrite Hq. Qed.

Lemma agree_set_inited {R} b : agree alike (R:=R) (modify (set_inited b)) (modify (set_inited b)).
Proof. apply agree_modify. intros s t (Hq & Hr & Hi & Hb). by unfold alike. Qed.

Lemma agree_request_pop {R} : agree alike (R:=R) request_pop request_pop.
Proof.
  intros s t (Hq & Hr & Hi & Hb). left. unfold request_pop. rewrite Hq.
  destruct (request t) eqn:E; unfold alike; cbn; by rewrite ?Hq, ?E.
Qed.
Lemma agree_response_pop {R} : agree alike (R:=R) response_pop_front response_pop_front.
Proof.
  intros s t (Hq & Hr & Hi & Hb). left. unfold response_pop_front. rewrite Hr.
  destruct (response t) eqn:E; unfold alike; cbn; by rewrite ?Hr, ?E.
Qed.
Lemma agree_push_back {R} x : agree alike (R:=R) (push_back x) (push_back x).
Proof. apply (agree_response (λ l, l ++ [x])). Qed.
Lemma agree_push_front {R} x : agree alike (R:=R) (push_front x) (push_front x).
Proof. apply (agree_response (cons x)). Qed.
Lemma agree_clear {R} : agree alike (R:=R) response_clear response_clear.
Proof. apply (agree_response (λ _, [])). Qed.
Lemma agree_append {R} data :
  agree alike (R:=R) (modify (λ s, set_response (response s ++ data) s)) (modify (λ s, set_response (response s ++ data) s)).
Proof. apply (agree_response (λ l, l ++ data)). Qed.
Lemma agree_reply {R} h c : agree alike (R:=R) (reply_hdr h c) (reply_hdr h c).
Proof. apply agree_push_back. Qed.
End Statements.

Create HintDb agree.
#[export] Hint Resolve agree_ret agree_return agree_throw agree_undef agree_halt agree_skip agree_guard agree_size agree_rsize agree_inited
  agree_response agree_request agree_set_inited agree_request_pop agree_response_pop agree_push_back agree_push_front
  agree_clear agree_append agree_reply : agree.

Ltac agree_step :=
  first
  [ progress eauto with agree nocore
  | apply agree_bind; [|intros ?]
  | apply agree_fn
  | apply agree_call
  | apply agree_when
  | apply agree_for_each; intros ?
  | apply agree_on_bus
  | case_match ].
Ltac agree_tac := repeat agree_step.

(** ** The engine *)
Section Engine.
Context {B1 B2 : Type} {H1 : MemBus B1} {H2 : MemBus B2} (rel : B1 → B2 → Prop) (HL : like rel).
Notation agrees := (agree (alike rel)).

#[local] Hint Resolve like_open like_read like_write : agree.

Lemma agree_fill_data h n data : agrees (fill_data h n data) (fill_data h n data).
Proof. revert data. induction n; intros data; cbn [fill_data]; agree_tac. Qed.
Lemma agree_niread_loop h a n data : agrees (niread_loop h a n data) (niread_loop h a n data).
Proof. revert data. induction n; intros data; cbn [niread_loop]; agree_tac. Qed.
Lemma agree_niwrite_loop h a n : agrees (niwrite_loop h a n) (niwrite_loop h a n).
Proof. induction n; cbn [niwrite_loop]; agree_tac. Qed.
#[local] Hint Resolve agree_fill_data agree_niread_loop agree_niwrite_loop : agree.

Lemma agree_control_step : agrees control_step control_step.
Proof.
  unfold control_step, process_read_txn, process_write_txn, process_niread_txn, process_niwrite_txn,
    process_rmwbits_txn, process_rmwsum_txn, process_cfgread_txn, process_cfgwrite_txn.
  cbv zeta. agree_tac.
Qed.
#[local] Hint Resolve agree_control_step : agree.

Lemma agree_control_loop n : agrees (control_loop n) (control_loop n).
Proof. induction n; cbn [control_loop]; agree_tac. Qed.
#[local] Hint Resolve agree_control_loop : agree.

Lemma agree_process_frame : agrees process_frame process_frame.
Proof. unfold process_frame, process_control_packet, process_status_packet. cbv zeta. agree_tac. Qed.
End Engine.

(** ** The server

    The same for the turns of [main]: over two buses that answer alike the
    connections come out with the same buffers. *)
Section Server.
Context {B1 B2 : Type} {H1 : MemBus B1} {H2 : MemBus B2} (rel : B1 → B2 → Prop) (HL : like rel).
Variables (size_bits listenfd : Z) (acl : option (option string)).

Definition alike_client (c : client B1) (c' : client B2) : Prop :=
  ibuf c = ibuf c' ∧ obuf c = obuf c' ∧ c_inited c = c_inited c' ∧ rel (c_bus c) (c_bus c').
Definition alike_server (s : server B1) (t : server B2) : Prop :=
  clients s = clients t ∧ closed s = closed t ∧ s_inited s = s_inited t ∧ rel (s_bus s) (s_bus t).

Lemma agree_ibuf {R} : agree (R:=R) alike_client (gets ibuf) (gets ibuf).
Proof. apply agree_gets. by intros c c' []. Qed.
Lemma agree_obuf {R} : agree (R:=R) alike_client (gets obuf) (gets obuf).
Proof. apply agree_gets. by intros c c' (_ & ? & _). Qed.
Lemma agree_set_ibuf {R} f : agree (R:=R) alike_client (modify (λ c, set_ibuf (f (ibuf c)) c)) (modify (λ c, set_ibuf (f (ibuf c)) c)).
Proof. apply agree_modify. intros c c' (Hi & Ho & Hn & Hb). unfold alike_client. cbn. by rewrite Hi. Qed.
Lemma agree_set_obuf {R} f : agree (R:=R) alike_client (modify (λ c, set_obuf (f (obuf c)) c)) (modify (λ c, set_obuf (f (obuf c)) c)).
Proof. apply agree_modify. intros c c' (Hi & Ho & Hn & Hb). unfold alike_client. cbn. by rewrite Ho. Qed.
Lemma agree_run_frame req : agree alike_client (run_frame req) (run_frame req).
Proof.
  intros c c' (Hi & Ho & Hn & Hb). unfold run_frame.
  pose proof (agree_process_frame rel HL (mk_pstate req [] (c_inited c) (c_bus c)) (mk_pstate req [] (c_inited c') (c_bus c'))) as Hp.
  destruct (process_frame (mk_pstate req [] (c_inited c) _)) as [f1 s1], (process_frame _) as [f2 s2]. cbn [fst snd] in Hp.
  destruct Hp as [[<- (Hq & Hr & Hm & Hbus)]| ->]; [by split_and!| |by right].
  left. destruct f1 as [|[]| | |]; unfold alike_client; cbn; by rewrite ?Hr.
Qed.
#[local] Hint Resolve agree_ibuf agree_obuf agree_run_frame : agree.

Lemma agree_extract_frame : agree alike_client (extract_frame size_bits) (extract_frame size_bits).
Proof.
  unfold extract_frame. agree_tac.
  - apply (agree_set_ibuf (λ _, _)).
  - cbv zeta. apply (agree_set_obuf (λ o, o ++ _)).
Qed.

Lemma agree_run_io rx wc : agree alike_client (run_io size_bits rx wc) (run_io size_bits rx wc).
Proof.
  pose proof agree_extract_frame. unfold run_io. agree_tac.
  - apply (agree_set_ibuf (λ i, i ++ _)).
  - apply (agree_set_obuf (λ _, _)).
Qed.

Lemma agree_serve_one io before c after :
  agree alike_server (serve_one size_bits io before c after) (serve_one size_bits io before c after).
Proof.
  intros s t (Hc & Hd & Hn & Hb). unfold serve_one.
  pose proof (agree_run_io io.1 io.2 (client_of s c) (client_of t c)) as Hr.
  destruct (run_io _ _ _ (client_of s c)) as [f1 k], (run_io _ _ _ _) as [f2 k']. cbn [fst snd] in Hr.
  destruct Hr as [[<- (Hi & Ho & Hm & Hbus)]| ->]; [by split_and!| |by right].
  left. destruct f1 as [|[]| | |]; unfold alike_server; cbn; by rewrite Hi, Ho, Hd.
Qed.

Lemma agree_clients {R} : agree (R:=R) alike_server (gets clients) (gets clients).
Proof. apply agree_gets. by intros s t []. Qed.
#[local] Hint Resolve agree_clients agree_serve_one : agree.

Lemma agree_serve_from k n ready io :
  agree alike_server (serve_from size_bits k n ready io) (serve_from size_bits k n ready io).
Proof. revert n. induction k as [|k IH]; intros n; cbn [serve_from]; agree_tac. Qed.

Lemma agree_drain : agree alike_server drain drain.
Proof.
  apply agree_modify. intros s t (Hc & Hd & Hn & Hb). rewrite Hc. case_decide; [done|].
  unfold alike_server. cbn. by rewrite Hd, Hn.
Qed.

Lemma agree_fd_set_clients x cs : agree alike_server (fd_set_clients x cs) (fd_set_clients x cs).
Proof.
  revert x. induction cs as [|c cs IH]; intros x; cbn [fd_set_clients]; [agree_tac|].
  unfold fd_set_client, FD_SET. apply agree_bind; [|done]. apply agree_bind_gets. intros s t Hst.
  assert (write_ready (client_of s c) = write_ready (client_of t c)) as -> by done.
  assert (read_ready (client_of s c) = read_ready (client_of t c)) as -> by done.
  destruct (write_ready _), (read_ready _); agree_tac.
Qed.

Lemma agree_fill_sets : agree alike_server (fill_sets listenfd) (fill_sets listenfd).
Proof. pose proof agree_fd_set_clients. unfold fill_sets, FD_SET. agree_tac. Qed.

Lemma agree_accept_client f addr : agree alike_server (accept_client acl f addr) (accept_client acl f addr).
Proof.
  unfold accept_client. apply agree_bind.
  - intros s t Hst. left. unfold authorized. destruct acl as [file|]; [|done].
    by destruct (authorize_ip file addr tt) as [[|[]| | |] u].
  - intros ok. apply agree_modify. intros s t (Hc & Hd & Hn & Hb). unfold alike_server. destruct ok; cbn; by rewrite ?Hc, ?Hd.
Qed.
#[local] Hint Resolve agree_serve_from agree_drain agree_fill_sets agree_accept_client : agree.

Lemma agree_server_turn i : agree alike_server (server_turn size_bits listenfd acl i) (server_turn size_bits listenfd acl i).
Proof. unfold server_turn. agree_tac. Qed.

Lemma agree_server_run ins : agree alike_server (server_run size_bits listenfd acl ins) (server_run size_bits listenfd acl ins).
Proof. pose proof agree_server_turn. induction ins; cbn [server_run]; agree_tac. Qed.
End Server.
