(* ===== verification/IpbusStream.v ===== *)
(** * IpbusStream: what a connection sends

    The bytes a client of the daemon receives are a sequence of frames,
    whatever it has sent and however [recv] and [send] cut the streams:
    [run_io] announces the length of every response, which fits the 32 bits of
    the length because a response is bounded by the request. *)

From S2P Require Import Prelude Words IpbusWire MemBus Ipbus IpbusSpec IpbusFrame IpbusSafe IpbusRun.

Local Open Scope list_scope.

(** ** The size of a response

    A transaction of one word is answered with one word, and each other with
    at most 256 for the two words or more it has. *)
Section Size.
Context {B : Type} {HB : MemBus B} {R : Type}.
Implicit Types s : pstate B.

Definition size s : nat := length (response s) + 128 * length (request s).

(** From a size of at most [n], the statement completes or returns with at
    most [k]; how else it may stop is not said. *)
Notation within k := (λ _ s, (size s ≤ k)%nat).
Notation grows A m n k := (∀ s, (size s ≤ n)%nat → wp (R := R) (A := A) (within k) (λ _ _, True) m (within k) s).

Lemma grows_modify f n k : (∀ s, size s ≤ n → size (f s) ≤ k)%nat → grows unit (modify f) n k.
Proof. intros Hf s Hs. apply wp_modify. by apply Hf. Qed.
Lemma grows_push x n k : (n + 1 ≤ k)%nat → grows unit (push_back x) n k.
Proof. intros Hk. apply grows_modify. unfold size. cbn. intros s. rewrite length_app. cbn. lia. Qed.
Lemma grows_reply h c n k : (n + 1 ≤ k)%nat → grows unit (reply_hdr h c) n k.
Proof. apply grows_push. Qed.
Lemma grows_append l n k : (n + length l ≤ k)%nat → grows unit (modify (λ s, set_response (response s ++ l) s)) n k.
Proof. intros Hk. apply grows_modify. unfold size. cbn. intros s. rewrite length_app. lia. Qed.
Lemma grows_clear n k : (n ≤ k)%nat → grows unit response_clear n k.
Proof. intros Hk. apply grows_modify. unfold size. cbn. intros s. lia. Qed.

(** A word popped leaves room for 128. *)
Lemma grows_pop {A} (f : Z → M (pstate B) R A) n k : (∀ n' x, n = (n' + 128)%nat → grows A (f x) n' k) →
  grows A (request_pop ≫= f) n k.
Proof.
  intros Hf s Hs. wp_step. unfold wp at 1, request_pop. destruct (request s) as [|x l] eqn:E; [done|].
  apply (Hf (n - 128)%nat); unfold size in *; rewrite E in Hs; cbn in *; lia.
Qed.
Lemma grows_response_pop n k : (n ≤ k)%nat → grows unit response_pop_front n k.
Proof.
  intros Hk s Hs. unfold wp, response_pop_front. destruct (response s) as [|x l] eqn:E; [done|].
  unfold size in *. rewrite E in Hs. cbn in *. lia.
Qed.
Lemma grows_bind {A C} (m : M (pstate B) R A) (f : A → M (pstate B) R C) n n' k : (n' ≤ k)%nat → grows A m n n' →
  (∀ a, grows C (f a) n' k) → grows C (m ≫= f) n k.
Proof.
  intros Hk Hm Hf s Hs. wp_step. specialize (Hm s Hs). unfold wp in *. destruct (m s) as [[] t]; [by apply Hf|lia|done..].
Qed.
Lemma grows_gets {A C} (g : pstate B → A) (f : A → M (pstate B) R C) n k : (∀ a, grows C (f a) n k) →
  grows C (gets g ≫= f) n k.
Proof. intros Hf s Hs. wp_step. wp_step. by apply Hf. Qed.
Lemma grows_stop {A} (r : flow R A) n k : (n ≤ k)%nat → grows A (λ s, (r, s)) n k.
Proof. intros Hk s Hs. unfold wp. destruct r; done || lia. Qed.
Lemma grows_on_bus {A} (m : Fn B A) n k : (n ≤ k)%nat → grows A (on_bus m) n k.
Proof.
  intros Hk s Hs. unfold wp, on_bus. destruct (m (bus s)) as [[a|[]| | |] b]; unfold size in *; cbn in *; done || lia.
Qed.
Lemma grows_for_each {X} (l : list X) (f : X → M (pstate B) R unit) n k : (n + length l ≤ k)%nat →
  (∀ x m, grows unit (f x) m (m + 1)%nat) → grows unit (for_each l f) n k.
Proof.
  revert n. induction l as [|x l IH]; intros n Hk Hf; cbn [for_each length] in *; [apply grows_stop; lia|].
  apply (grows_bind _ _ _ (n + 1)); [lia|apply Hf|]. intros _. apply IH; [lia|done].
Qed.
End Size.

Section Handlers.
Context {B : Type} {HB : MemBus B}.
Implicit Types s : pstate B.
Notation within k := (λ _ s, (size s ≤ k)%nat).
Notation grows R A m n k := (∀ s, (size s ≤ n)%nat → wp (R := R) (A := A) (within k) (λ _ _, True) m (within k) s).

Lemma grows_fn {A} (m : M (pstate B) A A) n k : grows A A m n k → grows Empty_set A (fn m) n k.
Proof. intros Hm s Hs. apply wp_fn. by apply Hm. Qed.
Lemma grows_refused {R A} (r : R) h c n k : (n + 1 ≤ k)%nat → grows R A (reply_hdr h c ;; ret r) n k.
Proof.
  intros Hk. apply (grows_bind _ _ _ (n + 1)); [lia|by apply grows_reply|]. intros _. by apply grows_stop.
Qed.

Lemma grows_fill_data h m data n k : (n + 1 ≤ k)%nat → grows unit (list Z) (fill_data h m data) n k.
Proof.
  revert data n. induction m as [|m IH]; intros data n Hk; cbn [fill_data]; [apply grows_stop; lia|].
  apply grows_gets. intros a. case_decide; [by apply grows_refused|]. apply grows_pop. intros n' x ->. apply IH. lia.
Qed.

Lemma grows_niwrite_loop h a m n k : (n + 1 ≤ k)%nat → grows unit unit (niwrite_loop h a m) n k.
Proof.
  revert n. induction m as [|m IH]; intros n Hk; cbn [niwrite_loop]; [apply grows_stop; lia|].
  apply grows_pop. intros n' x ->. apply (grows_bind _ _ _ n'); [lia|by apply grows_on_bus|]. intros rc.
  case_match; [apply IH; lia|apply grows_refused; lia].
Qed.

(** What the loop of [process_niread_txn] returns has as many words as it has
    turns. *)
Lemma niread_loop_size h a m data n k s : (n + 1 ≤ k)%nat → (size s ≤ n)%nat →
  wp (within k) (λ _ _, True) (niread_loop h a m data) (λ l t, (length l = length data + m ∧ size t ≤ n)%nat) s.
Proof.
  intros Hk. revert data s. induction m as [|m IH]; intros data s Hs; cbn [niread_loop].
  { wp_step. split; [lia|done]. }
  wp_step. unfold wp at 1, on_bus. destruct (memhub_read a 1 (bus s)) as [[[rc l]|[]| | |] b]; try done.
  case_match.
  - destruct l as [|x l]; [done|]. eapply wp_mono; [by apply IH|]. intros l' u [Hl Hu]. rewrite length_app in Hl.
    cbn in Hl. split; [lia|done].
  - wp_step. unfold reply_hdr, push_back. do 2 wp_step. unfold size in *. cbn. rewrite length_app. cbn. lia.
Qed.

Section Handler.
Variable h : IPBusTxnHdr.
Hypothesis words_ok : 0 ≤ words h < 256.
Notation handled m := (∀ n, grows Empty_set unit m n (n + 128)%nat).

Lemma read_txn_size : handled (process_read_txn h).
Proof.
  intros n. unfold process_read_txn. apply grows_fn, grows_gets. intros a. case_decide; [apply grows_refused; lia|].
  apply grows_pop. intros n' x ->. cbv zeta. apply (grows_bind _ _ _ n'); [lia|by apply grows_on_bus|].
  intros [rc data]. case_match; [|apply grows_reply; lia].
  apply (grows_bind _ _ _ (n' + 1)); [lia|by apply grows_reply|]. intros _.
  apply grows_for_each; [rewrite length_seqZ; lia|]. intros i m. case_match; [by apply grows_push|apply grows_stop; lia].
Qed.

Lemma write_txn_size : handled (process_write_txn h).
Proof.
  intros n. unfold process_write_txn. apply grows_fn, grows_gets. intros a. case_decide; [apply grows_refused; lia|].
  apply grows_pop. intros n' x ->. cbv zeta. apply (grows_bind _ _ _ (n' + 1)); [lia|by apply grows_fill_data|].
  intros data. apply (grows_bind _ _ _ (n' + 1)); [lia|by apply grows_on_bus|]. intros rc. case_match; apply grows_reply; lia.
Qed.

Lemma niread_txn_size : handled (process_niread_txn h).
Proof.
  intros n. unfold process_niread_txn. apply grows_fn, grows_gets. intros a. case_decide; [apply grows_refused; lia|].
  apply grows_pop. intros n' x ->. cbv zeta. intros s Hs. wp_step.
  eapply wp_mono; [apply (niread_loop_size h _ _ _ n'); [lia|done]|]. intros l t [Hl Ht].
  cbn in Hl. revert t Ht. apply (grows_bind _ _ _ (n' + 1)); [lia|by apply grows_reply|]. intros _.
  apply grows_append. lia.
Qed.

Lemma niwrite_txn_size : handled (process_niwrite_txn h).
Proof.
  intros n. unfold process_niwrite_txn. apply grows_fn, grows_gets. intros a. case_decide; [apply grows_refused; lia|].
  apply grows_pop. intros n' x ->. cbv zeta. apply (grows_bind _ _ _ (n' + 1)); [lia|by apply grows_niwrite_loop|].
  intros _. apply grows_reply. lia.
Qed.

Lemma rmw_size a (f : Z → Z) n k : (n + 2 ≤ k)%nat → grows unit unit
    ('(rc, predata) ← on_bus (memhub_read a 1);
     if negb (rc =? 0) then reply_hdr h BUSERR_READ ;; ret tt else
     match predata with
     | [] => undef Uninitialised
     | predata :: _ =>
         rc ← on_bus (memhub_write a 1 [f predata]);
         if negb (rc =? 0) then reply_hdr h BUSERR_WRITE ;; ret tt else
         reply_hdr h SUCCESS ;;
         push_back predata
     end) n k.
Proof.
  intros Hk. apply (grows_bind _ _ _ n); [lia|by apply grows_on_bus|]. intros [rc data].
  case_match; [apply grows_refused; lia|]. destruct data as [|x data]; [apply grows_stop; lia|].
  apply (grows_bind _ _ _ n); [lia|by apply grows_on_bus|]. intros rc'. case_match; [apply grows_refused; lia|].
  apply (grows_bind _ _ _ (n + 1)); [lia|by apply grows_reply|]. intros _. apply grows_push. lia.
Qed.

Lemma rmwbits_txn_size : handled (process_rmwbits_txn h).
Proof.
  intros n. unfold process_rmwbits_txn. apply grows_fn, grows_gets. intros a. case_decide; [apply grows_refused; lia|].
  apply grows_pop. intros n' x ->. apply grows_pop. intros n'' y ->. apply grows_pop. intros m z ->.
  apply (rmw_size _ (λ d, Z.lor (Z.land d y) z)). lia.
Qed.

Lemma rmwsum_txn_size : handled (process_rmwsum_txn h).
Proof.
  intros n. unfold process_rmwsum_txn. apply grows_fn, grows_gets. intros a. case_decide; [apply grows_refused; lia|].
  apply grows_pop. intros n' x ->. apply grows_pop. intros n'' y ->. apply (rmw_size _ (λ d, w32 (d + y))). lia.
Qed.

Lemma cfgread_txn_size : handled (process_cfgread_txn h).
Proof.
  intros n. unfold process_cfgread_txn. apply grows_fn, grows_gets. intros a. case_decide; [apply grows_refused; lia|].
  apply grows_pop. intros n' x ->. apply (grows_bind _ _ _ (n' + 1)); [lia|by apply grows_reply|]. intros _.
  apply grows_for_each; [rewrite length_seqZ; lia|]. intros i m. by apply grows_push.
Qed.

Lemma cfgwrite_txn_size : handled (process_cfgwrite_txn h).
Proof.
  intros n. unfold process_cfgwrite_txn. apply grows_fn, grows_gets. intros a. case_decide; [apply grows_refused; lia|].
  apply grows_pop. intros n' x ->. apply (grows_bind _ _ _ n'); [lia| |intros _; apply grows_reply; lia].
  generalize (seqZ 0 (words h)). intros l. induction l as [|i l IH]; cbn [for_each]; [by apply grows_stop|].
  eapply (grows_bind _ _ _ n'); [lia|by apply grows_response_pop|]. intros _ s Hs. specialize (IH s Hs).
  eapply wp_mono; [exact IH|done].
Qed.
End Handler.

Lemma grows_call {A} (m : Fn (pstate B) A) n k : grows Empty_set A m n k → grows unit A (call m) n k.
Proof.
  intros Hm s Hs. specialize (Hm s Hs). apply wp_call. unfold wp in *. by destruct (m s) as [[|[]| | |]].
Qed.

Lemma control_step_size n : grows unit unit control_step n n.
Proof.
  unfold control_step. apply grows_pop. intros n' x ->. cbv zeta. pose proof (words_bounds x) as Hw.
  repeat case_match; try (apply grows_call; by eauto using read_txn_size, write_txn_size, niread_txn_size,
    niwrite_txn_size, rmwbits_txn_size, rmwsum_txn_size, cfgread_txn_size, cfgwrite_txn_size).
  - apply (grows_bind _ _ _ n'); [lia|by apply grows_clear|]. intros _. apply grows_stop. lia.
  - apply (grows_bind _ _ _ n'); [lia|by apply grows_clear|]. intros _. apply grows_stop. lia.
  - apply grows_reply. lia.
Qed.

Lemma control_loop_size m n : grows unit unit (control_loop m) n n.
Proof.
  induction m as [|m IH]; cbn [control_loop]; [by apply grows_stop|]. apply grows_gets. intros k.
  case_decide; [by apply grows_stop|]. apply (grows_bind _ _ _ n); [done|apply control_step_size|]. by intros _.
Qed.

Lemma control_packet_size n : grows Empty_set unit process_control_packet n n.
Proof.
  unfold process_control_packet. apply grows_fn, grows_gets. intros k. case_decide; [by apply grows_stop|].
  apply control_loop_size.
Qed.

Lemma grows_same {R} (f : pstate B → pstate B) n k : (n ≤ k)%nat →
  (∀ s, length (response (f s)) = length (response s) ∧ length (request (f s)) = length (request s)) →
  grows R unit (modify f) n k.
Proof. intros Hk Hf. apply grows_modify. intros s Hs. unfold size in *. destruct (Hf s) as [-> ->]. lia. Qed.

Lemma length_endian_swap l : length (endian_swap l) = length l.
Proof. apply length_fmap. Qed.

Lemma process_frame_grows n : grows Empty_set unit process_frame n n.
Proof.
  unfold process_frame. apply grows_fn, grows_gets. intros inited. apply (grows_bind _ _ _ n); [done| |intros _].
  { case_match; [|by apply grows_stop]. apply (grows_bind _ _ _ n); [done|by apply grows_on_bus|]. intros rc.
    case_match; [by apply grows_stop|]. by apply grows_same. }
  apply (grows_bind _ _ _ n); [done|by apply grows_clear|]. intros _. apply grows_gets. intros k.
  case_decide; [by apply grows_stop|]. apply grows_pop. intros n' ph ->.
  apply (grows_bind _ _ _ n'); [lia| |intros [ph' rev]].
  { repeat case_match; [apply grows_stop; lia| |apply grows_stop; lia].
    apply (grows_bind _ _ _ n'); [lia| |intros _; apply grows_stop; lia].
    apply grows_same; [lia|]. intros s. split; [done|apply length_endian_swap]. }
  cbv zeta. apply (grows_bind _ _ _ n'); [lia| |intros _].
  { case_match; [apply grows_call, control_packet_size|]. case_match; [by apply grows_call, grows_fn, grows_stop|].
    case_match; by apply grows_stop. }
  apply grows_gets. intros rsize. case_decide; [apply grows_stop; lia|].
  apply (grows_bind _ _ _ (n' + 1)); [lia| |intros _].
  - apply grows_modify. unfold size. cbn. lia.
  - destruct rev; cbn [when]; [|apply grows_stop; lia]. apply grows_same; [lia|]. intros s. split; [apply length_endian_swap|done].
Qed.

(** The response to a packet: not more than 128 words for each word of it. *)
Lemma process_frame_size q i (b : B) s : process_frame (mk_pstate q [] i b) = (Next tt, s) →
  (length (response s) ≤ 128 * length q)%nat.
Proof.
  intros Hr. pose proof (process_frame_grows (128 * length q) (mk_pstate q [] i b)) as Hf.
  unfold wp in Hf. rewrite Hr in Hf. unfold size in Hf. cbn in Hf. lia.
Qed.
End Handlers.

(** ** The frames of a connection *)

#[export] Instance recv_result_eq_dec : EqDecision recv_result.
Proof. solve_decision. Defined.

Section Stream.
Context {B : Type} {HB : MemBus B}.
Variable size_bits : Z.
Hypothesis size_bits_ok : 32 ≤ size_bits.
Implicit Types c : client B.

(** The frame of a response. *)
Definition response_frame (rsp : list Z) : list Z := frame (vec2str rsp).
(** The length of the frame fits its 32 bits. *)
Definition fits (rsp : list Z) : Prop := Z.of_nat (length (vec2str rsp)) < 2 ^ 32.

(** What waits to be sent when [run_io] calls [send]: what is left when
    nothing is taken. *)
Definition pending (rx : recv_result) c : list Z := obuf (run_io size_bits rx 0 c).2.
(** What [send] takes; there is no call of it after an error of [recv]. *)
Definition sent_by (rx : recv_result) (writecount : Z) c : list Z :=
  match rx with RecvError => [] | _ => take (Z.to_nat writecount) (pending rx c) end.

(** The calls of [run_io] for a connection, with the bytes sent: [None] when one
    of them does not return. *)
Fixpoint talk (ins : list (recv_result * Z)) c : option (list Z * client B) :=
  match ins with
  | [] => Some ([], c)
  | (rx, writecount) :: ins =>
      match run_io size_bits rx writecount c with
      | (Next _, c') => '(l, c'') ← talk ins c'; Some (sent_by rx writecount c ++ l, c'')
      | _ => None
      end
  end.

Definition bytes_of (rx : recv_result) : nat := match rx with RecvData l => length l | _ => 0 end.
Definition bytes_received (ins : list (recv_result * Z)) : nat := sum_list (bytes_of ∘ fst <$> ins).

Lemma str2vec_length l v : str2vec l = Some v → (4 * length v ≤ length l + 3)%nat.
Proof.
  remember (length l) as n eqn:En. revert l v En. induction n as [n IH] using lt_wf_ind. intros l v -> Hv.
  destruct l as [|a [|b [|c [|d l]]]]; cbn in Hv; try done; try (injection Hv as <-; cbn; lia).
  apply fmap_Some in Hv as (w & Hw & ->). specialize (IH (length l) ltac:(cbn; lia) l w eq_refl Hw). cbn. lia.
Qed.

(** One run of the engine adds one frame to the output. *)
Lemma extract_frame_output c t : extract_frame size_bits c = (Next tt, t) → Z.of_nat (length (ibuf c)) < 2 ^ 24 →
  (length (ibuf t) ≤ length (ibuf c))%nat ∧ ∃ rsps, Forall fits rsps ∧ obuf t = obuf c ++ (rsps ≫= response_frame).
Proof.
  intros Hx Hlen. unfold extract_frame in Hx. erewrite bind_next in Hx by reflexivity. cbn beta in Hx.
  destruct (frame_size_of (ibuf c)) as [n|]; [|done]. case_decide.
  2: { injection Hx as <-. split; [done|]. exists []. by rewrite app_nil_r. }
  case_decide; [done|]. cbv zeta in Hx. erewrite bind_next in Hx by reflexivity. cbn beta in Hx.
  destruct (str2vec _) as [req|] eqn:Eq; [|done]. apply str2vec_length in Eq. unfold substr4 in Eq.
  rewrite length_take, length_drop in Eq.
  unfold mbind, M_bind, run_frame in Hx. cbn [c_inited c_bus set_ibuf] in Hx.
  destruct (process_frame (mk_pstate req [] (c_inited c) (c_bus c))) as [[[]|[]| | |] s] eqn:Ef; try done.
  apply process_frame_size in Ef. injection Hx as <-. cbn. split.
  { unfold erase_front. rewrite length_drop. lia. }
  exists [response s]. split.
  - constructor; [|done]. unfold fits. rewrite length_vec2str. lia.
  - cbn. rewrite app_nil_r. unfold response_frame, frame. by rewrite length_vec2str, (Nat2Z.inj_mul 4), (Z.mul_comm (Z.of_nat 4)).
Qed.

Lemma extract_frame_goes_on c b : (extract_frame size_bits c).1 ≠ Return b.
Proof.
  unfold extract_frame. erewrite bind_next by reflexivity. cbn beta. destruct (frame_size_of _); [|done].
  case_decide; [|done]. case_decide; [done|]. cbv zeta. erewrite bind_next by reflexivity. cbn beta.
  destruct (str2vec _); [|done]. unfold mbind, M_bind, run_frame. by destruct (process_frame _) as [[|[]| | |] s].
Qed.

(** [run_io], with what [recv] returned put aside. *)
Definition received (rx : recv_result) c : client B :=
  match rx with RecvData l => set_ibuf (ibuf c ++ l) c | _ => c end.

Lemma run_io_eq rx w c : rx ≠ RecvError → rx ≠ RecvAgain →
  run_io size_bits rx w c =
  match (when (negb (bool_decide (ibuf (received rx c) = []))) (extract_frame size_bits)) (received rx c) with
  | (Next _, t) => (Next true, set_obuf (erase_front (wrap size_bits w) (obuf t)) t)
  | (Return b, t) => (Next b, t)
  | (Throw e, t) => (Throw e, t)
  | (Undef u, t) => (Undef u, t)
  | (Halt h, t) => (Halt h, t)
  end.
Proof.
  intros Hne Hna. unfold run_io, fn.
  assert (match rx with
    | RecvError => ret false | RecvAgain => throw LengthError | RecvEof => skip
    | RecvData l => modify (λ c, set_ibuf (ibuf c ++ l) c)
    end c = (Next tt, received rx c) :> flow bool unit * client B) as E by by destruct rx.
  erewrite bind_next by exact E. cbn beta. erewrite bind_next by reflexivity. cbn beta.
  destruct (when _ _ _) as [[[]|b|e|u|h] t] eqn:Et;
    [|by erewrite bind_return by exact Et|by erewrite bind_throw by exact Et|by erewrite bind_undef by exact Et|
      by erewrite bind_halt by exact Et].
  erewrite bind_next by exact Et. cbn beta. clear Et E. erewrite bind_next by reflexivity. cbn beta. case_bool_decide as Ho; cbn [negb when].
  - erewrite bind_next by reflexivity. rewrite Ho. destruct t as [ib ob i b]; cbn in *; subst ob. unfold erase_front. by rewrite drop_nil.
  - by erewrite bind_next by reflexivity.
Qed.

Lemma erase_front_0 l : erase_front (wrap size_bits 0) l = l.
Proof.
  unfold erase_front. replace (wrap size_bits 0) with 0; [by rewrite Z.min_l by lia|].
  unfold wrap. rewrite Z.mod_0_l; [done|]. apply Z.pow_nonzero; lia.
Qed.

Lemma erase_front_sent wc l : 0 ≤ wc < 2 ^ 31 → take (Z.to_nat wc) l ++ erase_front (wrap size_bits wc) l = l.
Proof.
  intros Hwc. assert (2 ^ 32 ≤ 2 ^ size_bits) by (apply Z.pow_le_mono_r; lia).
  rewrite wrap_small by (unfold word; lia). unfold erase_front.
  destruct (Z.min_spec wc (Z.of_nat (length l))) as [[Hl ->]|[Hl ->]]; [apply take_drop|].
  rewrite Nat2Z.id, take_ge, drop_all, app_nil_r by lia. done.
Qed.

Lemma run_io_output rx wc c r c' : run_io size_bits rx wc c = (Next r, c') → 0 ≤ wc < 2 ^ 31 →
  Z.of_nat (length (ibuf c) + bytes_of rx) < 2 ^ 24 →
  (length (ibuf c') ≤ length (ibuf c) + bytes_of rx)%nat ∧
  ∃ rsps, Forall fits rsps ∧ sent_by rx wc c ++ obuf c' = obuf c ++ (rsps ≫= response_frame).
Proof.
  intros Hr Hwc Hlen. destruct (decide (rx = RecvError)) as [->|Hne]; [|destruct (decide (rx = RecvAgain)) as [->|Hna]; [done|]].
  { injection Hr as _ <-. split; [lia|]. exists []. by rewrite app_nil_r. }
  assert (length (ibuf (received rx c)) = length (ibuf c) + bytes_of rx)%nat as Hib.
  { destruct rx; cbn; rewrite ?length_app; lia. }
  assert (obuf (received rx c) = obuf c) as Hob by by destruct rx.
  assert (sent_by rx wc c = take (Z.to_nat wc) (pending rx c)) as -> by by destruct rx.
  unfold pending. rewrite run_io_eq in Hr |- * by done.
  destruct (when _ _ _) as [[[]|b| | |] t] eqn:Et; try done.
  - injection Hr as _ <-. cbn [obuf ibuf set_obuf]. rewrite erase_front_0, erase_front_sent by done. rewrite <- Hob, <- Hib.
    case_bool_decide; cbn [negb when] in Et.
    + injection Et as <-. split; [done|]. exists []. by rewrite app_nil_r.
    + apply extract_frame_output; [exact Et|lia].
  - exfalso. case_bool_decide; cbn [negb when] in Et; [done|].
    apply (extract_frame_goes_on (received rx c) b). by rewrite Et.
Qed.

(** C11: What a client receives: the bytes sent to it so far and those that wait
    in the output buffer are a sequence of frames, each announcing the length
    it has, whatever the client and the bus do, as long as the connection has
    brought less than 16 MiB and [send] reports no failure. *)
Theorem output_is_framed ins c sent c' : ibuf c = [] → obuf c = [] →
  Forall (λ p, 0 ≤ p.2 < 2 ^ 31) ins → Z.of_nat (bytes_received ins) < 2 ^ 24 →
  talk ins c = Some (sent, c') → ∃ rsps, Forall fits rsps ∧ sent ++ obuf c' = rsps ≫= response_frame.
Proof.
  intros Hi Ho Hw Hb Ht. assert (∀ c l, talk ins c = Some (l, c') → Z.of_nat (length (ibuf c) + bytes_received ins) < 2 ^ 24 →
    ∃ rsps, Forall fits rsps ∧ l ++ obuf c' = obuf c ++ (rsps ≫= response_frame)) as Hgen.
  2: { destruct (Hgen c sent Ht) as (rsps & Hf & E); [rewrite Hi; cbn; lia|]. exists rsps. by rewrite E, Ho. }
  clear c sent Hi Ho Ht Hb. induction Hw as [|[rx wc] ins Hwc Hw IH]; intros c l; cbn [talk].
  { intros [= <- <-] _. exists []. by rewrite app_nil_r. }
  destruct (run_io size_bits rx wc c) as [[b| | | |] c1] eqn:Er; try done.
  intros ([l1 c2] & Ht & [= <- <-])%bind_Some Hb. unfold bytes_received in *. cbn in Hb.
  destruct (run_io_output _ _ _ _ _ Er Hwc ltac:(lia)) as (Hl & rsps1 & Hf1 & E1).
  destruct (IH c1 l1 Ht ltac:(lia)) as (rsps2 & Hf2 & E2). exists (rsps1 ++ rsps2).
  split; [by apply Forall_app|]. rewrite bind_app, <- (app_assoc _ l1), E2, !app_assoc, E1. done.
Qed.
End Stream.

Section Failures.
Context {B : Type} {HB : MemBus B}.
Variable size_bits : Z.
Hypothesis size_bits_ok : 32 ≤ size_bits.

(** [send] has failed: all that waited is dropped, the rest of a frame of
    which a part has been sent included. *)
Theorem failed_send_drops rx (c c' : client B) : Z.of_nat (length (pending size_bits rx c)) < 2 ^ 32 → rx ≠ RecvError →
  run_io size_bits rx (-1) c = (Next true, c') → obuf c' = [].
Proof.
  intros Hlen Hne Hr. destruct (decide (rx = RecvAgain)) as [->|Hna]; [done|].
  assert (2 ^ 32 ≤ 2 ^ size_bits) by (apply Z.pow_le_mono_r; lia).
  unfold pending in Hlen. rewrite run_io_eq in Hr, Hlen by done. destruct (when _ _ _) as [[[]|b| | |] t] eqn:Et; try done.
  - injection Hr as <-. cbn [obuf set_obuf snd] in *. rewrite erase_front_0 in Hlen by done. apply erase_front_all.
    assert (wrap size_bits (-1) = 2 ^ size_bits - 1) as ->; [|lia].
    unfold wrap. symmetry. apply (Z.mod_unique _ _ (-1)); lia.
  - exfalso. case_bool_decide; cbn [negb when] in Et; [done|].
    apply (extract_frame_goes_on size_bits (received rx c) b). by rewrite Et.
Qed.
End Failures.

Module StreamExamples.
Import Ram.

(** Half a packet, which is taken for a packet, and the other half; [send] takes
    3 bytes, then 20. *)
Definition half_example : list Z := [0; 0; 0; 16] ++ vec2str [0x200001f0; serialize (txn_hdr 1 (TRead 0)); 0].
Definition talk_example : list (recv_result * Z) :=
  [(RecvData half_example, 3); (RecvEof, 20); (RecvData [0; 0; 0; 4; 0xf0; 1; 0; 0x21], 0)].

Lemma output_is_framed_witness : ∃ c' rsps,
  talk 32 talk_example (mk_client [] [] true ram_example) =
    Some ([0; 0; 0; 12] ++ vec2str [0x200001f0; 0x20010100; 5], c') ∧
  obuf c' = [0; 0; 0; 0] ∧ Forall fits rsps ∧
  ([0; 0; 0; 12] ++ vec2str [0x200001f0; 0x20010100; 5]) ++ obuf c' = rsps ≫= response_frame.
Proof.
  assert (∃ c', talk 32 talk_example (mk_client [] [] true ram_example) =
    Some ([0; 0; 0; 12] ++ vec2str [0x200001f0; 0x20010100; 5], c') ∧ obuf c' = [0; 0; 0; 0]) as (c' & Ht & Ho).
  { eexists. split; vm_compute; reflexivity. }
  destruct (output_is_framed 32 ltac:(lia) talk_example (mk_client [] [] true ram_example)
    ([0; 0; 0; 12] ++ vec2str [0x200001f0; 0x20010100; 5]) c' eq_refl eq_refl) as (rsps & Hf & E).
  - repeat (apply Forall_cons; split; [vm_decide|]). by apply Forall_nil.
  - vm_compute. reflexivity.
  - exact Ht.
  - exists c', rsps. split; [exact Ht|]. split; [exact Ho|]. split; [exact Hf|exact E].
Defined.

(** The sum 4 + [frame_size] wraps: a frame that announces 2^32 - 4 bytes is
    executed and stays in the buffer, and is executed again by every later
    call, whether or not anything arrives. *)
Definition wrapping_example : list Z := [0xff; 0xff; 0xff; 0xfc] ++ vec2str (0x200001f0 :: encode (1, TRmwSum 0 1)).

Theorem frame_length_wraps :
  let c := mk_client [] [] true ram_example in
  let c1 := (run_io 32 (RecvData wrapping_example) 0 c).2 in
  let c2 := (run_io 32 RecvEof 0 c1).2 in
  (run_io 32 (RecvData wrapping_example) 0 c).1 = Next true ∧ ibuf c1 = wrapping_example ∧
  c_bus c1 !! 0x64000000 = Some 6 ∧ (run_io 32 RecvEof 0 c1).1 = Next true ∧ c_bus c2 !! 0x64000000 = Some 7.
Proof. vm_compute. repeat split. Qed.
End StreamExamples.
