(* ===== verification/RpcUtils.v ===== *)
(** * RpcUtils: connection and register access over RPC

    [src/common/rpc_manager/utils.cc].  Strings handed over as [char *] are
    given as strings; output goes to the caller's memory. *)

From S2P Require Import Prelude RpcMsg.

Section Utils.
Context {L : RpcLib}.
(** The width of [ssize_t]. *)
Variable ssize_bits : Z.

Definition on_svc {Mem R A} (f : svc → result A * svc) : M (rstate Mem) R A := λ s,
  match f (rpc s) with
  | (Ok a, v) => (Next a, mk_rstate v (req s) (rsp s) (mem s))
  | (Err e, v) => (raise e, mk_rstate v (req s) (rsp s) (mem s))
  end.

Definition connect {Mem R} (host : string) : M (rstate Mem) R unit := on_svc (svc_connect host).
Definition disconnect {Mem R} : M (rstate Mem) R unit := on_svc svc_disconnect.
Definition load_module {Mem R} (m version : string) : M (rstate Mem) R bool :=
  on_svc (svc_load_module m version).

Definition deinit {Mem} : Fn (rstate Mem) Z := fn (
  try_catch disconnect (λ e,
    match e with
    | NotConnectedException _ => ret 0
    | _ => if is_RPCException e then ret 1 else throw e
    end) ;;
  mret 0).

(** The modules [init] loads, in order, all at one version. *)
Definition modules : list (string * string) :=
  [("memory", "memory v1.0.1"); ("extras", "extras v1.0.1"); ("utils", "utils v1.0.1");
   ("optohybrid", "optohybrid v1.0.1"); ("amc", "amc v1.0.1"); ("daq_monitor", "daq_monitor v1.0.1");
   ("calibration_routines", "calibration_routines v1.0.1"); ("vfat3", "vfat3 v1.0.1");
   ("gbt", "gbt v1.0.1")].

Definition init {Mem} (hostname : string) : Fn (rstate Mem) Z := fn (
  try_catch (connect hostname) (λ e,
    match e with
    | ConnectionFailedException _ => ret 1
    | _ => if is_RPCException e then ret 1 else throw e
    end) ;;
  try_catch
    (for_each modules (λ mv, b ← load_module mv.1 mv.2; ASSERT b))
    STANDARD_CATCH ;;
  mret 0).

Definition update_atdb {Mem} (xmlfilename : string) : Fn (rstate Mem) Z := fn (
  new_req "utils.update_address_table" ;;
  set_string "at_xml" xmlfilename ;;
  try_catch call_method STANDARD_CATCH ;;
  e ← get_key_exists "error";
  when e (ret 1) ;;
  mret 0).

Definition getRegInfoDB {Mem} (regName : string) : Fn (rstate Mem) Z := fn (
  new_req "utils.readRegFromDB" ;;
  set_string "reg_name" regName ;;
  try_catch call_method STANDARD_CATCH ;;
  e ← get_key_exists "error";
  when e (ret 1) ;;
  try_catch
    (get_word "address" ;; get_word "mask" ;; get_string "permissions" ;; skip)
    STANDARD_CATCH ;;
  mret 0).

(** [rsp.get_word_array(k, &x)] into one local word *)
Definition get_one_word (k : string) : M (rstate heap) Z Z :=
  l ← get_words k;
  match l with
  | [x] => mret x
  | [] => undef Uninitialised
  | _ => undef OutOfBounds
  end.

Definition getReg (address : Z) : Fn (rstate heap) Z := fn (
  new_req "memory.read" ;;
  set_word "address" address ;;
  set_word "count" 1 ;;
  try_catch call_method STANDARD_CATCH ;;
  result ← try_catch
    (e ← get_key_exists "error";
     if (e : bool) then ret 0xdeaddead
     else
       n ← get_word_array_size "data";
       ASSERT (n =? 1) ;;
       get_one_word "data")
    STANDARD_CATCH;
  mret result).

(** [uint32_t == ssize_t] *)
Definition eq_ssize (n size : Z) : bool := if ssize_bits <=? 32 then n =? w32 size else n =? size.

(** The second [try] of [getBlock] and [getList]. *)
Definition read_data (size result : Z) : M (rstate heap) Z unit :=
  try_catch
    (e ← get_key_exists "error";
     if (e : bool) then ret 1
     else
       n ← get_word_array_size "data";
       ASSERT (eq_ssize n size) ;;
       get_word_array "data" result)
    STANDARD_CATCH.

Definition getBlock (address result size : Z) : Fn (rstate heap) Z := fn (
  new_req "extras.blockread" ;;
  set_word "address" address ;;
  set_word "count" (w32 size) ;;
  try_catch call_method STANDARD_CATCH ;;
  read_data size result ;;
  mret 0).

Definition getList (addresses result size : Z) : Fn (rstate heap) Z := fn (
  new_req "extras.listread" ;;
  set_word_array "addresses" addresses (s32 size) ;;
  set_word "count" (w32 size) ;;
  try_catch call_method STANDARD_CATCH ;;
  read_data size result ;;
  mret 0).

Definition putReg (address value : Z) : Fn (rstate heap) Z := fn (
  new_req "memory.write" ;;
  set_word "address" address ;;
  set_req (msg_set_word_array "data" 1 [value]) ;;
  try_catch call_method STANDARD_CATCH ;;
  e ← get_key_exists "error";
  if (e : bool) then ret 0xdeaddead else ret value).
End Utils.

(** ** Connection *)
Section Connection.
Context {L : RpcLib} {Mem : Type}.
Implicit Types s : rstate Mem.

(** The service after loading a prefix of the modules, and the first answer
    that is not [true]. *)
Fixpoint load_all (l : list (string * string)) (v : svc) : (option (result bool)) * svc :=
  match l with
  | [] => (None, v)
  | mv :: l =>
      match svc_load_module mv.1 mv.2 v with
      | (Ok true, v') => load_all l v'
      | (r, v') => (Some r, v')
      end
  end.

Definition with_rpc (v : svc) s : rstate Mem := mk_rstate v (req s) (rsp s) (mem s).

Lemma load_modules_run l s :
  for_each l (λ mv, b ← load_module mv.1 mv.2; ASSERT b) s =
    (match (load_all l (rpc s)).1 with
     | None => Next tt
     | Some (Ok _) => Return 1
     | Some (Err e) => raise e
     end, with_rpc (load_all l (rpc s)).2 s).
Proof.
  revert s. induction l as [|[m v] l IH]; intros s; [by destruct s|].
  cbn [for_each load_all]. rewrite bind_bind. unfold mbind at 1, M_bind at 1. unfold load_module, on_svc at 1.
  cbn [fst snd]. destruct (svc_load_module m v (rpc s)) as [[[]|e] v'] eqn:E.
  - cbn [ASSERT when negb]. erewrite bind_next by reflexivity. cbn beta.
    exact (IH (with_rpc v' s)).
  - done.
  - by destruct e.
Qed.

(** What [init] returns: 0 exactly when the connection is made and every
    module is loaded; 1 when either is refused.  It stops at the first
    module that is refused, with the connection open. *)
Theorem init_result (host : string) s :
  init host s =
    match svc_connect host (rpc s) with
    | (Err e, v) => (caught (Next 1) e, with_rpc v s)
    | (Ok _, v) =>
        (match (load_all modules v).1 with
         | None => Next 0
         | Some (Ok _) => Next 1
         | Some (Err e) => caught (Next 1) e
         end, with_rpc (load_all modules v).2 s)
    end.
Proof.
  unfold init, fn, connect, on_svc, try_catch. unfold mbind at 1, M_bind at 1.
  destruct (svc_connect host (rpc s)) as [[[]|e] v]; [|by destruct e].
  unfold mbind at 1, M_bind at 1. rewrite load_modules_run.
  cbn [rpc]. by destruct (load_all modules v) as [[[|[]]|] v'].
Qed.

(** [deinit] returns 0 when the connection is closed afterwards, as it also
    does when there was none. *)
Theorem deinit_result s :
  deinit s = (match (svc_disconnect (rpc s)).1 with
              | Ok _ | Err (NotConnected _) => Next 0
              | Err e => caught (Next 1) e
              end, with_rpc (svc_disconnect (rpc s)).2 s).
Proof.
  unfold deinit, fn, try_catch, disconnect, on_svc.
  unfold mbind at 1, M_bind at 1. by destruct (svc_disconnect (rpc s)) as [[[]|[]] v].
Qed.
End Connection.

(** ** Register access *)
Section Registers.
Context {L : RpcLib} {LL : RpcLaws}.

(** The response of a [memory.read] with the one word it must hold. *)
Lemma get_one_word_run (s : rstate heap) w : contents (rsp s) !! "data" = Some (VWords [w]) →
  get_one_word "data" s = (Next w, s).
Proof.
  intros Hd. unfold get_one_word, get_words. rewrite bind_bind. erewrite bind_next by reflexivity.
  cbn beta. by rewrite (get_word_array_contents _ _ _ Hd).
Qed.

Lemma word_array_size_run {Mem R} (s : rstate Mem) k ws : contents (rsp s) !! k = Some (VWords ws) →
  get_word_array_size (R:=R) k s = (Next (Z.of_nat (length ws)), s).
Proof.
  intros Hd. unfold get_word_array_size. erewrite bind_next by reflexivity. cbn beta.
  by erewrite get_word_array_size_contents.
Qed.

(** The caller's code after a completed [memory.read]. *)
Definition getReg_rest : M (rstate heap) Z Z :=
  result ← try_catch
    (e ← get_key_exists "error";
     if (e : bool) then ret 0xdeaddead
     else n ← get_word_array_size "data"; ASSERT (n =? 1) ;; get_one_word "data")
    STANDARD_CATCH;
  mret result.

Lemma getReg_rest_error s : has_error (rsp s) = true → getReg_rest s = (Return 0xdeaddead, s).
Proof.
  intros He. unfold getReg_rest, try_catch. apply bind_return. erewrite bind_next by reflexivity.
  cbn beta. rewrite key_exists_contents. unfold has_error in He. by rewrite He.
Qed.

Lemma getReg_rest_data s w : has_error (rsp s) = false →
  contents (rsp s) !! "data" = Some (VWords [w]) → getReg_rest s = (Next w, s).
Proof.
  intros He Hd. unfold getReg_rest, try_catch. erewrite bind_next; [reflexivity|].
  erewrite bind_next by reflexivity. cbn beta. rewrite key_exists_contents.
  unfold has_error in He. rewrite He. erewrite bind_next by by apply word_array_size_run.
  cbn beta. erewrite bind_next by reflexivity. cbn beta. by rewrite (get_one_word_run _ w).
Qed.

Definition getReg_body (a : Z) : M (rstate heap) Z Z :=
  new_req "memory.read" ;; set_word "address" a ;; set_word "count" 1 ;;
  try_catch call_method STANDARD_CATCH ;; getReg_rest.

Lemma getReg_sends a s : sends (getReg_body a) s "memory.read" (read_fields a) getReg_rest.
Proof. unfold getReg_body. rpc_send. Qed.

Context {MS : MemoryService}.

(** The value of the register, or 0xdeaddead. *)
Lemma remote_getReg a s : ∃ s', getReg a s =
    (Next (default 0xdeaddead (registers (rpc s) a)), s') ∧
  mem s' = mem s ∧ ∀ b, registers (rpc s') b = registers (rpc s) b.
Proof.
  destruct (getReg_sends a s) as (m & Hm & Hc & Hr).
  destruct (memory_read m (rpc s) a Hm Hc) as (x & v & Hcall & Hsame & Hx).
  exists (mk_rstate v m x (mem s)). split_and!; [|done..].
  change (getReg a s) with (fn (getReg_body a) s). unfold fn. rewrite (Hr _ _ Hcall).
  destruct (registers (rpc s) a) as [w|].
  - destruct Hx as [He Hd]. rewrite (getReg_rest_data _ w); [done| |done].
    unfold has_error. cbn [rsp]. by rewrite He.
  - destruct Hx as [t Ht]. rewrite getReg_rest_error; [done|]. unfold has_error. cbn [rsp]. by rewrite Ht.
Qed.

Definition putReg_rest (w : Z) : M (rstate heap) Z Z :=
  e ← get_key_exists "error"; if (e : bool) then ret 0xdeaddead else ret w.
Definition putReg_body (a w : Z) : M (rstate heap) Z Z :=
  new_req "memory.write" ;; set_word "address" a ;; set_req (msg_set_word_array "data" 1 [w]) ;;
  try_catch call_method STANDARD_CATCH ;; putReg_rest w.

Lemma putReg_sends a w s : sends (putReg_body a w) s "memory.write" (write_fields a w) (putReg_rest w).
Proof.
  unfold putReg_body. rpc_send. apply (sends_set_req _ _ (λ c, <["data" := VWords [w]]> c)).
  { by apply (set_word_array_contents "data" [w]). }
  intros m1 ? ?. rpc_send.
Qed.

(** The register written, or nothing. *)
Lemma remote_putReg a w s : ∃ s', putReg a w s =
    (Next (if decide (is_Some (registers (rpc s) a)) then w else 0xdeaddead), s') ∧
  mem s' = mem s ∧
  ∀ b, registers (rpc s') b =
    if decide (b = a ∧ is_Some (registers (rpc s) a)) then Some w else registers (rpc s) b.
Proof.
  destruct (putReg_sends a w s) as (m & Hm & Hc & Hr).
  destruct (memory_write m (rpc s) a w Hm Hc) as (x & v & Hcall & Hx).
  exists (mk_rstate v m x (mem s)). change (putReg a w s) with (fn (putReg_body a w) s).
  unfold fn. rewrite (Hr _ _ Hcall). unfold putReg_rest.
  erewrite bind_next by reflexivity. cbn [rsp]. rewrite key_exists_contents.
  destruct (registers (rpc s) a) as [y|].
  - destruct Hx as [He Hx]. rewrite He. split_and!; [done..|]. intros b. cbn [rpc]. rewrite Hx.
    repeat case_decide; naive_solver.
  - destruct Hx as [[t Ht] Hx]. rewrite Ht. split_and!; [done..|]. intros b. cbn [rpc]. rewrite Hx.
    rewrite decide_False; [done|]. by intros [_ []].
Qed.

(** C26: [getReg] returns the register and changes nothing; [putReg] writes that
    register only and returns the value.  When the board refuses the address
    both return 0xdeaddead and nothing changes. *)
Theorem remote_registers a w s :
  (∃ s', getReg a s = (Next (default 0xdeaddead (registers (rpc s) a)), s') ∧
    mem s' = mem s ∧ ∀ b, registers (rpc s') b = registers (rpc s) b) ∧
  ∃ s', putReg a w s = (Next (if decide (is_Some (registers (rpc s) a)) then w else 0xdeaddead), s') ∧
    mem s' = mem s ∧
    ∀ b, registers (rpc s') b =
      if decide (b = a ∧ is_Some (registers (rpc s) a)) then Some w else registers (rpc s) b.
Proof. split; [apply remote_getReg|apply remote_putReg]. Qed.
End Registers.

(** ** Blocks and lists *)
Section Blocks.
Context {L : RpcLib} {LL : RpcLaws}.
Variable ssize_bits : Z.

(** What a block read promises: one request; then, for a response without
    error, [size] words at [result], 1 with the memory untouched when it has
    another number of them, and the library's exception when it has none. *)
Definition implements_block (F : Fn (rstate heap) Z) (s : rstate heap) (name : string)
    (fields : list (string * value)) (size result : Z) : Prop :=
  ∃ m : msg, method m = name ∧ contents m = fields_of fields ∧ ∀ r v,
    svc_call_method m (rpc s) = (r, v) →
    match r with
    | Err e => F s = (caught (Next 1) e, mk_rstate v m (rsp s) (mem s))
    | Ok x =>
        (has_error x = true → F s = (Next 1, mk_rstate v m x (mem s))) ∧
        (has_error x = false → ∀ ws, contents x !! "data" = Some (VWords ws) →
         (Z.of_nat (length ws) ≠ size → F s = (Next 1, mk_rstate v m x (mem s))) ∧
         (Z.of_nat (length ws) = size → ¬ allocated result (length ws) (mem s) →
          F s = (Undef OutOfBounds, mk_rstate v m x (mem s))) ∧
         (Z.of_nat (length ws) = size → allocated result (length ws) (mem s) →
          ∃ h', F s = (Next 0, mk_rstate v m x h') ∧
            ∀ i, h' !! i = if decide (result ≤ i < result + size) then ws !! Z.to_nat (i - result)
                           else mem s !! i)) ∧
        (has_error x = false → ∀ e, msg_get_word_array_size "data" x = Err e →
         F s = (caught (Next 1) e, mk_rstate v m x (mem s)))
    end.

Lemma eq_ssize_small n size : 0 ≤ size < 2 ^ 31 → eq_ssize ssize_bits n size = (n =? size).
Proof.
  intros Hs. unfold eq_ssize. rewrite wrap_small by (unfold word; lia). by destruct (_ <=? _).
Qed.

Lemma key_exists_run {Mem R} (s : rstate Mem) k :
  get_key_exists (R:=R) k s = (Next (bool_decide (is_Some (contents (rsp s) !! k))), s).
Proof. unfold get_key_exists. by rewrite <- key_exists_contents. Qed.

Lemma read_data_array size result (s : rstate heap) ws : 0 ≤ size < 2 ^ 31 → has_error (rsp s) = false →
  contents (rsp s) !! "data" = Some (VWords ws) →
  fn (read_data ssize_bits size result ;; mret 0) s =
    if Z.of_nat (length ws) =? size then
      match store result ws (mem s) with
      | Some h' => (Next 0, with_mem h' s)
      | None => (Undef OutOfBounds, s)
      end
    else (Next 1, s).
Proof.
  intros Hsz He Hd. unfold fn, read_data, try_catch. unfold mbind at 1, M_bind at 1.
  erewrite bind_next by apply key_exists_run. unfold has_error in He. rewrite He.
  erewrite bind_next by by apply word_array_size_run. cbn beta. rewrite eq_ssize_small by done.
  unfold ASSERT. destruct (_ =? size); [|done]. cbn [negb when].
  erewrite bind_next by reflexivity. cbn beta. unfold get_word_array, get_words. rewrite bind_bind.
  erewrite bind_next by reflexivity. cbn beta. erewrite get_word_array_contents by done.
  erewrite bind_next by reflexivity. cbn beta. erewrite bind_next by reflexivity. cbn beta.
  by destruct (store result ws (mem s)).
Qed.

Lemma read_data_refused size result (s : rstate heap) e : has_error (rsp s) = false →
  msg_get_word_array_size "data" (rsp s) = Err e →
  fn (read_data ssize_bits size result ;; mret 0) s = (caught (Next 1) e, s).
Proof.
  intros He Hd. unfold fn, read_data, try_catch. unfold mbind at 1, M_bind at 1.
  erewrite bind_next by apply key_exists_run. unfold has_error in He. rewrite He.
  unfold get_word_array_size. rewrite bind_bind. erewrite bind_next by reflexivity. cbn beta.
  rewrite Hd. by destruct e.
Qed.

Lemma implements_blockI P s name fields size result : 0 ≤ size < 2 ^ 31 →
  sends P s name (fields_of fields) (read_data ssize_bits size result ;; mret 0) →
  implements_block (fn P) s name fields size result.
Proof.
  intros Hsz (m & ? & ? & Hr). exists m. split_and!; [done..|]. intros r v Hc.
  specialize (Hr r v Hc). destruct r as [x|e]; [|unfold fn; rewrite Hr; by destruct e].
  assert (fn P s = fn (read_data ssize_bits size result ;; mret 0) (mk_rstate v m x (mem s))) as HP
    by (unfold fn; by rewrite Hr).
  rewrite HP. split_and!.
  - intros He. unfold fn, read_data, try_catch. erewrite bind_return; [reflexivity|].
    erewrite bind_next by apply key_exists_run. cbn [rsp]. unfold has_error in He. by rewrite He.
  - intros He ws Hd. rewrite (read_data_array _ _ _ ws) by done. cbn [mem]. split_and!.
    + intros Hne. by apply Z.eqb_neq in Hne as ->.
    + intros Hl Hna. apply Z.eqb_eq in Hl as ->. destruct (store result ws (mem s)) eqn:Es; [|done].
      by apply store_allocated_inv in Es.
    + intros Hl Ha. destruct (store_allocated result ws (mem s) Ha) as (h' & -> & Hh').
      exists h'. rewrite <- Hl, Z.eqb_refl. by split.
  - intros He e Hd. by apply read_data_refused.
Qed.

(** C27: [getBlock] and [getList] ask for [size] words and store exactly those at
    [result], touching no other cell; when the words are not all the
    caller's, that is an access out of bounds.  A response with another
    number of words, an error or a failed call gives 1 with the memory
    untouched; a response without the key ends as the library's refusal does
    (a missing key aborts).  [getList] sends the addresses it finds in the
    caller's memory. *)
Theorem block_reads address addresses result size l s : 0 ≤ size < 2 ^ 31 →
  load addresses (Z.to_nat size) (mem s) = Some l →
  implements_block (getBlock ssize_bits address result size) s "extras.blockread"
    [("address", VWord address); ("count", VWord size)] size result ∧
  implements_block (getList ssize_bits addresses result size) s "extras.listread"
    [("addresses", VWords l); ("count", VWord size)] size result.
Proof.
  intros Hs Hl. assert (w32 size = size) as Hw by (apply wrap_small; unfold word; lia).
  assert (s32 size = size) as Hz by (unfold s32; rewrite Z.mod_small by lia; lia).
  split; apply implements_blockI; [done| |done|]; unfold getBlock, getList; rewrite Hw, ?Hz.
  - rpc_send.
  - rpc_send.
Qed.

(** The address table and the register database: the name goes out under
    the expected key, an error gives 1. *)
Theorem database_commands {Mem} (name : string) (s : rstate Mem) :
  implements_command (update_atdb name) s "utils.update_address_table" [("at_xml", VString name)] 1 ∧
  ∃ m : msg, method m = "utils.readRegFromDB" ∧ contents m = fields_of [("reg_name", VString name)] ∧
    ∀ r v, svc_call_method m (rpc s) = (r, v) →
    match r with
    | Err e => getRegInfoDB name s = (caught (Next 1) e, mk_rstate v m (rsp s) (mem s))
    | Ok x => ∀ a k p,
        (has_error x = true → getRegInfoDB name s = (Next 1, mk_rstate v m x (mem s))) ∧
        (has_error x = false → contents x !! "address" = Some (VWord a) →
         contents x !! "mask" = Some (VWord k) → contents x !! "permissions" = Some (VString p) →
         getRegInfoDB name s = (Next 0, mk_rstate v m x (mem s)))
    end.
Proof.
  split; [rpc_command|].
  set (K := (e ← get_key_exists "error"; when e (ret 1) ;;
    try_catch (get_word "address" ;; get_word "mask" ;; get_string "permissions" ;; skip) STANDARD_CATCH ;;
    mret 0) : M (rstate Mem) Z Z).
  assert (sends (new_req "utils.readRegFromDB" ;; set_string "reg_name" name ;;
    try_catch call_method STANDARD_CATCH ;; K) s "utils.readRegFromDB" (fields_of [("reg_name", VString name)]) K)
    as Hs by rpc_send.
  destruct Hs as (m & ? & ? & Hr).
  exists m. split_and!; [done..|]. intros r v Hc. specialize (Hr r v Hc). unfold getRegInfoDB, fn.
  destruct r as [x|e]; [intros a k p|]; fold K; rewrite Hr; [|by destruct e].
  unfold K. split; intros He.
  - erewrite bind_next by reflexivity. cbn [rsp]. rewrite key_exists_contents.
    unfold has_error in He. by rewrite He.
  - intros Ha Hk Hp. erewrite bind_next by reflexivity. cbn [rsp]. rewrite key_exists_contents.
    unfold has_error in He. rewrite He. cbn [when]. erewrite bind_next by reflexivity. cbn beta.
    erewrite bind_next; [reflexivity|]. unfold try_catch.
    unfold get_word, get_string. rewrite !bind_bind. erewrite bind_next by reflexivity. cbn [rsp].
    erewrite get_word_contents by done. erewrite bind_next by reflexivity. cbn beta. rewrite !bind_bind.
    erewrite bind_next by reflexivity. cbn [rsp]. erewrite get_word_contents by done.
    erewrite bind_next by reflexivity. cbn beta. rewrite !bind_bind.
    erewrite bind_next by reflexivity. cbn [rsp]. by erewrite get_string_contents.
Qed.
End Blocks.

(** ** Witnesses *)
Module UtilsExamples.
Import Scripted.

Lemma init_result_witness :
  init "eagle60" (start (Mem:=heap) [] ∅) = (Next 0, with_rpc (mk_ssvc true [] [] : @svc lib) (start [] ∅)).
Proof. rewrite (init_result "eagle60" (start (Mem:=heap) [] ∅)). reflexivity. Defined.

Lemma deinit_result_witness :
  let s := with_rpc (mk_ssvc false [] [] : @svc lib) (start (Mem:=heap) [] ∅) in
  deinit s = (Next 0, s).
Proof. cbv zeta. rewrite deinit_result. reflexivity. Defined.

Import Board.
Definition board_example : gmap Z Z := {[ 0x64000000 := 7 ]}.

Lemma remote_registers_witness :
  (∃ s', @getReg board_lib 0x64000000 (board board_example) = (Next 7, s') ∧
    mem s' = ∅ ∧ ∀ b, @registers _ _ board_memory (rpc s') b = board_example !! b) ∧
  ∃ s', @putReg board_lib 0x64000000 9 (board board_example) = (Next 9, s') ∧
    mem s' = ∅ ∧ ∀ b, @registers _ _ board_memory (rpc s') b =
      if decide (b = 0x64000000 ∧ is_Some (board_example !! 0x64000000)) then Some 9 else board_example !! b.
Proof. exact (@remote_registers board_lib board_laws board_memory 0x64000000 9 (board board_example)). Defined.

Lemma block_reads_witness :
  let s := start [reply [("data", VWords [5; 6])]] (cells 100 2) in
  (implements_block (getBlock 64 0x64000000 100 2) s "extras.blockread"
     [("address", VWord 0x64000000); ("count", VWord 2)] 2 100 ∧
   implements_block (getList 64 100 100 2) s "extras.listread"
     [("addresses", VWords [0; 0]); ("count", VWord 2)] 2 100) ∧
  (getBlock 64 0x64000000 100 2 (start [reply []] (cells 100 2))).1 = Halt HAbort.
Proof.
  cbv zeta. split; [apply block_reads; [lia|reflexivity]|].
  set (s := start [reply []] (cells 100 2)).
  assert (load 100 (Z.to_nat 2) (mem s) = Some [0; 0]) as Hl by reflexivity.
  destruct (block_reads 64 0x64000000 100 100 2 [0; 0] s ltac:(lia) Hl) as [(m & Hm & Hc & Hr) _].
  assert (∃ x v, svc_call_method m (rpc s) = (Ok x, v) ∧ has_error x = false ∧
    msg_get_word_array_size "data" x = Err (BadKey "data")) as (x & v & Hcall & He & Hd)
    by (eexists _, _; by split_and!).
  specialize (Hr _ _ Hcall) as (_ & _ & Hr). by rewrite (Hr He _ Hd).
Defined.

Lemma database_commands_witness :
  implements_command (update_atdb "gem.xml") (start (Mem:=heap) [reply []] ∅)
    "utils.update_address_table" [("at_xml", VString "gem.xml")] 1.
Proof. apply (database_commands "gem.xml" (start (Mem:=heap) [reply []] ∅)). Defined.
End UtilsExamples.
