(* ===== verification/RpcAmc.v ===== *)
(** * RpcAmc: AMC and GBT functions over RPC

    [src/common/rpc_manager/amc.cc] and [gbt.cc]. *)

From S2P Require Import Prelude RpcMsg CText RpcUtils.


(** ** amc.cc *)
Section Amc.
Context {L : RpcLib}.

Definition getOHVFATMask {Mem} (ohN : Z) : Fn (rstate Mem) Z := fn (
  new_req "amc.getOHVFATMask" ;;
  set_word "ohN" ohN ;;
  try_catch call_method STANDARD_CATCH ;;
  return_if_error 0xffffffff ;;
  get_word "vfatMask").

Definition getOHVFATMaskMultiLink (ohMask ohVfatMaskArray : Z) : Fn (rstate heap) Z := fn (
  new_req "amc.getOHVFATMaskMultiLink" ;;
  set_word "ohMask" ohMask ;;
  try_catch call_method STANDARD_CATCH ;;
  return_if_error 1 ;;
  read_array "ohVfatMaskArray" 12 ohVfatMaskArray ;;
  mret 0).

Definition repeatedRegRead {Mem} (regName : string) (nReads : Z) (breakOnFailure : bool) : Fn (rstate Mem) Z := fn (
  new_req "amc.repeatedRegRead" ;;
  set_string_array "regList" [regName] ;;
  set_word "nReads" nReads ;;
  set_word "breakOnFailure" (bool_word breakOnFailure) ;;
  try_catch call_method STANDARD_CATCH ;;
  return_if_error 0xffffffff ;;
  get_word "SUM").
End Amc.

(** *** sbitReadOut

    The files it writes are its memory: [create] says whether a file can be
    opened for writing; opening truncates. *)
Record files : Type := mk_files { create : string → bool; written : gmap string string }.

Definition EIO : Z := 5.
Definition tab : string := String (ascii_of_nat 9) EmptyString.

(** The heading and the lines of a file: the first cluster of each event comes
    after the event's number, the eighth ends the line. *)
Definition sbit_heading : string :=
  "evtNum/I:" ++ String.concat EmptyString
    ((λ c, "sbitClusterData" ++ to_string c ++ "/I:") <$> seqZ 0 8) ++ newline.

(** The loop over the stored words: [pos] is [sbitPos], [evt] is [evtNum]. *)
Fixpoint sbit_lines (first : bool) (pos evt : Z) (l : list Z) : string :=
  match l with
  | [] => EmptyString
  | x :: l =>
      if first then
        to_string evt ++ tab ++ to_string x ++ tab ++ sbit_lines false (w32 (pos + 1)) (w32 (evt + 1)) l
      else if pos mod 8 =? 0 then
        to_string x ++ newline ++ sbit_lines false (w32 (pos + 1)) evt l
      else if pos mod 8 =? 1 then
        to_string evt ++ tab ++ to_string x ++ tab ++ sbit_lines false (w32 (pos + 1)) (w32 (evt + 1)) l
      else
        to_string x ++ tab ++ sbit_lines false (w32 (pos + 1)) evt l
  end.

Definition sbit_file (l : list Z) : string := sbit_heading ++ sbit_lines true 1 0 l.

Section SbitReadOut.
Context {L : RpcLib}.

Definition sbit_name (outFilePath : string) (runNum : Z) : string :=
  outFilePath ++ "/sbitReadOut_run" ++ to_string runNum ++ ".dat".

Definition open_file (name : string) : M (rstate files) Z bool :=
  f ← gets mem;
  if create f name then
    modify (with_mem (mk_files (create f) (<[name := EmptyString]> (written f)))) ;; mret true
  else mret false.
Definition append_file (name text : string) : M (rstate files) Z unit :=
  f ← gets mem;
  modify (with_mem (mk_files (create f)
    (<[name := default EmptyString (written f !! name) ++ text]> (written f)))).

(** Writing the stored words of the response. *)
Definition sbit_store (name : string) : M (rstate files) Z unit :=
  stored ← get_key_exists "storedSbits";
  data ← (if (stored : bool) then get_words "storedSbits" else ret 1);
  append_file name (sbit_file data).

(** One pass of the acquisition loop: the new [netTime].  [runNum] is an
    [int]. *)
Definition sbit_run (acquireTime netTime runNum : Z) (outFilePath : string) : M (rstate files) Z Z :=
  ok ← open_file (sbit_name outFilePath runNum);
  when (negb ok) (ret EIO) ;;
  try_catch call_method STANDARD_CATCH ;;
  return_if_error 1 ;;
  reached ← get_key_exists "maxNetworkSizeReached";
  netTime ← (if (reached : bool) then
               t ← get_word "approxLiveTime"; mret (w32 (netTime + t))
             else mret (w32 (netTime + acquireTime)));
  sbit_store (sbit_name outFilePath runNum) ;;
  guard_ub (runNum <? 2 ^ 31 - 1) SignedOverflow ;;
  mret netTime.

(** [None]: the fuel ran out. *)
Fixpoint sbit_loop (fuel : nat) (acquireTime netTime runNum : Z) (outFilePath : string)
    : M (rstate files) (option Z) unit :=
  if netTime <? acquireTime then
    match fuel with
    | O => ret None
    | S fuel => λ s,
        match sbit_run acquireTime netTime runNum outFilePath s with
        | (Next t, s') => sbit_loop fuel acquireTime t (runNum + 1) outFilePath s'
        | (Return r, s') => (Return (Some r), s')
        | (Throw e, s') => (Throw e, s')
        | (Undef u, s') => (Undef u, s')
        | (Halt h, s') => (Halt h, s')
        end
    end
  else skip.

Definition sbitReadOut (fuel : nat) (ohN acquireTime : Z) (outFilePath : string)
    : Fn (rstate files) (option Z) := fn (
  new_req "amc.sbitReadOut" ;;
  set_word "ohN" ohN ;;
  set_word "acquireTime" acquireTime ;;
  sbit_loop fuel acquireTime 0 1 outFilePath ;;
  mret (Some 0)).
End SbitReadOut.

(** ** gbt.cc *)
Section Gbt.
Context {L : RpcLib}.

Definition phase_key (ohN vfatN : Z) : string := "OH" ++ to_string ohN ++ ".VFAT" ++ to_string vfatN.

Definition scanGBTPhases (results ohN nScans phaseMin phaseMax phaseStep nVFAT nVerificationReads : Z)
    : Fn (rstate heap) Z := fn (
  new_req "gbt.scanGBTPhases" ;;
  set_word "ohN" ohN ;;
  set_word "nScans" nScans ;;
  set_word "phaseMin" phaseMin ;;
  set_word "phaseMax" phaseMax ;;
  set_word "phaseStep" phaseStep ;;
  set_word "nVerificationReads" nVerificationReads ;;
  try_catch call_method STANDARD_CATCH ;;
  return_if_error 1 ;;
  for_each (seqZ 0 nVFAT) (λ vfatN,
    read_array (phase_key ohN vfatN) 16 (results + w32 (16 * vfatN))) ;;
  mret 0).

Definition writeGBTConfig (ohN gbtN configSize : Z) (config : list Z) : Fn (rstate heap) Z := fn (
  new_req "gbt.writeGBTConfig" ;;
  set_word "ohN" ohN ;;
  set_word "gbtN" gbtN ;;
  (if decide (configSize ≤ Z.of_nat (length config))
   then set_binarydata "config" (take (Z.to_nat configSize) config) else undef OutOfBounds) ;;
  try_catch call_method STANDARD_CATCH ;;
  return_if_error 1 ;;
  mret 0).

Definition writeGBTPhase (ohN vfatN phase : Z) : Fn (rstate heap) Z := fn (
  new_req "gbt.writeGBTPhase" ;;
  set_word "ohN" ohN ;;
  set_word "vfatN" vfatN ;;
  set_word "phase" phase ;;
  try_catch call_method STANDARD_CATCH ;;
  return_if_error 1 ;;
  mret 0).
End Gbt.

(** ** The trigger data file *)
Lemma string_app_assoc (a b c : string) : (a ++ b) ++ c = a ++ (b ++ c).
Proof. induction a as [|x a IH]; [done|]. change (String x ((a ++ b) ++ c) = String x (a ++ (b ++ c))). by rewrite IH. Qed.

(** One event: its number and its eight clusters, tab separated. *)
Definition event_line (evt : Z) (l : list Z) : string :=
  to_string evt ++ tab ++ String.concat tab (to_string <$> l) ++ newline.

Fixpoint event_lines (evt : Z) (l : list Z) : string :=
  match l with
  | a :: b :: c :: d :: e :: f :: g :: h :: l =>
      event_line evt [a; b; c; d; e; f; g; h] ++ event_lines (w32 (evt + 1)) l
  | _ => EmptyString
  end.

Lemma next_mod8 pos k : pos mod 8 = k → w32 (pos + 1) mod 8 = (k + 1) mod 8.
Proof.
  intros <-. unfold wrap. rewrite Z.mod_mod_divide by (by exists (2 ^ 29)).
  by rewrite Zplus_mod_idemp_l.
Qed.

(** Clusters two to seven, then the eighth. *)
Lemma sbit_lines_middle pos evt x l : 2 ≤ pos mod 8 →
  sbit_lines false pos evt (x :: l) = to_string x ++ tab ++ sbit_lines false (w32 (pos + 1)) evt l.
Proof. intros. cbn [sbit_lines]. repeat case_bool; (lia || done). Qed.

Lemma sbit_lines_last pos evt x l : pos mod 8 = 0 →
  sbit_lines false pos evt (x :: l) = to_string x ++ newline ++ sbit_lines false (w32 (pos + 1)) evt l.
Proof. intros. cbn [sbit_lines]. repeat case_bool; (lia || done). Qed.

Lemma sbit_lines_first b pos evt x l : pos mod 8 = 1 →
  sbit_lines b pos evt (x :: l) =
    to_string evt ++ tab ++ to_string x ++ tab ++ sbit_lines false (w32 (pos + 1)) (w32 (evt + 1)) l.
Proof. intros. cbn [sbit_lines]. destruct b; [done|]. repeat case_bool; (lia || done). Qed.

(** The residues of the next [n] positions. *)
Ltac mod8_steps H n :=
  lazymatch n with
  | O => idtac
  | S ?n =>
      let H' := fresh "Hm" in
      pose proof (next_mod8 _ _ H) as H';
      lazymatch type of H' with
      | _ = ?k => let k' := eval vm_compute in k in change k with k' in H'
      end;
      mod8_steps H' n
  end.

Lemma sbit_lines_events n first pos evt l : length l = (n * 8)%nat → pos mod 8 = 1 →
  sbit_lines first pos evt l = event_lines evt l.
Proof.
  revert first pos evt l. induction n as [|n IH]; intros b pos evt l Hlen Hpos.
  { by destruct l. }
  do 8 (destruct l as [|? l]; [done|]).
  mod8_steps Hpos 8%nat.
  rewrite sbit_lines_first by done.
  rewrite 6 sbit_lines_middle by lia. rewrite sbit_lines_last by done.
  rewrite (IH _ _ _ l) by (done || (cbn in Hlen; lia)).
  cbn [event_lines]. unfold event_line. cbn [fmap list_fmap String.concat].
  by rewrite !string_app_assoc.
Qed.

(** The file of a run with whole events: the heading and one line per event,
    numbered from 0, with its eight clusters in the order they came. *)
Theorem sbit_file_events l : Nat.divide 8 (length l) → sbit_file l = sbit_heading ++ event_lines 0 l.
Proof. intros [n Hn]. unfold sbit_file. by rewrite (sbit_lines_events n). Qed.

(** ** The acquisition loop *)
Section Acquisition.
Context {L : RpcLib} {LL : RpcLaws}.
Variable acquireTime : Z.
Variable outFilePath : string.

(** The seconds an acquisition adds: those the board says it was live when it
    stopped early, and [acquireTime] otherwise. *)
Definition adds (x : msg) (t : Z) : Prop :=
  if bool_decide (is_Some (contents x !! "maxNetworkSizeReached"))
  then msg_get_word "approxLiveTime" x = Ok t else t = acquireTime.

(** What the next calls of the request [m] add, from the service [v] on. *)
Inductive acquisitions (m : msg) : svc → list Z → Prop :=
| acquired_none v : acquisitions m v []
| acquired v x v' t ts : svc_call_method m v = (Ok x, v') → adds x t → acquisitions m v' ts →
    acquisitions m v (t :: ts).

Definition total : list Z → Z := foldr Z.add 0.

Lemma return_if_error_keeps_rsp {Mem} c (s s' : rstate Mem) :
  return_if_error c s = (Next tt, s') → s' = s.
Proof.
  unfold return_if_error, get_key_exists. erewrite bind_next by reflexivity. cbn beta.
  destruct (msg_get_key_exists _ _); cbn [when]; [|by intros [= <-]].
  unfold mbind, M_bind. destruct (get_string "error" s) as [[] ?]; done.
Qed.

Lemma set_req_run {Mem R} f (s : rstate Mem) :
  set_req (R:=R) f s = match f (req s) with Ok m => (Next tt, with_req m s) | Err e => (raise e, s) end.
Proof. unfold set_req. erewrite bind_next by reflexivity. cbn beta. by destruct (f (req s)) as [|[]]. Qed.

(** Storing the words of the response leaves the request and the service. *)
Lemma sbit_store_keeps name (s s' : rstate files) r : sbit_store name s = (r, s') → req s' = req s ∧ rpc s' = rpc s.
Proof.
  intros H. enough (keeps (λ t, req t = req s ∧ rpc t = rpc s) (sbit_store name)) as Hk
    by (specialize (Hk s (conj eq_refl eq_refl)); by rewrite H in Hk).
  unfold sbit_store, get_key_exists, get_words, append_file. apply keeps_bind; [apply keeps_gets|]. intros b.
  apply keeps_bind.
  - destruct b; [|apply keeps_return]. apply keeps_bind; [apply keeps_gets|]. intros m t Ht. unfold of_result.
    by destruct (msg_get_word_array _ m).
  - intros l. apply keeps_bind; [apply keeps_gets|]. intros f. by apply keeps_modify.
Qed.

(** What a pass that goes on has done. *)
Lemma sbit_run_adds netTime runNum s t s' :
  sbit_run acquireTime netTime runNum outFilePath s = (Next t, s') →
  ∃ x u, svc_call_method (req s) (rpc s) = (Ok x, rpc s') ∧ adds x u ∧ t = w32 (netTime + u) ∧ req s' = req s.
Proof.
  unfold sbit_run, open_file. rewrite !bind_bind. erewrite bind_next by reflexivity. cbn beta.
  destruct (create (mem s) _); [|done]. rewrite !bind_bind. erewrite bind_next by reflexivity. cbn beta.
  erewrite bind_next by reflexivity. cbn [negb when]. erewrite bind_next by reflexivity. cbn beta.
  unfold mbind at 1, M_bind at 1. unfold try_catch, call_method. cbn [req rpc with_mem].
  destruct (svc_call_method (req s) (rpc s)) as [[x|e] v] eqn:Hc; [|by destruct e].
  unfold mbind at 1, M_bind at 1. destruct (return_if_error 1 _) as [[[]| | | |] s2] eqn:He; try done.
  apply return_if_error_keeps_rsp in He as ->. erewrite bind_next by reflexivity. cbn [rsp].
  rewrite key_exists_contents. unfold adds. intros Hrest. exists x.
  assert (∀ u k, (sbit_store (sbit_name outFilePath runNum) ;; guard_ub (runNum <? 2 ^ 31 - 1) SignedOverflow ;; mret k)
    (mk_rstate v (req s) x u) = (Next t, s') → t = k ∧ rpc s' = v ∧ req s' = req s) as Hend.
  { intros u k. unfold mbind, M_bind. destruct (sbit_store _ _) as [[] s3] eqn:Hs; try done.
    apply sbit_store_keeps in Hs as [Hq Hp]. destruct (runNum <? _); [|done]. by intros [= -> <-]. }
  destruct (bool_decide _).
  - unfold get_word in Hrest. rewrite !bind_bind in Hrest. erewrite bind_next in Hrest by reflexivity. cbn [rsp] in Hrest.
    destruct (msg_get_word "approxLiveTime" x) as [u|e] eqn:Hu; [|by destruct e].
    erewrite bind_next in Hrest by reflexivity. cbn beta in Hrest. erewrite bind_next in Hrest by reflexivity.
    exists u. by apply Hend in Hrest as (-> & -> & ->).
  - erewrite bind_next in Hrest by reflexivity. exists acquireTime. by apply Hend in Hrest as (-> & -> & ->).
Qed.

Lemma w32_add_total n u ts : w32 (w32 (n + u) + total ts) = w32 (n + total (u :: ts)).
Proof. cbn. unfold wrap. rewrite Zplus_mod_idemp_l. f_equal. lia. Qed.

(** A loop that has used up its fuel. *)
Lemma sbit_loop_unfinished fuel netTime runNum s s' : word 32 netTime →
  sbit_loop fuel acquireTime netTime runNum outFilePath s = (Return None, s') → ∃ ts,
  acquisitions (req s) (rpc s) ts ∧ length ts = fuel ∧
  ∀ k, (k ≤ fuel)%nat → w32 (netTime + total (take k ts)) < acquireTime.
Proof.
  revert netTime runNum s. induction fuel as [|fuel IH]; intros netTime runNum s Hn; cbn [sbit_loop];
    (destruct (Z.ltb_spec netTime acquireTime) as [Hlt|]; [|done]).
  { intros _. exists []. split; [constructor|]. split; [done|]. intros k Hk. rewrite take_nil. cbn.
    by rewrite Z.add_0_r, wrap_small. }
  destruct (sbit_run _ _ _ _ s) as [[t| | | |] s1] eqn:Hr; try done.
  apply sbit_run_adds in Hr as (x & u & Hc & Hu & -> & Hq). intros Hl.
  apply IH in Hl as (ts & Hts & Hlen & Hk); [|apply wrap_word; lia]. exists (u :: ts).
  split; [rewrite Hq in Hts; by eapply acquired|]. split; [cbn; lia|]. intros [|k] Hle.
  - cbn. by rewrite Z.add_0_r, wrap_small.
  - cbn [take]. rewrite <- w32_add_total. apply Hk. lia.
Qed.

(** Seconds that add up. *)
Lemma total_at_least ts : Forall (λ t, 1 ≤ t) ts → Z.of_nat (length ts) ≤ total ts.
Proof. induction 1; cbn [length total foldr] in *; [lia|]. unfold total in *. lia. Qed.

(** C35: [sbitReadOut] returns within [acquireTime] acquisitions, whatever the
    board answers, unless the board has reported no live time for one of them
    or the seconds have passed 2^32: when it has not returned after [fuel]
    acquisitions, each of them went through, and the seconds they added were,
    in 32 bits, below [acquireTime] after every one. *)
Theorem sbitReadOut_terminates fuel ohN s : 0 ≤ acquireTime ≤ Z.of_nat fuel →
  (sbitReadOut fuel ohN acquireTime outFilePath s).1 ≠ Next None ∨
  ∃ m ts, method m = "amc.sbitReadOut" ∧
    contents m = fields_of [("ohN", VWord ohN); ("acquireTime", VWord acquireTime)] ∧
    acquisitions m (rpc s) ts ∧ length ts = fuel ∧
    (∀ k, (k ≤ fuel)%nat → w32 (total (take k ts)) < acquireTime) ∧
    (Exists (λ t, t ≤ 0) ts ∨ 2 ^ 32 ≤ total ts).
Proof.
  intros Hf. unfold sbitReadOut, fn. erewrite bind_next by reflexivity. cbn beta.
  unfold set_word. set (m0 := RPCMsg "amc.sbitReadOut"). set (s0 := with_req m0 s).
  destruct (set_word_contents "ohN" ohN m0 eq_refl) as (m1 & Hs1 & Hm1 & Hc1).
  destruct (set_word_contents "acquireTime" acquireTime m1 eq_refl) as (m2 & Hs2 & Hm2 & Hc2).
  erewrite bind_next by (rewrite set_req_run; cbn [req s0 with_req]; rewrite Hs1; reflexivity).
  erewrite bind_next by (rewrite set_req_run; cbn [req with_req]; rewrite Hs2; reflexivity).
  set (s2 := with_req m2 _). unfold mbind at 1, M_bind at 1.
  destruct (sbit_loop fuel acquireTime 0 1 outFilePath s2) as [[[]|[r|]| | |] s3] eqn:Hl; try (by left).
  right. apply sbit_loop_unfinished in Hl as (ts & Hts & Hlen & Hk); [|by vm_decide].
  exists m2, ts. split; [by rewrite Hm2, Hm1; apply method_new|].
  split; [rewrite Hc2, Hc1; unfold m0; by rewrite contents_new|]. split; [exact Hts|]. split; [done|].
  split; [exact Hk|]. destruct (decide (2 ^ 32 ≤ total ts)) as [|Hsmall]; [by right|left].
  destruct (decide (Exists (λ t, t ≤ 0) ts)) as [|Hno]; [done|]. exfalso.
  assert (Forall (λ t, 1 ≤ t) ts) as Hall.
  { apply not_Exists_Forall in Hno; [|intros; apply _]. eapply Forall_impl; [exact Hno|]. cbn. intros. lia. }
  apply total_at_least in Hall. specialize (Hk fuel (le_n _)). rewrite take_ge in Hk by lia.
  rewrite Z.add_0_l, wrap_small in Hk by (unfold word; lia). lia.
Qed.
End Acquisition.

(** ** A board that reports no live time *)
Section Stuck.
Context {L : RpcLib} {LL : RpcLaws}.

(** The response of a run that filled the network buffer within a second. *)
Definition no_live_time (x : msg) : Prop :=
  contents x !! "error" = None ∧ is_Some (contents x !! "maxNetworkSizeReached") ∧
  contents x !! "approxLiveTime" = Some (VWord 0) ∧ ∃ l, contents x !! "storedSbits" = Some (VWords l).

Hypothesis stuck : ∀ (m : msg) v, ∃ x v', svc_call_method m v = (Ok x, v') ∧ no_live_time x.

Lemma sbit_run_stuck acquireTime netTime runNum path (s : rstate files) : word 32 netTime → runNum < 2 ^ 31 - 1 →
  (∀ n, create (mem s) n = true) →
  ∃ s', sbit_run acquireTime netTime runNum path s = (Next netTime, s') ∧ (∀ n, create (mem s') n = true).
Proof.
  intros Hn Hrun Hc. destruct (stuck (req s) (rpc s)) as (x & v & Hcall & He & Hr & Ht & l & Hl).
  eexists. unfold sbit_run, open_file. rewrite !bind_bind. erewrite bind_next by reflexivity. cbn beta.
  rewrite Hc. rewrite !bind_bind. erewrite bind_next by reflexivity. cbn beta.
  erewrite bind_next by reflexivity. cbn [negb when]. erewrite bind_next by reflexivity. cbn beta.
  erewrite bind_next. 2: { unfold try_catch, call_method. cbn [req rpc with_mem]. by rewrite Hcall. }
  erewrite bind_next. 2: { apply return_if_error_none. unfold has_error. cbn [rsp]. by rewrite He. }
  erewrite bind_next by reflexivity. cbn [rsp]. rewrite key_exists_contents, bool_decide_true by done.
  unfold get_word. rewrite !bind_bind. erewrite bind_next by reflexivity. cbn [rsp].
  rewrite (get_word_contents _ _ _ Ht). erewrite bind_next by reflexivity. cbn beta.
  erewrite bind_next by reflexivity. cbn beta. unfold sbit_store. rewrite !bind_bind.
  erewrite bind_next by reflexivity. cbn [rsp]. rewrite key_exists_contents, Hl, bool_decide_true by done.
  unfold get_words. rewrite !bind_bind. erewrite bind_next by reflexivity. cbn [rsp].
  rewrite (get_word_array_contents _ _ _ Hl). erewrite bind_next by reflexivity. cbn beta.
  unfold append_file. rewrite !bind_bind. erewrite bind_next by reflexivity. cbn beta.
  erewrite bind_next by reflexivity. cbn beta. rewrite Z.add_0_r, wrap_small by done.
  rewrite (proj2 (Z.ltb_lt runNum (2 ^ 31 - 1))) by done. split; [reflexivity|]. exact Hc.
Qed.

(** Then [sbitReadOut] does not return: it is still acquiring when the count
    of its runs leaves the [int] it is kept in. *)
Theorem sbitReadOut_never_ends fuel ohN acquireTime path (s : rstate files) : 0 < acquireTime → Z.of_nat fuel < 2 ^ 31 - 1 →
  (∀ n, create (mem s) n = true) →
  ∃ s', sbitReadOut fuel ohN acquireTime path s = (Next None, s').
Proof.
  intros Ha Hfuel Hc.
  assert (∀ f runNum (t : rstate files), runNum + Z.of_nat f < 2 ^ 31 → (∀ n, create (mem t) n = true) →
    ∃ t', sbit_loop f acquireTime 0 runNum path t = (Return None, t')) as Hloop.
  { induction f as [|f IH]; intros runNum t Hf Ht; cbn [sbit_loop];
      (destruct (Z.ltb_spec 0 acquireTime); [|lia]); [by eexists|].
    destruct (sbit_run_stuck acquireTime 0 runNum path t) as (t1 & -> & Ht1); [by split|lia|done|].
    apply IH; [lia|done]. }
  unfold sbitReadOut, fn. erewrite bind_next by reflexivity. cbn beta.
  unfold set_word. destruct (set_word_contents "ohN" ohN (RPCMsg "amc.sbitReadOut") eq_refl) as (m1 & H1 & _).
  destruct (set_word_contents "acquireTime" acquireTime m1 eq_refl) as (m2 & H2 & _).
  erewrite bind_next. 2: { rewrite set_req_run. cbn [req with_req]. by rewrite H1. }
  erewrite bind_next. 2: { rewrite set_req_run. cbn [req with_req]. by rewrite H2. }
  destruct (Hloop fuel 1 (with_req m2 (with_req m1 (with_req (RPCMsg "amc.sbitReadOut") s)))) as (t' & Ht'); [lia|done|].
  exists t'. by erewrite bind_return by exact Ht'.
Qed.
End Stuck.

(** ** What the AMC and GBT functions promise *)
Section Contracts.
Context {L : RpcLib} {LL : RpcLaws}.

(** A function that returns one word of the response. *)
Definition implements_word {Mem} (F : Fn (rstate Mem) Z) (s : rstate Mem) (name : string)
    (fields : list (string * value)) (failure : Z) (key : string) : Prop :=
  ∃ m : msg, method m = name ∧ contents m = fields_of fields ∧ ∀ r v, svc_call_method m (rpc s) = (r, v) →
    match r with
    | Err e => F s = (caught (Next 1) e, mk_rstate v m (rsp s) (mem s))
    | Ok x =>
        (error_ok x → has_error x = true → F s = (Next failure, mk_rstate v m x (mem s))) ∧
        (∀ w, has_error x = false → contents x !! key = Some (VWord w) →
              F s = (Next w, mk_rstate v m x (mem s)))
    end.

Lemma implements_wordI {Mem} P (s : rstate Mem) name fields failure key :
  sends P s name (fields_of fields) (return_if_error failure ;; get_word key) →
  implements_word (fn P) s name fields failure key.
Proof.
  intros (m & ? & ? & Hr). exists m. split_and!; [done..|]. intros r v Hc.
  specialize (Hr r v Hc). unfold fn. destruct r as [x|e]; rewrite Hr; [|by destruct e]. split.
  - intros Hok He. by erewrite bind_return by (by apply return_if_error_some).
  - intros w He Hw. erewrite bind_next by (by apply return_if_error_none).
    unfold get_word. erewrite bind_next by reflexivity. cbn [rsp]. by rewrite (get_word_contents _ _ _ Hw).
Qed.

(** The AMC functions. *)
Theorem amc_functions (ohN ohMask p nReads : Z) (regName : string) (b : bool) (s : rstate heap) :
  implements_word (getOHVFATMask ohN) s "amc.getOHVFATMask" [("ohN", VWord ohN)] 0xffffffff "vfatMask" ∧
  implements_word (repeatedRegRead regName nReads b) s "amc.repeatedRegRead"
    [("regList", VStrings [regName]); ("nReads", VWord nReads); ("breakOnFailure", VWord (bool_word b))]
    0xffffffff "SUM" ∧
  implements_reads (getOHVFATMaskMultiLink ohMask p) s "amc.getOHVFATMaskMultiLink"
    [("ohMask", VWord ohMask)] [("ohVfatMaskArray", 12, p)].
Proof.
  split_and!.
  - apply implements_wordI. rpc_send.
  - apply implements_wordI. rpc_send.
  - rpc_reads.
Qed.

(** *** The generated keys *)
Lemma key_chars_app a b : key_chars (a ++ b) = key_chars a && key_chars b.
Proof.
  induction a as [|c a IH]; [done|].
  change (key_char c && key_chars (a ++ b) = key_char c && key_chars a && key_chars b).
  by rewrite IH, andb_assoc.
Qed.

(** The phases of the VFATs [0 .. nVFAT), 16 words each. *)
Definition phase_arrays (ohN nVFAT results : Z) : list (string * Z * Z) :=
  (λ n, (phase_key ohN n, 16, results + w32 (16 * n))) <$> seqZ 0 nVFAT.

Lemma for_each_read_arrays l f s :
  (for_each l (λ n : Z, read_array (f n).1.1 (f n).1.2 (f n).2) ;; mret 0) s
  = read_arrays (f <$> l) s.
Proof.
  revert s. induction l as [|n l IH]; intros s; [done|]. cbn [for_each fmap list_fmap]. rewrite bind_bind.
  cbn [read_arrays foldr]. fold (read_arrays (f <$> l)).
  unfold mbind at 1 3, M_bind at 1 3. by destruct (read_array _ _ _ s) as [[] s'].
Qed.

Lemma scan_contract (results ohN nScans phaseMin phaseMax phaseStep nVFAT nReads : Z) (s : rstate heap) :
  implements_reads (scanGBTPhases results ohN nScans phaseMin phaseMax phaseStep nVFAT nReads) s
    "gbt.scanGBTPhases"
    [("ohN", VWord ohN); ("nScans", VWord nScans); ("phaseMin", VWord phaseMin); ("phaseMax", VWord phaseMax);
     ("phaseStep", VWord phaseStep); ("nVerificationReads", VWord nReads)]
    (phase_arrays ohN nVFAT results).
Proof.
  apply implements_readsI.
  eapply (sends_ext _ _ _ _ _ (return_if_error 1 ;; for_each (seqZ 0 nVFAT)
    (λ n, read_array (phase_key ohN n) 16 (results + w32 (16 * n))) ;; mret 0)); [|rpc_send].
  intros t. unfold mbind at 1 3, M_bind at 1 3. destruct (return_if_error 1 t) as [[] t']; try done.
  apply (for_each_read_arrays _ (λ n, (phase_key ohN n, 16, results + w32 (16 * n)))).
Qed.

Lemma find_phase ohN nVFAT results n i : nVFAT ≤ 2 ^ 28 → 0 ≤ n < nVFAT →
  results + 16 * n ≤ i < results + 16 * n + 16 →
  find (in_array i) (phase_arrays ohN nVFAT results) = Some (phase_key ohN n, 16, results + w32 (16 * n)).
Proof.
  intros Hn Hr Hi. destruct (find _ _) as [[[k sz] p]|] eqn:Hf.
  - apply find_some in Hf as [Hin Hc]. apply list_elem_of_In, list_elem_of_fmap in Hin as (m & Heq & Hin%elem_of_seqZ).
    simplify_eq. unfold in_array in Hc. cbn in Hc. rewrite wrap_small in Hc by (unfold word; lia).
    assert (m = n) as -> by lia. done.
  - exfalso. eapply find_none in Hf.
    2: { apply list_elem_of_In, list_elem_of_fmap. exists n. split; [done|]. apply elem_of_seqZ. lia. }
    unfold in_array in Hf. cbn in Hf. rewrite wrap_small in Hf by (unfold word; lia). lia.
Qed.

(** The GBT functions: [scanGBTPhases] wants, for every VFAT in order, an
    array of 16 words, which goes 16 words after the previous one. *)
Theorem gbt_functions (results ohN nScans phaseMin phaseMax phaseStep nVFAT nReads gbtN vfatN phase : Z)
    (config : list Z) (s : rstate heap) :
  implements_reads (scanGBTPhases results ohN nScans phaseMin phaseMax phaseStep nVFAT nReads) s
    "gbt.scanGBTPhases"
    [("ohN", VWord ohN); ("nScans", VWord nScans); ("phaseMin", VWord phaseMin); ("phaseMax", VWord phaseMax);
     ("phaseStep", VWord phaseStep); ("nVerificationReads", VWord nReads)]
    (phase_arrays ohN nVFAT results) ∧
  implements_command (writeGBTConfig ohN gbtN (Z.of_nat (length config)) config) s "gbt.writeGBTConfig"
    [("ohN", VWord ohN); ("gbtN", VWord gbtN); ("config", VBinary config)] 1 ∧
  implements_command (writeGBTPhase ohN vfatN phase) s "gbt.writeGBTPhase"
    [("ohN", VWord ohN); ("vfatN", VWord vfatN); ("phase", VWord phase)] 1.
Proof.
  split_and!.
  - apply scan_contract.
  - unfold writeGBTConfig. rewrite decide_True, Nat2Z.id, firstn_all by lia. rpc_command.
  - rpc_command.
Qed.

Lemma phase_arrays_apart ohN nVFAT results : nVFAT ≤ 2 ^ 28 → apart (phase_arrays ohN nVFAT results).
Proof.
  intros Hn. unfold phase_arrays. assert (Forall (λ n, 0 ≤ n < 2 ^ 28) (seqZ 0 nVFAT)) as Hall.
  { apply Forall_forall. intros n ?%elem_of_seqZ. lia. }
  pose proof (NoDup_seqZ 0 nVFAT) as Hnd. revert Hall Hnd. generalize (seqZ 0 nVFAT). intros l.
  induction l as [|n l IH]; [done|]. intros [Hn0 Hl]%Forall_cons [Hni Hnd]%NoDup_cons.
  cbn [fmap list_fmap apart]. split; [|by apply IH].
  apply Forall_fmap, Forall_forall. intros m Hm i. unfold in_array. cbn.
  assert (n ≠ m) by (intros ->; done). assert (0 ≤ m < 2 ^ 28) by (by eapply Forall_forall in Hl).
  rewrite !wrap_small by (unfold word; lia). lia.
Qed.

(** C34: [scanGBTPhases] makes one call, [gbt.scanGBTPhases] with the parameters
    of the scan.  When the response has the 16 phases of every VFAT under the
    key of its number and the caller has room for them, it returns 0 and word
    [i] of VFAT [n] is at [results + 16 n + i]; nothing else in memory
    changes. *)
Theorem scanGBTPhases_layout (results ohN nScans phaseMin phaseMax phaseStep nVFAT nReads : Z)
    (s : rstate heap) (phases : Z → list Z) : nVFAT ≤ 2 ^ 28 →
  ∃ m, method m = "gbt.scanGBTPhases" ∧
    contents m = fields_of [("ohN", VWord ohN); ("nScans", VWord nScans); ("phaseMin", VWord phaseMin);
      ("phaseMax", VWord phaseMax); ("phaseStep", VWord phaseStep); ("nVerificationReads", VWord nReads)] ∧
    ∀ x v, svc_call_method m (rpc s) = (Ok x, v) → contents x !! "error" = None →
    (∀ n, 0 ≤ n < nVFAT →
      contents x !! ("OH" ++ to_string ohN ++ ".VFAT" ++ to_string n) = Some (VWords (phases n)) ∧
      length (phases n) = 16%nat ∧ allocated (results + 16 * n) 16 (mem s)) →
    ∃ h', scanGBTPhases results ohN nScans phaseMin phaseMax phaseStep nVFAT nReads s
            = (Next 0, mk_rstate v m x h') ∧
      (∀ n i, 0 ≤ n < nVFAT → 0 ≤ i < 16 → h' !! (results + 16 * n + i) = phases n !! Z.to_nat i) ∧
      (∀ c, ¬ results ≤ c < results + 16 * nVFAT → h' !! c = mem s !! c).
Proof.
  intros Hn.
  destruct (scan_contract results ohN nScans phaseMin phaseMax phaseStep nVFAT nReads s) as (m & Hm & Hfl & Hr).
  exists m. split; [exact Hm|]. split; [exact Hfl|]. intros x v Hc He Hph. specialize (Hr _ _ Hc). cbn in Hr.
  assert (has_error x = false) as Hne by (unfold has_error; by rewrite He).
  assert (Forall (array_ready x (mem s)) (phase_arrays ohN nVFAT results)) as Hready.
  { apply Forall_fmap, Forall_forall. intros n ?%elem_of_seqZ.
    destruct (Hph n) as (Hk & Hlen & Hal); [lia|]. exists (phases n). cbn. rewrite Hlen.
    rewrite wrap_small by (unfold word; lia). done. }
  destruct (reads_ready _ _ _ (phase_arrays_apart ohN nVFAT results Hn) Hready) as (h' & Hreads & Hh').
  exists h'. rewrite Hr, Hne, Hreads; [|unfold error_ok; by rewrite He|].
  2: { eapply Forall_impl; [exact Hready|]. intros a (ws & Hws & _). unfold array_or_absent. by rewrite Hws. }
  split; [done|]. split.
  - intros n i Hn' Hi. rewrite Hh'. unfold placed.
    rewrite (find_phase ohN nVFAT results n) by (done || lia).
    destruct (Hph n Hn') as (Hk & _). change (contents x !! phase_key ohN n = Some (VWords (phases n))) in Hk. rewrite Hk. rewrite wrap_small by (unfold word; lia). f_equal. lia.
  - intros c Hout. rewrite Hh'. unfold placed.
    destruct (find _ _) as [[[k sz] p]|] eqn:Hf; [|done].
    apply find_some in Hf as [Hin Hc']. apply list_elem_of_In, list_elem_of_fmap in Hin as (n & Heq & Hin%elem_of_seqZ).
    simplify_eq. unfold in_array in Hc'. cbn in Hc'. rewrite wrap_small in Hc' by (unfold word; lia). lia.
Qed.
End Contracts.

(** ** Witnesses *)
Module AmcExamples.
Import Scripted.

Lemma sbit_file_events_witness :
  Nat.divide 8 (length (seqZ 0 16)) ∧ sbit_file (seqZ 0 16) = sbit_heading ++ event_lines 0 (seqZ 0 16).
Proof.
  assert (Nat.divide 8 (length (seqZ 0 16))) as Hd by (by exists 2%nat).
  split; [exact Hd|apply (sbit_file_events (seqZ 0 16) Hd)].
Defined.

Definition sbit_reply (live : Z) : result smsg :=
  reply [("maxNetworkSizeReached", VWord 1); ("approxLiveTime", VWord live); ("storedSbits", VWords [3; 4])].
Definition disk : files := mk_files (λ _, true) ∅.

(** Two seconds at a time: the third acquisition is the last one. *)
Lemma sbitReadOut_terminates_witness : 0 ≤ 5 ≤ Z.of_nat 5 ∧
  (@sbitReadOut (always (sbit_reply 2)) 5 0 5 "/tmp" (idle (sbit_reply 2) disk)).1 ≠ Next None.
Proof.
  split; [lia|].
  destruct (@sbitReadOut_terminates (always (sbit_reply 2)) (always_laws _) 5 "/tmp" 5 0 (idle (sbit_reply 2) disk)
    ltac:(lia)) as [H|(m & ts & _ & _ & Hts & Hlen & Hk & _)]; [exact H|exfalso].
  specialize (Hk 3%nat ltac:(lia)).
  assert (∀ v ts, @acquisitions (always (sbit_reply 2)) (always_laws _) 5 m v ts → Forall (λ t, t = 2) ts) as H2.
  { intros v us H. induction H as [|v x v' t us Hc Hu _ IH]; constructor; [|exact IH]. injection Hc as <- _.
    vm_compute in Hu. by injection Hu. }
  apply H2 in Hts. destruct ts as [|? [|? [|? ts]]]; [done..|]. decompose_Forall_hyps. vm_compute in Hk. done.
Defined.

Lemma sbitReadOut_never_ends_witness : ∃ s',
  @sbitReadOut (always (sbit_reply 0)) 9 0 5 "/tmp" (idle (sbit_reply 0) disk) = (Next None, s').
Proof.
  apply (@sbitReadOut_never_ends (always (sbit_reply 0)) (always_laws _)).
  - intros m v. do 2 eexists. split; [reflexivity|].
    split; [reflexivity|]. split; [by eexists|]. split; [reflexivity|]. by eexists.
  - lia.
  - lia.
  - done.
Defined.

Lemma amc_functions_witness :
  implements_word (getOHVFATMask 3) (start (Mem:=heap) [reply [("vfatMask", VWord 9)]] ∅) "amc.getOHVFATMask"
    [("ohN", VWord 3)] 0xffffffff "vfatMask".
Proof. apply (amc_functions 3 0 0 0 "x" true (start (Mem:=heap) [reply [("vfatMask", VWord 9)]] ∅)). Defined.

Lemma gbt_functions_witness :
  implements_command (writeGBTPhase 1 2 3) (start (Mem:=heap) [reply []] ∅) "gbt.writeGBTPhase"
    [("ohN", VWord 1); ("vfatN", VWord 2); ("phase", VWord 3)] 1.
Proof. apply (gbt_functions 0 1 0 0 0 0 0 0 0 2 3 [] (start (Mem:=heap) [reply []] ∅)). Defined.

Lemma scanGBTPhases_layout_witness :
  let r := reply [(phase_key 1 0, VWords (replicate 16 0)); (phase_key 1 1, VWords (replicate 16 1))] in
  ∃ s', @scanGBTPhases (always r) 100 1 0 0 15 1 2 0 (idle r (cells 100 32)) = (Next 0, s') ∧
    mem s' !! 117 = Some 1.
Proof.
  set (r := reply _). cbv zeta.
  destruct (@scanGBTPhases_layout (always r) (always_laws r) 100 1 0 0 15 1 2 0 (idle r (cells 100 32))
    (λ n, replicate 16 n) ltac:(lia)) as (m & _ & _ & Hm).
  destruct (Hm _ tt (eq_refl : (r, tt) = (Ok _, tt))) as (h' & Hrun & Hin & _); [reflexivity| |].
  - intros n Hn. assert (n = 0 ∨ n = 1) as [-> | ->] by lia;
      (split; [vm_compute; reflexivity|split; [reflexivity|apply cells_allocated; lia]]).
  - eexists. split; [exact Hrun|]. cbn [mem]. change 117 with (100 + 16 * 1 + 1).
    rewrite (Hin 1 1) by lia. reflexivity.
Defined.
End AmcExamples.
