(* ===== verification/RpcSca.v ===== *)
(** * RpcSca: slow-control ADC readings

    [src/common/rpc_manager/sca.cc]. *)

From S2P Require Import Prelude Words RpcMsg.

Section Sca.
Context {L : RpcLib}.

Definition readSCAADCSensor (ohMask ch result : Z) : Fn (rstate heap) Z := fn (
  new_req "amc.readSCAADCSensor" ;;
  set_word "ohMask" ohMask ;;
  set_word "ch" ch ;;
  try_catch call_method STANDARD_CATCH ;;
  return_if_error 1 ;;
  read_array "data" (count_1bits ohMask) result ;;
  mret 0).

Definition readSCAADCTemperatureSensors (ohMask result : Z) : Fn (rstate heap) Z := fn (
  new_req "sca.readSCAADCTemperatureSensors" ;;
  set_word "ohMask" ohMask ;;
  try_catch call_method STANDARD_CATCH ;;
  return_if_error 1 ;;
  read_array "data" (w32 (count_1bits ohMask * 5)) result ;;
  mret 0).

Definition readSCAADCVoltageSensors (ohMask result : Z) : Fn (rstate heap) Z := fn (
  new_req "sca.readSCAADCVoltageSensors" ;;
  set_word "ohMask" ohMask ;;
  try_catch call_method STANDARD_CATCH ;;
  return_if_error 1 ;;
  read_array "data" (w32 (count_1bits ohMask * 6)) result ;;
  mret 0).

Definition readSCAADCSignalStrengthSensors (ohMask result : Z) : Fn (rstate heap) Z := fn (
  new_req "sca.readSCAADCSignalStrengthSensors" ;;
  set_word "ohMask" ohMask ;;
  try_catch call_method STANDARD_CATCH ;;
  return_if_error 1 ;;
  read_array "data" (w32 (count_1bits ohMask * 3)) result ;;
  mret 0).

Definition readAllSCAADCSensors (ohMask result : Z) : Fn (rstate heap) Z := fn (
  new_req "sca.readAllSCAADCSensors" ;;
  set_word "ohMask" ohMask ;;
  try_catch call_method STANDARD_CATCH ;;
  return_if_error 1 ;;
  read_array "data" (w32 (count_1bits ohMask * 14)) result ;;
  mret 0).
End Sca.

Section Contracts.
Context {L : RpcLib} {LL : RpcLaws}.

(** The sensor functions, each with the readings it takes from an OptoHybrid. *)
Definition sensor_functions (ohMask ch result : Z)
    : list (Fn (rstate heap) Z * string * list (string * value) * Z) :=
  [(readSCAADCSensor ohMask ch result, "amc.readSCAADCSensor",
      [("ohMask", VWord ohMask); ("ch", VWord ch)], 1);
   (readSCAADCTemperatureSensors ohMask result, "sca.readSCAADCTemperatureSensors",
      [("ohMask", VWord ohMask)], 5);
   (readSCAADCVoltageSensors ohMask result, "sca.readSCAADCVoltageSensors", [("ohMask", VWord ohMask)], 6);
   (readSCAADCSignalStrengthSensors ohMask result, "sca.readSCAADCSignalStrengthSensors",
      [("ohMask", VWord ohMask)], 3);
   (readAllSCAADCSensors ohMask result, "sca.readAllSCAADCSensors", [("ohMask", VWord ohMask)], 14)].

Lemma size_small ohMask k : 0 ≤ k ≤ 14 → w32 (count_1bits ohMask * k) = count_1bits ohMask * k.
Proof. intros. pose proof (count_1bits_bound ohMask). apply wrap_small. unfold word. nia. Qed.

Lemma sensor_contracts ohMask ch result s :
  Forall (λ '(F, name, fields, k),
    implements_reads F s name fields [("data", count_1bits ohMask * k, result)] ∧ 1 ≤ k)
    (sensor_functions ohMask ch result).
Proof.
  unfold sensor_functions, readSCAADCSensor, readSCAADCTemperatureSensors, readSCAADCVoltageSensors,
    readSCAADCSignalStrengthSensors, readAllSCAADCSensors. rewrite !size_small by lia.
  repeat (apply Forall_cons; split); try (by apply Forall_nil); (split; [|lia]);
    rewrite ?Z.mul_1_r; rpc_reads.
Qed.

(** Four temperatures per OptoHybrid. *)
Lemma four_temperatures ohMask result s : word 32 ohMask →
  ∃ m, method m = "sca.readSCAADCTemperatureSensors" ∧ contents m = fields_of [("ohMask", VWord ohMask)] ∧
    ∀ x v ws, svc_call_method m (rpc s) = (Ok x, v) → contents x !! "error" = None →
      contents x !! "data" = Some (VWords ws) → Z.of_nat (length ws) = 4 * popcount 32 ohMask →
      ohMask ≠ 0 → Z.land ohMask 0xF0F0F0F0 = 0 →
      readSCAADCTemperatureSensors ohMask result s = (Next 1, mk_rstate v m x (mem s)).
Proof.
  intros Hw. pose proof (sensor_contracts ohMask 0 result s) as Hall.
  apply Forall_cons in Hall as [_ [[(m & Hm & Hc & Hr) _] _]%Forall_cons]. exists m. split_and!; [done..|].
  intros x v ws Hcall He Hd Hlen Hne Hodd. specialize (Hr _ _ Hcall). cbv beta iota in Hr.
  rewrite Hr; [|unfold error_ok; by rewrite He|constructor; [unfold array_or_absent; cbn; by rewrite Hd|constructor]].
  unfold has_error. rewrite He. rewrite bool_decide_eq_false_2 by (by intros []).
  apply count_1bits_iff in Hodd; [|done]. cbn [reads]. rewrite Hd, Hodd.
  assert (popcount 32 ohMask ≠ 0) by (intros H0; apply Hne; by eapply (popcount_zero 32)).
  destruct (Z.eqb_spec (Z.of_nat (length ws)) (popcount 32 ohMask * 5)); [lia|done].
Qed.

End Contracts.

Module ScaExamples.
Import Scripted.

End ScaExamples.
