(* ===== verification/RpcOptohybrid.v ===== *)
(** * RpcOptohybrid: the OptoHybrid functions

    [src/common/rpc_manager/optohybrid.cc]. *)

From S2P Require Import Prelude RpcMsg.

(** [(dacMax - dacMin+1)*nvfats/dacStep] in [uint32_t]; the division is
    undefined for a null step. *)
Definition scan_size (dacMin dacMax dacStep nvfats : Z) : Z :=
  w32 (w32 (dacMax - dacMin + 1) * nvfats) / dacStep.

Section Optohybrid.
Context {L : RpcLib}.

Definition broadcastRead (ohN : Z) (regName : string) (vfatMask result size : Z) : Fn (rstate heap) Z := fn (
  new_req "optohybrid.broadcastRead" ;;
  set_string "reg_name" regName ;;
  set_word "ohN" ohN ;;
  set_word "mask" vfatMask ;;
  try_catch call_method STANDARD_CATCH ;;
  return_if_error 1 ;;
  read_array "data" size result ;;
  mret 0).

Definition broadcastWrite {Mem} (ohN : Z) (regName : string) (value vfatMask : Z) : Fn (rstate Mem) Z := fn (
  new_req "optohybrid.broadcastWrite" ;;
  set_string "reg_name" regName ;;
  set_word "ohN" ohN ;;
  set_word "value" value ;;
  set_word "mask" vfatMask ;;
  try_catch call_method STANDARD_CATCH ;;
  return_if_error 1 ;;
  mret 0).

Definition configureScanModule {Mem} (ohN vfatN scanmode : Z) (useUltra : bool)
    (vfatMask ch nevts dacMin dacMax dacStep : Z) : Fn (rstate Mem) Z := fn (
  new_req "optohybrid.configureScanModule" ;;
  set_word "ohN" ohN ;;
  set_word "scanmode" scanmode ;;
  (if useUltra then
     set_word "useUltra" (bool_word useUltra) ;;
     set_word "mask" vfatMask
   else
     set_word "vfatN" vfatN) ;;
  set_word "ch" ch ;;
  set_word "nevts" nevts ;;
  set_word "dacMin" dacMin ;;
  set_word "dacMax" dacMax ;;
  set_word "dacStep" dacStep ;;
  try_catch call_method STANDARD_CATCH ;;
  return_if_error 1 ;;
  mret 0).

Definition printScanConfiguration {Mem} (ohN : Z) (useUltra : bool) : Fn (rstate Mem) Z := fn (
  new_req "optohybrid.printScanConfiguration" ;;
  set_word "ohN" ohN ;;
  when useUltra (set_word "useUltra" (bool_word useUltra)) ;;
  try_catch call_method STANDARD_CATCH ;;
  return_if_error 1 ;;
  mret 0).

Definition startScanModule {Mem} (ohN : Z) (useUltra : bool) : Fn (rstate Mem) Z := fn (
  new_req "optohybrid.startScanModule" ;;
  set_word "ohN" ohN ;;
  when useUltra (set_word "useUltra" (bool_word useUltra)) ;;
  try_catch call_method STANDARD_CATCH ;;
  return_if_error 1 ;;
  mret 0).

Definition getUltraScanResults (ohN nevts dacMin dacMax dacStep result nvfats : Z) : Fn (rstate heap) Z := fn (
  new_req "optohybrid.getUltraScanResults" ;;
  set_word "ohN" ohN ;;
  set_word "nevts" nevts ;;
  set_word "dacMin" dacMin ;;
  set_word "dacMax" dacMax ;;
  set_word "dacStep" dacStep ;;
  try_catch call_method STANDARD_CATCH ;;
  return_if_error 1 ;;
  guard_ub (negb (dacStep =? 0)) DivideByZero ;;
  read_array "data" (scan_size dacMin dacMax dacStep nvfats) result ;;
  mret 0).

Definition stopCalPulse2AllChannels {Mem} (ohN mask ch_min ch_max : Z) : Fn (rstate Mem) Z := fn (
  new_req "optohybrid.stopCalPulse2AllChannels" ;;
  set_word "ohN" ohN ;;
  set_word "mask" mask ;;
  set_word "ch_min" ch_min ;;
  set_word "ch_max" ch_max ;;
  try_catch call_method STANDARD_CATCH ;;
  return_if_error 1 ;;
  mret 0).
End Optohybrid.

Lemma scan_size_w32 dacMin dacMax dacStep nvfats :
  scan_size dacMin dacMax dacStep nvfats = w32 ((dacMax - dacMin + 1) * nvfats) / dacStep.
Proof. unfold scan_size. by rewrite wrap_mul_wrap_l. Qed.

Section Contracts.
Context {L : RpcLib} {LL : RpcLaws}.

(** C33: Every function of the module: which request goes out, [useUltra] only
    when it is set and then with the mask in place of the VFAT number; how many
    words the readings insist on - for a scan [nvfats] per point of the range,
    in 32 bits, over the step - and where they go. *)
Theorem optohybrid_functions (ohN vfatN scanmode vfatMask ch nevts dacMin dacMax dacStep value nvfats size result : Z)
    (regName : string) (useUltra : bool) (s : rstate heap) : dacStep ≠ 0 →
  implements_command (broadcastWrite ohN regName value vfatMask) s "optohybrid.broadcastWrite"
    [("reg_name", VString regName); ("ohN", VWord ohN); ("value", VWord value); ("mask", VWord vfatMask)] 1 ∧
  implements_command
    (configureScanModule ohN vfatN scanmode useUltra vfatMask ch nevts dacMin dacMax dacStep) s
    "optohybrid.configureScanModule"
    (([("ohN", VWord ohN); ("scanmode", VWord scanmode)] ++
      (if useUltra then [("useUltra", VWord 1); ("mask", VWord vfatMask)] else [("vfatN", VWord vfatN)]) ++
      [("ch", VWord ch); ("nevts", VWord nevts); ("dacMin", VWord dacMin); ("dacMax", VWord dacMax);
       ("dacStep", VWord dacStep)])%list) 1 ∧
  implements_command (printScanConfiguration ohN useUltra) s "optohybrid.printScanConfiguration"
    (("ohN", VWord ohN) :: if useUltra then [("useUltra", VWord 1)] else []) 1 ∧
  implements_command (startScanModule ohN useUltra) s "optohybrid.startScanModule"
    (("ohN", VWord ohN) :: if useUltra then [("useUltra", VWord 1)] else []) 1 ∧
  implements_command (stopCalPulse2AllChannels ohN vfatMask dacMin dacMax) s
    "optohybrid.stopCalPulse2AllChannels"
    [("ohN", VWord ohN); ("mask", VWord vfatMask); ("ch_min", VWord dacMin); ("ch_max", VWord dacMax)] 1 ∧
  implements_reads (broadcastRead ohN regName vfatMask result size) s "optohybrid.broadcastRead"
    [("reg_name", VString regName); ("ohN", VWord ohN); ("mask", VWord vfatMask)]
    [("data", size, result)] ∧
  implements_reads (getUltraScanResults ohN nevts dacMin dacMax dacStep result nvfats) s
    "optohybrid.getUltraScanResults"
    [("ohN", VWord ohN); ("nevts", VWord nevts); ("dacMin", VWord dacMin); ("dacMax", VWord dacMax);
     ("dacStep", VWord dacStep)]
    [("data", w32 ((dacMax - dacMin + 1) * nvfats) / dacStep, result)].
Proof.
  intros Hs. apply Z.eqb_neq in Hs. unfold getUltraScanResults. rewrite Hs, <- scan_size_w32. cbn [negb guard_ub].
  destruct useUltra; split_and!; first [rpc_command|rpc_reads].
Qed.


(** The size of a scan is what it says it is when the range is not empty,
    nothing wraps and the step divides the number of points. *)
Theorem scan_size_points dacMin dacMax dacStep nvfats n :
  0 ≤ dacMin ≤ dacMax → dacMax < 2 ^ 32 → 0 < dacStep → 0 ≤ nvfats →
  dacMax - dacMin + 1 = n * dacStep → n * dacStep * nvfats < 2 ^ 32 →
  dacMax - dacMin + 1 < 2 ^ 32 →
  scan_size dacMin dacMax dacStep nvfats = n * nvfats.
Proof.
  intros Hr Hm Hs Hv Hn Hw Hw'. unfold scan_size.
  rewrite (wrap_small 32 (dacMax - dacMin + 1)) by (unfold word; lia). rewrite Hn.
  rewrite wrap_small by (unfold word; nia).
  replace (n * dacStep * nvfats) with (n * nvfats * dacStep) by lia. apply Z.div_mul. lia.
Qed.
End Contracts.

Module OptohybridExamples.
Import Scripted.

Lemma optohybrid_functions_witness :
  1 ≠ 0 ∧
  implements_command (startScanModule 3 true) (start [reply [("data", VWords [])]] (cells 1000 10))
    "optohybrid.startScanModule" [("ohN", VWord 3); ("useUltra", VWord 1)] 1 ∧
  implements_reads (getUltraScanResults 3 100 0 255 1 1000 24)
    (start [reply [("data", VWords [])]] (cells 1000 10)) "optohybrid.getUltraScanResults"
    [("ohN", VWord 3); ("nevts", VWord 100); ("dacMin", VWord 0); ("dacMax", VWord 255);
     ("dacStep", VWord 1)] [("data", 6144, 1000)].
Proof.
  split; [lia|].
  destruct (optohybrid_functions 3 0 0 0 0 100 0 255 1 0 24 0 1000 "x" true
    (start [reply [("data", VWords [])]] (cells 1000 10)) ltac:(lia)) as (_ & _ & _ & H & _ & _ & H'). by split.
Defined.

Lemma scan_size_points_witness : scan_size 0 255 4 24 = 64 * 24.
Proof. apply (scan_size_points 0 255 4 24 64); lia. Defined.
End OptohybridExamples.
