(* ===== verification/RpcTable.v ===== *)
(** * RpcTable: tables filled from the words of a response

    The monitoring functions copy words of the response, one key at a time,
    into an array or an array of structures of the caller.  A cell of the
    caller's memory is named by [K]: an address, or a field of a structure. *)

From S2P Require Import Prelude RpcMsg.
Local Open Scope list_scope.

Section Table.
Context {L : RpcLib} {K : Type} `{Countable K}.
Notation state := (rstate (gmap K Z)).

(** The right-hand side of an assignment: a word of the response, converted
    to the type of the left-hand side, or a constant. *)
Inductive source : Type :=
| FromKey (k : string) (conv : Z → Z)
| Const (w : Z).
Definition entry : Type := (K * source)%type.

Definition write (c : K) (w : Z) : M state Z unit :=
  h ← gets mem;
  match h !! c with
  | None => undef OutOfBounds
  | Some _ => modify (with_mem (<[c := w]> h))
  end.

Definition assign (e : entry) : M state Z unit :=
  w ← match e.2 with
      | FromKey k conv => w ← get_word k; mret (conv w)
      | Const w => mret w
      end;
  write e.1 w.

(** The assignments of a list, in order. *)
Definition assign_all (l : list entry) : M state Z unit := for_each l assign.

(** [!((ohMask >> ohN) & 0x1)] is the test that skips an OptoHybrid. *)
Definition unmasked (ohMask ohN : Z) : bool := negb (Z.land (ohMask ≫ ohN) 1 =? 0).

(** A loop over bit positions that shifts a mask by each of them; [p] is the
    test of the bit. *)
Definition for_each_bit (n : Z) (p : Z → bool) (body : Z → M state Z unit) : M state Z unit :=
  for_each (seqZ 0 n) (λ i, guard_ub (i <? 32) ShiftCount ;; when (p i) (body i)).

(** [for (ohN = 0; ohN < noh; ohN++) { if masked continue; body(ohN) }] *)
Definition for_each_oh (noh ohMask : Z) (body : Z → M state Z unit) : M state Z unit :=
  for_each_bit noh (unmasked ohMask) body.

(** The [try] block of a monitoring function. *)
Definition monitor (body : M state Z unit) : M state Z unit :=
  try_catch
    (e ← get_key_exists "error";
     if (e : bool) then get_string "error" ;; ret 1 else body)
    STANDARD_CATCH.
End Table.
Arguments entry K : clear implicits.

(** A plain word, a [bool]. *)
Definition word_of {K} (k : string) (c : K) : entry K := (c, FromKey k id).
Definition flag_of {K} (k : string) (c : K) : entry K := (c, FromKey k (λ w, if w =? 0 then 0 else 1)).

(** ** What a filled table is *)
Section TableLemmas.
Context {L : RpcLib} {LL : RpcLaws} {K : Type} `{Countable K}.
Notation state := (rstate (gmap K Z)).
Implicit Types (h : gmap K Z) (l : list (entry K)) (s t : state).

Definition value_of (x : msg) (v : source) : option Z :=
  match v with
  | FromKey k conv => match contents x !! k with Some (VWord w) => Some (conv w) | _ => None end
  | Const w => Some w
  end.

(** The response has the word and the caller has the cell. *)
Definition entry_ready (x : msg) h (e : entry K) : Prop :=
  is_Some (value_of x e.2) ∧ is_Some (h !! e.1).

Definition at_cell (c : K) (e : entry K) : bool := bool_decide (e.1 = c).

(** The memory with the table in it. *)
Definition filled (x : msg) l h (c : K) : option Z :=
  match find (at_cell c) l with
  | Some e => value_of x e.2
  | None => h !! c
  end.

Lemma find_cell_none c l : c ∉ l.*1 → find (at_cell c) l = None.
Proof.
  induction l as [|e l IH]; [done|]. rewrite fmap_cons, not_elem_of_cons. intros [Hc Hl].
  cbn [find]. unfold at_cell at 1. rewrite bool_decide_eq_false_2 by congruence. by apply IH.
Qed.

Lemma find_cell c l v : NoDup l.*1 → (c, v) ∈ l → find (at_cell c) l = Some (c, v).
Proof.
  induction l as [|e l IH]; [by intros _ ?%not_elem_of_nil|].
  rewrite fmap_cons. intros [Hn Hd]%NoDup_cons [<-|Hin]%elem_of_cons; cbn [find]; unfold at_cell at 1.
  - by rewrite bool_decide_eq_true_2.
  - rewrite bool_decide_eq_false_2; [by apply IH|]. intros Heq. apply Hn. rewrite Heq.
    apply list_elem_of_fmap. by exists (c, v).
Qed.

(** The cell of an entry holds its value, the others are untouched. *)
Lemma filled_in x l h c v : NoDup l.*1 → (c, v) ∈ l → filled x l h c = value_of x v.
Proof. intros Hd Hin. unfold filled. by rewrite (find_cell c l v). Qed.
Lemma filled_out x l h c : c ∉ l.*1 → filled x l h c = h !! c.
Proof. intros Hn. unfold filled. by rewrite find_cell_none. Qed.

Lemma assign_ready e s w : value_of (rsp s) e.2 = Some w → is_Some (mem s !! e.1) →
  assign e s = (Next tt, with_mem (<[e.1 := w]> (mem s)) s).
Proof.
  intros Hv [y Hy]. destruct e as [c [k conv|w']]; cbn in *; unfold assign; cbn [fst snd].
  - destruct (contents (rsp s) !! k) as [[u| | | |]|] eqn:Hk; simplify_eq.
    unfold get_word. rewrite !bind_bind. erewrite bind_next by reflexivity. cbn beta.
    rewrite (get_word_contents _ _ _ Hk). erewrite bind_next by reflexivity. cbn beta.
    erewrite bind_next by reflexivity. cbn beta.
    unfold write. erewrite bind_next by reflexivity. cbn beta. by rewrite Hy.
  - simplify_eq. erewrite bind_next by reflexivity. cbn beta.
    unfold write. erewrite bind_next by reflexivity. cbn beta. by rewrite Hy.
Qed.

Lemma assign_all_ready l s : NoDup l.*1 → Forall (entry_ready (rsp s) (mem s)) l →
  ∃ h', assign_all l s = (Next tt, with_mem h' s) ∧ ∀ c, h' !! c = filled (rsp s) l (mem s) c.
Proof.
  revert s. induction l as [|e l IH]; intros s; [by exists (mem s); destruct s|].
  rewrite fmap_cons. intros [Hn Hd]%NoDup_cons [[[w Hw] Hc] Hr]%Forall_cons.
  destruct (IH (with_mem (<[e.1 := w]> (mem s)) s)) as (h' & Hrun & Hh'); [done| |].
  { eapply Forall_impl; [exact Hr|]. intros e' [Hv Hm]. split; [done|]. cbn.
    destruct (decide (e.1 = e'.1)) as [<-|]; [by rewrite lookup_insert_eq|by rewrite lookup_insert_ne]. }
  exists h'. split.
  { unfold assign_all. cbn [for_each]. erewrite bind_next by by apply assign_ready. done. }
  intros c. rewrite Hh'. unfold filled. cbn [find]. unfold at_cell at 2.
  case_bool_decide as Hce.
  - rewrite <- Hce. rewrite find_cell_none by done. cbn. by rewrite lookup_insert_eq.
  - destruct (find _ l); [done|]. cbn. by rewrite lookup_insert_ne.
Qed.

(** The first assignment that cannot be made ends the run, with those
    before it made. *)
Lemma assign_all_stops l1 e l2 s r : NoDup l1.*1 → Forall (entry_ready (rsp s) (mem s)) l1 →
  (∀ s', rsp s' = rsp s → (∀ c, c ∉ l1.*1 → mem s' !! c = mem s !! c) → assign e s' = (r, s')) →
  (∀ u, r ≠ Next u) →
  ∃ h', assign_all (l1 ++ e :: l2) s = (r, with_mem h' s) ∧ ∀ c, h' !! c = filled (rsp s) l1 (mem s) c.
Proof.
  intros Hd Hr He Hnext. destruct (assign_all_ready l1 s Hd Hr) as (h' & Hrun & Hh').
  exists h'. split; [|done]. unfold assign_all. rewrite for_each_app.
  erewrite bind_next by exact Hrun. cbn [for_each].
  unfold mbind, M_bind. rewrite He; [|done|].
  - destruct r as [u| | | |]; [by destruct (Hnext u)|done..].
  - intros c Hc. cbn. rewrite Hh'. by apply filled_out.
Qed.

(** Assignments do not change the response. *)
Lemma assign_all_rsp l s r s' : assign_all l s = (r, s') → rsp s' = rsp s.
Proof.
  intros Hrun. enough (keeps (λ t, rsp t = rsp s) (assign_all l)) as Hk
    by (specialize (Hk s eq_refl); by rewrite Hrun in Hk).
  unfold assign_all, assign, write. apply keeps_for_each. intros e. apply keeps_bind.
  - destruct e.2; [|keeps_tac]. unfold get_word. apply keeps_bind; [|keeps_tac].
    apply keeps_bind; [keeps_tac|]. intros m t Ht. by destruct (msg_get_word k m).
  - intros w. apply keeps_bind; [keeps_tac|]. intros h. destruct (h !! e.1); [|keeps_tac].
    by apply keeps_modify.
Qed.

(** A filled table leaves every cell the caller's. *)
Lemma filled_is_Some x l h c : Forall (entry_ready x h) l → is_Some (h !! c) → is_Some (filled x l h c).
Proof.
  intros Hl Hc. unfold filled. destruct (find (at_cell c) l) as [e|] eqn:Hf; [|done].
  apply find_some in Hf as [Hin _]. apply list_elem_of_In in Hin.
  rewrite Forall_forall in Hl. by apply Hl.
Qed.

(** [a] and [b] come out alike under the handlers of [STANDARD_CATCH]. *)
Definition settles (a b : M state Z unit) t : Prop :=
  try_catch a STANDARD_CATCH t = try_catch b STANDARD_CATCH t.

Lemma catch_never_next e s : (STANDARD_CATCH (A := unit) e s).1 ≠ Next tt.
Proof. by destruct e. Qed.

Lemma settles_next a b t t' : settles a b t → b t = (Next tt, t') → a t = (Next tt, t').
Proof.
  unfold settles, try_catch. intros Hs Hb. rewrite Hb in Hs. destruct (a t) as [[]]; try done.
  exfalso. by eapply catch_never_next; rewrite Hs.
Qed.

Lemma settles_sym a b t : settles a b t → settles b a t.
Proof. done. Qed.

(** Statements that come out alike, one after the other. *)
Lemma settles_bind a a' (k k' : unit → M state Z unit) t : settles a a' t →
  (∀ t', a' t = (Next tt, t') → settles (k tt) (k' tt) t') → settles (a ≫= k) (a' ≫= k') t.
Proof.
  intros Ha Hk. destruct (a' t) as [[[]| | | |] t'] eqn:E'.
  { pose proof (settles_next a a' t t' Ha E') as E. unfold settles, try_catch. erewrite !bind_next by done.
    by apply Hk. }
  all: destruct (a t) as [[[]| | | |] t0] eqn:E;
    [by rewrite (settles_next a' a t t0 (settles_sym _ _ _ Ha) E) in E'|..].
  all: unfold settles, try_catch, mbind, M_bind in *; by rewrite E, E' in *.
Qed.

(** A handler inside another one. *)
Lemma settles_try a t : settles (try_catch a STANDARD_CATCH) a t.
Proof. unfold settles, try_catch. destruct (a t) as [[| |e| |] t']; try done. by destruct e. Qed.

(** What a pass of a loop does: the assignments of a row. *)
Definition runs_as (body : M state Z unit) (row : msg → list (entry K)) : Prop :=
  ∀ t, settles body (assign_all (row (rsp t))) t.

Lemma runs_as_refl body row : (∀ t, body t = assign_all (row (rsp t)) t) → runs_as body row.
Proof. intros Hb t. unfold settles, try_catch. by rewrite Hb. Qed.

Lemma runs_as_app b1 b2 r1 r2 : runs_as b1 r1 → runs_as b2 r2 →
  runs_as (b1 ;; b2) (λ x, r1 x ++ r2 x).
Proof.
  intros H1 H2 t. assert (∀ u, assign_all (r1 (rsp t) ++ r2 (rsp t)) u =
    (assign_all (r1 (rsp t)) ;; assign_all (r2 (rsp t))) u) as Happ.
  { intros u. unfold assign_all. apply for_each_app. }
  unfold settles, try_catch at 2. rewrite Happ. apply settles_bind; [apply H1|]. intros t' Ht.
  rewrite <- (assign_all_rsp _ _ _ _ Ht). apply H2.
Qed.

Lemma runs_as_skip : runs_as skip (λ _, []).
Proof. by intros t. Qed.

Lemma runs_as_for_each {X} (xs : list X) (body : X → M state Z unit) (row : msg → X → list (entry K)) :
  (∀ x, x ∈ xs → runs_as (body x) (λ m, row m x)) →
  runs_as (for_each xs body) (λ m, xs ≫= row m).
Proof.
  induction xs as [|x xs IH]; intros Hb; [apply runs_as_skip|].
  change (runs_as (body x ;; for_each xs body) (λ m, row m x ++ (xs ≫= row m))).
  apply runs_as_app.
  - apply Hb. apply elem_of_cons. by left.
  - apply IH. intros y Hy. apply Hb. apply elem_of_cons. by right.
Qed.

(** A [try] block around assignments. *)
Lemma runs_as_try body row : runs_as body row → runs_as (try_catch body STANDARD_CATCH) row.
Proof. intros Hb t. unfold settles. etransitivity; [apply settles_try|apply Hb]. Qed.

Lemma unmasked_testbit ohMask ohN : 0 ≤ ohN → unmasked ohMask ohN = Z.testbit ohMask ohN.
Proof.
  intros Hn. unfold unmasked. rewrite (land_ones_lit _ 1) by (done || lia). unfold wrap.
  rewrite <- Z.bit0_mod, Z.shiftr_spec, Z.add_0_l by lia. by destruct (Z.testbit _ _).
Qed.

(** The OptoHybrids whose turn is taken. *)
Definition ohs (noh ohMask : Z) : list Z := filter (λ n, Z.testbit ohMask n = true) (seqZ 0 noh).

Lemma elem_of_ohs noh ohMask n : n ∈ ohs noh ohMask ↔ 0 ≤ n < noh ∧ Z.testbit ohMask n = true.
Proof. unfold ohs. rewrite list_elem_of_filter, elem_of_seqZ. naive_solver lia. Qed.

Lemma runs_as_for_each_bit n (p q : Z → bool) body row : n ≤ 32 → (∀ i, 0 ≤ i → p i = q i) →
  (∀ i, 0 ≤ i < n → runs_as (body i) (λ m, row m i)) →
  runs_as (for_each_bit n p body) (λ m, filter (λ i, q i = true) (seqZ 0 n) ≫= row m).
Proof.
  intros Hn Hpq Hb. unfold for_each_bit.
  assert (Forall (λ i, 0 ≤ i < n) (seqZ 0 n)) as Hall
    by (apply Forall_forall; intros i ?%elem_of_seqZ; lia).
  revert Hall. generalize (seqZ 0 n). intros xs. induction xs as [|x xs IH]; [intros _; apply runs_as_skip|].
  intros [Hx Hall]%Forall_cons. cbn [for_each].
  assert (runs_as (guard_ub (x <? 32) ShiftCount ;; when (p x) (body x)) (λ m, if q x then row m x else [])) as Hstep.
  { destruct (Z.ltb_spec x 32); [|lia]. rewrite Hpq by lia. destruct (q x); [exact (Hb x Hx)|apply runs_as_skip]. }
  intros t. pose proof (runs_as_app _ _ _ _ Hstep (IH Hall) t) as Ht. cbv beta in Ht.
  rewrite filter_cons. destruct (q x); [rewrite decide_True by done|rewrite decide_False by done]; exact Ht.
Qed.

Lemma runs_as_for_each_oh noh ohMask body row : noh ≤ 32 →
  (∀ n, 0 ≤ n < noh → runs_as (body n) (λ m, row m n)) →
  runs_as (for_each_oh noh ohMask body) (λ m, ohs noh ohMask ≫= row m).
Proof.
  intros Hn Hb. apply (runs_as_for_each_bit noh _ (Z.testbit ohMask)); [done| |done].
  intros i. apply unmasked_testbit.
Qed.

(** ** What a monitoring function promises *)

(** One request; 1 on a failed call or an error, memory untouched;
    when the response has every word and the caller every cell, 0 with the
    table filled in; and when a key is the first one whose word the library
    refuses, what that exception makes of the call - 1, or the end of the
    process for a key that is not there -, with the part of the table before
    it filled in. *)
Definition implements_monitor (F : Fn state Z) s (name : string) (fields : list (string * value))
    (table : msg → list (entry K)) : Prop :=
  ∃ m : msg, method m = name ∧ contents m = fields_of fields ∧ ∀ r v,
    svc_call_method m (rpc s) = (r, v) →
    match r with
    | Err e => F s = (caught (Next 1) e, mk_rstate v m (rsp s) (mem s))
    | Ok x =>
        (error_ok x → has_error x = true → F s = (Next 1, mk_rstate v m x (mem s))) ∧
        (has_error x = false → Forall (entry_ready x (mem s)) (table x) →
         NoDup (table x).*1 ∧ ∃ h', F s = (Next 0, mk_rstate v m x h') ∧ ∀ c, h' !! c = filled x (table x) (mem s) c) ∧
        (∀ l1 c k conv l2 e, has_error x = false → table x = l1 ++ (c, FromKey k conv) :: l2 →
         Forall (entry_ready x (mem s)) l1 → msg_get_word k x = Err e →
         ∃ h', F s = (caught (Next 1) e, mk_rstate v m x h') ∧ ∀ c, h' !! c = filled x l1 (mem s) c)
    end.

(** A key the library refuses. *)
Lemma assign_refused c k conv e t : msg_get_word k (rsp t) = Err e → assign (c, FromKey k conv) t = (raise e, t).
Proof.
  intros Hk. unfold assign, get_word. cbn [fst snd]. rewrite !bind_bind. erewrite bind_next by reflexivity.
  cbn beta. rewrite Hk. by destruct e.
Qed.

(** The block after the call, when there is no error. *)
Lemma monitor_settled body table t : has_error (rsp t) = false → runs_as body table →
  monitor body t = try_catch (assign_all (table (rsp t))) STANDARD_CATCH t.
Proof.
  intros He Hb. rewrite <- Hb. unfold monitor, try_catch. erewrite bind_next by reflexivity. cbn beta.
  rewrite key_exists_contents. unfold has_error in He. by rewrite He.
Qed.

Lemma implements_monitorI P s name fields table body :
  sends P s name (fields_of fields) (monitor body ;; mret 0) →
  (∀ x, NoDup (table x).*1) → runs_as body table →
  implements_monitor (fn P) s name fields table.
Proof.
  intros (m & ? & ? & Hr) Hd Hb. exists m. split_and!; [done..|]. intros r v Hc.
  specialize (Hr r v Hc). destruct r as [x|e]; unfold fn; rewrite Hr; [|by destruct e]. split_and!.
  - intros Hok He. unfold monitor, try_catch. erewrite bind_return; [reflexivity|].
    pose proof (return_if_error_some 1 (mk_rstate v m x (mem s)) Hok He) as Hre.
    unfold return_if_error in Hre. erewrite bind_next in Hre |- * by reflexivity. cbn beta in *.
    rewrite key_exists_contents in *. cbn [rsp] in *. unfold has_error in He. rewrite He in *.
    cbn [when] in Hre. by rewrite Hre.
  - intros He Hrdy. split; [done|].
    destruct (assign_all_ready (table x) (mk_rstate v m x (mem s)) (Hd x) Hrdy) as (h' & Hrun & Hh').
    exists h'. split; [|exact Hh']. erewrite bind_next; [reflexivity|].
    rewrite (monitor_settled body table) by done. unfold try_catch. cbn [rsp]. by rewrite Hrun.
  - intros l1 c k conv l2 e He Hl Hrdy Hk. pose proof (Hd x) as Hnd. rewrite Hl, fmap_app in Hnd.
    apply NoDup_app in Hnd as [Hnd _].
    destruct (assign_all_stops l1 (c, FromKey k conv) l2 (mk_rstate v m x (mem s)) (raise e))
      as (h' & Hrun & Hh'); [done|done| |by destruct e|].
    { intros t Hrsp _. apply assign_refused. by rewrite Hrsp. }
    exists h'. split; [|exact Hh']. unfold mbind, M_bind.
    rewrite (monitor_settled body table) by done. cbn [rsp]. rewrite Hl. unfold try_catch. setoid_rewrite Hrun. by destruct e.
Qed.

Lemma implements_monitor_ext F s name fields table table' : (∀ x, table x = table' x) →
  implements_monitor F s name fields table → implements_monitor F s name fields table'.
Proof.
  intros Ht (m & ? & ? & Hr). exists m. split_and!; [done..|]. intros r v Hc. specialize (Hr r v Hc).
  destruct r as [x|]; [|done]. by rewrite <- Ht.
Qed.
End TableLemmas.
