(* ===== verification/RpcDaqMonitor.v ===== *)
(** * RpcDaqMonitor: the monitoring functions

    [src/common/rpc_manager/daq_monitor.cc].  Arrays of words are addressed as
    in RpcMsg; a field of an array of structures is a cell
    [(field, index of the structure, index in the field)]. *)

From S2P Require Import Prelude RpcMsg CText RpcAmc RpcTable.

(** ** The structures of [include/xhal/rpc/daq_monitor.h]

    Each field with its length, 1 for a plain member. *)
Definition OHLinkMonitor : list (string * Z) :=
  [("gbtRdy", 3); ("gbtNotRdy", 3); ("gbtRxOverflow", 3); ("gbtRxUnderflow", 3)].
Definition SCAMonitor : list (string * Z) :=
  [("ohBoardTemp", 9); ("scaTemp", 1); ("AVCCN", 1); ("AVTTN", 1); ("voltage1V0_INT", 1);
   ("voltage1V8F", 1); ("voltage1V5", 1); ("voltage2V5_IO", 1); ("voltage3V0", 1); ("voltage1V8", 1);
   ("VTRX_RSSI2", 1); ("VTRX_RSSI1", 1)].
Definition SysmonMonitor : list (string * Z) :=
  [("isOverTemp", 1); ("isInVCCAuxAlarm", 1); ("isInVCCIntAlarm", 1);
   ("cntOverTemp", 1); ("cntVCCAuxAlarm", 1); ("cntVCCIntAlarm", 1);
   ("fpgaCoreTemp", 1); ("fpgaCore1V0", 1); ("fpgaCore2V5_IO", 1)].
Definition VFATLinkMonitor : list (string * Z) :=
  [("daqCRCErrCnt", 24); ("daqEvtCnt", 24); ("syncErrCnt", 24)].

Notation cell := (string * Z * Z)%type.
Notation structs := (gmap cell Z).

(** An array of [n] such structures, all fields zero. *)
Definition struct_array (fields : list (string * Z)) (n : Z) : structs :=
  list_to_map (f ← fields; i ← seqZ 0 n; j ← seqZ 0 f.2; [((f.1, i, j), 0)]).

(** ** Keys *)
Definition oh_key (n : Z) (suffix : string) : string := "OH" ++ to_string n ++ suffix.
Definition gbt_key (n g : Z) (suffix : string) : string :=
  "OH" ++ to_string n ++ ".GBT" ++ to_string g ++ "." ++ suffix.
Definition vfat_key (n v : Z) (suffix : string) : string :=
  "OH" ++ to_string n ++ ".VFAT" ++ to_string v ++ "." ++ suffix.

(** ** The assignments of each function

    One entry per assignment, in the order of the source. *)

Definition ttc_main (result : Z) : list (entry Z) :=
  [word_of "MMCM_LOCKED" (result + 0);
   word_of "TTC_SINGLE_ERROR_CNT" (result + 1);
   word_of "BC0_LOCKED" (result + 2);
   word_of "L1A_ID" (result + 3);
   word_of "L1A_RATE" (result + 4)].

Definition trigger_main_oh (result ohN : Z) : list (entry Z) :=
  [word_of (oh_key ohN ".TRIGGER_RATE") (result + w32 (ohN + 1))].

Definition trigger_oh_main_oh (result noh ohN : Z) : list (entry Z) :=
  [word_of (oh_key ohN ".LINK0_MISSED_COMMA_CNT") (result + ohN);
   word_of (oh_key ohN ".LINK1_MISSED_COMMA_CNT") (result + w32 (ohN + noh));
   word_of (oh_key ohN ".LINK0_OVERFLOW_CNT") (result + w32 (ohN + 2 * noh));
   word_of (oh_key ohN ".LINK1_OVERFLOW_CNT") (result + w32 (ohN + 3 * noh));
   word_of (oh_key ohN ".LINK0_UNDERFLOW_CNT") (result + w32 (ohN + 4 * noh));
   word_of (oh_key ohN ".LINK1_UNDERFLOW_CNT") (result + w32 (ohN + 5 * noh));
   word_of (oh_key ohN ".LINK0_SBIT_OVERFLOW_CNT") (result + w32 (ohN + 6 * noh));
   word_of (oh_key ohN ".LINK1_SBIT_OVERFLOW_CNT") (result + w32 (ohN + 7 * noh))].

Definition daq_main (result : Z) : list (entry Z) :=
  [word_of "DAQ_ENABLE" (result + 0);
   word_of "DAQ_LINK_READY" (result + 1);
   word_of "DAQ_LINK_AFULL" (result + 2);
   word_of "DAQ_OFIFO_HAD_OFLOW" (result + 3);
   word_of "L1A_FIFO_HAD_OFLOW" (result + 4);
   word_of "L1A_FIFO_DATA_COUNT" (result + 5);
   word_of "DAQ_FIFO_DATA_COUNT" (result + 6);
   word_of "EVENT_SENT" (result + 7);
   word_of "TTS_STATE" (result + 8)].

Definition daq_oh_main_oh (result noh ohN : Z) : list (entry Z) :=
  [word_of (oh_key ohN ".STATUS.EVT_SIZE_ERR") (result + ohN);
   word_of (oh_key ohN ".STATUS.EVENT_FIFO_HAD_OFLOW") (result + w32 (ohN + noh));
   word_of (oh_key ohN ".STATUS.INPUT_FIFO_HAD_OFLOW") (result + w32 (ohN + 2 * noh));
   word_of (oh_key ohN ".STATUS.INPUT_FIFO_HAD_UFLOW") (result + w32 (ohN + 3 * noh));
   word_of (oh_key ohN ".STATUS.VFAT_TOO_MANY") (result + w32 (ohN + 4 * noh));
   word_of (oh_key ohN ".STATUS.VFAT_NO_MARKER") (result + w32 (ohN + 5 * noh))].

Definition oh_main_oh (result noh ohN : Z) : list (entry Z) :=
  [word_of (oh_key ohN ".FW_VERSION") (result + ohN);
   word_of (oh_key ohN ".EVENT_COUNTER") (result + w32 (ohN + noh));
   word_of (oh_key ohN ".EVENT_RATE") (result + w32 (ohN + 2 * noh));
   word_of (oh_key ohN ".GTX.TRK_ERR") (result + w32 (ohN + 3 * noh));
   word_of (oh_key ohN ".GTX.TRG_ERR") (result + w32 (ohN + 4 * noh));
   word_of (oh_key ohN ".GBT.TRK_ERR") (result + w32 (ohN + 5 * noh));
   word_of (oh_key ohN ".CORR_VFAT_BLK_CNT") (result + w32 (ohN + 6 * noh))].

Definition gbt_link (ohN gbtN : Z) : list (entry cell) :=
  [word_of (gbt_key ohN gbtN "READY") ("gbtRdy", ohN, gbtN);
   word_of (gbt_key ohN gbtN "WAS_NOT_READY") ("gbtNotRdy", ohN, gbtN);
   word_of (gbt_key ohN gbtN "RX_HAD_OVERFLOW") ("gbtRxOverflow", ohN, gbtN);
   word_of (gbt_key ohN gbtN "RX_HAD_UNDERFLOW") ("gbtRxUnderflow", ohN, gbtN)].

Definition oh_link_vfat (ohN vfatN : Z) : list (entry cell) :=
  [word_of (vfat_key ohN vfatN "SYNC_ERR_CNT") ("daqCRCErrCnt", ohN, vfatN);
   word_of (vfat_key ohN vfatN "DAQ_EVENT_CNT") ("daqEvtCnt", ohN, vfatN);
   word_of (vfat_key ohN vfatN "DAQ_CRC_ERROR_CNT") ("syncErrCnt", ohN, vfatN)].

Definition sca_temperatures (ohN : Z) : list (entry cell) :=
  word_of (oh_key ohN ".SCA_TEMP") ("scaTemp", ohN, 0) ::
  ((λ tempVal, word_of (oh_key ohN (".BOARD_TEMP" ++ to_string tempVal)) ("ohBoardTemp", ohN, tempVal - 1))
     <$> seqZ 1 9).

Definition sca_voltages (ohN : Z) : list (entry cell) :=
  [word_of (oh_key ohN ".AVCCN") ("AVCCN", ohN, 0);
   word_of (oh_key ohN ".AVTTN") ("AVTTN", ohN, 0);
   word_of (oh_key ohN ".1V0_INT") ("voltage1V0_INT", ohN, 0);
   word_of (oh_key ohN ".1V8F") ("voltage1V8F", ohN, 0);
   word_of (oh_key ohN ".1V5") ("voltage1V5", ohN, 0);
   word_of (oh_key ohN ".2V5_IO") ("voltage2V5_IO", ohN, 0);
   word_of (oh_key ohN ".3V0") ("voltage3V0", ohN, 0);
   word_of (oh_key ohN ".1V8") ("voltage1V8", ohN, 0);
   word_of (oh_key ohN ".VTRX_RSSI2") ("VTRX_RSSI2", ohN, 0);
   word_of (oh_key ohN ".VTRX_RSSI1") ("VTRX_RSSI1", ohN, 0)].

Definition sysmon_overtemp (ohN : Z) : list (entry cell) :=
  [flag_of (oh_key ohN ".OVERTEMP") ("isOverTemp", ohN, 0);
   word_of (oh_key ohN ".CNT_OVERTEMP") ("cntOverTemp", ohN, 0)].
Definition sysmon_vccaux (ohN : Z) : list (entry cell) :=
  [flag_of (oh_key ohN ".VCCAUX_ALARM") ("isInVCCAuxAlarm", ohN, 0);
   word_of (oh_key ohN ".CNT_VCCAUX_ALARM") ("cntVCCAuxAlarm", ohN, 0)].
Definition sysmon_vccint (ohN : Z) : list (entry cell) :=
  [flag_of (oh_key ohN ".VCCINT_ALARM") ("isInVCCIntAlarm", ohN, 0);
   word_of (oh_key ohN ".CNT_VCCINT_ALARM") ("cntVCCIntAlarm", ohN, 0)].
Definition sysmon_core (ohN : Z) : list (entry cell) :=
  [word_of (oh_key ohN ".FPGA_CORE_TEMP") ("fpgaCoreTemp", ohN, 0);
   word_of (oh_key ohN ".FPGA_CORE_1V0") ("fpgaCore1V0", ohN, 0);
   word_of (oh_key ohN ".FPGA_CORE_2V5_IO") ("fpgaCore2V5_IO", ohN, 0)].

Definition vfat_link_present (ohN vfatN : Z) : list (entry cell) :=
  [word_of (vfat_key ohN vfatN "DAQ_CRC_ERROR_CNT") ("daqCRCErrCnt", ohN, vfatN);
   word_of (vfat_key ohN vfatN "DAQ_EVENT_CNT") ("daqEvtCnt", ohN, vfatN);
   word_of (vfat_key ohN vfatN "SYNC_ERR_CNT") ("syncErrCnt", ohN, vfatN)].
Definition vfat_link_absent (ohN vfatN : Z) : list (entry cell) :=
  [(("daqCRCErrCnt", ohN, vfatN), Const 0xdeaddead);
   (("daqEvtCnt", ohN, vfatN), Const 0xdeaddead);
   (("syncErrCnt", ohN, vfatN), Const 0xdeaddead)].

(** ** The functions *)
Section DaqMonitor.
Context {L : RpcLib}.

Definition getmonTTCmain (result : Z) : Fn (rstate heap) Z := fn (
  new_req "daq_monitor.getmonTTCmain" ;;
  try_catch call_method STANDARD_CATCH ;;
  monitor (assign_all (ttc_main result)) ;;
  mret 0).

Definition getmonTRIGGERmain (result noh ohMask : Z) : Fn (rstate heap) Z := fn (
  new_req "daq_monitor.getmonTRIGGERmain" ;;
  set_word "NOH" noh ;;
  set_word "ohMask" ohMask ;;
  try_catch call_method STANDARD_CATCH ;;
  monitor (
    assign_all [word_of "OR_TRIGGER_RATE" (result + 0)] ;;
    for_each_oh noh ohMask (λ ohN, assign_all (trigger_main_oh result ohN))) ;;
  mret 0).

Definition getmonTRIGGEROHmain (result noh ohMask : Z) : Fn (rstate heap) Z := fn (
  new_req "daq_monitor.getmonTRIGGEROHmain" ;;
  set_word "NOH" noh ;;
  set_word "ohMask" ohMask ;;
  try_catch call_method STANDARD_CATCH ;;
  monitor (for_each_oh noh ohMask (λ ohN, assign_all (trigger_oh_main_oh result noh ohN))) ;;
  mret 0).

Definition getmonDAQmain (result : Z) : Fn (rstate heap) Z := fn (
  new_req "daq_monitor.getmonDAQmain" ;;
  try_catch call_method STANDARD_CATCH ;;
  monitor (assign_all (daq_main result)) ;;
  mret 0).

Definition getmonDAQOHmain (result noh ohMask : Z) : Fn (rstate heap) Z := fn (
  new_req "daq_monitor.getmonDAQOHmain" ;;
  set_word "NOH" noh ;;
  set_word "ohMask" ohMask ;;
  try_catch call_method STANDARD_CATCH ;;
  monitor (for_each_oh noh ohMask (λ ohN, assign_all (daq_oh_main_oh result noh ohN))) ;;
  mret 0).

Definition getmonGBTLink (noh ohMask : Z) (doReset : bool) (NGBT : Z) : Fn (rstate structs) Z := fn (
  new_req "daq_monitor.getmonGBTLink" ;;
  set_word "NOH" noh ;;
  set_word "doReset" (bool_word doReset) ;;
  try_catch call_method STANDARD_CATCH ;;
  monitor (for_each_oh noh ohMask (λ ohN,
    for_each (seqZ 0 NGBT) (λ gbtN, assign_all (gbt_link ohN gbtN)))) ;;
  mret 0).

Definition getmonOHLink (noh ohMask : Z) (doReset : bool) : Fn (rstate structs) Z := fn (
  new_req "daq_monitor.getmonOHLink" ;;
  set_word "NOH" noh ;;
  set_word "doReset" (bool_word doReset) ;;
  try_catch call_method STANDARD_CATCH ;;
  monitor (for_each_oh noh ohMask (λ ohN,
    for_each (seqZ 0 3) (λ gbtN, assign_all (gbt_link ohN gbtN)) ;;
    for_each (seqZ 0 24) (λ vfatN, assign_all (oh_link_vfat ohN vfatN)))) ;;
  mret 0).

Definition getmonOHmain (result noh ohMask : Z) : Fn (rstate heap) Z := fn (
  new_req "daq_monitor.getmonOHmain" ;;
  set_word "NOH" noh ;;
  set_word "ohMask" ohMask ;;
  try_catch call_method STANDARD_CATCH ;;
  monitor (for_each_oh noh ohMask (λ ohN, assign_all (oh_main_oh result noh ohN))) ;;
  mret 0).

Definition getmonOHSCAmain (noh ohMask : Z) : Fn (rstate structs) Z := fn (
  new_req "daq_monitor.getmonOHSCAmain" ;;
  set_word "NOH" noh ;;
  set_word "ohMask" ohMask ;;
  try_catch call_method STANDARD_CATCH ;;
  monitor (for_each_oh noh ohMask (λ ohN,
    assign_all (sca_temperatures ohN) ;; assign_all (sca_voltages ohN))) ;;
  mret 0).

Definition getmonOHSysmon (noh ohMask : Z) (doReset : bool) : Fn (rstate structs) Z := fn (
  new_req "daq_monitor.getmonOHSysmon" ;;
  set_word "NOH" noh ;;
  set_word "ohMask" ohMask ;;
  set_word "doReset" (bool_word doReset) ;;
  try_catch call_method STANDARD_CATCH ;;
  monitor (for_each_oh noh ohMask (λ ohN,
    try_catch (assign_all (sysmon_overtemp ohN)) STANDARD_CATCH ;;
    try_catch (assign_all (sysmon_vccaux ohN)) STANDARD_CATCH ;;
    try_catch (assign_all (sysmon_vccint ohN)) STANDARD_CATCH ;;
    try_catch (assign_all (sysmon_core ohN)) STANDARD_CATCH)) ;;
  mret 0).

Definition getmonVFATLink (noh ohMask : Z) (doReset : bool) : Fn (rstate structs) Z := fn (
  new_req "daq_monitor.getmonVFATLink" ;;
  set_word "NOH" noh ;;
  set_word "doReset" (bool_word doReset) ;;
  try_catch call_method STANDARD_CATCH ;;
  monitor (for_each_oh noh ohMask (λ ohN,
    for_each (seqZ 0 24) (λ vfatN,
      present ← get_key_exists (vfat_key ohN vfatN "DAQ_CRC_ERROR_CNT");
      assign_all (if (present : bool) then vfat_link_present ohN vfatN
                  else vfat_link_absent ohN vfatN)))) ;;
  mret 0).
End DaqMonitor.

Local Open Scope list_scope.

(** ** Distinct cells *)
Section Cells.
Lemma fmap_list_bind {A B C} (f : A → list B) (g : B → C) l : g <$> (l ≫= f) = l ≫= (λ x, g <$> f x).
Proof. induction l as [|x l IH]; [done|]. cbn. by rewrite fmap_app, IH. Qed.

Lemma NoDup_rows {A K} (xs : list A) (row : A → list (entry K)) (owner : K → A) : NoDup xs →
  (∀ x, x ∈ xs → NoDup (row x).*1) → (∀ x c, x ∈ xs → c ∈ (row x).*1 → owner c = x) →
  NoDup (xs ≫= row).*1.
Proof.
  intros Hd Hr Ho. rewrite fmap_list_bind. apply NoDup_bind; [|done|done].
  intros x y c Hx Hy Hcx Hcy. by rewrite <- (Ho x c), <- (Ho y c).
Qed.

Lemma NoDup_ohs noh ohMask : NoDup (ohs noh ohMask).
Proof. apply NoDup_filter, NoDup_seqZ. Qed.

(** A column per key, [noh] cells each: the cells of OptoHybrid [n]. *)
Definition columns (result noh : Z) (keys : list string) (n : Z) : list (entry Z) :=
  imap (λ j k, (result + (n + Z.of_nat j * noh), FromKey ("OH" ++ to_string n ++ k)%string id)) keys.

Lemma columns_cells result noh keys n :
  (columns result noh keys n).*1 = (λ j, result + (n + Z.of_nat j * noh)) <$> seq 0 (length keys).
Proof.
  unfold columns. apply list_eq. intros i. rewrite list_lookup_fmap, list_lookup_imap, list_lookup_fmap.
  destruct (keys !! i) as [k|] eqn:Hk.
  - rewrite lookup_seq_lt by by eapply lookup_lt_Some. done.
  - rewrite lookup_seq_ge by by apply lookup_ge_None. done.
Qed.

Section Columns.
Variables (result noh : Z) (keys : list string).

Lemma columns_NoDup n : 0 ≤ n < noh → NoDup (columns result noh keys n).*1.
Proof.
  intros Hn. rewrite columns_cells. apply NoDup_fmap_2_strong; [|apply NoDup_seq].
  intros i j Hi%elem_of_seq Hj%elem_of_seq. nia.
Qed.

Lemma columns_owner n c : 0 ≤ n < noh → c ∈ (columns result noh keys n).*1 → (c - result) mod noh = n.
Proof.
  intros Hn. rewrite columns_cells, list_elem_of_fmap. intros (j & -> & Hj%elem_of_seq).
  replace (_ - result) with (n + Z.of_nat j * noh) by lia.
  rewrite Z_mod_plus_full. by apply Z.mod_small.
Qed.

Lemma oh_columns_NoDup ohMask : NoDup (ohs noh ohMask ≫= columns result noh keys).*1.
Proof.
  apply (NoDup_rows _ _ (λ c, (c - result) mod noh)); [apply NoDup_ohs|..].
  - intros n [? _]%elem_of_ohs. by apply columns_NoDup.
  - intros n c [? _]%elem_of_ohs. by apply columns_owner.
Qed.
End Columns.
End Cells.

(** ** What the monitoring functions promise *)
Section Contracts.
Context {L : RpcLib} {LL : RpcLaws}.

(** A function whose passes fill columns. *)
Lemma implements_columnsI P s name noh ohMask result keys body : noh ≤ 32 →
  sends P s name (fields_of [("NOH", VWord noh); ("ohMask", VWord ohMask)])
    (monitor (for_each_oh noh ohMask (λ n, assign_all (body n))) ;; mret 0) →
  (∀ n, 0 ≤ n < noh → body n = columns result noh keys n) →
  implements_monitor (fn P) s name [("NOH", VWord noh); ("ohMask", VWord ohMask)]
    (λ _, ohs noh ohMask ≫= columns result noh keys).
Proof.
  intros Hn Hs Hb. eapply implements_monitorI; [exact Hs|intros _; apply oh_columns_NoDup|].
  apply (runs_as_for_each_oh noh ohMask _ (λ _, columns result noh keys)); [done|].
  intros n Hnn. apply runs_as_refl. intros t. by rewrite Hb.
Qed.

(** *** Single values and structures *)

(** The cells of a short explicit list are distinct, and belong to its
    OptoHybrid. *)
Ltac distinct_cells :=
  repeat (apply NoDup_cons; split;
    [intros Hin; repeat (apply elem_of_cons in Hin as [?|Hin]; [simplify_eq; lia|]);
     by apply elem_of_nil in Hin|]);
  apply NoDup_nil_2.
Ltac owned_cells :=
  let c := fresh in let Hc := fresh in
  intros c Hc; repeat (apply elem_of_cons in Hc as [->|Hc]; [done|]); by apply elem_of_nil in Hc.

Definition gbt_links (NGBT ohN : Z) : list (entry cell) := seqZ 0 NGBT ≫= gbt_link ohN.
Definition oh_links (ohN : Z) : list (entry cell) :=
  gbt_links 3 ohN ++ (seqZ 0 24 ≫= oh_link_vfat ohN).
Definition sca_row (ohN : Z) : list (entry cell) := sca_temperatures ohN ++ sca_voltages ohN.
Definition sysmon_row (ohN : Z) : list (entry cell) :=
  sysmon_overtemp ohN ++ (sysmon_vccaux ohN ++ (sysmon_vccint ohN ++ sysmon_core ohN)).
Definition vfat_link (x : msg) (ohN vfatN : Z) : list (entry cell) :=
  if msg_get_key_exists (vfat_key ohN vfatN "DAQ_CRC_ERROR_CNT") x
  then vfat_link_present ohN vfatN else vfat_link_absent ohN vfatN.
Definition vfat_links (x : msg) (ohN : Z) : list (entry cell) := seqZ 0 24 ≫= vfat_link x ohN.

(** Rows indexed by a second number. *)
Lemma NoDup_inner (row : Z → list (entry cell)) k :
  (∀ i, NoDup (row i).*1) → (∀ i c, c ∈ (row i).*1 → c.2 = i) → NoDup (seqZ 0 k ≫= row).*1.
Proof. intros Hr Ho. apply (NoDup_rows _ _ snd); [apply NoDup_seqZ|auto..]. Qed.

Lemma owner_inner {A} (row : A → list (entry cell)) xs n c :
  (∀ i c, c ∈ (row i).*1 → c.1.2 = n) → c ∈ (xs ≫= row).*1 → c.1.2 = n.
Proof. intros Ho. rewrite fmap_list_bind. intros (i & Hc & _)%list_elem_of_bind. by eapply Ho. Qed.

Lemma NoDup_by_oh noh ohMask (row : Z → list (entry cell)) :
  (∀ n, NoDup (row n).*1) → (∀ n c, c ∈ (row n).*1 → c.1.2 = n) → NoDup (ohs noh ohMask ≫= row).*1.
Proof. intros Hr Ho. apply (NoDup_rows _ _ (λ c : cell, c.1.2)); [apply NoDup_ohs|auto..]. Qed.

Lemma gbt_links_cells NGBT n : NoDup (gbt_links NGBT n).*1 ∧
  ∀ c, c ∈ (gbt_links NGBT n).*1 → c.1.2 = n ∧
    c.1.1 ∈ ["gbtRdy"; "gbtNotRdy"; "gbtRxOverflow"; "gbtRxUnderflow"].
Proof.
  unfold gbt_links. split.
  - apply NoDup_inner; [intros g; cbn; distinct_cells|intros g; cbn; owned_cells].
  - intros c. rewrite fmap_list_bind. intros (g & Hc & _)%list_elem_of_bind. cbn in Hc.
    repeat (apply elem_of_cons in Hc as [->|Hc]; [split; [done|set_solver]|]). by apply elem_of_nil in Hc.
Qed.

Lemma oh_link_vfat_cells n : NoDup (seqZ 0 24 ≫= oh_link_vfat n).*1 ∧
  ∀ c, c ∈ (seqZ 0 24 ≫= oh_link_vfat n).*1 → c.1.2 = n ∧
    c.1.1 ∈ ["daqCRCErrCnt"; "daqEvtCnt"; "syncErrCnt"].
Proof.
  split.
  - apply NoDup_inner; [intros g; cbn; distinct_cells|intros g; cbn; owned_cells].
  - intros c. rewrite fmap_list_bind. intros (g & Hc & _)%list_elem_of_bind. cbn in Hc.
    repeat (apply elem_of_cons in Hc as [->|Hc]; [split; [done|set_solver]|]). by apply elem_of_nil in Hc.
Qed.

Lemma oh_links_NoDup n : NoDup (oh_links n).*1.
Proof.
  unfold oh_links. rewrite fmap_app. apply NoDup_app. split; [apply gbt_links_cells|].
  split; [|apply oh_link_vfat_cells].
  intros c [_ H1]%gbt_links_cells [_ H2]%oh_link_vfat_cells.
  repeat (apply elem_of_cons in H1 as [H1|H1]; [rewrite H1 in H2; set_solver by done|]).
  by apply elem_of_nil in H1.
Qed.

Lemma oh_links_owner n c : c ∈ (oh_links n).*1 → c.1.2 = n.
Proof.
  unfold oh_links. rewrite fmap_app, elem_of_app.
  intros [[? _]%gbt_links_cells|[? _]%oh_link_vfat_cells]; done.
Qed.

Lemma vfat_link_cells x n v : (vfat_link x n v).*1 =
  [("daqCRCErrCnt", n, v); ("daqEvtCnt", n, v); ("syncErrCnt", n, v)].
Proof. unfold vfat_link. by destruct (msg_get_key_exists _ _). Qed.

Lemma trigger_main_filled result noh ohMask s : noh ≤ 32 →
  implements_monitor (getmonTRIGGERmain result noh ohMask) s "daq_monitor.getmonTRIGGERmain"
    [("NOH", VWord noh); ("ohMask", VWord ohMask)] (λ _,
    (result, FromKey "OR_TRIGGER_RATE" id) ::
    (ohs noh ohMask ≫= λ n, [(result + n + 1, FromKey ("OH" ++ to_string n ++ ".TRIGGER_RATE")%string id)])).
Proof.
  intros Hn.
  eapply implements_monitorI; [rpc_send| |].
  - intros _. rewrite fmap_cons, fmap_list_bind. apply NoDup_cons. split.
    + cbn. intros (n & Hc%list_elem_of_singleton & [? _]%elem_of_ohs)%list_elem_of_bind. lia.
    + rewrite <- fmap_list_bind. apply (NoDup_rows _ _ (λ c, c - result - 1)); [apply NoDup_ohs|..].
      * intros n _. cbn. distinct_cells.
      * intros n c [? _]%elem_of_ohs Hc%list_elem_of_singleton. cbn in Hc. lia.
  - apply (runs_as_app _ _ (λ _, [(result, FromKey "OR_TRIGGER_RATE" id)])
      (λ _, ohs noh ohMask ≫= λ n, [(result + n + 1, FromKey ("OH" ++ to_string n ++ ".TRIGGER_RATE")%string id)])).
    + apply runs_as_refl. intros t. by rewrite Z.add_0_r.
    + apply runs_as_for_each_oh; [done|]. intros n ?. apply runs_as_refl. intros t.
      unfold trigger_main_oh. rewrite wrap_small by (unfold word; lia). by rewrite Z.add_assoc.
Qed.

(** C29: The functions that fill a table of words: the five TTC values, the nine
    DAQ values, the trigger rates with the OR of all links in front, and the
    three tables with a column of [noh] words per key.  Each word goes to the
    cell named here; an error or a failed call gives 1 and leaves the table
    alone, and the first key the response lacks ends the call. *)
Theorem monitor_tables result noh ohMask s : noh ≤ 32 →
  implements_monitor (getmonTTCmain result) s "daq_monitor.getmonTTCmain" [] (λ _,
    [(result, FromKey "MMCM_LOCKED" id); (result + 1, FromKey "TTC_SINGLE_ERROR_CNT" id);
     (result + 2, FromKey "BC0_LOCKED" id); (result + 3, FromKey "L1A_ID" id); (result + 4, FromKey "L1A_RATE" id)]) ∧
  implements_monitor (getmonDAQmain result) s "daq_monitor.getmonDAQmain" [] (λ _,
    [(result, FromKey "DAQ_ENABLE" id); (result + 1, FromKey "DAQ_LINK_READY" id);
     (result + 2, FromKey "DAQ_LINK_AFULL" id); (result + 3, FromKey "DAQ_OFIFO_HAD_OFLOW" id);
     (result + 4, FromKey "L1A_FIFO_HAD_OFLOW" id); (result + 5, FromKey "L1A_FIFO_DATA_COUNT" id);
     (result + 6, FromKey "DAQ_FIFO_DATA_COUNT" id); (result + 7, FromKey "EVENT_SENT" id);
     (result + 8, FromKey "TTS_STATE" id)]) ∧
  implements_monitor (getmonTRIGGERmain result noh ohMask) s "daq_monitor.getmonTRIGGERmain"
    [("NOH", VWord noh); ("ohMask", VWord ohMask)] (λ _,
    (result, FromKey "OR_TRIGGER_RATE" id) ::
    (ohs noh ohMask ≫= λ n, [(result + n + 1, FromKey ("OH" ++ to_string n ++ ".TRIGGER_RATE")%string id)])) ∧
  implements_monitor (getmonTRIGGEROHmain result noh ohMask) s "daq_monitor.getmonTRIGGEROHmain"
    [("NOH", VWord noh); ("ohMask", VWord ohMask)] (λ _, ohs noh ohMask ≫= columns result noh
    [".LINK0_MISSED_COMMA_CNT"; ".LINK1_MISSED_COMMA_CNT"; ".LINK0_OVERFLOW_CNT"; ".LINK1_OVERFLOW_CNT";
     ".LINK0_UNDERFLOW_CNT"; ".LINK1_UNDERFLOW_CNT"; ".LINK0_SBIT_OVERFLOW_CNT"; ".LINK1_SBIT_OVERFLOW_CNT"]) ∧
  implements_monitor (getmonDAQOHmain result noh ohMask) s "daq_monitor.getmonDAQOHmain"
    [("NOH", VWord noh); ("ohMask", VWord ohMask)] (λ _, ohs noh ohMask ≫= columns result noh
    [".STATUS.EVT_SIZE_ERR"; ".STATUS.EVENT_FIFO_HAD_OFLOW"; ".STATUS.INPUT_FIFO_HAD_OFLOW";
     ".STATUS.INPUT_FIFO_HAD_UFLOW"; ".STATUS.VFAT_TOO_MANY"; ".STATUS.VFAT_NO_MARKER"]) ∧
  implements_monitor (getmonOHmain result noh ohMask) s "daq_monitor.getmonOHmain"
    [("NOH", VWord noh); ("ohMask", VWord ohMask)] (λ _, ohs noh ohMask ≫= columns result noh
    [".FW_VERSION"; ".EVENT_COUNTER"; ".EVENT_RATE"; ".GTX.TRK_ERR"; ".GTX.TRG_ERR"; ".GBT.TRK_ERR";
     ".CORR_VFAT_BLK_CNT"]).
Proof.
  intros Hn.
  split; [eapply implements_monitorI; [rpc_send|intros _; cbn; distinct_cells|apply runs_as_refl; intros t; unfold ttc_main; by rewrite Z.add_0_r]|].
  split; [eapply implements_monitorI; [rpc_send|intros _; cbn; distinct_cells|apply runs_as_refl; intros t; unfold daq_main; by rewrite Z.add_0_r]|].
  split; [by apply trigger_main_filled|].
  split_and!; (eapply implements_columnsI; [done|rpc_send|]); intros n Hnn;
    unfold trigger_oh_main_oh, daq_oh_main_oh, oh_main_oh, word_of, oh_key, columns;
    rewrite !wrap_small by (unfold word; lia); cbn - [Z.add Z.mul Z.of_nat]; repeat f_equal; lia.
Qed.

Lemma structures_contract noh ohMask (doReset : bool) NGBT s : noh ≤ 32 →
  implements_monitor (getmonGBTLink noh ohMask doReset NGBT) s "daq_monitor.getmonGBTLink"
    [("NOH", VWord noh); ("doReset", VWord (bool_word doReset))] (λ _, ohs noh ohMask ≫= gbt_links NGBT) ∧
  implements_monitor (getmonOHLink noh ohMask doReset) s "daq_monitor.getmonOHLink"
    [("NOH", VWord noh); ("doReset", VWord (bool_word doReset))] (λ _, ohs noh ohMask ≫= oh_links) ∧
  implements_monitor (getmonOHSCAmain noh ohMask) s "daq_monitor.getmonOHSCAmain"
    [("NOH", VWord noh); ("ohMask", VWord ohMask)] (λ _, ohs noh ohMask ≫= sca_row) ∧
  implements_monitor (getmonOHSysmon noh ohMask doReset) s "daq_monitor.getmonOHSysmon"
    [("NOH", VWord noh); ("ohMask", VWord ohMask); ("doReset", VWord (bool_word doReset))]
    (λ _, ohs noh ohMask ≫= sysmon_row) ∧
  implements_monitor (getmonVFATLink noh ohMask doReset) s "daq_monitor.getmonVFATLink"
    [("NOH", VWord noh); ("doReset", VWord (bool_word doReset))] (λ x, ohs noh ohMask ≫= vfat_links x).
Proof.
  intros Hn. split_and!; (eapply implements_monitorI; [rpc_send|intros x|]).
  - apply NoDup_by_oh; [intros n; apply gbt_links_cells|]. by intros n c [? _]%gbt_links_cells.
  - apply runs_as_for_each_oh; [done|]. intros n _. apply (runs_as_for_each _ _ (λ _, gbt_link n)).
    intros g _. by apply runs_as_refl.
  - apply NoDup_by_oh; [apply oh_links_NoDup|apply oh_links_owner].
  - apply runs_as_for_each_oh; [done|]. intros n _.
    apply (runs_as_app _ _ (λ _, gbt_links 3 n) (λ _, seqZ 0 24 ≫= oh_link_vfat n)).
    + apply (runs_as_for_each _ _ (λ _, gbt_link n)). intros g _. by apply runs_as_refl.
    + apply (runs_as_for_each _ _ (λ _, oh_link_vfat n)). intros g _. by apply runs_as_refl.
  - apply NoDup_by_oh; [intros n; cbn; distinct_cells|intros n; cbn; owned_cells].
  - apply runs_as_for_each_oh; [done|]. intros n _.
    apply (runs_as_app _ _ (λ _, sca_temperatures n) (λ _, sca_voltages n)); by apply runs_as_refl.
  - apply NoDup_by_oh; [intros n; cbn; distinct_cells|intros n; cbn; owned_cells].
  - apply runs_as_for_each_oh; [done|]. intros n _.
    apply (runs_as_app _ _ (λ _, sysmon_overtemp n)
      (λ _, sysmon_vccaux n ++ (sysmon_vccint n ++ sysmon_core n))); [by apply runs_as_try, runs_as_refl|].
    apply (runs_as_app _ _ (λ _, sysmon_vccaux n) (λ _, sysmon_vccint n ++ sysmon_core n));
      [by apply runs_as_try, runs_as_refl|].
    apply (runs_as_app _ _ (λ _, sysmon_vccint n) (λ _, sysmon_core n)); by apply runs_as_try, runs_as_refl.
  - apply NoDup_by_oh.
    + intros n. apply NoDup_inner; [intros v|intros v]; rewrite vfat_link_cells; [distinct_cells|owned_cells].
    + intros n c. apply owner_inner. intros v. rewrite vfat_link_cells. owned_cells.
  - apply runs_as_for_each_oh; [done|]. intros n _. apply runs_as_for_each.
    intros v _. apply runs_as_refl. intros t. erewrite bind_next by reflexivity. cbn beta.
    unfold vfat_link. by destruct (msg_get_key_exists _ _).
Qed.

(** C28: The functions that fill the caller's structures: for every unmasked
    OptoHybrid each field gets the word under the key written next to it here
    ([getmonOHLink] gets two of them the wrong way round,
    [link_counters_swapped]), or 0xdeaddead for the counters of a VFAT that
    the response leaves out.  An error or a failed call gives 1 and leaves
    the structures alone, and the first key the response lacks ends the
    call. *)
Theorem monitor_structures noh ohMask (doReset : bool) NGBT s : noh ≤ 32 →
  let oh n k := ("OH" ++ to_string n ++ k)%string in
  let gbt n g k := ("OH" ++ to_string n ++ ".GBT" ++ to_string g ++ k)%string in
  let vfat n v k := ("OH" ++ to_string n ++ ".VFAT" ++ to_string v ++ k)%string in
  let gbts k n : list (entry cell) := seqZ 0 k ≫= λ g,
    [(("gbtRdy", n, g), FromKey (gbt n g ".READY") id);
     (("gbtNotRdy", n, g), FromKey (gbt n g ".WAS_NOT_READY") id);
     (("gbtRxOverflow", n, g), FromKey (gbt n g ".RX_HAD_OVERFLOW") id);
     (("gbtRxUnderflow", n, g), FromKey (gbt n g ".RX_HAD_UNDERFLOW") id)] in
  let flag k := FromKey k (λ w, if w =? 0 then 0 else 1) in
  implements_monitor (getmonGBTLink noh ohMask doReset NGBT) s "daq_monitor.getmonGBTLink"
    [("NOH", VWord noh); ("doReset", VWord (if doReset then 1 else 0))] (λ _, ohs noh ohMask ≫= gbts NGBT) ∧
  implements_monitor (getmonOHLink noh ohMask doReset) s "daq_monitor.getmonOHLink"
    [("NOH", VWord noh); ("doReset", VWord (if doReset then 1 else 0))] (λ _, ohs noh ohMask ≫= λ n,
    gbts 3 n ++ (seqZ 0 24 ≫= λ v,
      [(("daqCRCErrCnt", n, v), FromKey (vfat n v ".SYNC_ERR_CNT") id);
       (("daqEvtCnt", n, v), FromKey (vfat n v ".DAQ_EVENT_CNT") id);
       (("syncErrCnt", n, v), FromKey (vfat n v ".DAQ_CRC_ERROR_CNT") id)])) ∧
  implements_monitor (getmonOHSCAmain noh ohMask) s "daq_monitor.getmonOHSCAmain"
    [("NOH", VWord noh); ("ohMask", VWord ohMask)] (λ _, ohs noh ohMask ≫= λ n,
    (("scaTemp", n, 0), FromKey (oh n ".SCA_TEMP") id) ::
    ((λ i, (("ohBoardTemp", n, i - 1), FromKey (oh n (".BOARD_TEMP" ++ to_string i)%string) id)) <$> [1; 2; 3; 4; 5; 6; 7; 8; 9]) ++
    [(("AVCCN", n, 0), FromKey (oh n ".AVCCN") id); (("AVTTN", n, 0), FromKey (oh n ".AVTTN") id);
     (("voltage1V0_INT", n, 0), FromKey (oh n ".1V0_INT") id); (("voltage1V8F", n, 0), FromKey (oh n ".1V8F") id);
     (("voltage1V5", n, 0), FromKey (oh n ".1V5") id); (("voltage2V5_IO", n, 0), FromKey (oh n ".2V5_IO") id);
     (("voltage3V0", n, 0), FromKey (oh n ".3V0") id); (("voltage1V8", n, 0), FromKey (oh n ".1V8") id);
     (("VTRX_RSSI2", n, 0), FromKey (oh n ".VTRX_RSSI2") id); (("VTRX_RSSI1", n, 0), FromKey (oh n ".VTRX_RSSI1") id)]) ∧
  implements_monitor (getmonOHSysmon noh ohMask doReset) s "daq_monitor.getmonOHSysmon"
    [("NOH", VWord noh); ("ohMask", VWord ohMask); ("doReset", VWord (if doReset then 1 else 0))]
    (λ _, ohs noh ohMask ≫= λ n,
    [(("isOverTemp", n, 0), flag (oh n ".OVERTEMP")); (("cntOverTemp", n, 0), FromKey (oh n ".CNT_OVERTEMP") id);
     (("isInVCCAuxAlarm", n, 0), flag (oh n ".VCCAUX_ALARM"));
     (("cntVCCAuxAlarm", n, 0), FromKey (oh n ".CNT_VCCAUX_ALARM") id);
     (("isInVCCIntAlarm", n, 0), flag (oh n ".VCCINT_ALARM"));
     (("cntVCCIntAlarm", n, 0), FromKey (oh n ".CNT_VCCINT_ALARM") id);
     (("fpgaCoreTemp", n, 0), FromKey (oh n ".FPGA_CORE_TEMP") id);
     (("fpgaCore1V0", n, 0), FromKey (oh n ".FPGA_CORE_1V0") id);
     (("fpgaCore2V5_IO", n, 0), FromKey (oh n ".FPGA_CORE_2V5_IO") id)]) ∧
  implements_monitor (getmonVFATLink noh ohMask doReset) s "daq_monitor.getmonVFATLink"
    [("NOH", VWord noh); ("doReset", VWord (if doReset then 1 else 0))] (λ x, ohs noh ohMask ≫= λ n, seqZ 0 24 ≫= λ v,
    let there := bool_decide (is_Some (contents x !! vfat n v ".DAQ_CRC_ERROR_CNT")) in
    let counter k := if there then FromKey (vfat n v k) id else Const 0xdeaddead in
    [(("daqCRCErrCnt", n, v), counter ".DAQ_CRC_ERROR_CNT"); (("daqEvtCnt", n, v), counter ".DAQ_EVENT_CNT");
     (("syncErrCnt", n, v), counter ".SYNC_ERR_CNT")]).
Proof.
  intros Hn. destruct (structures_contract noh ohMask doReset NGBT s Hn) as (H1 & H2 & H3 & H4 & H5).
  split; [exact H1|]. split; [exact H2|]. split; [exact H3|]. split; [exact H4|].
  eapply implements_monitor_ext; [|exact H5]. intros x. unfold vfat_links, vfat_link. cbv beta.
  do 2 (apply list_bind_ext; [intros ?|done]). rewrite key_exists_contents.
  change (vfat_key _ _ "DAQ_CRC_ERROR_CNT") with ("OH" ++ to_string x0 ++ ".VFAT" ++ to_string x1 ++ ".DAQ_CRC_ERROR_CNT")%string.
  by destruct (bool_decide _).
Qed.

Lemma vfat_entry_in noh ohMask (row : Z → Z → list (entry cell)) n v e :
  n ∈ ohs noh ohMask → 0 ≤ v < 24 → e ∈ row n v → e ∈ ohs noh ohMask ≫= (λ n, seqZ 0 24 ≫= row n).
Proof.
  intros Hn Hv He. apply list_elem_of_bind. exists n. split; [|done].
  apply list_elem_of_bind. exists v. split; [done|]. apply elem_of_seqZ. lia.
Qed.

(** The same response, two meanings: [getmonVFATLink] stores the CRC count
    in [daqCRCErrCnt], [getmonOHLink] stores the synchronisation count there. *)
Theorem link_counters_swapped (noh ohMask : Z) (doReset : bool) (s : rstate structs) (x : msg) (n v crc sync : Z) :
  noh ≤ 32 → n ∈ ohs noh ohMask → 0 ≤ v < 24 →
  (∀ m, ∃ v', svc_call_method m (rpc s) = (Ok x, v')) → has_error x = false →
  contents x !! vfat_key n v "DAQ_CRC_ERROR_CNT" = Some (VWord crc) →
  contents x !! vfat_key n v "SYNC_ERR_CNT" = Some (VWord sync) →
  Forall (entry_ready x (mem s)) (ohs noh ohMask ≫= oh_links) →
  Forall (entry_ready x (mem s)) (ohs noh ohMask ≫= vfat_links x) →
  mem (getmonOHLink noh ohMask doReset s).2 !! ("daqCRCErrCnt", n, v) = Some sync ∧
  mem (getmonVFATLink noh ohMask doReset s).2 !! ("daqCRCErrCnt", n, v) = Some crc.
Proof.
  intros Hn Hin Hv Hcall He Hcrc Hsync Hr1 Hr2.
  destruct (structures_contract noh ohMask doReset 3 s Hn)
    as (_ & (m1 & _ & _ & H1) & _ & _ & (m2 & _ & _ & H2)).
  destruct (Hcall m1) as [v1 Hc1], (Hcall m2) as [v2 Hc2].
  destruct (H1 _ _ Hc1) as (_ & H1' & _). destruct (H2 _ _ Hc2) as (_ & H2' & _).
  destruct (H1' He Hr1) as (Hd1 & h1 & Hrun1 & Hh1). destruct (H2' He Hr2) as (Hd2 & h2 & Hrun2 & Hh2).
  rewrite Hrun1, Hrun2. cbn [snd mem]. rewrite Hh1, Hh2. split.
  - rewrite (filled_in x _ _ _ (FromKey (vfat_key n v "SYNC_ERR_CNT") id)); [cbn; by rewrite Hsync|done|].
    apply list_elem_of_bind. exists n. split; [|done]. apply elem_of_app. right.
    apply list_elem_of_bind. exists v. split; [by left|]. apply elem_of_seqZ. lia.
  - rewrite (filled_in x _ _ _ (FromKey (vfat_key n v "DAQ_CRC_ERROR_CNT") id)); [cbn; by rewrite Hcrc|done|].
    eapply vfat_entry_in; [done|done|]. unfold vfat_link. rewrite key_exists_contents, Hcrc. by left.
Qed.

Lemma for_each_assign {X} (xs : list X) (row : X → list (entry cell)) (t : rstate structs) :
  for_each xs (λ x, assign_all (row x)) t = assign_all (xs ≫= row) t.
Proof.
  revert t. induction xs as [|x xs IH]; intros t; [done|].
  change (assign_all ((x :: xs) ≫= row) t) with (for_each (row x ++ (xs ≫= row)) assign t).
  rewrite for_each_app. apply bind_ext; [done|]. intros [] t' _. apply IH.
Qed.

(** A monitoring body that does not complete ends the function with it. *)
Lemma monitor_ends {C} `{Countable C} (P : M (rstate (gmap C Z)) Z Z) s name fields body (x : msg) :
  sends P s name fields (monitor body ;; mret 0) →
  (∀ m, ∃ v', svc_call_method m (rpc s) = (Ok x, v')) → has_error x = false →
  ∃ m v, ∀ r s', body (mk_rstate v m x (mem s)) = (r, s') →
    match r with
    | Undef u => fn P s = (Undef u, s')
    | Halt h => fn P s = (Halt h, s')
    | _ => True
    end.
Proof.
  intros (m & _ & _ & Hr) Hcall He. destruct (Hcall m) as [v Hc]. exists m, v. intros r s' Hb.
  unfold fn. rewrite (Hr _ _ Hc). unfold monitor, try_catch.
  destruct r as [| | |u|h]; try done;
    (unfold mbind at 1, M_bind at 1; erewrite bind_next by reflexivity;
     rewrite key_exists_contents; cbn [rsp]; unfold has_error in He; by rewrite He, Hb).
Qed.

(** [gbtRdy] and its companions have three elements and [NGBT] is not
    checked against it: with more GBTs the function writes past them. *)
Theorem getmonGBTLink_overrun (noh ohMask : Z) (doReset : bool) (NGBT : Z) (s : rstate structs) (x : msg) (w : Z) :
  1 ≤ noh → Z.testbit ohMask 0 = true → 3 < NGBT →
  (∀ m, ∃ v', svc_call_method m (rpc s) = (Ok x, v')) → has_error x = false →
  Forall (entry_ready x (mem s)) (gbt_links 3 0) →
  contents x !! gbt_key 0 3 "READY" = Some (VWord w) →
  mem s !! ("gbtRdy", 0, 3) = None →
  ∃ s', getmonGBTLink noh ohMask doReset NGBT s = (Undef OutOfBounds, s').
Proof.
  intros Hn Hm HN Hcall He Hr Hw Hnone.
  unfold getmonGBTLink. match goal with |- context [fn ?P s] =>
    destruct (monitor_ends P s "daq_monitor.getmonGBTLink"
      (fields_of [("NOH", VWord noh); ("doReset", VWord (bool_word doReset))])
      (for_each_oh noh ohMask (λ ohN, for_each (seqZ 0 NGBT) (λ gbtN, assign_all (gbt_link ohN gbtN)))) x)
      as (m & v & Hend); [rpc_send|exact Hcall|exact He|] end.
  destruct (assign_all_stops (gbt_links 3 0) (word_of (gbt_key 0 3 "READY") ("gbtRdy", 0, 3))
    (tail (gbt_link 0 3) ++ (seqZ 4 (NGBT - 4) ≫= gbt_link 0)) (mk_rstate v m x (mem s))
    (Undef OutOfBounds)) as (h' & Hrun & _); [apply gbt_links_cells|done| |done|].
  { intros t Hrsp Hmem. unfold assign, word_of, get_word. cbn [fst snd].
    rewrite !bind_bind. erewrite bind_next by reflexivity. cbn beta. rewrite Hrsp. cbn [rsp].
    rewrite (get_word_contents _ _ _ Hw). erewrite bind_next by reflexivity. cbn beta.
    erewrite bind_next by reflexivity. cbn beta. unfold write. erewrite bind_next by reflexivity.
    cbn beta. rewrite Hmem; [cbn [mem]; by rewrite Hnone|].
    intros Hin. unfold gbt_links in Hin. rewrite fmap_list_bind in Hin.
    apply list_elem_of_bind in Hin as (g & Hg & Hgs%elem_of_seqZ). cbn in Hg.
    repeat (apply elem_of_cons in Hg as [?|Hg]; [simplify_eq; lia|]). by apply elem_of_nil in Hg. }
  eexists. eapply (Hend (Undef OutOfBounds)).
  unfold for_each_oh, for_each_bit. rewrite (seqZ_cons 0) by lia. cbn [for_each]. apply bind_undef.
  change (0 <? 32) with true. cbn [guard_ub]. erewrite bind_next by reflexivity. cbn beta.
  rewrite unmasked_testbit, Hm by lia. cbn [when]. rewrite for_each_assign.
  replace (seqZ 0 NGBT) with (seqZ 0 3 ++ 3 :: seqZ 4 (NGBT - 4)).
  2: { replace NGBT with (3 + (NGBT - 3)) at 2 by lia. rewrite seqZ_app by lia.
       rewrite (seqZ_cons (0 + 3)) by lia. f_equal. f_equal. f_equal; lia. }
  rewrite bind_app. exact Hrun.
Qed.

(** A key the response lacks is not reported: the library's
    [BadKeyException] aborts the process as it is built, with the table half
    filled; the 0xdeaddead of [STANDARD_CATCH] is never returned. *)
Theorem getmonDAQmain_missing_key result (s : rstate heap) (x : msg) l1 c k l2 :
  daq_main result = l1 ++ word_of k c :: l2 →
  (∀ m, ∃ v', svc_call_method m (rpc s) = (Ok x, v')) → has_error x = false →
  Forall (entry_ready x (mem s)) l1 → msg_get_word k x = Err (BadKey k) →
  ∃ s', getmonDAQmain result s = (Halt HAbort, s') ∧ ∀ a, mem s' !! a = filled x l1 (mem s) a.
Proof.
  intros Hl Hcall He Hr Hk.
  unfold getmonDAQmain. match goal with |- context [fn ?P s] =>
    destruct (monitor_ends P s "daq_monitor.getmonDAQmain" (fields_of []) (assign_all (daq_main result)) x)
      as (m & v & Hend); [rpc_send|exact Hcall|exact He|] end.
  assert (NoDup l1.*1) as Hd.
  { assert (NoDup (daq_main result).*1) as Hall by (cbn; distinct_cells).
    rewrite Hl, fmap_app in Hall. by apply NoDup_app in Hall as [? _]. }
  destruct (assign_all_stops l1 (word_of k c) l2 (mk_rstate v m x (mem s)) (Halt HAbort))
    as (h' & Hrun & Hh'); [done|done| |done|].
  { intros t Hrsp _. unfold assign, word_of, get_word. cbn [fst snd].
    rewrite !bind_bind. erewrite bind_next by reflexivity. cbn beta. rewrite Hrsp. cbn [rsp].
    by rewrite Hk. }
  rewrite <- Hl in Hrun. eexists. split; [exact (Hend (Halt HAbort) _ Hrun)|]. exact Hh'.
Qed.
End Contracts.

(** ** Witnesses *)
Module DaqMonitorExamples.
Import Scripted.

Definition link_memory (n : Z) : structs := struct_array OHLinkMonitor n ∪ struct_array VFATLinkMonitor n.

(** A response with every word of the first OptoHybrid; the counters of a
    VFAT are 1, 2 and 3. *)
Definition link_reply : list (string * value) :=
  (g ← seqZ 0 4; [(gbt_key 0 g "READY", VWord 1); (gbt_key 0 g "WAS_NOT_READY", VWord 0);
                  (gbt_key 0 g "RX_HAD_OVERFLOW", VWord 0); (gbt_key 0 g "RX_HAD_UNDERFLOW", VWord 0)]) ++
  (v ← seqZ 0 24; [(vfat_key 0 v "SYNC_ERR_CNT", VWord 1); (vfat_key 0 v "DAQ_EVENT_CNT", VWord 2);
                   (vfat_key 0 v "DAQ_CRC_ERROR_CNT", VWord 3)]).
Definition link_msg : smsg := mk_smsg EmptyString (fields_of link_reply).

(** Readiness, by evaluation. *)
Definition readyb {K} `{Countable K} (x : smsg) (h : gmap K Z) (e : entry K) : bool :=
  match e.2 with
  | FromKey k _ => match sm_fields x !! k with Some (VWord _) => true | _ => false end
  | Const _ => true
  end && bool_decide (is_Some (h !! e.1)).

Lemma readyb_ready {K} `{Countable K} r (x : smsg) (h : gmap K Z) l : forallb (readyb x h) l = true →
  Forall (@entry_ready (always r) (always_laws r) K _ _ x h) l.
Proof.
  intros Hl. apply Forall_forall. intros e He. rewrite forallb_forall in Hl.
  specialize (Hl e (proj1 (list_elem_of_In _ _) He)). unfold readyb in Hl.
  apply andb_true_iff in Hl as [Hv Hm%bool_decide_eq_true_1]. split; [|done].
  destruct e as [c [k conv|w]]; cbn in *; [|done].
  change (is_Some (match sm_fields x !! k with Some (VWord w) => Some (conv w) | _ => None end)).
  by destruct (sm_fields x !! k) as [[]|].
Qed.

Lemma monitor_structures_witness :
  1 ≤ 32 ∧ ∃ s', @getmonOHLink (always (Ok link_msg)) 1 1 false (idle (Ok link_msg) (link_memory 1)) = (Next 0, s') ∧
  mem s' !! ("gbtRdy", 0, 2) = Some 1 ∧ mem s' !! ("daqEvtCnt", 0, 23) = Some 2.
Proof.
  split; [lia|].
  destruct (@monitor_structures (always (Ok link_msg)) (always_laws _) 1 1 false 3 (idle (Ok link_msg) (link_memory 1))
    ltac:(lia)) as (_ & (m & _ & _ & Hr) & _).
  destruct (Hr _ tt (eq_refl : (Ok link_msg, tt) = (Ok _, tt))) as (_ & Hok & _).
  destruct Hok as (_ & h' & Hrun & Hh'); [reflexivity|apply readyb_ready; vm_compute; reflexivity|].
  eexists. split; [exact Hrun|]. cbn [mem]. rewrite !Hh'. split; vm_compute; reflexivity.
Defined.

Lemma link_counters_swapped_witness :
  let s := idle (Ok link_msg) (link_memory 1) in
  mem (@getmonOHLink (always (Ok link_msg)) 1 1 false s).2 !! ("daqCRCErrCnt", 0, 5) = Some 1 ∧
  mem (@getmonVFATLink (always (Ok link_msg)) 1 1 false s).2 !! ("daqCRCErrCnt", 0, 5) = Some 3.
Proof.
  cbv zeta. apply (@link_counters_swapped (always (Ok link_msg)) (always_laws _) 1 1 false
    (idle (Ok link_msg) (link_memory 1)) link_msg 0 5 3 1).
  - lia.
  - apply elem_of_ohs. split; [lia|reflexivity].
  - lia.
  - intros m. by eexists.
  - vm_compute. reflexivity.
  - vm_compute. reflexivity.
  - vm_compute. reflexivity.
  - apply readyb_ready. vm_compute. reflexivity.
  - apply readyb_ready. vm_compute. reflexivity.
Defined.

Lemma getmonGBTLink_overrun_witness : ∃ s',
  @getmonGBTLink (always (Ok link_msg)) 1 1 false 5 (idle (Ok link_msg) (link_memory 1)) = (Undef OutOfBounds, s').
Proof.
  apply (@getmonGBTLink_overrun (always (Ok link_msg)) (always_laws _) 1 1 false 5
    (idle (Ok link_msg) (link_memory 1)) link_msg 1).
  - lia.
  - reflexivity.
  - lia.
  - intros m. by eexists.
  - vm_compute. reflexivity.
  - apply readyb_ready. vm_compute. reflexivity.
  - vm_compute. reflexivity.
  - vm_compute. reflexivity.
Defined.

Definition daq_msg : smsg := mk_smsg EmptyString (fields_of [("DAQ_ENABLE", VWord 1); ("DAQ_LINK_READY", VWord 0)]).

(** The third key is not in the response. *)
Lemma monitor_tables_witness :
  2 ≤ 32 ∧ ∃ s', @getmonDAQmain (always (Ok daq_msg)) 100 (idle (Ok daq_msg) (cells 100 9)) = (Halt HAbort, s') ∧
  mem s' !! 100 = Some 1 ∧ mem s' !! 102 = Some 0.
Proof.
  split; [lia|].
  destruct (@monitor_tables (always (Ok daq_msg)) (always_laws _) 100 2 1 (idle (Ok daq_msg) (cells 100 9))
    ltac:(lia)) as (_ & (m & _ & _ & Hr) & _).
  destruct (Hr _ tt (eq_refl : (Ok daq_msg, tt) = (Ok _, tt))) as (_ & _ & Hstop).
  destruct (Hstop [(100, FromKey "DAQ_ENABLE" id); (101, FromKey "DAQ_LINK_READY" id)] 102 "DAQ_LINK_AFULL" id
    _ (BadKey "DAQ_LINK_AFULL") ltac:(reflexivity) ltac:(reflexivity)) as (h' & Hrun & Hh').
  - apply readyb_ready. vm_compute. reflexivity.
  - reflexivity.
  - eexists. split; [exact Hrun|]. cbn [mem]. rewrite !Hh'. split; vm_compute; reflexivity.
Defined.

Lemma getmonDAQmain_missing_key_witness : ∃ s',
  @getmonDAQmain (always (Ok daq_msg)) 100 (idle (Ok daq_msg) (cells 100 9)) = (Halt HAbort, s') ∧
  mem s' !! 100 = Some 1.
Proof.
  destruct (@getmonDAQmain_missing_key (always (Ok daq_msg)) (always_laws _) 100
    (idle (Ok daq_msg) (cells 100 9)) daq_msg
    [word_of "DAQ_ENABLE" 100; word_of "DAQ_LINK_READY" 101] 102 "DAQ_LINK_AFULL"
    (drop 3 (daq_main 100))) as (s' & Hrun & Hmem).
  - reflexivity.
  - intros m. by eexists.
  - vm_compute. reflexivity.
  - apply readyb_ready. vm_compute. reflexivity.
  - reflexivity.
  - exists s'. split; [exact Hrun|]. rewrite Hmem. reflexivity.
Defined.
End DaqMonitorExamples.
