(* ===== verification/RpcVfat3.v ===== *)
(** * RpcVfat3: the VFAT3 functions

    [src/common/rpc_manager/vfat3.cc]. *)

From S2P Require Import Prelude RpcMsg CText RpcAmc RpcTable.

Section Vfat3.
Context {L : RpcLib}.

Definition configureVFAT3s {Mem} (ohN vfatMask : Z) : Fn (rstate Mem) Z := fn (
  new_req "vfat3.configureVFAT3s" ;;
  set_word "vfatMask" vfatMask ;;
  set_word "ohN" ohN ;;
  try_catch call_method STANDARD_CATCH ;;
  return_if_error 1 ;;
  mret 0).

Definition configureVFAT3DacMonitor {Mem} (ohN vfatMask dacSelect : Z) : Fn (rstate Mem) Z := fn (
  new_req "vfat3.configureVFAT3DacMonitor" ;;
  set_word "ohN" ohN ;;
  set_word "vfatMask" vfatMask ;;
  set_word "dacSelect" dacSelect ;;
  try_catch call_method STANDARD_CATCH ;;
  return_if_error 1 ;;
  mret 0).

Definition configureVFAT3DacMonitorMultiLink (ohMask ohVfatMaskArray dacSelect : Z) : Fn (rstate heap) Z := fn (
  new_req "vfat3.configureVFAT3DacMonitorMultiLink" ;;
  set_word "ohMask" ohMask ;;
  set_word_array "ohVfatMaskArray" ohVfatMaskArray 12 ;;
  set_word "dacSelect" dacSelect ;;
  try_catch call_method STANDARD_CATCH ;;
  return_if_error 1 ;;
  mret 0).

Definition getChannelRegistersVFAT3 (ohN vfatMask chanRegData nvfats : Z) : Fn (rstate heap) Z := fn (
  new_req "vfat3.getChannelRegistersVFAT3" ;;
  set_word "ohN" ohN ;;
  set_word "vfatMask" vfatMask ;;
  try_catch call_method STANDARD_CATCH ;;
  return_if_error 1 ;;
  read_array "chanRegData" (w32 (128 * nvfats)) chanRegData ;;
  mret 0).

Definition chip_id_key (ohN vfat : Z) : string :=
  "GEM_AMC.OH.OH" ++ to_string ohN ++ ".GEB.VFAT" ++ to_string vfat ++ ".HW_CHIP_ID".

Definition chip_id (chipIDData ohN vfat : Z) : entry Z :=
  word_of (chip_id_key ohN vfat) (chipIDData + vfat).

Definition getVFAT3ChipIDs (chipIDData ohN vfatMask : Z) (rawID : bool) (nvfats : Z) : Fn (rstate heap) Z := fn (
  new_req "vfat3.getVFAT3ChipIDs" ;;
  set_word "ohN" ohN ;;
  set_word "vfatMask" vfatMask ;;
  set_word "rawID" (bool_word rawID) ;;
  try_catch call_method STANDARD_CATCH ;;
  return_if_error 1 ;;
  for_each_bit nvfats (λ vfat, negb (unmasked vfatMask vfat)) (λ vfat,
    assign_all [chip_id chipIDData ohN vfat]) ;;
  mret 0).

Definition readVFAT3ADC (ohN adcData : Z) (useExtRefADC : bool) (vfatMask nvfats : Z) : Fn (rstate heap) Z := fn (
  new_req "vfat3.readVFAT3ADC" ;;
  set_word "ohN" ohN ;;
  set_word "useExtRefADC" (bool_word useExtRefADC) ;;
  set_word "vfatMask" vfatMask ;;
  try_catch call_method STANDARD_CATCH ;;
  return_if_error 1 ;;
  read_array "adcData" nvfats adcData ;;
  mret 0).

Definition readVFAT3ADCMultiLink (ohMask ohVfatMaskArray adcDataAll : Z) (useExtRefADC : bool) (nvfats : Z)
    : Fn (rstate heap) Z := fn (
  new_req "vfat3.readVFAT3ADCMultiLink" ;;
  set_word "ohMask" ohMask ;;
  set_word_array "ohVfatMaskArray" ohVfatMaskArray 12 ;;
  set_word "useExtRefADC" (bool_word useExtRefADC) ;;
  try_catch call_method STANDARD_CATCH ;;
  return_if_error 1 ;;
  read_array "adcDataAll" (w32 (12 * nvfats)) adcDataAll ;;
  mret 0).

(** The lengths are converted from [uint32_t] to [int]. *)
Definition setChannelRegistersVFAT3
    (ohN vfatMask calEnable masks trimARM trimARMPol trimZCC trimZCCPol nvfats : Z) : Fn (rstate heap) Z := fn (
  new_req "vfat3.setChannelRegistersVFAT3" ;;
  set_word "ohN" ohN ;;
  set_word "vfatMask" vfatMask ;;
  set_word_array "calEnable" calEnable (s32 (128 * nvfats)) ;;
  set_word_array "masks" masks (s32 (128 * nvfats)) ;;
  set_word_array "trimARM" trimARM (s32 (128 * nvfats)) ;;
  set_word_array "trimARMPol" trimARMPol (s32 (128 * nvfats)) ;;
  set_word_array "trimZCC" trimZCC (s32 (128 * nvfats)) ;;
  set_word_array "trimZCCPol" trimZCCPol (s32 (128 * nvfats)) ;;
  try_catch call_method STANDARD_CATCH ;;
  return_if_error 1 ;;
  mret 0).

Definition setChannelRegistersVFAT3Simple (ohN vfatMask chanRegData nvfats : Z) : Fn (rstate heap) Z := fn (
  new_req "vfat3.setChannelRegistersVFAT3" ;;
  set_word "ohN" ohN ;;
  set_word "vfatMask" vfatMask ;;
  set_word "simple" 1 ;;
  set_word_array "chanRegData" chanRegData (s32 (128 * nvfats)) ;;
  try_catch call_method STANDARD_CATCH ;;
  return_if_error 1 ;;
  mret 0).
End Vfat3.

Section Contracts.
Context {L : RpcLib} {LL : RpcLaws}.

Lemma channel_count nvfats : 0 ≤ nvfats < 2 ^ 24 →
  w32 (128 * nvfats) = 128 * nvfats ∧ s32 (128 * nvfats) = 128 * nvfats.
Proof.
  intros. split; [apply wrap_small; unfold word; lia|]. unfold s32. rewrite Z.mod_small by lia. lia.
Qed.

(** C31: The commands and the readings of the module: the arrays go out as they are
    in the caller's memory, 128 channels per VFAT; the readings store 128
    words per VFAT, one per VFAT, one per VFAT of each of the twelve links. *)
Theorem vfat3_functions (ohN ohMask vfatMask dacSelect nvfats pm p0 p1 p2 p3 p4 p5 p : Z) (ext : bool)
    (lm l0 l1 l2 l3 l4 l5 : list Z) (s : rstate heap) : 0 ≤ nvfats < 2 ^ 24 →
  let n := Z.to_nat (128 * nvfats) in
  load pm 12 (mem s) = Some lm → load p0 n (mem s) = Some l0 → load p1 n (mem s) = Some l1 →
  load p2 n (mem s) = Some l2 → load p3 n (mem s) = Some l3 → load p4 n (mem s) = Some l4 →
  load p5 n (mem s) = Some l5 →
  implements_command (configureVFAT3s ohN vfatMask) s "vfat3.configureVFAT3s"
    [("vfatMask", VWord vfatMask); ("ohN", VWord ohN)] 1 ∧
  implements_command (configureVFAT3DacMonitor ohN vfatMask dacSelect) s "vfat3.configureVFAT3DacMonitor"
    [("ohN", VWord ohN); ("vfatMask", VWord vfatMask); ("dacSelect", VWord dacSelect)] 1 ∧
  implements_command (configureVFAT3DacMonitorMultiLink ohMask pm dacSelect) s
    "vfat3.configureVFAT3DacMonitorMultiLink"
    [("ohMask", VWord ohMask); ("ohVfatMaskArray", VWords lm); ("dacSelect", VWord dacSelect)] 1 ∧
  implements_command (setChannelRegistersVFAT3 ohN vfatMask p0 p1 p2 p3 p4 p5 nvfats) s
    "vfat3.setChannelRegistersVFAT3"
    [("ohN", VWord ohN); ("vfatMask", VWord vfatMask); ("calEnable", VWords l0); ("masks", VWords l1);
     ("trimARM", VWords l2); ("trimARMPol", VWords l3); ("trimZCC", VWords l4); ("trimZCCPol", VWords l5)] 1 ∧
  implements_command (setChannelRegistersVFAT3Simple ohN vfatMask p0 nvfats) s
    "vfat3.setChannelRegistersVFAT3"
    [("ohN", VWord ohN); ("vfatMask", VWord vfatMask); ("simple", VWord 1); ("chanRegData", VWords l0)] 1 ∧
  implements_reads (getChannelRegistersVFAT3 ohN vfatMask p nvfats) s "vfat3.getChannelRegistersVFAT3"
    [("ohN", VWord ohN); ("vfatMask", VWord vfatMask)] [("chanRegData", 128 * nvfats, p)] ∧
  implements_reads (readVFAT3ADC ohN p ext vfatMask nvfats) s "vfat3.readVFAT3ADC"
    [("ohN", VWord ohN); ("useExtRefADC", VWord (bool_word ext)); ("vfatMask", VWord vfatMask)]
    [("adcData", nvfats, p)] ∧
  implements_reads (readVFAT3ADCMultiLink ohMask pm p ext nvfats) s "vfat3.readVFAT3ADCMultiLink"
    [("ohMask", VWord ohMask); ("ohVfatMaskArray", VWords lm); ("useExtRefADC", VWord (bool_word ext))]
    [("adcDataAll", 12 * nvfats, p)].
Proof.
  intros Hn n Hm H0 H1 H2 H3 H4 H5. destruct (channel_count nvfats Hn) as [Hw Hs].
  assert (w32 (12 * nvfats) = 12 * nvfats) as Hw' by (apply wrap_small; unfold word; lia).
  unfold setChannelRegistersVFAT3, setChannelRegistersVFAT3Simple, getChannelRegistersVFAT3, readVFAT3ADCMultiLink.
  rewrite Hs, Hw, Hw'. split_and!; first [rpc_command|rpc_reads].
Qed.



(** The VFATs whose mask bit is clear. *)
Definition kept_vfats (nvfats vfatMask : Z) : list Z :=
  filter (λ v, negb (Z.testbit vfatMask v) = true) (seqZ 0 nvfats).

Definition chip_ids (chipIDData ohN vfatMask nvfats : Z) : list (entry Z) :=
  kept_vfats nvfats vfatMask ≫= λ v, [chip_id chipIDData ohN v].

Lemma chip_ids_NoDup chipIDData ohN vfatMask nvfats : NoDup (chip_ids chipIDData ohN vfatMask nvfats).*1.
Proof.
  unfold chip_ids. assert (NoDup (kept_vfats nvfats vfatMask)) as Hd by (apply NoDup_filter, NoDup_seqZ).
  revert Hd. generalize (kept_vfats nvfats vfatMask).
  intros l. induction l as [|v l IH]; [constructor|]. intros [Hv Hd]%NoDup_cons. apply NoDup_cons.
  split; [|by apply IH]. intros (e & He & Hin)%list_elem_of_fmap. apply Hv.
  apply list_elem_of_bind in Hin as (u & Hu%list_elem_of_singleton & Hul). subst e. cbn in He.
  by assert (v = u) as -> by lia.
Qed.

(** C32: [getVFAT3ChipIDs] reads, for every VFAT whose mask bit is clear, the chip
    identifier under the key of its own number into its own element; the elements of masked
    VFATs are left alone. *)
Theorem getVFAT3ChipIDs_reads (chipIDData ohN vfatMask : Z) (rawID : bool) (nvfats : Z) (s : rstate heap) :
  nvfats ≤ 32 →
  let key n := ("GEM_AMC.OH.OH" ++ to_string ohN ++ ".GEB.VFAT" ++ to_string n ++ ".HW_CHIP_ID")%string in
  ∃ m, method m = "vfat3.getVFAT3ChipIDs" ∧
    contents m = fields_of [("ohN", VWord ohN); ("vfatMask", VWord vfatMask); ("rawID", VWord (if rawID then 1 else 0))] ∧
    ∀ x v, svc_call_method m (rpc s) = (Ok x, v) → contents x !! "error" = None →
      (∀ n, 0 ≤ n < nvfats → Z.testbit vfatMask n = false →
         (∃ w, contents x !! key n = Some (VWord w)) ∧ is_Some (mem s !! (chipIDData + n))) →
      ∃ h', getVFAT3ChipIDs chipIDData ohN vfatMask rawID nvfats s = (Next 0, mk_rstate v m x h') ∧
        (∀ n w, 0 ≤ n < nvfats → Z.testbit vfatMask n = false →
           contents x !! key n = Some (VWord w) → h' !! (chipIDData + n) = Some w) ∧
        (∀ c, (∀ n, 0 ≤ n < nvfats → Z.testbit vfatMask n = false → c ≠ chipIDData + n) →
           h' !! c = mem s !! c).
Proof.
  intros Hn key. change key with (chip_id_key ohN). unfold getVFAT3ChipIDs.
  set (K := return_if_error 1 ;; for_each_bit nvfats (λ vfat, negb (unmasked vfatMask vfat))
    (λ vfat, assign_all [chip_id chipIDData ohN vfat]) ;; mret 0).
  match goal with |- context [fn ?P s] =>
    assert (sends P s "vfat3.getVFAT3ChipIDs" (fields_of [("ohN", VWord ohN); ("vfatMask", VWord vfatMask);
      ("rawID", VWord (bool_word rawID))]) K) as (m & Hm & Hc & Hr) by rpc_send end.
  exists m. split_and!; [done..|]. intros x v Hcall He Hx.
  assert (∀ n, n ∈ kept_vfats nvfats vfatMask ↔ 0 ≤ n < nvfats ∧ Z.testbit vfatMask n = false) as Hkept.
  { intros n. unfold kept_vfats. rewrite list_elem_of_filter, elem_of_seqZ.
    destruct (Z.testbit vfatMask n); naive_solver lia. }
  set (s1 := mk_rstate v m x (mem s)).
  destruct (assign_all_ready (chip_ids chipIDData ohN vfatMask nvfats) s1) as (h' & Hrun & Hh');
    [apply chip_ids_NoDup| |].
  { apply Forall_forall. intros e (n & ->%list_elem_of_singleton & [Hnn Hb]%Hkept)%list_elem_of_bind.
    destruct (Hx n Hnn Hb) as [[w Hw] Hmem]. split; cbn; [by rewrite Hw|done]. }
  exists h'. split.
  - unfold fn. rewrite (Hr _ _ Hcall). unfold K.
    erewrite bind_next by (apply return_if_error_none; unfold has_error; cbn [rsp]; by rewrite He).
    erewrite bind_next; [reflexivity|]. fold s1. eapply settles_next; [|exact Hrun].
    apply (runs_as_for_each_bit nvfats _ (λ v, negb (Z.testbit vfatMask v)) _
      (λ _ n, [chip_id chipIDData ohN n])); [done| |].
    + intros i Hi. by rewrite unmasked_testbit.
    + intros i _. by apply runs_as_refl.
  - split.
    + intros n w Hnn Hb Hw. rewrite Hh'.
      rewrite (filled_in x _ _ _ (FromKey (chip_id_key ohN n) id));
        [cbn; by rewrite Hw|apply chip_ids_NoDup|].
      apply list_elem_of_bind. exists n. split; [by left|]. by apply Hkept.
    + intros c Hc'. rewrite Hh'. apply filled_out. intros (e & -> & Hin)%list_elem_of_fmap.
      apply list_elem_of_bind in Hin as (n & ->%list_elem_of_singleton & [Hnn Hb]%Hkept).
      by apply (Hc' n).
Qed.
End Contracts.

Module Vfat3Examples.
Import Scripted.

Definition vfat3_start : rstate heap := start [reply []] (cells 0 1000).

Lemma vfat3_functions_witness : ∃ l,
  load 100 128 (mem vfat3_start) = Some l ∧
  implements_command (setChannelRegistersVFAT3Simple 3 0 100 1) vfat3_start
    "vfat3.setChannelRegistersVFAT3"
    [("ohN", VWord 3); ("vfatMask", VWord 0); ("simple", VWord 1); ("chanRegData", VWords l)] 1 ∧
  implements_reads (readVFAT3ADC 3 100 true 0 1) vfat3_start "vfat3.readVFAT3ADC"
    [("ohN", VWord 3); ("useExtRefADC", VWord 1); ("vfatMask", VWord 0)] [("adcData", 1, 100)].
Proof.
  exists (replicate 128 0). assert (load 100 128 (mem vfat3_start) = Some (replicate 128 0)) as Hl
    by (vm_compute; reflexivity).
  assert (load 0 12 (mem vfat3_start) = Some (replicate 12 0)) as Hm by (vm_compute; reflexivity).
  split; [exact Hl|].
  destruct (vfat3_functions 3 0 0 0 1 0 100 100 100 100 100 100 100 true (replicate 12 0) (replicate 128 0)
    (replicate 128 0) (replicate 128 0) (replicate 128 0) (replicate 128 0) (replicate 128 0) vfat3_start
    ltac:(lia) Hm Hl Hl Hl Hl Hl Hl) as (_ & _ & _ & _ & H & _ & H' & _). by split.
Defined.


(** VFAT 1 is masked. *)
Definition chip_reply : result smsg := reply [(chip_id_key 0 0, VWord 77)].

Lemma getVFAT3ChipIDs_reads_witness : ∃ s',
  @getVFAT3ChipIDs (always chip_reply) 100 0 2 false 2 (idle chip_reply (cells 100 2)) = (Next 0, s') ∧
  mem s' !! 100 = Some 77 ∧ mem s' !! 101 = Some 0.
Proof.
  destruct (@getVFAT3ChipIDs_reads (always chip_reply) (always_laws _) 100 0 2 false 2
    (idle chip_reply (cells 100 2)) ltac:(lia)) as (m & _ & _ & Hm).
  destruct (Hm _ tt (eq_refl : (chip_reply, tt) = (Ok _, tt))) as (h' & Hrun & Hin & Hout); [reflexivity| |].
  - intros n Hn Hb. assert (n = 0 ∨ n = 1) as [-> | ->] by lia; [|done].
    split; [exists 77; vm_compute; reflexivity|by exists 0].
  - eexists. split; [exact Hrun|]. split.
    + apply (Hin 0 77); [lia|reflexivity|vm_compute; reflexivity].
    + cbn [mem]. rewrite (Hout 101); [reflexivity|]. intros n Hn Hb.
      assert (n = 0 ∨ n = 1) as [-> | ->] by lia; done.
Defined.
End Vfat3Examples.
