(* ===== verification/RpcCalib.v ===== *)
(** * RpcCalib: the calibration routines

    [src/common/rpc_manager/calibration_routines.cc]. *)

From S2P Require Import Prelude RpcMsg RpcOptohybrid.

(** [struct vfat3DACSize] of [include/xhal/rpc/calibration_routines.h]: the
    largest value of each DAC; the constructor leaves the other elements of
    [max[41]] as they are. *)
Definition vfat3DACSize : list (Z * Z) :=
  [(1, 0xff); (2, 0xff); (3, 0x3f); (4, 0x3f); (5, 0xff); (6, 0xff); (7, 0xff); (8, 0xff); (9, 0x3f);
   (10, 0x3f); (11, 0x3f); (12, 0x3f); (14, 0xff); (15, 0xff);
   (33, 0xff); (34, 0xff); (35, 0xff); (36, 0xff); (39, 0x3)].

Definition dac_max (dacSelect : Z) : option Z :=
  (list_to_map vfat3DACSize : gmap Z Z) !! dacSelect.

(** The sizes, in [uint32_t]. *)
Definition dac_scan_size (max dacStep nvfats : Z) : Z := w32 (w32 (max + 1) * nvfats) / dacStep.
Definition dac_scan_size_links (NOH max dacStep nvfats : Z) : Z :=
  w32 (w32 (NOH * w32 (max + 1)) * nvfats) / dacStep.
Definition channel_scan_size (dacMin dacMax dacStep nvfats : Z) : Z :=
  w32 (w32 (nvfats * 128) * w32 (dacMax - dacMin + 1)) / dacStep.
Definition rate_scan_size (dacMin dacMax dacStep : Z) : Z := w32 (12 * w32 (dacMax - dacMin + 1)) / dacStep.

Section Calib.
Context {L : RpcLib}.

Definition checkSbitMappingWithCalPulse (ohN vfatN mask : Z) (useCalPulse currentPulse : bool)
    (calScaleFactor nevts L1Ainterval pulseDelay data : Z) : Fn (rstate heap) Z := fn (
  new_req "calibration_routines.checkSbitMappingWithCalPulse" ;;
  set_word "ohN" ohN ;;
  set_word "vfatN" vfatN ;;
  set_word "mask" mask ;;
  set_word "useCalPulse" (bool_word useCalPulse) ;;
  set_word "currentPulse" (bool_word currentPulse) ;;
  set_word "calScaleFactor" calScaleFactor ;;
  set_word "nevts" nevts ;;
  set_word "L1Ainterval" L1Ainterval ;;
  set_word "pulseDelay" pulseDelay ;;
  try_catch call_method STANDARD_CATCH ;;
  return_if_error 1 ;;
  read_array "data" (w32 (1024 * nevts)) data ;;
  mret 0).

Definition checkSbitRateWithCalPulse (ohN vfatN mask : Z) (useCalPulse currentPulse : bool)
    (calScaleFactor waitTime pulseRate pulseDelay : Z)
    (outDataCTP7Rate outDataFPGAClusterCntRate outDataVFATSBits : Z) : Fn (rstate heap) Z := fn (
  new_req "calibration_routines.checkSbitRateWithCalPulse" ;;
  set_word "ohN" ohN ;;
  set_word "vfatN" vfatN ;;
  set_word "mask" mask ;;
  set_word "useCalPulse" (bool_word useCalPulse) ;;
  set_word "currentPulse" (bool_word currentPulse) ;;
  set_word "calScaleFactor" calScaleFactor ;;
  set_word "waitTime" waitTime ;;
  set_word "pulseRate" pulseRate ;;
  set_word "pulseDelay" pulseDelay ;;
  try_catch call_method STANDARD_CATCH ;;
  return_if_error 1 ;;
  read_array "outDataCTP7Rate" 128 outDataCTP7Rate ;;
  read_array "outDataFPGAClusterCntRate" 128 outDataFPGAClusterCntRate ;;
  read_array "outDataVFATSBits" 128 outDataVFATSBits ;;
  mret 0).

(** [dacSize.max[dacSelect]] of a fresh [vfat3DACSize] *)
Definition dac_max_read (dacSelect : Z) : M (rstate heap) Z Z :=
  guard_ub (dacSelect <? 41) OutOfBounds ;;
  match dac_max dacSelect with
  | Some m => mret m
  | None => undef Uninitialised
  end.

Definition dacScan (ohN dacSelect dacStep mask : Z) (useExtRefADC : bool) (results nvfats : Z)
    : Fn (rstate heap) Z := fn (
  new_req "calibration_routines.dacScan" ;;
  set_word "ohN" ohN ;;
  set_word "dacSelect" dacSelect ;;
  set_word "dacStep" dacStep ;;
  set_word "mask" mask ;;
  set_word "useExtRefADC" (bool_word useExtRefADC) ;;
  try_catch call_method STANDARD_CATCH ;;
  return_if_error 1 ;;
  max ← dac_max_read dacSelect;
  guard_ub (negb (dacStep =? 0)) DivideByZero ;;
  read_array "dacScanResults" (dac_scan_size max dacStep nvfats) results ;;
  mret 0).

Definition dacScanMultiLink (ohMask NOH dacSelect dacStep : Z) (useExtRefADC : bool) (results nvfats : Z)
    : Fn (rstate heap) Z := fn (
  new_req "calibration_routines.dacScanMultiLink" ;;
  set_word "ohMask" ohMask ;;
  set_word "NOH" NOH ;;
  set_word "dacSelect" dacSelect ;;
  set_word "dacStep" dacStep ;;
  set_word "useExtRefADC" (bool_word useExtRefADC) ;;
  try_catch call_method STANDARD_CATCH ;;
  return_if_error 1 ;;
  max ← dac_max_read dacSelect;
  guard_ub (negb (dacStep =? 0)) DivideByZero ;;
  read_array "dacScanResultsAll" (dac_scan_size_links NOH max dacStep nvfats) results ;;
  mret 0).

Definition genScan (nevts ohN dacMin dacMax dacStep ch : Z) (useCalPulse currentPulse : bool)
    (calScaleFactor mask : Z) (scanReg : string) (useUltra useExtTrig : bool) (result nvfats : Z)
    : Fn (rstate heap) Z := fn (
  new_req "calibration_routines.genScan" ;;
  set_word "nevts" nevts ;;
  set_word "ohN" ohN ;;
  set_word "dacMin" dacMin ;;
  set_word "dacMax" dacMax ;;
  set_word "dacStep" dacStep ;;
  set_word "ch" ch ;;
  set_word "useCalPulse" (bool_word useCalPulse) ;;
  set_word "currentPulse" (bool_word currentPulse) ;;
  set_word "calScaleFactor" calScaleFactor ;;
  set_word "mask" mask ;;
  when useUltra (set_word "useUltra" (bool_word useUltra)) ;;
  set_word "useExtTrig" (bool_word useExtTrig) ;;
  set_string "scanReg" scanReg ;;
  try_catch call_method STANDARD_CATCH ;;
  return_if_error 1 ;;
  guard_ub (negb (dacStep =? 0)) DivideByZero ;;
  read_array "data" (scan_size dacMin dacMax dacStep nvfats) result ;;
  mret 0).

Definition genChannelScan (nevts ohN mask dacMin dacMax dacStep : Z) (useCalPulse currentPulse : bool)
    (calScaleFactor : Z) (useExtTrig : bool) (scanReg : string) (useUltra : bool) (result nvfats : Z)
    : Fn (rstate heap) Z := fn (
  new_req "calibration_routines.genChannelScan" ;;
  set_word "nevts" nevts ;;
  set_word "ohN" ohN ;;
  set_word "mask" mask ;;
  set_word "dacMin" dacMin ;;
  set_word "dacMax" dacMax ;;
  set_word "dacStep" dacStep ;;
  set_word "useCalPulse" (bool_word useCalPulse) ;;
  set_word "currentPulse" (bool_word currentPulse) ;;
  set_word "calScaleFactor" calScaleFactor ;;
  set_word "useExtTrig" (bool_word useExtTrig) ;;
  when useUltra (set_word "useUltra" (bool_word useUltra)) ;;
  set_string "scanReg" scanReg ;;
  try_catch call_method STANDARD_CATCH ;;
  return_if_error 1 ;;
  guard_ub (negb (dacStep =? 0)) DivideByZero ;;
  read_array "data" (channel_scan_size dacMin dacMax dacStep nvfats) result ;;
  mret 0).

Definition sbitRateScan (ohMask dacMin dacMax dacStep ch : Z) (scanReg : string)
    (resultDacVal resultTrigRate resultTrigRatePerVFAT nvfats waitTime : Z) : Fn (rstate heap) Z := fn (
  new_req "calibration_routines.sbitRateScan" ;;
  set_word "dacMin" dacMin ;;
  set_word "dacMax" dacMax ;;
  set_word "dacStep" dacStep ;;
  set_word "ch" ch ;;
  set_word "ohMask" ohMask ;;
  set_word "waitTime" waitTime ;;
  set_string "scanReg" scanReg ;;
  guard_ub (negb (dacStep =? 0)) DivideByZero ;;
  when (negb (w32 (dacMax - dacMin + 1) mod dacStep =? 0)) (ret 1) ;;
  try_catch call_method STANDARD_CATCH ;;
  return_if_error 1 ;;
  read_array "outDataDacValue" (rate_scan_size dacMin dacMax dacStep) resultDacVal ;;
  read_array "outDataCTP7Rate" (rate_scan_size dacMin dacMax dacStep) resultTrigRate ;;
  read_array "outDataVFATRate" (w32 (rate_scan_size dacMin dacMax dacStep * nvfats)) resultTrigRatePerVFAT ;;
  mret 0).

Definition ttcGenConf {Mem} (ohN mode type pulseDelay L1Ainterval nPulses : Z) (enable : bool)
    : Fn (rstate Mem) Z := fn (
  new_req "calibration_routines.ttcGenConf" ;;
  set_word "ohN" ohN ;;
  set_word "mode" mode ;;
  set_word "type" type ;;
  set_word "pulseDelay" pulseDelay ;;
  set_word "L1Ainterval" L1Ainterval ;;
  set_word "nPulses" nPulses ;;
  set_word "enable" (bool_word enable) ;;
  try_catch call_method STANDARD_CATCH ;;
  (e ← get_key_exists "error"; when e (ret 1)) ;;
  mret 0).

Definition ttcGenToggle {Mem} (ohN : Z) (enable : bool) : Fn (rstate Mem) Z := fn (
  new_req "calibration_routines.ttcGenToggle" ;;
  set_word "ohN" ohN ;;
  set_word "enable" (bool_word enable) ;;
  try_catch call_method STANDARD_CATCH ;;
  (e ← get_key_exists "error"; when e (ret 1)) ;;
  mret 0).

Definition confCalPulse {Mem} (ohN mask ch : Z) (toggleOn currentPulse : bool) (calScaleFactor : Z)
    : Fn (rstate Mem) Z := fn (
  new_req "calibration_routines.confCalPulse" ;;
  set_word "ohN" ohN ;;
  set_word "ch" ch ;;
  set_word "mask" mask ;;
  set_word "toggleOn" (bool_word toggleOn) ;;
  set_word "currentPulse" (bool_word currentPulse) ;;
  set_word "calScaleFactor" calScaleFactor ;;
  try_catch call_method STANDARD_CATCH ;;
  return_if_error 1 ;;
  mret 0).
End Calib.

Section Contracts.
Context {L : RpcLib} {LL : RpcLaws}.

(** The sizes, wrapped once. *)
Lemma dac_scan_size_w32 max dacStep nvfats : dac_scan_size max dacStep nvfats = w32 ((max + 1) * nvfats) / dacStep.
Proof. unfold dac_scan_size. by rewrite wrap_mul_wrap_l. Qed.
Lemma dac_scan_size_links_w32 NOH max dacStep nvfats :
  dac_scan_size_links NOH max dacStep nvfats = w32 (NOH * (max + 1) * nvfats) / dacStep.
Proof.
  unfold dac_scan_size_links. rewrite wrap_mul_wrap_l, <- Z.mul_assoc, Z.mul_comm, <- Z.mul_assoc, wrap_mul_wrap_l.
  do 2 f_equal. lia.
Qed.
Lemma channel_scan_size_w32 dacMin dacMax dacStep nvfats :
  channel_scan_size dacMin dacMax dacStep nvfats = w32 (128 * nvfats * (dacMax - dacMin + 1)) / dacStep.
Proof. unfold channel_scan_size. rewrite wrap_mul_wrap_l, wrap_mul_wrap_r. do 2 f_equal. lia. Qed.

(** C30: The commands and the scans of the module, for a DAC of the documented
    table and a step that is not 0: the requests, and the arrays the response
    to a scan must hold, with their sizes in 32 bits. *)
Theorem calibration_functions (ohN vfatN mask ch nevts scale interval delay wait rate mode type pulses : Z)
    (ohMask NOH dacSelect max dacMin dacMax dacStep nvfats p p1 p2 : Z)
    (calPulse current ext ultra on enable : bool) (scanReg : string) (s : rstate heap) :
  dacStep ≠ 0 →
  (dacSelect, max) ∈ [(1, 0xff); (2, 0xff); (3, 0x3f); (4, 0x3f); (5, 0xff); (6, 0xff); (7, 0xff); (8, 0xff);
    (9, 0x3f); (10, 0x3f); (11, 0x3f); (12, 0x3f); (14, 0xff); (15, 0xff);
    (33, 0xff); (34, 0xff); (35, 0xff); (36, 0xff); (39, 0x3)] →
  implements_command (ttcGenConf ohN mode type delay interval pulses enable) s "calibration_routines.ttcGenConf"
    [("ohN", VWord ohN); ("mode", VWord mode); ("type", VWord type); ("pulseDelay", VWord delay);
     ("L1Ainterval", VWord interval); ("nPulses", VWord pulses); ("enable", VWord (if enable then 1 else 0))] 1 ∧
  implements_command (ttcGenToggle ohN enable) s "calibration_routines.ttcGenToggle"
    [("ohN", VWord ohN); ("enable", VWord (if enable then 1 else 0))] 1 ∧
  implements_command (confCalPulse ohN mask ch on current scale) s "calibration_routines.confCalPulse"
    [("ohN", VWord ohN); ("ch", VWord ch); ("mask", VWord mask); ("toggleOn", VWord (if on then 1 else 0));
     ("currentPulse", VWord (if current then 1 else 0)); ("calScaleFactor", VWord scale)] 1 ∧
  implements_reads (checkSbitMappingWithCalPulse ohN vfatN mask calPulse current scale nevts interval delay p) s
    "calibration_routines.checkSbitMappingWithCalPulse"
    [("ohN", VWord ohN); ("vfatN", VWord vfatN); ("mask", VWord mask); ("useCalPulse", VWord (if calPulse then 1 else 0));
     ("currentPulse", VWord (if current then 1 else 0)); ("calScaleFactor", VWord scale); ("nevts", VWord nevts);
     ("L1Ainterval", VWord interval); ("pulseDelay", VWord delay)]
    [("data", w32 (1024 * nevts), p)] ∧
  implements_reads (checkSbitRateWithCalPulse ohN vfatN mask calPulse current scale wait rate delay p p1 p2) s
    "calibration_routines.checkSbitRateWithCalPulse"
    [("ohN", VWord ohN); ("vfatN", VWord vfatN); ("mask", VWord mask); ("useCalPulse", VWord (if calPulse then 1 else 0));
     ("currentPulse", VWord (if current then 1 else 0)); ("calScaleFactor", VWord scale); ("waitTime", VWord wait);
     ("pulseRate", VWord rate); ("pulseDelay", VWord delay)]
    [("outDataCTP7Rate", 128, p); ("outDataFPGAClusterCntRate", 128, p1); ("outDataVFATSBits", 128, p2)] ∧
  implements_reads (dacScan ohN dacSelect dacStep mask ext p nvfats) s "calibration_routines.dacScan"
    [("ohN", VWord ohN); ("dacSelect", VWord dacSelect); ("dacStep", VWord dacStep); ("mask", VWord mask);
     ("useExtRefADC", VWord (if ext then 1 else 0))]
    [("dacScanResults", w32 ((max + 1) * nvfats) / dacStep, p)] ∧
  implements_reads (dacScanMultiLink ohMask NOH dacSelect dacStep ext p nvfats) s
    "calibration_routines.dacScanMultiLink"
    [("ohMask", VWord ohMask); ("NOH", VWord NOH); ("dacSelect", VWord dacSelect); ("dacStep", VWord dacStep);
     ("useExtRefADC", VWord (if ext then 1 else 0))]
    [("dacScanResultsAll", w32 (NOH * (max + 1) * nvfats) / dacStep, p)] ∧
  implements_reads
    (genScan nevts ohN dacMin dacMax dacStep ch calPulse current scale mask scanReg ultra ext p nvfats) s
    "calibration_routines.genScan"
    (([("nevts", VWord nevts); ("ohN", VWord ohN); ("dacMin", VWord dacMin); ("dacMax", VWord dacMax);
       ("dacStep", VWord dacStep); ("ch", VWord ch); ("useCalPulse", VWord (if calPulse then 1 else 0));
       ("currentPulse", VWord (if current then 1 else 0)); ("calScaleFactor", VWord scale); ("mask", VWord mask)] ++
      (if ultra then [("useUltra", VWord 1)] else []) ++
      [("useExtTrig", VWord (if ext then 1 else 0)); ("scanReg", VString scanReg)])%list)
    [("data", w32 ((dacMax - dacMin + 1) * nvfats) / dacStep, p)] ∧
  implements_reads
    (genChannelScan nevts ohN mask dacMin dacMax dacStep calPulse current scale ext scanReg ultra p nvfats) s
    "calibration_routines.genChannelScan"
    (([("nevts", VWord nevts); ("ohN", VWord ohN); ("mask", VWord mask); ("dacMin", VWord dacMin);
       ("dacMax", VWord dacMax); ("dacStep", VWord dacStep); ("useCalPulse", VWord (if calPulse then 1 else 0));
       ("currentPulse", VWord (if current then 1 else 0)); ("calScaleFactor", VWord scale);
       ("useExtTrig", VWord (if ext then 1 else 0))] ++
      (if ultra then [("useUltra", VWord 1)] else []) ++ [("scanReg", VString scanReg)])%list)
    [("data", w32 (128 * nvfats * (dacMax - dacMin + 1)) / dacStep, p)].
Proof.
  intros Hstep Hmax. apply Z.eqb_neq in Hstep.
  assert (∀ t, dac_max_read dacSelect t = (Next max, t)) as Hread.
  { intros t. repeat (apply elem_of_cons in Hmax as [[= -> ->]|Hmax]; [reflexivity|]). by apply elem_of_nil in Hmax. }
  unfold dacScan, dacScanMultiLink, genScan, genChannelScan. rewrite Hstep. cbn [negb guard_ub].
  rewrite <- (scan_size_w32 dacMin), <- (channel_scan_size_w32 dacMin), <- dac_scan_size_w32, <- dac_scan_size_links_w32.
  split_and!; [rpc_command|rpc_command|rpc_command|rpc_reads|rpc_reads| | |destruct ultra; rpc_reads|destruct ultra; rpc_reads];
    (eapply implements_readsI, sends_ext; [|rpc_send]); intros t; apply bind_ext; try done;
    intros [] t' _; by erewrite bind_next by apply Hread.
Qed.

(** A DAC the table says nothing about (the documented range is 0 to 16 and
    32 to 41): the size is computed from memory that was never written, or
    from beyond the table, after the scan has already run. *)
Theorem dacScan_unknown_dac (ohN dacSelect dacStep mask : Z) (ext : bool) (p nvfats : Z) (s : rstate heap) x :
  0 ≤ dacSelect → dac_max dacSelect = None →
  (∀ m, ∃ v, svc_call_method m (rpc s) = (Ok x, v)) → has_error x = false →
  ∃ s', dacScan ohN dacSelect dacStep mask ext p nvfats s
    = (Undef (if decide (dacSelect < 41) then Uninitialised else OutOfBounds), s').
Proof.
  intros H0 Hnone Hcall He. unfold dacScan.
  set (K := return_if_error 1 ;; max ← dac_max_read dacSelect;
    guard_ub (negb (dacStep =? 0)) DivideByZero ;;
    read_array "dacScanResults" (dac_scan_size max dacStep nvfats) p ;; mret 0).
  match goal with |- context [fn ?P s] =>
    assert (sends P s "calibration_routines.dacScan" (fields_of
      [("ohN", VWord ohN); ("dacSelect", VWord dacSelect); ("dacStep", VWord dacStep); ("mask", VWord mask);
       ("useExtRefADC", VWord (bool_word ext))]) K) as (m & _ & _ & Hr) by rpc_send end.
  destruct (Hcall m) as [v Hc]. eexists. unfold fn. rewrite (Hr _ _ Hc). unfold K.
  erewrite bind_next by by apply return_if_error_none.
  erewrite bind_undef; [reflexivity|]. unfold dac_max_read. rewrite Hnone.
  destruct (Z.ltb_spec dacSelect 41); [rewrite decide_True by done|rewrite decide_False by lia]; reflexivity.
Qed.

(** A function that returns before its call. *)
Definition returns_early {Mem} (P : M (rstate Mem) Z Z) (s : rstate Mem) (r : Z) : Prop :=
  ∃ m, P s = (Return r, with_req m s).

Lemma returns_early_set {Mem} f (P : M (rstate Mem) Z Z) s r :
  (∃ m', f (req s) = Ok m') → (∀ m, returns_early P (with_req m s) r) →
  returns_early (set_req f ;; P) s r.
Proof.
  intros [m' Hf] HP. destruct (HP m') as [m Hm]. exists m. unfold set_req. rewrite bind_bind.
  erewrite bind_next by reflexivity. cbn beta. rewrite Hf. exact Hm.
Qed.

Lemma returns_early_word {Mem} k w (P : M (rstate Mem) Z Z) s r : key_ok k = true →
  (∀ m, returns_early P (with_req m s) r) → returns_early (set_word k w ;; P) s r.
Proof.
  intros Hk. apply returns_early_set. destruct (set_word_contents k w (req s) Hk) as (m & ? & _). by exists m.
Qed.

Lemma returns_early_string {Mem} k w (P : M (rstate Mem) Z Z) s r : key_ok k = true →
  (∀ m, returns_early P (with_req m s) r) → returns_early (set_string k w ;; P) s r.
Proof.
  intros Hk. apply returns_early_set. destruct (set_string_contents k w (req s) Hk) as (m & ? & _). by exists m.
Qed.

(** [sbitRateScan] checks the step before it asks for anything: when it does
    not divide the number of points it returns 1 with no call made. *)
Theorem sbitRateScan_checks_step (ohMask dacMin dacMax dacStep ch nvfats wait p p1 p2 : Z) (scanReg : string)
    (s : rstate heap) : dacStep ≠ 0 →
  (w32 (dacMax - dacMin + 1) mod dacStep ≠ 0 →
   ∃ m, sbitRateScan ohMask dacMin dacMax dacStep ch scanReg p p1 p2 nvfats wait s
     = (Next 1, mk_rstate (rpc s) m (rsp s) (mem s))) ∧
  (w32 (dacMax - dacMin + 1) mod dacStep = 0 →
   implements_reads (sbitRateScan ohMask dacMin dacMax dacStep ch scanReg p p1 p2 nvfats wait) s
     "calibration_routines.sbitRateScan"
     [("dacMin", VWord dacMin); ("dacMax", VWord dacMax); ("dacStep", VWord dacStep); ("ch", VWord ch);
      ("ohMask", VWord ohMask); ("waitTime", VWord wait); ("scanReg", VString scanReg)]
     [("outDataDacValue", rate_scan_size dacMin dacMax dacStep, p);
      ("outDataCTP7Rate", rate_scan_size dacMin dacMax dacStep, p1);
      ("outDataVFATRate", w32 (rate_scan_size dacMin dacMax dacStep * nvfats), p2)]).
Proof.
  intros Hstep%Z.eqb_neq. unfold sbitRateScan. rewrite Hstep. cbn [negb guard_ub]. split.
  - intros Hmod%Z.eqb_neq. rewrite Hmod. cbn [negb when].
    match goal with |- context [fn ?P s] => assert (returns_early P s 1) as [m Hm] end.
    { match goal with |- returns_early (new_req ?n ;; ?P) s 1 =>
        change (returns_early P (with_req (RPCMsg n) s) 1) end.
      repeat first [apply returns_early_word; [reflexivity|intros ?] |
                    apply returns_early_string; [reflexivity|intros ?]].
      by eexists. }
    exists m. unfold fn. by rewrite Hm.
  - intros Hmod%Z.eqb_eq. rewrite Hmod. cbn [negb when]. rpc_reads.
Qed.
End Contracts.

Module CalibExamples.
Import Scripted.

Definition scan_start : rstate heap := start [reply [("data", VWords [])]] (cells 0 10).

Lemma calibration_functions_witness :
  1 ≠ 0 ∧
  implements_command (ttcGenToggle 3 true) scan_start "calibration_routines.ttcGenToggle"
    [("ohN", VWord 3); ("enable", VWord 1)] 1 ∧
  implements_reads (dacScan 3 39 1 0 true 0 24) scan_start "calibration_routines.dacScan"
    [("ohN", VWord 3); ("dacSelect", VWord 39); ("dacStep", VWord 1); ("mask", VWord 0);
     ("useExtRefADC", VWord 1)] [("dacScanResults", 96, 0)].
Proof.
  split; [lia|].
  destruct (calibration_functions 3 0 0 0 0 0 0 0 0 0 0 0 0 0 0 39 3 0 0 1 24 0 0 0 true true true true true true "x"
    scan_start ltac:(lia) ltac:(repeat (first [by left|right]))) as (_ & H & _ & _ & _ & H' & _). by split.
Defined.

Lemma dacScan_unknown_dac_witness :
  (∃ s', @dacScan (always (reply [])) 3 41 1 0 true 0 24 (idle (reply []) ∅) = (Undef OutOfBounds, s')) ∧
  (∃ s', @dacScan (always (reply [])) 3 16 1 0 true 0 24 (idle (reply []) ∅) = (Undef Uninitialised, s')).
Proof.
  split.
  - apply (@dacScan_unknown_dac (always (reply [])) (always_laws _) 3 41 1 0 true 0 24 (idle (reply []) ∅)
      (mk_smsg EmptyString ∅)); [lia|reflexivity|intros m; by eexists|reflexivity].
  - apply (@dacScan_unknown_dac (always (reply [])) (always_laws _) 3 16 1 0 true 0 24 (idle (reply []) ∅)
      (mk_smsg EmptyString ∅)); [lia|reflexivity|intros m; by eexists|reflexivity].
Defined.

Lemma sbitRateScan_checks_step_witness :
  3 ≠ 0 ∧ w32 (255 - 0 + 1) mod 3 ≠ 0 ∧ ∃ m : msg,
    sbitRateScan 1 0 255 3 0 "x" 0 0 0 24 1 scan_start
    = (Next 1, mk_rstate (rpc scan_start) m (rsp scan_start) (mem scan_start)).
Proof.
  split; [lia|]. split; [vm_compute; discriminate|].
  apply (sbitRateScan_checks_step 1 0 255 3 0 24 1 0 0 0 "x" scan_start); [lia|vm_compute; discriminate].
Defined.
End CalibExamples.
