(* ===== verification/XmlText.v ===== *)
(** * XmlText: the text functions of the address table parser

    [parseInt], [replaceAll] and [substituteVars] of
    [src/common/utils/XHALXMLParser.cpp], over the parts of the C++ library
    they use: stream extraction, [std::stoi], [std::search],
    [std::to_string]. *)

From S2P Require Import Prelude RpcMsg CText.

(** ** Numbers *)

(** [converter >> base >> value] into a [uint32_t]: [None] leaves [value] as
    it was (nothing but white space); no digit gives 0, too many the largest
    value. *)
Definition extract (base : Z) (s : string) : option Z :=
  match skip_space s with
  | EmptyString => None
  | s =>
      let '(negative, s) := split_sign s in
      let v := number base (leading_digits base (if base =? 16 then skip_0x s else s)) in
      Some (if 2 ^ 32 - 1 <? v then 2 ^ 32 - 1 else if negative then w32 (- v) else v)
  end.

(** [std::stoi(s, nullptr, 2)] *)
Definition stoi_2 (s : string) : exn + Z :=
  let '(negative, s) := split_sign (skip_space s) in
  match leading_digits 2 s with
  | [] => inl InvalidArgument
  | ds =>
      let v := if negative then - number 2 ds else number 2 ds in
      if (- 2 ^ 31 <=? v) && (v <? 2 ^ 31) then inr v else inl OutOfRange
  end.

Definition parseInt {S R} (s : string) : M S R Z :=
  if contains "0x" s then
    match extract 16 s with Some v => mret v | None => undef Uninitialised end
  else if contains "0b" s then
    match stoi_2 s with inr v => mret (w32 v) | inl e => throw e end
  else match extract 10 s with Some v => mret v | None => undef Uninitialised end.

(** ** Substitution *)

(** The loop of [replaceAll]: [s] is what is left from [current] on.  [None]:
    the loop does not end. *)
Fixpoint replace_loop (fuel : nat) (from to s results : string) : option string :=
  match fuel with
  | O => None
  | S fuel =>
      let next := search from s in
      if Nat.eqb next (String.length s) then Some (results ++ s)
      else replace_loop fuel from to (str_drop (next + String.length from) s)
             (results ++ str_take next s ++ to)
  end.

Definition replaceAll (original from to : string) : option string :=
  replace_loop (S (String.length original)) from to original EmptyString.

(** The iteration order of the [unordered_map] is the library's. *)
Definition substituteVars (order : gmap string Z → list (string * Z)) (s : string)
    (dict : gmap string Z) : option string :=
  if bool_decide (s = EmptyString) then Some s
  else foldl (λ r p, r ← r; replaceAll r ("${" ++ p.1 ++ "}") (to_string p.2)) (Some s) (order dict).

(** ** Reading back a printed number *)

Definition saturate (n : Z) : Z := Z.min n (2 ^ 32 - 1).

Lemma saturate_spec n : (if 2 ^ 32 - 1 <? n then 2 ^ 32 - 1 else n) = saturate n.
Proof. unfold saturate. destruct (Z.ltb_spec (2 ^ 32 - 1) n); lia. Qed.

Lemma extract_10 n : 0 ≤ n → extract 10 (print 10 n) = Some (saturate n).
Proof.
  intros Hn. destruct (print_spec 10 n) as (Hall & Hne & Hv); [lia..|].
  destruct (plain_start 10 _ Hall Hne) as [Hs Hg]. unfold extract. rewrite Hs.
  destruct (print 10 n) as [|c t] eqn:E; [done|]. rewrite Hg.
  change (10 =? 16) with false. cbv iota. rewrite Hv. by rewrite saturate_spec.
Qed.

Lemma extract_16 n : 0 ≤ n → extract 16 ("0x" ++ print 16 n) = Some (saturate n).
Proof.
  intros Hn. destruct (print_spec 16 n) as (Hall & Hne & Hv); [lia..|]. rewrite !str_app_cons.
  change ("" ++ print 16 n) with (print 16 n).
  change (extract 16 (String "0" (String "x" (print 16 n)))) with
    (Some (if 2 ^ 32 - 1 <? number 16 (leading_digits 16 (print 16 n)) then 2 ^ 32 - 1
           else number 16 (leading_digits 16 (print 16 n)))).
  rewrite Hv. by rewrite saturate_spec.
Qed.

Lemma plain_not_x base c : plain_digit base c = true → negb (char_is c "x"%char) = true.
Proof.
  unfold plain_digit. rewrite andb_true_iff. intros [_ H%negb_true_iff]. rewrite !orb_false_iff in H.
  apply negb_true_iff. tauto.
Qed.

Lemma plain_not_dollar base c : plain_digit base c = true → negb (char_is c "$"%char) = true.
Proof.
  unfold plain_digit. rewrite andb_true_iff. intros [_ H%negb_true_iff]. rewrite !orb_false_iff in H.
  apply negb_true_iff. tauto.
Qed.

Lemma plain_not_b base c : base ≤ 10 → plain_digit base c = true → negb (char_is c "b"%char) = true.
Proof.
  unfold plain_digit. rewrite andb_true_iff. intros Hb [H _]. apply negb_true_iff.
  apply bool_decide_eq_false. intros ->. change (digit_value "b") with (Some 11) in H. cbv iota in H. lia.
Qed.

(** C24: [parseInt] reads back every number printed in decimal or, after [0x], in
    hexadecimal, up to the largest [uint32_t] and that one for any larger
    number; of a number printed in binary after [0b] it makes 0. *)
Theorem parseInt_printed {S R} n (s : S) : 0 ≤ n →
  parseInt (R:=R) (print 10 n) s = (Next (saturate n), s) ∧
  parseInt (R:=R) ("0x" ++ print 16 n) s = (Next (saturate n), s) ∧
  parseInt (R:=R) ("0b" ++ print 2 n) s = (Next 0, s).
Proof.
  intros Hn. unfold parseInt. split_and!.
  - destruct (print_spec 10 n) as (Hall & _ & _); [lia..|].
    rewrite (contains_none "0x" _ _ (all_chars_impl _ _ _ (plain_not_x 10) Hall)) by reflexivity.
    rewrite (contains_none "0b" _ _ (all_chars_impl _ _ _ (λ c, plain_not_b 10 c ltac:(lia)) Hall)) by reflexivity.
    by rewrite extract_10.
  - rewrite contains_prefix by done. by rewrite extract_16.
  - destruct (print_spec 2 n) as (Hall & _ & _); [lia..|].
    rewrite (contains_none "0x" _ (λ c, negb (char_is c "x"%char))); [|..|reflexivity].
    2: { rewrite all_chars_app. cbn. by apply (all_chars_impl _ _ _ (plain_not_x 2)). }
    rewrite contains_prefix by done. reflexivity.
Qed.

Lemma parseInt_printed_witness :
  (print 10 300, print 16 300, print 2 300) = ("300", "12c", "100101100") ∧
  0 ≤ 300 ∧
  parseInt (R:=Empty_set) (print 10 300) tt = (Next (saturate 300), tt) ∧
  parseInt (R:=Empty_set) ("0x" ++ print 16 300) tt = (Next (saturate 300), tt) ∧
  parseInt (R:=Empty_set) ("0b" ++ print 2 300) tt = (Next 0, tt).
Proof. split; [vm_compute; reflexivity|]. split; [lia|]. apply (parseInt_printed 300 tt). lia. Defined.

(** ** Substitution: the loop, character by character *)
Section Replace.
Implicit Types s t from to : string.

(** Enough fuel is enough, and the accumulator is a prefix of the result. *)
Lemma replace_loop_results fuel from to s acc :
  replace_loop fuel from to s acc = (λ r, acc ++ r) <$> replace_loop fuel from to s EmptyString.
Proof.
  revert s acc. induction fuel as [|fuel IH]; intros s acc; [done|]. cbn [replace_loop].
  destruct (Nat.eqb _ _); [done|]. rewrite IH. rewrite (IH _ ("" ++ _)).
  destruct (replace_loop fuel _ _ _ _) as [r|]; [|done]. cbn. f_equal. by rewrite str_app_nil_l, !str_app_assoc.
Qed.

(** One turn of the loop, with the results so far factored out. *)
Lemma replace_loop_step fuel from to s : replace_loop (Datatypes.S fuel) from to s EmptyString =
  if Nat.eqb (search from s) (String.length s) then Some s
  else (λ r, str_take (search from s) s ++ to ++ r) <$>
       replace_loop fuel from to (str_drop (search from s + String.length from) s) EmptyString.
Proof.
  cbn [replace_loop]. destruct (Nat.eqb _ _); [done|]. rewrite replace_loop_results, str_app_nil_l.
  destruct (replace_loop fuel _ _ _ _) as [r|]; [|done]. cbn. by rewrite <- str_app_assoc.
Qed.

Lemma length_str_drop n s : String.length (str_drop n s) = (String.length s - n)%nat.
Proof. revert s. induction n as [|n IH]; intros [|c s]; [done..|]. cbn. apply IH. Qed.

Lemma replace_loop_fuel f g from to s acc : from ≠ EmptyString →
  (String.length s < f)%nat → (String.length s < g)%nat →
  replace_loop f from to s acc = replace_loop g from to s acc.
Proof.
  intros Hfrom. revert g s acc. induction f as [|f IH]; intros g s acc Hf Hg; [lia|].
  destruct g as [|g]; [lia|]. cbn [replace_loop].
  destruct (Nat.eqb _ _) eqn:E; [done|]. apply IH; rewrite length_str_drop.
  - assert (0 < String.length from)%nat by (destruct from; cbn; [done|lia]).
    pose proof (search_le from s). apply Nat.eqb_neq in E. lia.
  - assert (0 < String.length from)%nat by (destruct from; cbn; [done|lia]).
    pose proof (search_le from s). apply Nat.eqb_neq in E. lia.
Qed.

Lemma replaceAll_nil from to : replaceAll EmptyString from to = Some EmptyString.
Proof. unfold replaceAll. cbn [replace_loop String.length]. by rewrite search_nil. Qed.

(** At an occurrence: it is replaced, and the rest is treated alike. *)
Lemma replaceAll_match from to s : from ≠ EmptyString →
  replaceAll (from ++ s) from to = (λ r, to ++ r) <$> replaceAll s from to.
Proof.
  intros Hfrom. assert (0 < String.length from)%nat by (destruct from; cbn; [done|lia]).
  unfold replaceAll at 1. rewrite replace_loop_step.
  assert (search from (from ++ s) = O) as ->.
  { destruct from as [|c from]; [done|].
    assert (String.prefix (String c from) (String c from ++ s) = true) as Hp by (apply prefix_iff; by exists s).
    rewrite str_app_cons in *. by rewrite search_cons, Hp. }
  destruct (Nat.eqb_spec 0 (String.length (from ++ s))); [rewrite length_str_app in *; lia|].
  rewrite Nat.add_0_l, str_drop_app.
  by rewrite (replace_loop_fuel _ (Datatypes.S (String.length s))) by (rewrite ?length_str_app; lia || done).
Qed.

(** Elsewhere the character stays. *)
Lemma replaceAll_skip from to c s : from ≠ EmptyString → String.prefix from (String c s) = false →
  replaceAll (String c s) from to = String c <$> replaceAll s from to.
Proof.
  intros Hfrom Hp. assert (0 < String.length from)%nat by (destruct from; cbn; [done|lia]).
  pose proof (search_le from s). unfold replaceAll. rewrite !replace_loop_step.
  rewrite search_cons, Hp. cbn [String.length Nat.eqb].
  destruct (Nat.eqb_spec (search from s) (String.length s)); [done|].
  cbn [Nat.add str_take str_drop].
  rewrite (replace_loop_fuel _ (String.length s)) by (rewrite ?length_str_drop; lia || done).
  by destruct (replace_loop _ _ _ _ _).
Qed.

(** The loop ends. *)
Lemma replace_loop_total fuel from to s acc : from ≠ EmptyString → (String.length s < fuel)%nat →
  is_Some (replace_loop fuel from to s acc).
Proof.
  intros Hfrom. assert (0 < String.length from)%nat by (destruct from; cbn; [done|lia]).
  revert s acc. induction fuel as [|fuel IH]; intros s acc Hf; [lia|]. cbn [replace_loop].
  destruct (Nat.eqb_spec (search from s) (String.length s)); [by eexists|].
  pose proof (search_le from s). apply IH. rewrite length_str_drop. lia.
Qed.

Lemma replaceAll_total from to s : from ≠ EmptyString → is_Some (replaceAll s from to).
Proof. intros. apply replace_loop_total; [done|lia]. Qed.

Lemma substituteVars_total order s d : is_Some (substituteVars order s d).
Proof.
  unfold substituteVars. case_bool_decide; [by eexists|].
  enough (∀ r, is_Some r → is_Some (foldl (λ r p, r ← r; replaceAll r ("${" ++ p.1 ++ "}") (to_string p.2)) r (order d)))
    as Hf by (apply Hf; by eexists).
  induction (order d) as [|p l IH]; intros r [t ->]; [by eexists|]. cbn [foldl mbind option_bind].
  apply IH. by apply replaceAll_total.
Qed.

(** A text without the first character of the pattern stays. *)
Lemma replaceAll_literal from to c0 a s : String.prefix (String c0 EmptyString) from = true →
  all_chars (λ c, negb (char_is c c0)) a = true →
  replaceAll (a ++ s) from to = (λ r, a ++ r) <$> replaceAll s from to.
Proof.
  intros [u Hu]%prefix_iff Ha. subst from. rewrite str_app_cons.
  induction a as [|c a IH]; [rewrite str_app_nil_l; by destruct (replaceAll s _ to)|].
  cbn in Ha. apply andb_true_iff in Ha as [Hc Ha]. rewrite str_app_cons, replaceAll_skip.
  - rewrite IH by done. destruct (replaceAll s _ to); done.
  - done.
  - rewrite prefix_cons. unfold char_is in *. destruct (bool_decide_reflect (c = c0)); [done|].
    by rewrite bool_decide_eq_false_2.
Qed.
End Replace.

(** ** Names with variables

    A name as pieces: text without [$] and uses [${x}] of variables whose
    names have neither [$] nor a closing brace. *)
Inductive piece : Type := Lit (s : string) | Var (x : string).

Definition use (x : string) : string := "${" ++ x ++ "}".
Definition render_piece (p : piece) : string := match p with Lit s => s | Var x => use x end.
Definition render (ts : list piece) : string := foldr (λ p s, render_piece p ++ s) EmptyString ts.

Definition not_dollar (c : ascii) : bool := negb (char_is c "$"%char).
Definition not_brace (c : ascii) : bool := negb (char_is c "}"%char).
Definition name_ok (x : string) : Prop := all_chars not_dollar x = true ∧ all_chars not_brace x = true.
Definition piece_ok (p : piece) : Prop :=
  match p with Lit s => all_chars not_dollar s = true | Var x => name_ok x end.

#[export] Instance piece_ok_dec p : Decision (piece_ok p).
Proof. destruct p; unfold piece_ok, name_ok; apply _. Defined.

Definition replace_var (x v : string) (p : piece) : piece :=
  match p with Var y => if bool_decide (y = x) then Lit v else p | Lit _ => p end.
Definition resolve (d : gmap string Z) (p : piece) : piece :=
  match p with
  | Var x => match d !! x with Some n => Lit (to_string n) | None => p end
  | Lit _ => p
  end.

Section Pieces.

Lemma use_apart x y s : all_chars not_brace x = true → all_chars not_brace y = true →
  String.prefix (x ++ "}") (y ++ String "}" s) = true → x = y.
Proof.
  revert y. induction x as [|c x IH]; intros [|d y]; cbn [all_chars]; rewrite ?andb_true_iff.
  - done.
  - intros _ [Hd _]. rewrite str_app_nil_l, str_app_cons, prefix_cons. unfold not_brace, char_is in *.
    destruct (bool_decide_reflect (d = "}"%char)) as [->|]; [done|]. by rewrite bool_decide_eq_false_2.
  - intros [Hc _] _. rewrite str_app_nil_l, str_app_cons, prefix_cons. unfold not_brace in *.
    by destruct (char_is c "}").
  - intros [_ Hx] [_ Hy]. rewrite !str_app_cons, prefix_cons. intros [Hcd Hp]%andb_true_iff.
    unfold char_is in Hcd. apply bool_decide_eq_true in Hcd as ->. f_equal. by apply IH.
Qed.

(** One replacement replaces every use of its variable. *)
Lemma replaceAll_render x v ts : name_ok x → Forall piece_ok ts →
  replaceAll (render ts) (use x) v = Some (render (replace_var x v <$> ts)).
Proof.
  intros [Hx Hx']. induction 1 as [|p ts Hp _ IH]; [apply replaceAll_nil|].
  cbn [render foldr]. fold (render ts). rewrite fmap_cons. cbn [render foldr]. fold (render (replace_var x v <$> ts)).
  destruct p as [s|y]; cbn [render_piece replace_var].
  { rewrite (replaceAll_literal _ _ "$"%char) by done. by rewrite IH. }
  case_bool_decide as Hy; [subst y|]; cbn [render_piece].
  { rewrite replaceAll_match by done. by rewrite IH. }
  destruct Hp as [Hd Hb].
  change (use y ++ render ts) with (String "$" ((String "{" (y ++ "}")) ++ render ts)).
  change (use y ++ ?t) with (String "$" ((String "{" (y ++ "}")) ++ t)).
  rewrite replaceAll_skip; [|done|].
  - rewrite (replaceAll_literal _ _ "$"%char); [by rewrite IH|done|].
    change (all_chars not_dollar (String "{" (y ++ "}")) = true). cbn [all_chars].
    by rewrite all_chars_app, Hd.
  - apply not_true_is_false. intros Hpre. unfold use in Hpre.
    rewrite !str_app_cons, str_app_nil_l, !prefix_cons in Hpre. cbn [char_is] in Hpre.
    rewrite <- str_app_assoc, str_app_cons, str_app_nil_l in Hpre.
    apply andb_true_iff in Hpre as [_ [_ Hpre]%andb_true_iff]. by apply Hy, eq_sym, (use_apart x y (render ts)).
Qed.

Lemma to_string_ok n : all_chars not_dollar (to_string n) = true.
Proof.
  assert (∀ m, 0 ≤ m → all_chars not_dollar (print 10 m) = true) as Hp.
  { intros m Hm. destruct (print_spec 10 m) as (H & _ & _); [lia..|].
    by apply (all_chars_impl _ _ _ (plain_not_dollar 10)). }
  unfold to_string. destruct (Z.ltb_spec n 0); [rewrite all_chars_app; cbn|]; apply Hp; lia.
Qed.

Lemma replace_var_ok x n ts : Forall piece_ok ts → Forall piece_ok (replace_var x (to_string n) <$> ts).
Proof.
  intros H. apply Forall_fmap. eapply Forall_impl; [exact H|]. intros [s|y] Hp; cbn; [done|].
  case_bool_decide; [apply to_string_ok|done].
Qed.

(** The loop over the variables, in whatever order they come. *)
Lemma substitute_loop (l : list (string * Z)) ts : Forall (λ p, name_ok p.1) l → Forall piece_ok ts →
  foldl (λ r p, r ← r; replaceAll r (use p.1) (to_string p.2)) (Some (render ts)) l =
  Some (render (resolve (list_to_map l) <$> ts)).
Proof.
  intros Hl. revert ts. induction Hl as [|[x n] l Hx _ IH]; intros ts Hts; cbn [foldl list_to_map foldr].
  { f_equal. f_equal. rewrite <- (list_fmap_id ts) at 1. apply list_fmap_ext. by intros i [s|y] _. }
  cbn [mbind option_bind fst snd]. rewrite replaceAll_render by done.
  rewrite IH by by apply replace_var_ok. f_equal. f_equal. rewrite <- list_fmap_compose.
  apply list_fmap_ext. intros _ [s|y] _; cbn; [done|]. case_bool_decide as Hy; cbn.
  - subst y. by rewrite lookup_insert_eq.
  - by rewrite lookup_insert_ne.
Qed.

Lemma substitute_empty (l : list (string * Z)) :
  foldl (λ r p, r ← r; replaceAll r (use p.1) (to_string p.2)) (Some EmptyString) l = Some EmptyString.
Proof.
  induction l as [|p l IH]; [done|]. cbn [foldl mbind option_bind]. by rewrite replaceAll_nil.
Qed.

Lemma substituteVars_render order ts d : order d ≡ₚ map_to_list d → Forall piece_ok ts →
  map_Forall (λ x _, name_ok x) d →
  substituteVars order (render ts) d = Some (render (resolve d <$> ts)).
Proof.
  intros Ho Hts Hd. unfold substituteVars. fold (use).
  change (λ (r : option string) (p : string * Z), r ← r; replaceAll r ("${" ++ p.1 ++ "}") (to_string p.2))
    with (λ (r : option string) (p : string * Z), r ← r; replaceAll r (use p.1) (to_string p.2)).
  assert (Forall (λ p, name_ok p.1) (order d)) as Hl.
  { rewrite Ho. apply Forall_forall. intros [x n] Hx%elem_of_map_to_list. by apply (Hd x n). }
  pose proof (substitute_loop (order d) ts Hl Hts) as Hr.
  rewrite <- (list_to_map_flip d (order d)) in Hr by done.
  case_bool_decide as He; [|exact Hr]. rewrite He in Hr. rewrite substitute_empty in Hr. by rewrite He.
Qed.
End Pieces.

(** C23: Whatever order the hash map is gone through, every use of a variable of
    the map is replaced by its decimal value, and the rest of the name, with
    the uses of other variables, stays. *)
Theorem substituteVars_pieces order ts d : order d ≡ₚ map_to_list d → Forall piece_ok ts →
  map_Forall (λ x _, name_ok x) d →
  substituteVars order (render ts) d = Some (render (resolve d <$> ts)).
Proof. apply substituteVars_render. Qed.

Lemma substituteVars_pieces_witness :
  let d : gmap string Z := {[ "OH" := 11; "VFAT" := 3 ]} in
  let ts := [Lit "GEM.OH"; Var "OH"; Lit ".VFAT"; Var "VFAT"; Lit "."; Var "CH"] in
  Forall piece_ok ts ∧ render ts = "GEM.OH${OH}.VFAT${VFAT}.${CH}" ∧
  substituteVars map_to_list (render ts) d = Some (render (resolve d <$> ts)) ∧
  substituteVars map_to_list "GEM.OH${OH}.VFAT${VFAT}.${CH}" d = Some "GEM.OH11.VFAT3.${CH}".
Proof.
  cbn zeta. split_and!; [vm_decide|reflexivity| |vm_compute; reflexivity].
  apply (substituteVars_pieces map_to_list); [done|vm_decide|].
  apply map_Forall_insert_2; [split; reflexivity|]. apply map_Forall_singleton. split; reflexivity.
Defined.
