(* ===== verification/XmlParser.v ===== *)
(** * XmlParser: the address table

    [class Node] of [include/xhal/utils/XHALXMLNode.h] and [XHALXMLParser] of
    [src/common/utils/XHALXMLParser.cpp].  Xerces is outside the repository:
    a document is the tree of its elements with their attributes, and what
    the Xerces calls of [parseXML] do is a parameter. *)

From S2P Require Import Prelude RpcMsg CText XmlText.

Local Open Scope list_scope.

(** ** The document *)

(** An element: [getAttribute], which is empty for an attribute that is not
    there, and the child nodes, [None] for one that is no element. *)
Inductive element : Type :=
| Element (attribute : string → string) (child_nodes : list (option element)).

Definition attribute (e : element) : string → string := match e with Element a _ => a end.
Definition child_nodes (e : element) : list (option element) := match e with Element _ c => c end.

Definition getAttVal (t_node : element) (attname : string) : option string :=
  let tmp2 := attribute t_node attname in
  if bool_decide (tmp2 = EmptyString) then None else Some tmp2.

(** ** class Node

    [parent] stands for the pointer: the name of the node pointed to. *)
Inductive Node : Type := mk_Node {
  name : string;
  description : string;
  vhdlname : string;
  address : Z;
  real_address : Z;
  permission : string;
  mode : string;
  node_size : Z;
  mask : Z;
  isModule : bool;
  parent : option string;
  children : list Node;
  level : Z;
  warn_min_value : Z;
  error_min_value : Z
}.

(** [Node()] *)
Definition empty_Node : Node := mk_Node EmptyString EmptyString EmptyString 0 0 EmptyString "single" 1 0xFFFFFFFF
  false None [] 0 (-1) (-1).

Definition set_children (l : list Node) (n : Node) : Node :=
  mk_Node (name n) (description n) (vhdlname n) (address n) (real_address n) (permission n) (mode n)
    (node_size n) (mask n) (isModule n) (parent n) l (level n) (warn_min_value n) (error_min_value n).
Definition set_parent (p : option string) (l : Z) (n : Node) : Node :=
  mk_Node (name n) (description n) (vhdlname n) (address n) (real_address n) (permission n) (mode n)
    (node_size n) (mask n) (isModule n) p (children n) l (warn_min_value n) (error_min_value n).

Definition addChild (child : Node) (n : Node) : Node := set_children (children n ++ [child]) n.
Definition getVhdlName (n : Node) : string := vhdlname n.

(** [getAllChildren(node, kids)]: what the call leaves in its own copy of
    [kids]; the caller's vector is another object. *)
Fixpoint getAllChildren (node : Node) (kids : list Node) : list Node :=
  let fix each (l : list Node) (kids : list Node) : list Node :=
    match l with
    | [] => kids
    | child :: l => let callee_kids := getAllChildren child kids in each l kids
    end in
  match children node with
  | [] => kids ++ [node]
  | l => each l kids
  end.

(** ** makeTree *)

(** [*nodes] and [*parentNode], [None] for a null pointer. *)
Record tree_state : Type := mk_tree { nodes : gmap string Node; parentNode : option Node }.

(** [for (ix = 0; ix < nodeCount; ++ix) if (... == ELEMENT_NODE) ...] *)
Definition each_child {S R} (f : element → M S R unit) : list (option element) → M S R unit :=
  fix each l :=
    match l with
    | [] => skip
    | Some child :: l => f child ;; each l
    | None :: l => each l
    end.

(** A statement that neither reads nor changes the state. *)
Definition stateless {S A} (m : Fn unit A) : Fn S A := λ s, ((m tt).1, s).

Section MakeTree.
(** The order in which an [unordered_map<std::string, int>] is gone through. *)
Context (order : gmap string Z → list (string * Z)).

(** [*tmp] *)
Definition deref (tmp : option string) : Fn unit string :=
  match tmp with Some v => mret v | None => undef EmptyOptional end.

(** [if (auto tmp = getAttVal(node, a))], the value parsed. *)
Definition int_attribute (e : element) (a : string) (default : Z) : Fn unit Z :=
  match getAttVal e a with Some tmp => parseInt tmp | None => mret default end.

(** The same, into an [int]. *)
Definition threshold (e : element) (a : string) (default : Z) : Fn unit Z :=
  match getAttVal e a with Some tmp => v ← parseInt tmp; mret (s32 v) | None => mret default end.

Definition text_attribute (e : element) (a default : string) : string :=
  match getAttVal e a with Some tmp => tmp | None => default end.

(** The block of the [address] attribute: [address], [newNode.address] and
    [newNode.real_address]. *)
Definition address_attribute (e : element) (baseAddress : Z) : Fn unit (Z * Z * Z) :=
  match getAttVal e "address" with
  | Some tmp =>
      v ← parseInt tmp;
      let address := w32 (baseAddress + v) in
      mret (address, address, w32 (w32 (address ≪ 2) + 0x64000000))
  | None => mret (baseAddress, 0, 0)
  end.

(** From [Node newNode = Node();] to the insertion: the new node, and the
    address its children start from. *)
Definition newNode (e : element) (baseName : string) (baseAddress : Z) (vars : gmap string Z)
    : Fn unit (Node * Z) :=
  let prefix := if bool_decide (baseName = EmptyString) then baseName else (baseName ++ ".")%string in
  let name := (prefix ++ text_attribute e "id" EmptyString)%string in
  name ← match substituteVars order name vars with Some n => mret n | None => throw LengthError end;
  let description := text_attribute e "description" EmptyString in
  '(base, address, real_address) ← address_attribute e baseAddress;
  let permission := text_attribute e "permission" EmptyString in
  let mode := text_attribute e "mode" "single" in
  size ← int_attribute e "size" 1;
  mask ← int_attribute e "mask" 0xFFFFFFFF;
  let isModule := bool_decide (getAttVal e "fw_is_module" = Some "true") in
  warn ← threshold e "sw_monitor_warn_min_threshold" (-1);
  warn ← threshold e "sw_monitor_error_min_threshold" warn;
  mret (mk_Node name description EmptyString address real_address permission mode size mask isModule
          None [] 0 warn (-1), base).

(** [nodes->insert(std::make_pair(newNode.name, newNode))] *)
Definition insert_node (n : Node) {R} : M tree_state R unit :=
  modify (λ s, mk_tree (match nodes s !! name n with Some _ => nodes s | None => <[name n := n]> (nodes s) end)
                       (parentNode s)).

(** [if (parentNode) { parentNode->addChild(newNode); newNode.parent =
    parentNode; newNode.level = parentNode->level + 1; }] *)
Definition link_parent (n : Node) {R} : M tree_state R Node :=
  p ← gets parentNode;
  match p with
  | None => mret n
  | Some p =>
      modify (λ s, mk_tree (nodes s) (Some (addChild n p))) ;;
      mret (set_parent (Some (name p)) (level p + 1) n)
  end.

(** The children of [n]: calls with [&n] as the [parentNode]; [n] is a local
    variable. *)
Definition under {R} (n : Node) (m : M tree_state R unit) : M tree_state R unit := λ s,
  let r := m (mk_tree (nodes s) (Some n)) in (r.1, mk_tree (nodes r.2) (parentNode s)).

(** The call [makeTree(node, ..., vars, true)] of the [generate] loop is
    [body]. *)
Fixpoint makeTree (node : element) (baseName : string) (baseAddress : Z) (vars : gmap string Z)
    (isGenerated : bool) : Fn tree_state unit :=
  let body (baseAddress : Z) (vars : gmap string Z) : Fn tree_state unit :=
    '(n, address) ← stateless (newNode node baseName baseAddress vars);
    insert_node n ;;
    n' ← link_parent n;
    match node with
    | Element _ children_ =>
        under n'
          (each_child (λ child, makeTree child (name n) address vars false) children_)
    end in
  if isGenerated then body baseAddress vars
  else
    match getAttVal node "generate" with
    | Some tmp =>
        if bool_decide (tmp = "true") then
          generateSize ← stateless (tmp ← deref (getAttVal node "generate_size"); parseInt tmp);
          generateAddressStep ← stateless (tmp ← deref (getAttVal node "generate_address_step"); parseInt tmp);
          for_each (seqZ 0 generateSize) (λ i,
            generateIdxVar ← stateless (deref (getAttVal node "generate_idx_var"));
            body (w32 (baseAddress + w32 (generateAddressStep * i))) (<[generateIdxVar := s32 i]> vars))
        else body baseAddress vars
    | None => body baseAddress vars
    end.

(** ** The parser *)

Inductive log_level : Type := ERROR | WARN | INFO | DEBUG | TRACE.

Record parser : Type := mk_parser {
  m_xmlFile : string;
  m_logger : log_level;
  m_vars : gmap string Z;
  m_nodes : gmap string Node
}.

Definition XHALXMLParser (xmlFile : string) : parser := mk_parser xmlFile INFO ∅ ∅.

(** What the switch of [setLogLevel] selects. *)
Definition level_of (loglevel : Z) : option log_level :=
  match loglevel with
  | 0 => Some ERROR | 1 => Some WARN | 2 => Some INFO | 3 => Some DEBUG | 4 => Some TRACE | _ => None
  end.

Definition setLogLevel {R} (loglevel : Z) : M parser R unit := modify (λ p,
  mk_parser (m_xmlFile p) (default (m_logger p) (level_of loglevel)) (m_vars p) (m_nodes p)).

(** What Xerces makes of the file: it raised an exception, or it returned a
    document, whose [getDocumentElement()] may be null. *)
Inductive parsed : Type :=
| ParseThrew
| Parsed (root : option element).

(** [initialized]: [XMLPlatformUtils::Initialize()] succeeds.  Without a
    document element [m_root] is what it was: never set, or of a document
    already released. *)
Definition parseXML (initialized : bool) (parseURI : string → parsed) : Fn parser unit :=
  when (negb initialized) (throw (XhalException "XHALParser: initialization failed")) ;;
  file ← gets m_xmlFile;
  match parseURI file with
  | ParseThrew => throw (XhalException "XHALParser: an error occured during parsing")
  | Parsed None => undef Uninitialised
  | Parsed (Some m_root) => λ p,
      let r := makeTree m_root EmptyString 0 (m_vars p) false (mk_tree (m_nodes p) None) in
      (r.1, mk_parser (m_xmlFile p) (m_logger p) (m_vars p) (nodes r.2))
  end.

Definition getNode {R} (nodeName : string) : M parser R (option Node) := gets (λ p, m_nodes p !! nodeName).

(** The body is a comment. *)
Definition getNodeFromAddress {R} (nodeAddress : Z) : M parser R (option Node) := undef MissingReturn.

Definition getAllNodes {R} : M parser R (gmap string Node) := gets m_nodes.
End MakeTree.

(** ** Induction on elements *)
Section ElementInd.
Context (P : element → Prop).
Context (H : ∀ a cs, Forall (λ c, match c with Some e => P e | None => True end) cs → P (Element a cs)).

Fixpoint element_rect' (e : element) : P e :=
  match e with
  | Element a cs =>
      H a cs ((fix go (cs : list (option element)) :
                 Forall (λ c, match c with Some e => P e | None => True end) cs :=
        match cs with
        | [] => List.Forall_nil _
        | Some c :: cs => @List.Forall_cons _ _ (Some c) _ (element_rect' c) (go cs)
        | None :: cs => @List.Forall_cons _ _ None _ I (go cs)
        end) cs)
  end.
End ElementInd.

(** ** What the table declares

    [declares e base address vars generated n]: the element [e], below a node
    named [base] at [address], declares [n] - itself, once for each index of
    its [generate] loop, or through one of its children. *)
Definition value_of {A} (m : Fn unit A) : option A := match m tt with (Next a, _) => Some a | _ => None end.

Definition generate_size (e : element) : option Z :=
  value_of (tmp ← deref (getAttVal e "generate_size"); parseInt tmp).
Definition generate_step (e : element) : option Z :=
  value_of (tmp ← deref (getAttVal e "generate_address_step"); parseInt tmp).

Section Declares.
Context (order : gmap string Z → list (string * Z)).

Inductive declares : element → string → Z → gmap string Z → bool → Node → Prop :=
| declares_self e base a vars n a' :
    value_of (newNode order e base a vars) = Some (n, a') → declares e base a vars true n
| declares_child att cs base a vars m a' c n :
    value_of (newNode order (Element att cs) base a vars) = Some (m, a') →
    Some c ∈ cs → declares c (name m) a' vars false n → declares (Element att cs) base a vars true n
| declares_generated e base a vars size step x i n :
    getAttVal e "generate" = Some "true" → generate_size e = Some size → generate_step e = Some step →
    getAttVal e "generate_idx_var" = Some x → 0 ≤ i < size →
    declares e base (w32 (a + w32 (step * i))) (<[x := s32 i]> vars) true n →
    declares e base a vars false n
| declares_plain e base a vars n :
    getAttVal e "generate" ≠ Some "true" → declares e base a vars true n → declares e base a vars false n.

(** *** A statement that collects the nodes of [D]

    Whatever its outcome the nodes that were there stay and every other one
    is in [D] under its own name; when it completes each name of [D] is
    there. *)
Definition collects (D : Node → Prop) (m : Fn tree_state unit) : Prop := ∀ s,
  (∀ nm n, nodes s !! nm = Some n → nodes (m s).2 !! nm = Some n) ∧
  (∀ nm n, nodes (m s).2 !! nm = Some n → nodes s !! nm = Some n ∨ D n ∧ name n = nm) ∧
  ((m s).1 = Next tt → ∀ n, D n → is_Some (nodes (m s).2 !! name n)).

Lemma collects_ext D D' m : (∀ n, D n ↔ D' n) → collects D m → collects D' m.
Proof.
  intros HD Hm s. destruct (Hm s) as (Hk & Hs & Hc). split_and!; [done| |].
  - intros nm n Hn. destruct (Hs _ _ Hn) as [|[]]; [by left|]. right. by rewrite <- HD.
  - intros E n Hn. apply Hc; [done|]. by apply HD.
Qed.

Lemma collects_nothing D m : (∀ s, nodes (m s).2 = nodes s) → (∀ s, (m s).1 ≠ Next tt) → collects D m.
Proof. intros Hn Hf s. rewrite Hn. split_and!; [done|by left|]. intros E. by destruct (Hf s). Qed.

Lemma collects_skip : collects (λ _, False) skip.
Proof. intros s. cbn. split_and!; [done|by left|done]. Qed.

Lemma collects_bind D D' m m' : collects D m → collects D' m' → collects (λ n, D n ∨ D' n) (m ;; m').
Proof.
  intros Hm Hm' s. destruct (Hm s) as (Hk & Hs & Hc). unfold mbind, M_bind.
  destruct (m s) as [[[]| | | |] s1] eqn:E; cbn [fst snd] in *.
  2-5: split_and!; [done| |done]; intros nm n Hn; destruct (Hs _ _ Hn) as [|[]]; tauto.
  destruct (Hm' s1) as (Hk' & Hs' & Hc'). split_and!.
  - eauto.
  - intros nm n Hn. destruct (Hs' _ _ Hn) as [H1|[]]; [|tauto]. destruct (Hs _ _ H1) as [|[]]; tauto.
  - intros Hr n [Hn|Hn]; [|by apply Hc']. destruct (Hc eq_refl n Hn) as [n' Hn']. exists n'. by apply Hk'.
Qed.

Lemma collects_stateless {A} (x : Fn unit A) D (k : A → Fn tree_state unit) :
  (∀ a, value_of x = Some a → collects D (k a)) → collects D (stateless x ≫= k).
Proof.
  intros Hk. unfold value_of in Hk. destruct (x tt) as [[a| | | |] []] eqn:E.
  1: { assert ((stateless x ≫= k) = k a) as -> by
         (unfold mbind, M_bind, stateless; rewrite E; reflexivity). by apply Hk. }
  all: apply collects_nothing; intros s; unfold mbind, M_bind, stateless; by rewrite E.
Qed.

Lemma collects_for_each {X} (D : X → Node → Prop) (l : list X) (f : X → Fn tree_state unit) :
  (∀ x, collects (D x) (f x)) → collects (λ n, ∃ x, x ∈ l ∧ D x n) (for_each l f).
Proof.
  intros Hf. induction l as [|x l IH].
  - eapply collects_ext, collects_skip. intros n. split; [done|]. intros (x & Hx & _). by apply elem_of_nil in Hx.
  - eapply collects_ext, (collects_bind _ _ _ _ (Hf x) IH). intros n. split.
    + intros [Hx|(y & Hy & HD)]; [exists x|exists y]; (split; [|done]); apply elem_of_cons; tauto.
    + intros (y & [->|Hy]%elem_of_cons & HD); eauto.
Qed.

Lemma collects_each (D : element → Node → Prop) cs (f : element → Fn tree_state unit) :
  Forall (λ c, match c with Some e => collects (D e) (f e) | None => True end) cs →
  collects (λ n, ∃ e, Some e ∈ cs ∧ D e n) (each_child f cs).
Proof.
  induction 1 as [|[c|] cs Hc _ IH].
  - eapply collects_ext, collects_skip. intros n. split; [done|]. intros (x & Hx & _). by apply elem_of_nil in Hx.
  - eapply collects_ext, (collects_bind _ _ _ _ Hc IH). intros n. split.
    + intros [Hx|(y & Hy & HD)]; [exists c|exists y]; (split; [|done]); apply elem_of_cons; tauto.
    + intros (y & [[= ->]|Hy]%elem_of_cons & HD); eauto.
  - eapply collects_ext, IH. intros n. split; intros (y & Hy & HD); exists y; (split; [|done]).
    + apply elem_of_cons. by right.
    + by apply elem_of_cons in Hy as [|].
Qed.

Lemma collects_insert n0 : collects (eq n0) (insert_node n0).
Proof.
  intros s. cbn. destruct (nodes s !! name n0) as [m|] eqn:E; split_and!.
  - done.
  - by left.
  - intros _ n <-. by exists m.
  - intros nm n Hn. destruct (decide (nm = name n0)) as [->|]; [congruence|]. by rewrite lookup_insert_ne.
  - intros nm n. destruct (decide (nm = name n0)) as [->|].
    + rewrite lookup_insert_eq. intros [= <-]. by right.
    + rewrite lookup_insert_ne by done. by left.
  - intros _ n <-. rewrite lookup_insert_eq. by eexists.
Qed.

(** The children below their parent. *)
Lemma collects_under D n0 (m : Fn tree_state unit) : collects D m →
  collects D (n' ← link_parent n0; under n' m).
Proof.
  intros Hm s. unfold link_parent. rewrite bind_bind. erewrite bind_next by reflexivity. cbn beta.
  destruct (parentNode s) as [p|].
  - rewrite bind_bind. erewrite bind_next by reflexivity. cbn beta. erewrite bind_next by reflexivity.
    cbn [under fst snd nodes]. apply (Hm (mk_tree (nodes s) _)).
  - erewrite bind_next by reflexivity. apply (Hm (mk_tree (nodes s) _)).
Qed.
End Declares.

(** ** makeTree, by induction on the document *)
Section Trees.
Context (order : gmap string Z → list (string * Z)).

Lemma makeTree_generated att cs base a vars : makeTree order (Element att cs) base a vars true =
  ('(n, a') ← stateless (newNode order (Element att cs) base a vars);
   insert_node n ;;
   n' ← link_parent n;
   under n' (each_child (λ c, makeTree order c (name n) a' vars false) cs)).
Proof. reflexivity. Qed.

(** The code's own recursive call. *)
Lemma makeTree_plain e base a vars : makeTree order e base a vars false =
  match getAttVal e "generate" with
  | Some tmp =>
      if bool_decide (tmp = "true") then
        size ← stateless (tmp ← deref (getAttVal e "generate_size"); parseInt tmp);
        step ← stateless (tmp ← deref (getAttVal e "generate_address_step"); parseInt tmp);
        for_each (seqZ 0 size) (λ i,
          x ← stateless (deref (getAttVal e "generate_idx_var"));
          makeTree order e base (w32 (a + w32 (step * i))) (<[x := s32 i]> vars) true)
      else makeTree order e base a vars true
  | None => makeTree order e base a vars true
  end.
Proof. by destruct e. Qed.

Lemma makeTree_not_generated e base a vars : getAttVal e "generate" ≠ Some "true" →
  makeTree order e base a vars false = makeTree order e base a vars true.
Proof.
  intros Hg. rewrite makeTree_plain. destruct (getAttVal e "generate"); [|done].
  rewrite bool_decide_false by congruence. done.
Qed.

Lemma declares_plain_iff e base a vars n : getAttVal e "generate" ≠ Some "true" →
  declares order e base a vars true n ↔ declares order e base a vars false n.
Proof.
  intros Hg. split; [by apply declares_plain|]. intros Hd. inversion Hd; subst; [done|done].
Qed.

Lemma collects_generated e :
  (∀ base a vars, collects (declares order e base a vars true) (makeTree order e base a vars true)) →
  ∀ base a vars, collects (declares order e base a vars false) (makeTree order e base a vars false).
Proof.
  intros He base a vars. destruct (decide (getAttVal e "generate" = Some "true")) as [Hg|Hg].
  2: { rewrite makeTree_not_generated by done. eapply collects_ext, He. intros n. by apply declares_plain_iff. }
  rewrite makeTree_plain, Hg, bool_decide_true by done.
  apply collects_stateless. intros size Hsize. change (generate_size e = Some size) in Hsize.
  apply collects_stateless. intros step Hstep. change (generate_step e = Some step) in Hstep.
  eapply collects_ext, (collects_for_each (λ i n, ∃ x, getAttVal e "generate_idx_var" = Some x ∧
    declares order e base (w32 (a + w32 (step * i))) (<[x := s32 i]> vars) true n)).
  - intros n. split.
    + intros (i & Hi%elem_of_seqZ & x & Hx & Hn). apply (declares_generated _ _ _ _ _ size step x i); (done || lia).
    + intros Hn. inversion Hn; subst; [|done]. simplify_eq.
      exists i. split; [apply elem_of_seqZ; lia|eauto].
  - intros i. apply collects_stateless. intros x Hx.
    assert (getAttVal e "generate_idx_var" = Some x) as Hx'
      by (destruct (getAttVal e "generate_idx_var"); cbn in Hx; congruence).
    eapply collects_ext, (He base _ _). intros n. split; [eauto|].
    intros (y & Hy & Hn). rewrite Hx' in Hy. by injection Hy as ->.
Qed.

Lemma collects_makeTree e base a vars g :
  collects (declares order e base a vars g) (makeTree order e base a vars g).
Proof.
  revert base a vars g. induction e as [att cs IH] using element_rect'.
  assert (∀ base a vars, collects (declares order (Element att cs) base a vars true)
    (makeTree order (Element att cs) base a vars true)) as Hself.
  { intros base a vars. rewrite makeTree_generated. apply collects_stateless. intros [m a'] Hm.
    eapply collects_ext, (collects_bind _ _ _ _ (collects_insert m)), collects_under,
      (collects_each (λ c, declares order c (name m) a' vars false)).
    - intros n. split.
      + intros [<-|(c & Hc & Hn)]; [by eapply declares_self|by eapply declares_child].
      + intros Hn. inversion Hn; subst; simplify_eq; [by left|right; eauto].
    - eapply Forall_impl; [exact IH|]. intros [c|] Hc; [apply Hc|done]. }
  intros base a vars []; [apply Hself|]. by apply collects_generated.
Qed.

(** ** When the call completes *)
Definition reads_int (e : element) (a : string) : bool :=
  match getAttVal e a with Some tmp => bool_decide (is_Some (value_of (parseInt tmp))) | None => true end.

(** Every integer of the table can be parsed and every loop has its three
    attributes. *)
Fixpoint readable (e : element) : bool :=
  forallb (reads_int e) ["address"; "size"; "mask"; "sw_monitor_warn_min_threshold";
                         "sw_monitor_error_min_threshold"] &&
  (if bool_decide (getAttVal e "generate" = Some "true") then
     bool_decide (is_Some (generate_size e) ∧ is_Some (generate_step e) ∧
                  is_Some (getAttVal e "generate_idx_var"))
   else true) &&
  match e with
  | Element _ cs => forallb (λ c, match c with Some e => readable e | None => true end) cs
  end.

Definition completes (m : Fn tree_state unit) : Prop := ∀ s, ∃ s', m s = (Next tt, s').

Lemma completes_bind m m' : completes m → completes m' → completes (m ;; m').
Proof. intros Hm Hm' s. destruct (Hm s) as [s1 H1]. erewrite bind_next by done. apply Hm'. Qed.

Lemma completes_stateless {A} (x : Fn unit A) a (k : A → Fn tree_state unit) :
  value_of x = Some a → completes (k a) → completes (stateless x ≫= k).
Proof.
  unfold value_of. intros Hx Hk s. destruct (x tt) as [[] []] eqn:E; simplify_eq.
  erewrite bind_next; [apply Hk|]. unfold stateless. by rewrite E.
Qed.

Lemma completes_for_each {X} (l : list X) (f : X → Fn tree_state unit) :
  (∀ x, completes (f x)) → completes (for_each l f).
Proof.
  intros Hf. induction l as [|x l IH]; [by intros s; eexists|]. by apply completes_bind.
Qed.

Lemma completes_under n0 (m : Fn tree_state unit) : completes m → completes (n' ← link_parent n0; under n' m).
Proof.
  intros Hm s. unfold link_parent. rewrite bind_bind. erewrite bind_next by reflexivity. cbn beta.
  assert (∀ n t, ∃ t', under n m t = (Next tt, t')) as Hu.
  { intros n t. unfold under. destruct (Hm (mk_tree (nodes t) (Some n))) as [t' ->]. by eexists. }
  destruct (parentNode s) as [p|].
  - rewrite bind_bind. erewrite bind_next by reflexivity. cbn beta. by erewrite bind_next by reflexivity.
  - by erewrite bind_next by reflexivity.
Qed.

Lemma value_of_bind {A B} (m : Fn unit A) (k : A → Fn unit B) :
  value_of (m ≫= k) = value_of m ≫= λ a, value_of (k a).
Proof. unfold value_of, mbind, M_bind. by destruct (m tt) as [[] []]. Qed.

Lemma value_of_ret {A} (a : A) : value_of (mret a) = Some a.
Proof. reflexivity. Qed.

Lemma reads_int_spec e a : reads_int e a = true → getAttVal e a = None ∨
  ∃ tmp v, getAttVal e a = Some tmp ∧ value_of (parseInt tmp) = Some v.
Proof.
  unfold reads_int. destruct (getAttVal e a) as [tmp|]; [|by left].
  intros [v Hv]%bool_decide_eq_true. right. eauto.
Qed.

Lemma int_attribute_total e a d : reads_int e a = true → is_Some (value_of (int_attribute e a d)).
Proof. unfold int_attribute. intros [->|(tmp & v & -> & ->)]%reads_int_spec; by eexists. Qed.

Lemma threshold_total e a d : reads_int e a = true → is_Some (value_of (threshold e a d)).
Proof.
  unfold threshold. intros [->|(tmp & v & -> & Hv)]%reads_int_spec; [by eexists|].
  rewrite value_of_bind, Hv. by eexists.
Qed.

Lemma newNode_total e base a vars :
  forallb (reads_int e) ["address"; "size"; "mask"; "sw_monitor_warn_min_threshold";
                         "sw_monitor_error_min_threshold"] = true →
  is_Some (value_of (newNode order e base a vars)).
Proof.
  cbn [forallb]. rewrite !andb_true_iff. intros (Ha & Hs & Hm & Hw & He & _). unfold newNode.
  rewrite value_of_bind. edestruct substituteVars_total as [nm ->]. rewrite value_of_ret. cbn [mbind option_bind].
  rewrite value_of_bind.
  assert (is_Some (value_of (address_attribute e a))) as [[[b ad] ra] ->].
  { unfold address_attribute. destruct (reads_int_spec _ _ Ha) as [->|(tmp & v & -> & Hv)]; [by eexists|].
    rewrite value_of_bind, Hv. by eexists. }
  cbn [mbind option_bind]. rewrite value_of_bind.
  destruct (int_attribute_total e "size" 1 Hs) as [? ->]. cbn [mbind option_bind]. rewrite value_of_bind.
  destruct (int_attribute_total e "mask" 0xFFFFFFFF Hm) as [? ->]. cbn [mbind option_bind]. rewrite value_of_bind.
  destruct (threshold_total e "sw_monitor_warn_min_threshold" (-1) Hw) as [w ->]. cbn [mbind option_bind].
  rewrite value_of_bind.
  destruct (threshold_total e "sw_monitor_error_min_threshold" w He) as [? ->]. by eexists.
Qed.

(** A readable table is gone through to its end. *)
Lemma makeTree_completes e : readable e = true → ∀ base a vars g, completes (makeTree order e base a vars g).
Proof.
  induction e as [att cs IH] using element_rect'. intros Hr.
  assert (Hr' := Hr). change (readable (Element att cs)) with
    (forallb (reads_int (Element att cs)) ["address"; "size"; "mask"; "sw_monitor_warn_min_threshold";
       "sw_monitor_error_min_threshold"] &&
     (if bool_decide (getAttVal (Element att cs) "generate" = Some "true") then
        bool_decide (is_Some (generate_size (Element att cs)) ∧ is_Some (generate_step (Element att cs)) ∧
                     is_Some (getAttVal (Element att cs) "generate_idx_var"))
      else true) && forallb (λ c, match c with Some e => readable e | None => true end) cs) in Hr'.
  rewrite !andb_true_iff in Hr'. destruct Hr' as [[Hi Hg] Hc].
  assert (∀ base a vars, completes (makeTree order (Element att cs) base a vars true)) as Hself.
  { intros base a vars. rewrite makeTree_generated.
    destruct (newNode_total (Element att cs) base a vars Hi) as [[m a'] Hm].
    eapply completes_stateless; [exact Hm|]. cbv beta iota. apply completes_bind; [by intros s; eexists|].
    apply completes_under. clear -IH Hc. induction IH as [|c cs Hc' _ IHcs]; [by intros s; eexists|].
    cbn [forallb] in Hc. apply andb_true_iff in Hc as [Hc Hcs]. destruct c as [c|]; cbn [each_child].
    - apply completes_bind; [by apply Hc'|]. by apply IHcs.
    - by apply IHcs. }
  intros base a vars []; [apply Hself|].
  destruct (decide (getAttVal (Element att cs) "generate" = Some "true")) as [Hgen|Hgen];
    [|rewrite makeTree_not_generated; [apply Hself|done]].
  rewrite makeTree_plain, Hgen, (bool_decide_true ("true" = "true")) by done.
  rewrite (bool_decide_true (_ = Some "true")) in Hg by done.
  apply bool_decide_eq_true in Hg as ([size Hs] & [step Hst] & [x Hx]).
  apply (completes_stateless _ size _ Hs), (completes_stateless _ step _ Hst).
  apply completes_for_each. intros i. eapply completes_stateless; [|apply Hself].
  rewrite Hx. reflexivity.
Qed.
End Trees.

(** ** The shape of a declared node *)
Section Shape.
Context (order : gmap string Z → list (string * Z)).

Lemma extract_word base s v : 0 ≤ base → extract base s = Some v → word 32 v.
Proof.
  intros Hb. unfold extract. destruct (skip_space s) as [|c t]; [done|].
  destruct (split_sign (String c t)) as [neg u]. set (x := number _ _). intros [= <-].
  assert (0 ≤ x) by (apply number_nonneg, leading_digits_nonneg; done).
  destruct (Z.ltb_spec (2 ^ 32 - 1) x); [done|]. destruct neg; [apply wrap_word; lia|].
  unfold word. lia.
Qed.

Lemma parseInt_word s v : value_of (parseInt s) = Some v → word 32 v.
Proof.
  unfold parseInt, value_of. destruct (contains "0x" s); [|destruct (contains "0b" s)].
  - destruct (extract 16 s) as [x|] eqn:E; [|done]. intros [= <-]. by eapply (extract_word 16).
  - destruct (stoi_2 s) as [e|x]; [done|]. intros [= <-]. apply wrap_word. lia.
  - destruct (extract 10 s) as [x|] eqn:E; [|done]. intros [= <-]. by eapply (extract_word 10).
Qed.

(** What every stored node has in common. *)
Definition flat (n : Node) : Prop :=
  children n = [] ∧ parent n = None ∧ level n = 0 ∧ vhdlname n = EmptyString ∧ error_min_value n = -1 ∧
  word 32 (address n) ∧ word 32 (mask n) ∧ word 32 (node_size n) ∧
  (address n = 0 ∧ real_address n = 0 ∨ real_address n = (4 * address n + 0x64000000) mod 2 ^ 32).

Lemma value_of_bind_Some {A B} (m : Fn unit A) (k : A → Fn unit B) b : value_of (m ≫= k) = Some b →
  ∃ a, value_of m = Some a ∧ value_of (k a) = Some b.
Proof. rewrite value_of_bind. destruct (value_of m) as [a|]; [eauto|done]. Qed.

Lemma real_address_eq x : w32 (w32 (x ≪ 2) + 0x64000000) = (4 * x + 0x64000000) mod 2 ^ 32.
Proof.
  unfold wrap. rewrite Z.shiftl_mul_pow2 by lia. rewrite Zplus_mod_idemp_l. f_equal. lia.
Qed.

Lemma address_attribute_shape e a x ad ra : value_of (address_attribute e a) = Some (x, ad, ra) →
  word 32 ad ∧ (ad = 0 ∧ ra = 0 ∨ ra = (4 * ad + 0x64000000) mod 2 ^ 32).
Proof.
  unfold address_attribute. destruct (getAttVal e "address").
  - intros (v & _ & Hv)%value_of_bind_Some. injection Hv as <- <- <-.
    split; [apply wrap_word; lia|]. right. apply real_address_eq.
  - intros [= <- <- <-]. split; [done|by left].
Qed.

Lemma int_attribute_word e k d v : word 32 d → value_of (int_attribute e k d) = Some v → word 32 v.
Proof.
  intros Hd. unfold int_attribute. destruct (getAttVal e k); [apply parseInt_word|]. by intros [= <-].
Qed.

Lemma newNode_flat e base a vars n a' : value_of (newNode order e base a vars) = Some (n, a') → flat n.
Proof.
  unfold newNode. intros (nm & _ & H)%value_of_bind_Some.
  apply value_of_bind_Some in H as ([[x ad] ra] & Had & H).
  apply value_of_bind_Some in H as (sz & Hsz & H). apply value_of_bind_Some in H as (mk & Hmk & H).
  apply value_of_bind_Some in H as (w & _ & H). apply value_of_bind_Some in H as (w' & _ & H).
  apply (f_equal (option_map fst)) in H. cbn in H. injection H as <-.
  apply address_attribute_shape in Had as [? ?].
  apply int_attribute_word in Hsz; [|done]. apply int_attribute_word in Hmk; [|done]. by split_and!.
Qed.

Lemma declares_flat e base a vars g n : declares order e base a vars g n → flat n.
Proof. induction 1; [by eapply newNode_flat|done..]. Qed.
End Shape.

(** ** The parsed table *)
Section Table.
Context (order : gmap string Z → list (string * Z)) (parseURI : string → parsed).

Lemma getNode_table p root : m_nodes p = ∅ → parseURI (m_xmlFile p) = Parsed (Some root) →
  readable root = true → ∃ p', parseXML order true parseURI p = (Next tt, p') ∧
    ∀ nm, ∃ found, getNode (R:=Empty_set) nm p' = (Next found, p') ∧
      match found with
      | Some n => name n = nm ∧ declares order root EmptyString 0 (m_vars p) false n
      | None => ∀ n, declares order root EmptyString 0 (m_vars p) false n → name n ≠ nm
      end.
Proof.
  intros Hn Hp Hr. destruct (makeTree_completes order root Hr EmptyString 0 (m_vars p) false
    (mk_tree (m_nodes p) None)) as [s' Hs'].
  eexists. split.
  { unfold parseXML. erewrite bind_next by reflexivity. erewrite bind_next by reflexivity.
    rewrite Hp. cbv zeta. rewrite Hs'. reflexivity. }
  destruct (collects_makeTree order root EmptyString 0 (m_vars p) false (mk_tree (m_nodes p) None))
    as (_ & Hs & Hc). rewrite Hs' in Hs, Hc. cbn [fst snd nodes] in *. rewrite Hn in Hs.
  intros nm. eexists. split; [reflexivity|]. cbn [m_nodes]. destruct (nodes s' !! nm) as [n|] eqn:E.
  - destruct (Hs _ _ E) as [He|[]]; [by rewrite lookup_empty in He|done].
  - intros n Hd <-. destruct (Hc eq_refl n Hd). congruence.
Qed.

(** C19: A readable document is parsed to the end, and [getNode] then finds
    exactly the declared names, with a node the document declares under that
    name. *)
Theorem getNode_declared p root : m_nodes p = ∅ → parseURI (m_xmlFile p) = Parsed (Some root) →
  readable root = true → ∃ p', parseXML order true parseURI p = (Next tt, p') ∧
    ∀ nm, ∃ found, getNode (R:=Empty_set) nm p' = (Next found, p') ∧
      match found with
      | Some n => name n = nm ∧ declares order root EmptyString 0 (m_vars p) false n
      | None => ∀ n, declares order root EmptyString 0 (m_vars p) false n → name n ≠ nm
      end.
Proof. apply getNode_table. Qed.

(** C20: Whatever the outcome of [parseXML], a node it stored is under its own
    name and flat: no children, no parent, level 0, the error threshold
    never set, and the real address the one the registers are accessed at. *)
Theorem stored_nodes_flat p r p' nm n initialized : m_nodes p = ∅ →
  parseXML order initialized parseURI p = (r, p') → m_nodes p' !! nm = Some n →
  name n = nm ∧ flat n.
Proof.
  intros Hn. unfold parseXML. destruct initialized; cbn [negb when].
  2: { intros [= _ <-]. by rewrite Hn, lookup_empty. }
  erewrite bind_next by reflexivity. erewrite bind_next by reflexivity.
  destruct (parseURI (m_xmlFile p)) as [|[root|]]; [by intros [= _ <-]; rewrite Hn, lookup_empty| |
    by intros [= _ <-]; rewrite Hn, lookup_empty].
  intros [= _ <-]. cbn [m_nodes]. intros Hl.
  destruct (collects_makeTree order root EmptyString 0 (m_vars p) false (mk_tree (m_nodes p) None))
    as (_ & Hs & _). destruct (Hs _ _ Hl) as [He|[Hd Hname]].
  - cbn [nodes] in He. by rewrite Hn, lookup_empty in He.
  - split; [done|]. by eapply declares_flat.
Qed.
End Table.

(** ** A table to parse *)
Module TableExamples.

Definition attributes (l : list (string * string)) (a : string) : string :=
  match find (λ p, bool_decide (p.1 = a)) l with Some p => p.2 | None => EmptyString end.

(** Two OptoHybrids with one masked register each. *)
Definition table : element :=
  Element (attributes [("id", "GEM_AMC"); ("address", "0x0")])
    [None;
     Some (Element (attributes [("id", "OH${OH_IDX}"); ("address", "0x00400000"); ("generate", "true");
                                ("generate_size", "2"); ("generate_address_step", "0x00010000");
                                ("generate_idx_var", "OH_IDX")])
       [Some (Element (attributes [("id", "STATUS"); ("address", "0x6"); ("mask", "0x0000ff00");
                                   ("permission", "r"); ("sw_monitor_error_min_threshold", "5")]) [])])].

Definition parsed_table : parser :=
  (parseXML map_to_list true (λ _, Parsed (Some table)) (XHALXMLParser "table.xml")).2.

Lemma getNode_declared_witness :
  readable table = true ∧
  (∃ p', parseXML map_to_list true (λ _, Parsed (Some table)) (XHALXMLParser "table.xml") = (Next tt, p') ∧
    ∀ nm, ∃ found, getNode (R:=Empty_set) nm p' = (Next found, p') ∧
      match found with
      | Some n => name n = nm ∧ declares map_to_list table EmptyString 0 ∅ false n
      | None => ∀ n, declares map_to_list table EmptyString 0 ∅ false n → name n ≠ nm
      end) ∧
  match m_nodes parsed_table !! "GEM_AMC.OH1.STATUS" with
  | Some n => (address n, real_address n, mask n, warn_min_value n)
  | None => (0, 0, 0, 0)
  end = (0x00410006, 0x65040018, 0xff00, 5).
Proof.
  split; [vm_compute; reflexivity|]. split; [|vm_compute; reflexivity].
  apply (getNode_declared map_to_list (λ _, Parsed (Some table)) (XHALXMLParser "table.xml") table);
    [reflexivity|reflexivity|vm_compute; reflexivity].
Defined.

Lemma stored_nodes_flat_witness :
  ∃ n, m_nodes parsed_table !! "GEM_AMC.OH0" = Some n ∧ name n = "GEM_AMC.OH0" ∧ flat n.
Proof.
  destruct (m_nodes parsed_table !! "GEM_AMC.OH0") as [n|] eqn:E; [|vm_compute in E; discriminate].
  exists n. split; [reflexivity|].
  apply (stored_nodes_flat map_to_list (λ _, Parsed (Some table)) (XHALXMLParser "table.xml")
    (Next tt) parsed_table "GEM_AMC.OH0" n true); [reflexivity| |exact E].
  apply injective_projections; [vm_compute; reflexivity|reflexivity].
Defined.
End TableExamples.
