(* ===== verification/XhalInterface.v ===== *)
(** * XhalInterface: registers by name

    [XHALInterface] of [src/common/XHALInterface.cpp]: it resolves a register
    name in the address table and reads or writes the register, or the field
    its mask selects, through the remote memory service. *)

From S2P Require Import Prelude Ipbus RpcMsg CText XmlText XmlParser.

(** ** The object

    [rpc], [req] and [rsp] are the members of [rstate]; the others are here.
    [m_parser] is an uninitialised pointer until [init]. *)
Record xhal : Type := mk_xhal {
  m_board_domain_name : string;
  m_address_table_filename : string;
  m_parser : option parser;
  m_node : Node;
  m_log : option log_level
}.

Definition XHALInterface (board_domain_name address_table_filename : string) : xhal :=
  mk_xhal board_domain_name address_table_filename None empty_Node None.

Section Interface.
Context {L : RpcLib}.

Definition interface {R} (f : xhal → xhal) : M (rstate xhal) R unit := modify (λ s, with_mem (f (mem s)) s).
Definition set_parser (p : option parser) (x : xhal) : xhal :=
  mk_xhal (m_board_domain_name x) (m_address_table_filename x) p (m_node x) (m_log x).
Definition set_node (n : Node) (x : xhal) : xhal :=
  mk_xhal (m_board_domain_name x) (m_address_table_filename x) (m_parser x) n (m_log x).
Definition set_log (l : log_level) (x : xhal) : xhal :=
  mk_xhal (m_board_domain_name x) (m_address_table_filename x) (m_parser x) (m_node x) (Some l).

(** [m_parser->m()] *)
Definition parser_call {A} (m : Fn parser A) : Fn (rstate xhal) A := λ s,
  match m_parser (mem s) with
  | None => (Undef Uninitialised, s)
  | Some p => let r := m p in (r.1, with_mem (set_parser (Some r.2) (mem s)) s)
  end.

(** The handlers of [STANDARD_CATCH] ([XHALInterface.h]) *)
Definition interface_catch {A} (e : exn) : Fn (rstate xhal) A :=
  match e with
  | NotConnectedException m | RPCErrorException m | RPCException m | ConnectionFailedException m =>
      t ← strcat (Literal "RPC exception: ") m; throw (XhalException t)
  | BadKeyException k =>
      t ← strcat (Literal "RPC exception (most probably remote register not accessible): ") k;
      throw (XhalException t)
  | _ => throw e
  end.

Definition interface_assert (x : bool) : Fn (rstate xhal) unit :=
  when (negb x) (throw (XhalException "ASSERT failure")).

(** [rpc.connect(m_board_domain_name)], [rpc.load_module(...)] *)
Definition connect (host : string) : Fn (rstate xhal) unit := λ s,
  let r := svc_connect host (rpc s) in
  (match r.1 with Ok _ => Next tt | Err e => raise e end, mk_rstate r.2 (req s) (rsp s) (mem s)).
Definition load_module (name version : string) : Fn (rstate xhal) bool := λ s,
  let r := svc_load_module name version (rpc s) in
  (match r.1 with Ok b => Next b | Err e => raise e end, mk_rstate r.2 (req s) (rsp s) (mem s)).

Definition init (order : gmap string Z → list (string * Z)) (initialized : bool) (parseURI : string → parsed)
    : Fn (rstate xhal) unit :=
  interface (set_log INFO) ;;
  x ← gets mem;
  interface (set_parser (Some (XHALXMLParser (m_address_table_filename x)))) ;;
  parser_call (setLogLevel 2) ;;
  parser_call (parseXML order initialized parseURI) ;;
  x ← gets mem;
  try_catch (connect (m_board_domain_name x)) (λ e,
    match e with
    | ConnectionFailedException m => t ← strcat (Literal "RPC exception: ") m; throw (XhalException t)
    | RPCException m | NotConnectedException m | RPCErrorException m =>
        t ← strcat (Literal "RPC exception: ") m; throw (XhalException t)
    | _ => throw e
    end).

Definition loadModule (module_name module_version : string) : Fn (rstate xhal) unit :=
  try_catch (b ← load_module module_name module_version; interface_assert b) interface_catch.

(** The switch; [m_logger] and [m_parser] are set by [init]. *)
Definition interface_setLogLevel (loglevel : Z) : Fn (rstate xhal) unit :=
  match level_of loglevel with
  | None => skip
  | Some l =>
      x ← gets mem;
      guard_ub (bool_decide (is_Some (m_log x))) Uninitialised ;;
      interface (set_log l) ;;
      parser_call (setLogLevel loglevel)
  end.

(** From the test of the [error] key to the end of [readReg(address)]. *)
Definition read_result : Fn (rstate xhal) Z :=
  e ← get_key_exists "error";
  if (e : bool) then throw (XhalException "Error during register access")
  else
    try_catch (
      n ← get_word_array_size "data";
      interface_assert (n =? 1) ;;
      l ← get_words "data";
      match l with
      | [result] => mret result
      | [] => undef Uninitialised
      | _ => undef OutOfBounds
      end) interface_catch.

(** [readReg(uint32_t address)] *)
Definition readReg_address (address : Z) : Fn (rstate xhal) Z :=
  new_req "memory.read" ;;
  set_word "address" address ;;
  set_word "count" 1 ;;
  try_catch call_method interface_catch ;;
  read_result.

(** [for (int i = 0; i < 32; i++) if (mask & 1) break; else { mask = mask >> 1;
    result = result >> 1; }] *)
Fixpoint shift_down (n : nat) (mask result : Z) : Z :=
  match n with
  | O => result
  | S n => if Z.land mask 1 =? 1 then result else shift_down n (mask ≫ 1) (result ≫ 1)
  end.

(** The same loop in [writeReg]: [shift_amount]. *)
Fixpoint shift_amount (n : nat) (mask : Z) (amount : Z) : Z :=
  match n with
  | O => amount
  | S n => if Z.land mask 1 =? 1 then amount else shift_amount n (mask ≫ 1) (amount + 1)
  end.

(** [throw xhal::utils::Exception(strcat("XHAL XML exception: can't find node",
    regName.c_str()))] *)
Definition no_node {A} (regName : string) : Fn (rstate xhal) A :=
  t ← strcat (Literal "XHAL XML exception: can't find node") regName;
  throw (XhalException t).

(** [readReg(std::string regName)]; the request and its answer are the text
    of [readReg(address)]. *)
Definition readReg (regName : string) : Fn (rstate xhal) Z :=
  t_node ← parser_call (getNode regName);
  match t_node with
  | Some n =>
      interface (set_node n) ;;
      m_node ← gets (λ s, m_node (mem s));
      new_req "memory.read" ;;
      set_word "address" (real_address m_node) ;;
      set_word "count" 1 ;;
      try_catch call_method interface_catch ;;
      result ← read_result;
      mret (shift_down 32 (mask m_node) (Z.land result (mask m_node)))
  | None => no_node regName
  end.

(** [if (rsp.get_key_exists("error")) throw ...] *)
Definition throw_if_error : Fn (rstate xhal) unit :=
  e ← get_key_exists "error";
  when e (throw (XhalException "Error during register access")).

Definition writeReg (regName : string) (value : Z) : Fn (rstate xhal) unit :=
  t_node ← parser_call (getNode regName);
  match t_node with
  | Some n =>
      interface (set_node n) ;;
      m_node ← gets (λ s, m_node (mem s));
      if mask m_node =? 0xFFFFFFFF then
        new_req "memory.write" ;;
        set_word "address" (real_address m_node) ;;
        set_word "count" 1 ;;
        set_word "data" value ;;
        try_catch call_method interface_catch ;;
        throw_if_error
      else
        current_val ← readReg_address (real_address m_node);
        let amount := shift_amount 32 (mask m_node) 0 in
        guard_ub (amount <? 32) ShiftCount ;;
        let val_to_write := w32 (value ≪ amount) in
        let val_to_write := Z.lor (Z.land val_to_write (mask m_node))
                                  (Z.land current_val (Z.lxor (mask m_node) 0xFFFFFFFF)) in
        new_req "memory.write" ;;
        set_word "address" (real_address m_node) ;;
        set_req (msg_set_word_array "data" 1 [val_to_write]) ;;
        try_catch call_method interface_catch ;;
        throw_if_error
  | None => no_node regName
  end.
End Interface.

(** ** The requests *)
Section Requests.
Context {L : RpcLib} {LL : RpcLaws}.
Implicit Types s : rstate xhal.

(** What a failed call is to the caller: the handlers that should throw an
    [xhal::utils::Exception] write into a literal first, the one for a bad key is
    not reached since constructing that exception aborts, and there is none
    for the other exceptions. *)
Definition interface_fail {A} (e : lib_error) : flow Empty_set A :=
  match e with
  | OtherRPC _ | NotConnected _ | ConnectionFailed _ | RPCError _ => Undef LiteralWrite
  | BadKey _ => Halt HAbort
  | WrongType => Throw TypeException
  | BufferTooSmall => Throw BufferTooSmallException
  | CorruptMessage r => Throw (CorruptMessageException r)
  end.

Lemma sends_interface_call {A} (K : Fn (rstate xhal) A) s name fields :
  method (req s) = name → contents (req s) = fields →
  sends_with interface_fail (try_catch call_method interface_catch ;; K) s name fields K.
Proof.
  intros Hm Hc. exists (req s). split_and!; [done..|]. intros r v Hcall.
  unfold mbind, M_bind, try_catch, call_method. rewrite Hcall. by destruct r as [x|[]].
Qed.

Lemma sends_read_request {A} a (K : Fn (rstate xhal) A) s :
  sends_with interface_fail
    (new_req "memory.read" ;; set_word "address" a ;; set_word "count" 1 ;;
     try_catch call_method interface_catch ;; K) s "memory.read" (read_fields a) K.
Proof.
  apply sends_new_req. intros m Hm Hc. apply sends_set_word; [done|]. intros m1 Hm1 Hc1.
  apply sends_set_word; [done|]. intros m2 Hm2 Hc2. apply sends_interface_call; cbn in *; [congruence|].
  by rewrite Hc2, Hc1, Hc.
Qed.

Lemma sends_write_request {A} a x (K : Fn (rstate xhal) A) s :
  sends_with interface_fail
    (new_req "memory.write" ;; set_word "address" a ;; set_req (msg_set_word_array "data" 1 [x]) ;;
     try_catch call_method interface_catch ;; K) s "memory.write" (write_fields a x) K.
Proof.
  apply sends_new_req. intros m Hm Hc. apply sends_set_word; [done|]. intros m1 Hm1 Hc1.
  apply (sends_set_req _ _ (λ c, <["data" := VWords [x]]> c)).
  { exact (set_word_array_contents "data" [x] m1 eq_refl). }
  intros m2 Hm2 Hc2. apply sends_interface_call; cbn in *; [congruence|]. by rewrite Hc2, Hc1, Hc.
Qed.

(** A register that covers the whole word is written with its value as a
    single word, and a [count]. *)
Definition full_write_fields (a x : Z) : gmap string value :=
  fields_of [("address", VWord a); ("count", VWord 1); ("data", VWord x)].

Lemma sends_full_write_request {A} a x (K : Fn (rstate xhal) A) s :
  sends_with interface_fail
    (new_req "memory.write" ;; set_word "address" a ;; set_word "count" 1 ;; set_word "data" x ;;
     try_catch call_method interface_catch ;; K) s "memory.write" (full_write_fields a x) K.
Proof.
  apply sends_new_req. intros m Hm Hc. apply sends_set_word; [done|]. intros m1 Hm1 Hc1.
  apply sends_set_word; [done|]. intros m2 Hm2 Hc2. apply sends_set_word; [done|]. intros m3 Hm3 Hc3.
  apply sends_interface_call; cbn in *; [congruence|]. by rewrite Hc3, Hc2, Hc1, Hc.
Qed.

(** The name is in the table of the parser. *)
Definition resolves (s : rstate xhal) (nm : string) (n : Node) : Prop :=
  ∃ p, m_parser (mem s) = Some p ∧ m_nodes p !! nm = Some n.

(** Resolving a name remembers its node and changes nothing else. *)
Definition at_node (n : Node) (s : rstate xhal) : rstate xhal := with_mem (set_node n (mem s)) s.

Lemma bind_getNode {A} (k : option Node → Fn (rstate xhal) A) s nm p :
  m_parser (mem s) = Some p → (parser_call (getNode nm) ≫= k) s = k (m_nodes p !! nm) s.
Proof.
  intros Hp. unfold mbind, M_bind, parser_call, getNode. rewrite Hp. cbn.
  destruct s as [r q t [b f o n l]]. cbn in *. by subst o.
Qed.

Lemma at_node_rpc n s : rpc (at_node n s) = rpc s.
Proof. reflexivity. Qed.

Lemma readReg_found s nm n : resolves s nm n → readReg nm s =
  (new_req "memory.read" ;; set_word "address" (real_address n) ;; set_word "count" 1 ;;
   try_catch call_method interface_catch ;;
   result ← read_result; mret (shift_down 32 (mask n) (Z.land result (mask n)))) (at_node n s).
Proof.
  intros (p & Hp & Hn). unfold readReg. rewrite (bind_getNode _ _ _ p), Hn by done.
  erewrite bind_next by reflexivity. by erewrite bind_next by reflexivity.
Qed.

Lemma writeReg_found s nm n v : resolves s nm n → writeReg nm v s =
  (if mask n =? 0xFFFFFFFF then
     new_req "memory.write" ;; set_word "address" (real_address n) ;; set_word "count" 1 ;; set_word "data" v ;;
     try_catch call_method interface_catch ;; throw_if_error
   else
     current_val ← readReg_address (real_address n);
     guard_ub (shift_amount 32 (mask n) 0 <? 32) ShiftCount ;;
     new_req "memory.write" ;; set_word "address" (real_address n) ;;
     set_req (msg_set_word_array "data" 1
       [Z.lor (Z.land (w32 (v ≪ shift_amount 32 (mask n) 0)) (mask n))
              (Z.land current_val (Z.lxor (mask n) 0xFFFFFFFF))]) ;;
     try_catch call_method interface_catch ;; throw_if_error) (at_node n s).
Proof.
  intros (p & Hp & Hn). unfold writeReg. rewrite (bind_getNode _ _ _ p), Hn by done.
  erewrite bind_next by reflexivity. by erewrite bind_next by reflexivity.
Qed.

(** *** The answers *)
Lemma read_result_error s t : contents (rsp s) !! "error" = Some t →
  read_result s = (Throw (XhalException "Error during register access"), s).
Proof.
  intros He. unfold read_result. erewrite bind_next by reflexivity. cbn beta.
  rewrite key_exists_contents, bool_decide_true; [done|]. by exists t.
Qed.

Lemma read_result_data s w : contents (rsp s) !! "error" = None → contents (rsp s) !! "data" = Some (VWords [w]) →
  read_result s = (Next w, s).
Proof.
  intros He Hd. unfold read_result. erewrite bind_next by reflexivity. cbn beta.
  rewrite key_exists_contents, bool_decide_false by (rewrite He; by intros []).
  unfold try_catch. erewrite bind_next; last first.
  { unfold get_word_array_size. erewrite bind_next by reflexivity. cbn beta.
    by erewrite get_word_array_size_contents. }
  cbn beta. erewrite bind_next by reflexivity. erewrite bind_next; last first.
  { unfold get_words. erewrite bind_next by reflexivity. cbn beta. by erewrite get_word_array_contents. }
  done.
Qed.

Lemma throw_if_error_none s : contents (rsp s) !! "error" = None → throw_if_error s = (Next tt, s).
Proof.
  intros He. unfold throw_if_error. erewrite bind_next by reflexivity. cbn beta.
  by rewrite key_exists_contents, bool_decide_false by (rewrite He; by intros []).
Qed.

Lemma throw_if_error_some s t : contents (rsp s) !! "error" = Some t →
  throw_if_error s = (Throw (XhalException "Error during register access"), s).
Proof.
  intros He. unfold throw_if_error. erewrite bind_next by reflexivity. cbn beta.
  rewrite key_exists_contents, bool_decide_true; [done|]. by exists t.
Qed.
End Requests.

(** ** Fields *)
Section Fields.

(** [k] is the place of the lowest bit of the mask. *)
Definition lowest_bit (m k : Z) : Prop := 0 ≤ k ∧ Z.testbit m k = true ∧ ∀ i, 0 ≤ i < k → Z.testbit m i = false.

Lemma land_1 m : Z.land m 1 = if Z.testbit m 0 then 1 else 0.
Proof.
  rewrite (land_ones_lit m 1) by done. unfold wrap. change (2 ^ 1) with 2. rewrite Zmod_odd, Z.bit0_odd. done.
Qed.

Lemma shift_loops n m r a : ∃ k, 0 ≤ k ≤ Z.of_nat n ∧ shift_amount n m a = a + k ∧ shift_down n m r = r ≫ k ∧
  (∀ i, 0 ≤ i < k → Z.testbit m i = false) ∧ (k = Z.of_nat n ∨ Z.testbit m k = true).
Proof.
  revert m r a. induction n as [|n IH]; intros m r a.
  { exists 0. rewrite Z.shiftr_0_r. cbn. split_and!; try done; intros; lia. }
  cbn [shift_amount shift_down]. rewrite land_1. destruct (Z.testbit m 0) eqn:E; cbn [Z.eqb Pos.eqb].
  { exists 0. rewrite Z.shiftr_0_r. split_and!; try done; try (intros; lia); by right. }
  destruct (IH (m ≫ 1) (r ≫ 1) (a + 1)) as (k & Hk & Ha & Hr & Hlow & Hbit).
  exists (k + 1). rewrite Ha, Hr. split_and!; [lia|lia|lia| | |].
  - rewrite Z.shiftr_shiftr by lia. f_equal. lia.
  - intros i Hi. destruct (decide (i = 0)) as [->|]; [done|]. specialize (Hlow (i - 1)).
    rewrite Z.shiftr_spec in Hlow by lia. replace (i - 1 + 1) with i in Hlow by lia. apply Hlow. lia.
  - destruct Hbit as [->|Hb]; [left; lia|right]. by rewrite Z.shiftr_spec in Hb by lia.
Qed.

Lemma shift_lowest m k r : word 32 m → lowest_bit m k →
  shift_amount 32 m 0 = k ∧ shift_down 32 m r = r ≫ k ∧ k < 32.
Proof.
  intros Hm (Hk0 & Hk & Hlow). destruct (shift_loops 32 m r 0) as (j & Hj & Ha & Hr & Hlow' & Hbit).
  assert (k < 32) as Hlt.
  { destruct (decide (k < 32)); [done|]. rewrite (testbit_word 32) in Hk by (done || lia). done. }
  assert (j = k) as ->; [|done].
  destruct (Z.lt_trichotomy j k) as [Hl|[|Hl]]; [|done|].
  - rewrite (Hlow j) in Hbit by lia. destruct Hbit; [lia|done].
  - by rewrite (Hlow' k) in Hk by lia.
Qed.

Lemma shift_amount_zero : shift_amount 32 0 0 = 32.
Proof. reflexivity. Qed.

(** What a masked write stores. *)
Definition merged (m w v k : Z) : Z :=
  Z.lor (Z.land (w32 (v ≪ k)) m) (Z.land w (Z.lxor m 0xFFFFFFFF)).

Lemma merged_bits m w v k i : 0 ≤ k → word 32 m → 0 ≤ i < 32 →
  Z.testbit (merged m w v k) i = if Z.testbit m i then Z.testbit v (i - k) else Z.testbit w i.
Proof.
  intros Hk Hm Hi. unfold merged. rewrite Z.lor_spec, !Z.land_spec, Z.lxor_spec, testbit_wrap by lia.
  change 0xFFFFFFFF with (Z.ones 32). rewrite Z.ones_spec_low by lia.
  destruct (Z.ltb_spec i 32); [|lia]. rewrite Z.shiftl_spec by lia.
  destruct (Z.testbit m i), (Z.testbit v (i - k)), (Z.testbit w i); done.
Qed.

Lemma land_merged m w v k : word 32 m → lowest_bit m k →
  Z.land (merged m w v k) m ≫ k = Z.land v (m ≫ k).
Proof.
  intros Hm (Hk & _). apply Z.bits_inj'. intros i Hi. rewrite Z.shiftr_spec, !Z.land_spec, Z.shiftr_spec by done.
  destruct (decide (i + k < 32)).
  - rewrite merged_bits by lia || done. replace (i + k - k) with i by lia.
    by destruct (Z.testbit m (i + k)), (Z.testbit v i), (Z.testbit w (i + k)).
  - rewrite (testbit_word 32 m) by (done || lia). by rewrite !andb_false_r.
Qed.

Lemma land_merged_other m w v k m' : 0 ≤ k → word 32 m → word 32 m' → Z.land m' m = 0 →
  Z.land (merged m w v k) m' = Z.land w m'.
Proof.
  intros Hk Hm Hm' Hd. apply Z.bits_inj'. intros i Hi. rewrite !Z.land_spec.
  destruct (decide (i < 32)).
  - rewrite merged_bits by lia || done. assert (Z.testbit (Z.land m' m) i = false) as Hb by (by rewrite Hd, Z.bits_0).
    rewrite Z.land_spec in Hb. by destruct (Z.testbit m i), (Z.testbit m' i), (Z.testbit w i), (Z.testbit v (i - k)).
  - rewrite (testbit_word 32 m') by (done || lia). by rewrite !andb_false_r.
Qed.
End Fields.

(** ** The registers of a board *)
Section Registers.
Context {L : RpcLib} {LL : RpcLaws} {MS : MemoryService}.
Implicit Types s : rstate xhal.

Definition access_error {A} : flow Empty_set A := Throw (XhalException "Error during register access").

Lemma read_request_run {A} a (K : Z → A) s : ∃ t,
  (new_req "memory.read" ;; set_word "address" a ;; set_word "count" 1 ;;
   try_catch call_method interface_catch ;; result ← read_result; mret (K result)) s =
    (match registers (rpc s) a with Some w => Next (K w) | None => access_error end, t) ∧
  mem t = mem s ∧ ∀ b, registers (rpc t) b = registers (rpc s) b.
Proof.
  destruct (sends_read_request a (result ← read_result; mret (K result)) s) as (m & Hm & Hc & Hr).
  destruct (memory_read m (rpc s) a Hm Hc) as (x & v' & Hcall & Hregs & Hx).
  rewrite (Hr _ _ Hcall). destruct (registers (rpc s) a) as [w|].
  - destruct Hx as [He Hd]. erewrite bind_next by (by apply read_result_data). by eexists.
  - destruct Hx as [t He]. erewrite bind_throw by (by eapply read_result_error). by eexists.
Qed.

Lemma readReg_run s nm n : resolves s nm n → ∃ t,
  readReg nm s = (match registers (rpc s) (real_address n) with
                  | Some w => Next (shift_down 32 (mask n) (Z.land w (mask n)))
                  | None => access_error
                  end, t) ∧
  mem t = set_node n (mem s) ∧ ∀ b, registers (rpc t) b = registers (rpc s) b.
Proof.
  intros Hn. rewrite (readReg_found s nm n Hn).
  apply (read_request_run (real_address n) (λ r, shift_down 32 (mask n) (Z.land r (mask n))) (at_node n s)).
Qed.

Lemma readReg_address_run s a : ∃ t,
  readReg_address a s = (match registers (rpc s) a with Some w => Next w | None => access_error end, t) ∧
  mem t = mem s ∧ ∀ b, registers (rpc t) b = registers (rpc s) b.
Proof.
  destruct (read_request_run a (λ r, r) s) as (t & Hr & Ht). exists t. split; [|done]. rewrite <- Hr.
  unfold readReg_address. do 4 (apply bind_ext; [done|]; intros ? ? _).
  unfold mbind, M_bind, mret, M_ret. by destruct (read_result _) as [[] ?].
Qed.

Lemma writeReg_run s nm n v k : resolves s nm n → word 32 (mask n) → lowest_bit (mask n) k →
  mask n ≠ 0xFFFFFFFF → ∃ t,
  writeReg nm v s = (match registers (rpc s) (real_address n) with
                     | Some _ => Next tt | None => access_error end, t) ∧
  mem t = set_node n (mem s) ∧
  ∀ b, registers (rpc t) b =
    match registers (rpc s) (real_address n) with
    | Some w => if decide (b = real_address n) then Some (merged (mask n) w v k) else registers (rpc s) b
    | None => registers (rpc s) b
    end.
Proof.
  intros Hn Hw Hk Hfull. rewrite (writeReg_found s nm n v Hn). apply Z.eqb_neq in Hfull. rewrite Hfull.
  destruct (shift_lowest (mask n) k 0 Hw Hk) as (-> & _ & Hk32). apply Z.ltb_lt in Hk32. rewrite Hk32.
  destruct (readReg_address_run (at_node n s) (real_address n)) as (t & Hr & Hmem & Hregs).
  rewrite at_node_rpc in *. destruct (registers (rpc s) (real_address n)) as [w|] eqn:Ew.
  2: { erewrite bind_throw by exact Hr. by exists t. }
  erewrite bind_next by exact Hr. cbn [guard_ub]. erewrite bind_next by reflexivity.
  fold (merged (mask n) w v k).
  destruct (sends_write_request (real_address n) (merged (mask n) w v k) throw_if_error t) as (m & Hm & Hc & Hs).
  destruct (memory_write m (rpc t) (real_address n) _ Hm Hc) as (x & v' & Hcall & Hx).
  rewrite (Hs _ _ Hcall). rewrite Hregs, Ew in Hx. destruct Hx as [He Hb].
  rewrite throw_if_error_none by done. eexists. split; [done|]. split; [done|].
  intros b. cbn [rpc]. rewrite Hb. by rewrite Hregs.
Qed.

Lemma readReg_value s nm n k : resolves s nm n → word 32 (mask n) → lowest_bit (mask n) k → ∃ t,
  readReg nm s = (match registers (rpc s) (real_address n) with
                  | Some w => Next (Z.land w (mask n) ≫ k)
                  | None => Throw (XhalException "Error during register access")
                  end, t) ∧
  ∀ b, registers (rpc t) b = registers (rpc s) b.
Proof.
  intros Hn Hw Hk. destruct (readReg_run s nm n Hn) as (t & Hr & _ & Hregs). exists t. split; [|done].
  rewrite Hr. destruct (registers (rpc s) (real_address n)) as [w|]; [|done].
  by destruct (shift_lowest (mask n) k (Z.land w (mask n)) Hw Hk) as (_ & -> & _).
Qed.

(** [readReg] of a name returns the field of its mask, shifted down to bit 0,
    and changes no register; where nothing answers it throws. *)
Theorem readReg_field s nm n k : resolves s nm n → word 32 (mask n) → lowest_bit (mask n) k → ∃ t,
  readReg nm s = (match registers (rpc s) (real_address n) with
                  | Some w => Next (Z.land w (mask n) ≫ k)
                  | None => Throw (XhalException "Error during register access")
                  end, t) ∧
  ∀ b, registers (rpc t) b = registers (rpc s) b.
Proof. apply readReg_value. Qed.

(** C12: [writeReg] of a masked register replaces the bits of the mask by the low
    bits of the value and keeps every other bit and register.  After it the
    field reads back as the bits of the value that fit, and every other
    register, and every field of the same register that shares no bit with
    it, reads as before. *)
Theorem writeReg_readReg s nm n v k w : resolves s nm n → word 32 (mask n) → lowest_bit (mask n) k →
  mask n ≠ 0xFFFFFFFF → registers (rpc s) (real_address n) = Some w → ∃ t w',
  writeReg nm v s = (Next tt, t) ∧
  registers (rpc t) (real_address n) = Some w' ∧
  (∀ i, 0 ≤ i < 32 → Z.testbit w' i = if Z.testbit (mask n) i then Z.testbit v (i - k) else Z.testbit w i) ∧
  (∀ b, b ≠ real_address n → registers (rpc t) b = registers (rpc s) b) ∧
  (readReg nm t).1 = Next (Z.land v (mask n ≫ k)) ∧
  ∀ nm' n', resolves s nm' n' → word 32 (mask n') →
    real_address n' ≠ real_address n ∨ Z.land (mask n') (mask n) = 0 →
    (readReg nm' t).1 = (readReg nm' s).1.
Proof.
  intros Hn Hw Hk Hfull Ew. destruct (writeReg_run s nm n v k Hn Hw Hk Hfull) as (t & Hwr & Hmem & Hregs).
  rewrite Ew in *. exists t, (merged (mask n) w v k).
  assert (∀ nm' n', resolves s nm' n' → resolves t nm' n') as Hres
    by (intros nm' n' (p & Hp & ?); exists p; by rewrite Hmem).
  split_and!; [done|by rewrite Hregs, decide_True|by intros; apply merged_bits; [apply Hk|..]|
    by intros; rewrite Hregs, decide_False| |].
  - destruct (readReg_run t nm n (Hres _ _ Hn)) as (t' & -> & _). rewrite Hregs, decide_True by done.
    cbn [fst]. f_equal. destruct (shift_lowest (mask n) k (Z.land (merged (mask n) w v k) (mask n)) Hw Hk)
      as (_ & -> & _). by apply land_merged.
  - intros nm' n' Hn' Hw' Hd. destruct (readReg_run t nm' n' (Hres _ _ Hn')) as (t' & -> & _).
    destruct (readReg_run s nm' n' Hn') as (s' & -> & _). cbn [fst]. rewrite Hregs. case_decide as Ha; [|done].
    destruct Hd as [|Hd]; [done|]. rewrite Ha, Ew.
    by rewrite land_merged_other by (apply Hk || done).
Qed.
End Registers.

Lemma declared_address order e base a vars g n : declares order e base a vars g n →
  real_address n = modifyAddress (address n) ∨ address n = 0 ∧ real_address n = 0.
Proof.
  intros (_ & _ & _ & _ & _ & _ & _ & _ & [[? ?]|Hr])%declares_flat; [by right|left].
  rewrite Hr. symmetry. apply real_address_eq.
Qed.

(** The register a node of the address table designates is the one the IPbus
    daemon reaches through the node's [address]. *)
Theorem table_address_is_ipbus order e base a vars g n : declares order e base a vars g n →
  real_address n = modifyAddress (address n) ∨ address n = 0 ∧ real_address n = 0.
Proof. apply declared_address. Qed.

(** ** A session

    From the constructor on: [init] parses the table and connects, and a
    register is then read by its name. *)
Section Session.
Context {L : RpcLib} {LL : RpcLaws} {MS : MemoryService}.
Context (order : gmap string Z → list (string * Z)) (parseURI : string → parsed).
Implicit Types s : rstate xhal.

Lemma init_run s host file root v : mem s = XHALInterface host file → parseURI file = Parsed (Some root) →
  readable root = true → svc_connect host (rpc s) = (Ok tt, v) → ∃ t p,
  init order true parseURI s = (Next tt, t) ∧ rpc t = v ∧ m_parser (mem t) = Some p ∧
  ∀ nm, match m_nodes p !! nm with
        | Some n => name n = nm ∧ declares order root EmptyString 0 ∅ false n
        | None => ∀ n, declares order root EmptyString 0 ∅ false n → name n ≠ nm
        end.
Proof.
  intros Hx Hu Hr Hc. set (p0 := (setLogLevel (R:=Empty_set) 2 (XHALXMLParser file)).2).
  destruct (getNode_table order parseURI p0 root eq_refl Hu Hr) as (p & Hp & Hnodes).
  destruct s as [c q r x]. cbn [mem rpc] in Hx, Hc. subst x.
  exists (mk_rstate v q r (mk_xhal host file (Some p) empty_Node (Some INFO))), p. split_and!; [|done..|].
  - unfold init. erewrite bind_next by reflexivity. erewrite bind_next by reflexivity. erewrite bind_next by reflexivity.
    erewrite bind_next by reflexivity. erewrite bind_next; last first.
    { unfold parser_call at 1. cbn [mem with_mem m_parser set_parser].
      change ((setLogLevel 2 (XHALXMLParser (m_address_table_filename (set_log INFO (XHALInterface host file))))).2)
        with p0. rewrite Hp. reflexivity. }
    erewrite bind_next by reflexivity. unfold try_catch, connect. cbn. by rewrite Hc.
  - intros nm. destruct (Hnodes nm) as (found & Hg & Hf). by injection Hg as <-.
Qed.

(** C13: After a successful [init], [readReg] of a name the document declares
    returns the field of a node declared under that name, at the register
    the IPbus daemon reaches by the node's address; a name it does not
    declare ends in the broken error path. *)
Theorem session_reads_declared s host file root v : mem s = XHALInterface host file →
  parseURI file = Parsed (Some root) → readable root = true → svc_connect host (rpc s) = (Ok tt, v) → ∃ t,
  init order true parseURI s = (Next tt, t) ∧
  ∀ nm,
    (∃ n, name n = nm ∧ declares order root EmptyString 0 ∅ false n ∧
       (real_address n = modifyAddress (address n) ∨ address n = 0 ∧ real_address n = 0) ∧
       ∀ k, lowest_bit (mask n) k →
         (readReg nm t).1 = match registers v (real_address n) with
                            | Some w => Next (Z.land w (mask n) ≫ k)
                            | None => access_error
                            end) ∨
    ((∀ n, declares order root EmptyString 0 ∅ false n → name n ≠ nm) ∧
     readReg nm t = (Undef LiteralWrite, t)).
Proof.
  intros Hx Hu Hr Hc. destruct (init_run s host file root v Hx Hu Hr Hc) as (t & p & Hi & <- & Hp & Hn).
  exists t. split; [done|]. intros nm. specialize (Hn nm). destruct (m_nodes p !! nm) as [n|] eqn:E; [left|right].
  - destruct Hn as [Hnm Hd]. exists n. split_and!; [done..|by eapply declared_address|]. intros k Hk.
    destruct (declares_flat _ _ _ _ _ _ _ Hd) as (_ & _ & _ & _ & _ & _ & Hm & _).
    destruct (readReg_value t nm n k) as (u & -> & _); [by exists p|done..].
  - split; [done|]. unfold readReg. by rewrite (bind_getNode _ _ _ p), E.
Qed.
End Session.

(** ** The paths the handlers break *)
Section Failures.
Context {L : RpcLib} {LL : RpcLaws}.
Implicit Types s : rstate xhal.

Notation register_error := (Throw (XhalException "Error during register access")).

(** A read of the register [a]: the request, and how [P] ends when the call
    fails or the answer is not one word. *)
Definition read_failures {A} (P : Fn (rstate xhal) A) s (a : Z) : Prop :=
  ∃ m : msg, method m = "memory.read" ∧ contents m = fields_of [("address", VWord a); ("count", VWord 1)] ∧
    ∀ r c, svc_call_method m (rpc s) = (r, c) →
    match r with
    | Err e => (P s).1 = interface_fail e
    | Ok x =>
        (contents x !! "error" ≠ None → (P s).1 = register_error) ∧
        (contents x !! "error" = None → ∀ e, msg_get_word_array_size "data" x = Err e →
         (P s).1 = interface_fail e) ∧
        (contents x !! "error" = None → ∀ ws, contents x !! "data" = Some (VWords ws) → length ws ≠ 1%nat →
         (P s).1 = Throw (XhalException "ASSERT failure"))
    end.

(** A write with the request's [fields]. *)
Definition write_outcome (P : Fn (rstate xhal) unit) s (c : svc) (fields : list (string * value)) : Prop :=
  ∃ m : msg, method m = "memory.write" ∧ contents m = fields_of fields ∧
    ∀ r c', svc_call_method m c = (r, c') →
    (P s).1 = match r with
              | Err e => interface_fail e
              | Ok x => if decide (contents x !! "error" = None) then Next tt else register_error
              end.

Lemma interface_fail_bind {A B} (P : Fn (rstate xhal) A) (K : A → Fn (rstate xhal) B) s e :
  (P s).1 = interface_fail e → ((x ← P; K x) s).1 = interface_fail e.
Proof.
  destruct (P s) as [q t] eqn:E. cbn [fst]. intros ->. unfold mbind, M_bind. rewrite E. by destruct e.
Qed.

Lemma throw_bind {A B} (P : Fn (rstate xhal) A) (K : A → Fn (rstate xhal) B) s u :
  (P s).1 = Throw u → ((x ← P; K x) s).1 = Throw u.
Proof. destruct (P s) as [q t] eqn:E. cbn [fst]. intros ->. unfold mbind, M_bind. by rewrite E. Qed.

Lemma read_failures_bind {A B} (P : Fn (rstate xhal) A) (K : A → Fn (rstate xhal) B) s a :
  read_failures P s a → read_failures (x ← P; K x) s a.
Proof.
  intros (m & ? & ? & Hr). exists m. split_and!; [done..|]. intros r c Hc. specialize (Hr r c Hc).
  destruct r as [x|e]; [|by apply interface_fail_bind]. destruct Hr as (He & Hs & Hl).
  split_and!; eauto using interface_fail_bind, throw_bind.
Qed.

Lemma read_failures_ext {A} (P Q : Fn (rstate xhal) A) s t a :
  P s = Q t → rpc s = rpc t → read_failures Q t a → read_failures P s a.
Proof. unfold read_failures. by intros -> ->. Qed.

Lemma read_result_refused s e : contents (rsp s) !! "error" = None →
  msg_get_word_array_size "data" (rsp s) = Err e → (read_result s).1 = interface_fail e.
Proof.
  intros He Hd. unfold read_result. erewrite bind_next by reflexivity. cbn beta.
  rewrite key_exists_contents, bool_decide_false by (rewrite He; by intros []).
  unfold try_catch, get_word_array_size. rewrite bind_bind. erewrite bind_next by reflexivity. cbn beta.
  rewrite Hd. by destruct e.
Qed.

Lemma read_result_length s ws : contents (rsp s) !! "error" = None →
  contents (rsp s) !! "data" = Some (VWords ws) → length ws ≠ 1%nat →
  (read_result s).1 = Throw (XhalException "ASSERT failure").
Proof.
  intros He Hd Hl. unfold read_result. erewrite bind_next by reflexivity. cbn beta.
  rewrite key_exists_contents, bool_decide_false by (rewrite He; by intros []).
  unfold try_catch, get_word_array_size. rewrite bind_bind. erewrite bind_next by reflexivity. cbn beta.
  erewrite get_word_array_size_contents by done. erewrite bind_next by reflexivity. cbn beta.
  unfold interface_assert. rewrite (proj2 (Z.eqb_neq _ _)) by lia. reflexivity.
Qed.

Lemma readReg_address_failures s a : read_failures (readReg_address a) s a.
Proof.
  destruct (sends_read_request a read_result s) as (m & Hm & Hc & Hr). exists m. split_and!; [done..|].
  intros r c Hcall. unfold readReg_address. rewrite (Hr _ _ Hcall). destruct r as [x|e]; [|done]. split_and!.
  - intros He. destruct (contents x !! "error") as [t|] eqn:Ht; [|done]. by rewrite (read_result_error _ t).
  - intros He e Hd. by apply read_result_refused.
  - intros He ws Hd Hl. by apply (read_result_length _ ws).
Qed.

Lemma readReg_failures s nm n : resolves s nm n → read_failures (readReg nm) s (real_address n).
Proof.
  intros Hn.
  eapply (read_failures_ext _ (x ← readReg_address (real_address n); mret (shift_down 32 (mask n) (Z.land x (mask n))))
    s (at_node n s)); [|done|apply read_failures_bind, readReg_address_failures].
  rewrite (readReg_found s nm n Hn). unfold readReg_address. rewrite !bind_bind.
  repeat (apply bind_ext; [done|]; intros ? ? _; rewrite ?bind_bind). done.
Qed.

Lemma write_failures s : throw_if_error s =
  (if decide (contents (rsp s) !! "error" = None) then Next tt else register_error, s).
Proof.
  case_decide as He; [by apply throw_if_error_none|].
  destruct (contents (rsp s) !! "error") as [t|] eqn:Ht; [|done]. by rewrite (throw_if_error_some _ t).
Qed.

Lemma writeReg_full_failures s nm n v : resolves s nm n → mask n = 0xFFFFFFFF →
  write_outcome (writeReg nm v) s (rpc s) [("address", VWord (real_address n)); ("count", VWord 1); ("data", VWord v)].
Proof.
  intros Hn Hm. destruct (sends_full_write_request (real_address n) v throw_if_error (at_node n s)) as (m & ? & ? & Hr).
  exists m. split_and!; [done..|]. intros r c Hc. rewrite (writeReg_found s nm n v Hn), Hm. cbn [Z.eqb Pos.eqb].
  rewrite (Hr _ _ Hc). destruct r as [x|e]; [|done]. by rewrite write_failures.
Qed.

Lemma writeReg_masked_read s nm n v : resolves s nm n → mask n ≠ 0xFFFFFFFF →
  read_failures (writeReg nm v) s (real_address n).
Proof.
  intros Hn Hm%Z.eqb_neq. pose proof (writeReg_found s nm n v Hn) as Hw. rewrite Hm in Hw.
  eapply read_failures_ext; [exact Hw|done|]. apply read_failures_bind, readReg_address_failures.
Qed.

(** The second call of a masked write, once the register is read. *)
Lemma writeReg_masked_write s nm n v k : resolves s nm n → mask n ≠ 0xFFFFFFFF → word 32 (mask n) →
  lowest_bit (mask n) k →
  ∃ m : msg, method m = "memory.read" ∧
    contents m = fields_of [("address", VWord (real_address n)); ("count", VWord 1)] ∧
    ∀ x c w, svc_call_method m (rpc s) = (Ok x, c) → contents x !! "error" = None →
      contents x !! "data" = Some (VWords [w]) → ∃ w',
      (∀ i, 0 ≤ i < 32 → Z.testbit w' i = if Z.testbit (mask n) i then Z.testbit v (i - k) else Z.testbit w i) ∧
      write_outcome (writeReg nm v) s c [("address", VWord (real_address n)); ("data", VWords [w'])].
Proof.
  intros Hn Hfull%Z.eqb_neq Hw Hk. destruct (shift_lowest (mask n) k 0 Hw Hk) as (Ha & _ & Hk32%Z.ltb_lt).
  destruct (sends_read_request (real_address n) read_result (at_node n s)) as (m & Hm & Hc & Hr).
  exists m. split_and!; [done..|]. intros x c w Hcall He Hd. exists (merged (mask n) w v k).
  split; [intros i; apply merged_bits; [apply Hk|done]|].
  set (t := mk_rstate c m x (mem (at_node n s))).
  destruct (sends_write_request (real_address n) (merged (mask n) w v k) throw_if_error t) as (m' & Hm' & Hc' & Hs).
  exists m'. split_and!; [done..|]. intros r c' Hcall'.
  rewrite (writeReg_found s nm n v Hn), Hfull, Ha, Hk32.
  erewrite bind_next; last first.
  { unfold readReg_address. rewrite (Hr _ _ Hcall). by apply read_result_data. }
  cbn [guard_ub]. erewrite bind_next by reflexivity. fold (merged (mask n) w v k). fold t.
  rewrite (Hs _ _ Hcall'). destruct r as [y|e]; [|done]. by rewrite write_failures.
Qed.

Lemma loadModule_outcome s nm version r c : svc_load_module nm version (rpc s) = (r, c) →
  (loadModule nm version s).1 = match r with
                                | Ok true => Next tt
                                | Ok false => Throw (XhalException "ASSERT failure")
                                | Err e => interface_fail e
                                end.
Proof.
  intros Hc. unfold loadModule, try_catch, load_module. unfold mbind at 1, M_bind at 1. rewrite Hc.
  by destruct r as [[]|[]].
Qed.

Lemma init_outcome order parseURI s root r c :
  parseURI (m_address_table_filename (mem s)) = Parsed (Some root) → readable root = true →
  svc_connect (m_board_domain_name (mem s)) (rpc s) = (r, c) →
  (init order true parseURI s).1 = match r with Ok _ => Next tt | Err e => interface_fail e end.
Proof.
  intros Hu Hr Hc. set (p0 := (setLogLevel (R:=Empty_set) 2 (XHALXMLParser (m_address_table_filename (mem s)))).2).
  destruct (getNode_table order parseURI p0 root eq_refl Hu Hr) as (p & Hp & _).
  unfold init. do 4 (erewrite bind_next by reflexivity). erewrite bind_next; last first.
  { unfold parser_call at 1. cbn [mem with_mem m_parser set_parser m_address_table_filename set_log].
    change ((setLogLevel 2 (XHALXMLParser (m_address_table_filename (mem s)))).2) with p0. rewrite Hp. reflexivity. }
  erewrite bind_next by reflexivity. unfold try_catch, connect.
  cbn [mem with_mem m_board_domain_name set_parser set_log rpc]. rewrite Hc. by destruct r as [[]|[]].
Qed.


End Failures.

(** ** A board with two fields in one register *)
Module InterfaceExamples.
Import Scripted Board.

Definition field_node (nm : string) (a m : Z) : Node :=
  mk_Node nm EmptyString EmptyString a (modifyAddress a) "rw" "single" 1 m false None [] 0 (-1) (-1).
Definition table : gmap string Node :=
  {[ "A" := field_node "A" 1 0xff00; "B" := field_node "B" 1 0xf; "C" := field_node "C" 2 0xFFFFFFFF ]}.
Definition registers_0 : gmap Z Z := {[ 0x64000004 := 0x12345678; 0x64000008 := 7 ]}.

Definition connected : @rstate board_lib xhal :=
  @mk_rstate board_lib _ (registers_0 : @svc board_lib) (mk_smsg EmptyString ∅ : @msg board_lib)
    (mk_smsg EmptyString ∅ : @msg board_lib)
    (mk_xhal "board" "table.xml" (Some (mk_parser "table.xml" INFO ∅ table)) empty_Node (Some INFO)).
Definition cut_off : @rstate (always (Err (NotConnected "closed"))) xhal :=
  idle (Err (NotConnected "closed")) (mem connected).

Lemma resolves_A : @resolves board_lib connected "A" (field_node "A" 1 0xff00).
Proof. eexists. split; reflexivity. Qed.
Lemma lowest_A : lowest_bit (mask (field_node "A" 1 0xff00)) 8.
Proof.
  split; [done|]. split; [reflexivity|]. intros i Hi.
  assert (Forall (λ i, Z.testbit 0xff00 i = false) (seqZ 0 8)) as H by vm_decide.
  rewrite Forall_forall in H. apply H, elem_of_seqZ. lia.
Qed.

(** From the constructor to two reads on the table of [TableExamples]. *)
Definition status_registers : gmap Z Z := {[ 0x65040018 := 0x12345678 ]}.
Definition constructed : @rstate board_lib xhal :=
  @mk_rstate board_lib _ (status_registers : @svc board_lib) (mk_smsg EmptyString ∅ : @msg board_lib)
    (mk_smsg EmptyString ∅ : @msg board_lib) (XHALInterface "board" "table.xml").
Definition parse_table (_ : string) : parsed := Parsed (Some TableExamples.table).
Definition initialised : @rstate board_lib xhal := (@init board_lib map_to_list true parse_table constructed).2.

Lemma session_reads_declared_witness :
  (@readReg board_lib "GEM_AMC.OH1.STATUS" initialised).1 = Next 0x56 ∧
  @readReg board_lib "GEM_AMC.OH2.STATUS" initialised = (Undef LiteralWrite, initialised) ∧
  ∃ t, @init board_lib map_to_list true parse_table constructed = (Next tt, t) ∧
  ∀ nm, (∃ n, name n = nm ∧ declares map_to_list TableExamples.table EmptyString 0 ∅ false n ∧
       (real_address n = modifyAddress (address n) ∨ address n = 0 ∧ real_address n = 0) ∧
       ∀ k, lowest_bit (mask n) k →
         (@readReg board_lib nm t).1 = match @registers _ _ board_memory status_registers (real_address n) with
                                       | Some w => Next (Z.land w (mask n) ≫ k)
                                       | None => access_error
                                       end) ∨
    ((∀ n, declares map_to_list TableExamples.table EmptyString 0 ∅ false n → name n ≠ nm) ∧
     @readReg board_lib nm t = (Undef LiteralWrite, t)).
Proof.
  split; [vm_compute; reflexivity|]. split; [vm_compute; reflexivity|].
  exact (@session_reads_declared board_lib board_laws board_memory map_to_list parse_table constructed "board"
    "table.xml" TableExamples.table status_registers eq_refl eq_refl ltac:(vm_compute; reflexivity) eq_refl).
Defined.

Lemma readReg_field_witness : lowest_bit (mask (field_node "A" 1 0xff00)) 8 ∧ ∃ t,
  @readReg board_lib "A" connected = (Next 0x56, t) ∧
  ∀ b, @registers _ _ board_memory (rpc t) b = registers_0 !! b.
Proof.
  split; [apply lowest_A|].
  exact (@readReg_field board_lib board_laws board_memory connected "A" (field_node "A" 1 0xff00) 8
    resolves_A ltac:(by split) lowest_A).
Defined.

Lemma writeReg_readReg_witness :
  @resolves board_lib connected "A" (field_node "A" 1 0xff00) ∧
  lowest_bit (mask (field_node "A" 1 0xff00)) 8 ∧ ∃ t w',
  @writeReg board_lib "A" 0xab connected = (Next tt, t) ∧
  @registers _ _ board_memory (rpc t) 0x64000004 = Some w' ∧
  (@readReg board_lib "A" t).1 = Next 0xab ∧ (@readReg board_lib "B" t).1 = Next 8.
Proof.
  split; [apply resolves_A|]. split; [apply lowest_A|].
  destruct (@writeReg_readReg board_lib board_laws board_memory connected "A" (field_node "A" 1 0xff00)
    0xab 8 0x12345678 resolves_A ltac:(by split) lowest_A ltac:(done) eq_refl) as (t & w' & Hw & Hr & _ & _ & HA & HB).
  exists t, w'. split; [exact Hw|]. split; [exact Hr|]. split; [exact HA|].
  rewrite (HB "B" (field_node "B" 1 0xf)); [vm_compute; reflexivity| |by split|by right].
  eexists. split; reflexivity.
Defined.

(** The masked register [A] of a board that does not answer, and of one
    that answers the read and refuses the write. *)
Definition refused_write : @rstate lib xhal :=
  start [reply [("data", VWords [0x12345678])]; Err (RPCError "gone")] (mem connected).


Lemma table_address_is_ipbus_witness : ∃ n : Node,
  declares map_to_list TableExamples.table EmptyString 0 ∅ false n ∧
  (real_address n = modifyAddress (address n) ∨ address n = 0 ∧ real_address n = 0).
Proof.
  destruct (value_of (newNode map_to_list TableExamples.table EmptyString 0 ∅)) as [[n a']|] eqn:E;
    [|vm_compute in E; discriminate].
  assert (declares map_to_list TableExamples.table EmptyString 0 ∅ false n) as Hd.
  { apply declares_plain; [discriminate|]. exact (declares_self _ _ _ _ _ _ _ E). }
  exists n. split; [exact Hd|]. exact (table_address_is_ipbus _ _ _ _ _ _ _ Hd).
Defined.
End InterfaceExamples.
