(* ===== verification/Memsvc.v ===== *)
(** * Memsvc: access to the mapped registers

    [xcompile/lib_rw_ctp7/libmemsvc.c], the library behind the memory hub: the
    ranges of [/etc/memsvc.conf], mapped on first use, the checks, and the
    word accesses.  The kernel is outside the repository: what [mmap], a load
    or store of a mapped word and the calls of [memsvc_open] do is a
    parameter. *)

From S2P Require Import Prelude RpcMsg CText.

(** ** The kernel *)

(** A mapping of the memory device: where it starts, its length, whether it
    can be written. *)
Record mapping : Type := mk_mapping { map_offset : Z; map_length : Z; map_write : bool }.

Class Kernel (Dev : Type) : Type := {
  getpagesize : Z;
  (* the errno, when it fails *)
  sys_mmap : mapping → Dev → option Z * Dev;
  sys_munmap : mapping → Dev → Dev;
  (* a 32-bit access; [None] and [false]: SIGBUS *)
  sys_load : Z → Dev → option Z * Dev;
  sys_store : Z → Z → Dev → bool * Dev;
  sys_sigaction : Dev → bool;
  strerror : Z → string
}.

(** ** The data *)

Record memsvc_range : Type := mk_range {
  range_start : Z;
  range_end : Z;
  readonly : bool;
  range_map : option mapping;
  c2creg_map : option mapping;
  c2creg_offset : Z;
  c2c_reg : Z;
  c2c_mask : Z
}.

Definition MEMSVC_VALID_HANDLE_MAGIC : Z := 0x481ffe3c.
Definition MEMSVC_INVALID_HANDLE_MAGIC : Z := 0x481ffe3d.

Record memsvc_handle : Type := mk_handle {
  magic : Z;
  last_error : string;
  memfd : Z;
  first_range : list memsvc_range
}.

(** The handle, [None] for a null pointer; the device; [errno]; whether the
    handler of SIGBUS is [sigbushdl]. *)
Record memsvc_state (Dev : Type) : Type := mk_memsvc {
  handle : option memsvc_handle;
  dev : Dev;
  errno : Z;
  bus_handler : bool
}.
Arguments mk_memsvc {Dev} handle dev errno bus_handler.
Arguments handle {Dev} m.
Arguments dev {Dev} m.
Arguments errno {Dev} m.
Arguments bus_handler {Dev} m.

(** [%08x] and [%u] *)
Fixpoint pad (n : nat) (s : string) : string := match n with O => s | S n => String "0" (pad n s) end.
Definition hex8 (x : Z) : string := pad (8 - String.length (print 16 x)) (print 16 x).

Section Memsvc.
Context {Dev : Type} `{K : Kernel Dev}.
Notation state := (memsvc_state Dev).

Definition set_handle (h : option memsvc_handle) (s : state) : state := mk_memsvc h (dev s) (errno s) (bus_handler s).
Definition set_dev (d : Dev) (s : state) : state := mk_memsvc (handle s) d (errno s) (bus_handler s).

(** [*svc] *)
Definition svc_ {R} : M state R memsvc_handle := λ s,
  match handle s with Some h => (Next h, s) | None => (Undef NullPointer, s) end.

Definition set_error {R} (user : string) (err : Z) : M state R unit :=
  h ← svc_;
  modify (λ s, mk_memsvc (Some (mk_handle (magic h)
    (str_take 511 (user ++ (if err =? 0 then EmptyString else strerror err))) (memfd h) (first_range h)))
    (dev s) (if err =? 0 then errno s else 0) (bus_handler s)).

Definition set_ranges {R} (l : list memsvc_range) : M state R unit :=
  h ← svc_;
  modify (set_handle (Some (mk_handle (magic h) (last_error h) (memfd h) l))).

(** [mmap]: the mapping, or null with [errno] set *)
Definition mmap {R} (m : mapping) : M state R (option mapping) := λ s,
  let r := sys_mmap m (dev s) in
  match r.1 with
  | None => (Next (Some m), set_dev r.2 s)
  | Some e => (Next None, mk_memsvc (handle s) r.2 e (bus_handler s))
  end.

(** ** find_range *)

(** [cur->start <= addr && addr <= cur->end && (!writeable || !cur->readonly)] *)
Definition in_range (addr : Z) (writeable : bool) (cur : memsvc_range) : bool :=
  (range_start cur <=? addr) && (addr <=? range_end cur) && (negb writeable || negb (readonly cur)).

(** The first range of the list that fits, and the others in their order. *)
Fixpoint take_out (f : memsvc_range → bool) (l : list memsvc_range) : option (memsvc_range * list memsvc_range) :=
  match l with
  | [] => None
  | cur :: l =>
      if f cur then Some (cur, l)
      else match take_out f l with Some (r, l) => Some (r, cur :: l) | None => None end
  end.

Definition with_map (m : option mapping) (r : memsvc_range) : memsvc_range :=
  mk_range (range_start r) (range_end r) (readonly r) m (c2creg_map r) (c2creg_offset r) (c2c_reg r) (c2c_mask r).
Definition with_c2creg (m : option mapping) (offset : Z) (r : memsvc_range) : memsvc_range :=
  mk_range (range_start r) (range_end r) (readonly r) (range_map r) m offset (c2c_reg r) (c2c_mask r).

(** [maplen]: the length of the range up to a whole number of pages *)
Definition maplen (r : memsvc_range) : Z :=
  let len := w32 (range_end r - range_start r + 1) in
  if len mod getpagesize =? 0 then len else w32 (len + (getpagesize - len mod getpagesize)).

(** [if (activate && !cur->map)], [if (activate && !cur->c2creg_map)]; a
    failure of the first [mmap] clears [activate]. *)
Definition map_range {R} (activate : bool) (cur : memsvc_range) : M state R memsvc_range :=
  '(activate, cur) ←
    (if activate && bool_decide (range_map cur = None) then
       m ← mmap (mk_mapping (range_start cur) (maplen cur) (negb (readonly cur)));
       mret (bool_decide (is_Some m), with_map m cur)
     else mret (activate, cur));
  if activate && bool_decide (c2creg_map cur = None) then
    let offset := c2c_reg cur mod getpagesize in
    m ← mmap (mk_mapping (c2c_reg cur - offset) getpagesize false);
    mret (with_c2creg m offset cur)
  else mret cur.

Definition find_range {R} (addr : Z) (writeable activate : bool) : M state R (option memsvc_range) :=
  if negb (addr mod 4 =? 0) then mret None
  else
    h ← svc_;
    match take_out (in_range addr writeable) (first_range h) with
    | None => mret None
    | Some (cur, others) =>
        cur ← map_range activate cur;
        set_ranges (cur :: others) ;;
        mret (Some cur)
    end.

(** ** Open and close *)

Definition free_ranges {R} (l : list memsvc_range) : M state R unit :=
  for_each l (λ r,
    modify (λ s, set_dev (match range_map r with Some m => sys_munmap m (dev s) | None => dev s end) s) ;;
    modify (λ s, set_dev (match c2creg_map r with Some m => sys_munmap m (dev s) | None => dev s end) s)).

Definition valid_magic (x : Z) : bool := (x =? MEMSVC_VALID_HANDLE_MAGIC) || (x =? MEMSVC_INVALID_HANDLE_MAGIC).

Definition memsvc_invalidate {R} : M state R unit :=
  h ← svc_;
  when (valid_magic (magic h)) (
    free_ranges (first_range h) ;;
    modify (set_handle (Some (mk_handle MEMSVC_INVALID_HANDLE_MAGIC (last_error h) (-1) [])))).

Definition memsvc_validate {R} (validity : bool) : M state R Z :=
  h ← gets handle;
  match h with
  | None => mret (-1)
  | Some svc =>
      if negb (valid_magic (magic svc)) then mret (-1)
      else if (magic svc =? MEMSVC_INVALID_HANDLE_MAGIC) && validity then
        set_error "Invalid service handle" 0 ;; mret (-1)
      else mret 0
  end.

(** [memsvc_close(&svc)] *)
Definition memsvc_close {R} : M state R Z :=
  h ← gets handle;
  match h with
  | None => mret 0
  | Some _ => memsvc_invalidate ;; modify (set_handle None) ;; mret 0
  end.

Definition memsvc_get_last_error {R} : M state R string := h ← svc_; mret (last_error h).

(** *** The configuration file *)

(** [strtoul(s, &endptr, 16)] on the 32-bit target: the value, whether it set
    [errno], and the text [endptr] points to. *)
Definition strtoul_16 (s : string) : Z * bool * string :=
  let '(negative, t) := split_sign (skip_space s) in
  let u := match leading_digits 16 (skip_0x t) with [] => t | _ => skip_0x t end in
  match leading_digits 16 u with
  | [] => (0, false, s)
  | ds =>
      let v := number 16 ds in
      (if 2 ^ 32 - 1 <? v then 2 ^ 32 - 1 else if negative then w32 (- v) else v,
       2 ^ 32 - 1 <? v, str_drop (length ds) u)
  end.

(** A number followed by a space: the number, and what follows. *)
Definition number_field (s : string) : option (Z * string) :=
  match strtoul_16 s with
  | (v, false, String " " rest) => Some (v, rest)
  | _ => None
  end.

(** The fields of a line: the number of the wrong one, or the range. *)
Definition parse_line (buf : string) : Z + memsvc_range :=
  match number_field buf with
  | None => inl 1
  | Some (start, parsebuf) =>
  match number_field parsebuf with
  | None => inl 2
  | Some (end_, parsebuf) =>
  match parsebuf with
  | String c (String " " parsebuf) =>
      if negb (char_is c "0" || char_is c "1") then inl 3 else
      match number_field parsebuf with
      | None => inl 4
      | Some (reg, parsebuf) =>
          match strtoul_16 parsebuf with
          | (msk, false, rest) =>
              match rest with
              | EmptyString | String "000" _ | String " " _ | String "010" _ =>
                  inr (mk_range start end_ (char_is c "1") None None 0 reg msk)
              | _ => inl 5
              end
          | _ => inl 5
          end
      end
  | _ => inl 3
  end
  end
  end.

(** The loop over the lines: the error it ends with. *)
Fixpoint config_loop {R} (lineno : Z) (lines : list string) : M state R (option string) :=
  match lines with
  | [] => mret None
  | buf :: lines =>
      let lineno := lineno + 1 in
      if String.prefix "#" buf then config_loop lineno lines
      else
        match parse_line buf with
        | inl config_error =>
            mret (Some ("Config file error on line " ++ to_string lineno ++ ", on or after field " ++
                        to_string config_error))
        | inr range =>
            h ← svc_;
            set_ranges (range :: first_range h) ;;
            if range_end range <=? range_start range then
              mret (Some ("Config file error on line " ++ to_string lineno ++ ": start[0x" ++
                          hex8 (range_start range) ++ "]>=end[0x" ++ hex8 (range_end range) ++ "]"))
            else config_loop lineno lines
        end
  end.

(** A control message of a socket: [cmsg_level], [cmsg_type] and the [int] at
    [CMSG_DATA]. *)
Record cmsg : Type := mk_cmsg { cmsg_level : Z; cmsg_type : Z; cmsg_data : Z }.

Definition SOL_SOCKET : Z := 1.
Definition SCM_RIGHTS : Z := 1.

(** The loop of [recvfd] over the control messages: the descriptor it leaves
    in [*fd]. *)
Fixpoint cmsg_loop (msgs : list cmsg) : Z :=
  match msgs with
  | [] => -1
  | m :: msgs =>
      if (cmsg_level m =? SOL_SOCKET) && (cmsg_type m =? SCM_RIGHTS) then cmsg_data m else cmsg_loop msgs
  end.

(** [recvfd], from what [recvmsg] returns and the control messages it has
    brought: the value returned, and [*fd], before the call [fd]. *)
Definition recvfd (rv : Z) (msgs : list cmsg) (fd : Z) : Z * Z :=
  if rv <=? 0 then (rv, fd) else (rv, cmsg_loop msgs).

(** What the calls of [memsvc_open] meet: the errno of [socket], of [connect]
    and of [fopen] when they fail; what [recvmsg] returns with its errno and
    the control messages; the text of the configuration file. *)
Record open_env : Type := mk_env {
  env_socket : option Z;
  env_connect : option Z;
  env_recvmsg : Z * Z * list cmsg;
  env_conf : Z + string
}.

Definition failed {R} (user : string) (err : Z) : M state R Z :=
  set_error user err ;; memsvc_invalidate ;; mret (-1).

Definition memsvc_open {R} (env : open_env) : M state R Z :=
  modify (set_handle (Some (mk_handle MEMSVC_INVALID_HANDLE_MAGIC EmptyString (-1) []))) ;;
  match env_socket env with
  | Some err => failed "Socket creation failed: " err
  | None =>
  match env_connect env with
  | Some err => failed "Unable to connect to memsvc: " err
  | None =>
  let '(rv, err, msgs) := env_recvmsg env in
  h ← svc_;
  let r := recvfd rv msgs (memfd h) in
  modify (set_handle (Some (mk_handle (magic h) (last_error h) r.2 (first_range h)))) ;;
  if negb (r.1 =? 1) then failed "Unable to retrieve memory descriptor from memsvc: " err
  else
  h ← svc_;
  if memfd h <? 0 then failed "Unable to retrieve memory descriptor from memsvc" 0
  else
  match env_conf env with
  | inl err => failed "Unable to open memsvc configuration file: " err
  | inr text =>
      e ← config_loop 0 (fgets_lines 1023 text EmptyString);
      match e with
      | Some cfgerr => failed cfgerr 0
      | None =>
          h ← svc_;
          modify (set_handle (Some (mk_handle MEMSVC_VALID_HANDLE_MAGIC (last_error h) (memfd h) (first_range h)))) ;;
          mret 0
      end
  end
  end
  end.

(** ** Access *)

Definition device_load {R} (a : Z) : M state R (option Z) := λ s,
  let r := sys_load a (dev s) in (Next r.1, set_dev r.2 s).
Definition device_store {R} (a x : Z) : M state R bool := λ s,
  let r := sys_store a x (dev s) in (Next r.1, set_dev r.2 s).

(** [REG32(base, offset)], read *)
Definition REG32 {R} (base : option mapping) (offset : Z) : M state R (option Z) :=
  match base with
  | None => undef NullPointer
  | Some m =>
      guard_ub ((0 <=? offset) && (offset + 4 <=? map_length m)) OutOfBounds ;;
      device_load (map_offset m + offset)
  end.

(** [REG32(base, offset) = x]; a store to a mapping without [PROT_WRITE] is a
    SIGSEGV *)
Definition REG32_store {R} (base : option mapping) (offset x : Z) : M state R bool :=
  match base with
  | None => undef NullPointer
  | Some m =>
      guard_ub ((0 <=? offset) && (offset + 4 <=? map_length m)) OutOfBounds ;;
      if negb (map_write m) then halt_with HSignal
      else device_store (map_offset m + offset) x
  end.

(** A SIGBUS outside the loop of [memsvc_read]: the handler, once installed,
    jumps into a call of [memsvc_read] that has returned; without it the
    process dies. *)
Definition bus_error {R A} : M state R A := λ s, ((if bus_handler s then Undef DeadJump else Halt HSignal), s).

Definition range_check {R} (range : memsvc_range) (addr words : Z) : M state R Z :=
  when (bool_decide (range_map range = None)) (set_error "Unable to map memory range" 0) ;;
  when (bool_decide (c2creg_map range = None)) (set_error "Unable to map AC2C status register memory range" 0) ;;
  if (addr <? range_start range) || (range_end range <? w32 (addr + 4 * words)) then
    set_error "Address out of range" 0 ;; mret (-1)
  else if negb (c2c_reg range =? 0) then
    x ← REG32 (c2creg_map range) (c2creg_offset range);
    v ← match x with Some v => mret v | None => bus_error end;
    if negb (Z.land v (c2c_mask range) =? c2c_mask range) then
      set_error "Chip2Chip bridge offline" 0 ;; mret (-1)
    else mret 0
  else mret 0.

(** The part [memsvc_read] and [memsvc_write] share, from the test of
    [range->map] to [range_check]: [-1] is returned when it is not 0. *)
Definition range_ready {R} (range : memsvc_range) (addr words : Z) : M state R Z :=
  if bool_decide (range_map range = None) then
    e ← gets errno; set_error "Unable to map memory range: " e ;; mret (-1)
  else if bool_decide (c2creg_map range = None) then
    e ← gets errno; set_error "Unable to map AC2C status register memory range: " e ;; mret (-1)
  else range_check range addr words.

(** [for (i = 0; i < words; i++) data[i] = REG32(range->map, addr -
    range->start);] under [sigsetjmp]: the words stored, and whether the loop
    was left by the jump. *)
Fixpoint read_loop {R} (n : nat) (range : memsvc_range) (addr : Z) (data : list Z) : M state R (bool * list Z) :=
  match n with
  | O => mret (true, data)
  | S n =>
      x ← REG32 (range_map range) (addr - range_start range);
      match x with
      | None => mret (false, data)
      | Some v => read_loop n range addr (data ++ [v])%list
      end
  end.

(** The [int] counter of the loops: how many turns it can count, and its
    increment after the last of them when there are more words. *)
Definition turns (words : Z) : nat := Z.to_nat (Z.min words (2 ^ 31)).
Definition count_ok {R} (words : Z) : M state R unit := guard_ub (words <? 2 ^ 31) SignedOverflow.

(** The value returned and the words stored in [data] *)
Definition memsvc_read (addr words : Z) : Fn state (Z * list Z) := fn (
  v ← memsvc_validate true;
  if v <? 0 then ret (-1, [])
  else
  range ← find_range addr false true;
  match range with
  | None => set_error ("Invalid address: 0x" ++ hex8 addr) 0 ;; ret (-1, [])
  | Some range =>
      c ← range_ready range addr words;
      if c <? 0 then ret (-1, [])
      else if range_start range =? 0 then ret (-1, [])
      else
      a ← gets (λ s, sys_sigaction (dev s));
      if negb a then ret (-1, [])
      else
      modify (λ s, mk_memsvc (handle s) (dev s) (errno s) true) ;;
      '(done, data) ← read_loop (turns words) range addr [];
      if negb done then ret (-1, data)
      else
      count_ok words ;;
      mret (0, data)
  end).

Fixpoint write_loop {R} (range : memsvc_range) (addr : Z) (data : list Z) : M state R unit :=
  match data with
  | [] => skip
  | x :: data =>
      b ← REG32_store (range_map range) (addr - range_start range) x;
      (if (b : bool) then skip else bus_error) ;;
      write_loop range addr data
  end.

Definition memsvc_write (addr words : Z) (data : list Z) : Fn state Z := fn (
  v ← memsvc_validate true;
  if v <? 0 then ret (-1)
  else
  range ← find_range addr true true;
  match range with
  | None =>
      range ← find_range addr false false;
      match range with
      | Some r =>
          set_error ("Unable to write to readonly range 0x" ++ hex8 (range_start r) ++ "-0x" ++
            hex8 (range_end r) ++ "!  Attempted to write " ++ to_string words ++ " words at 0x" ++
            hex8 addr ++ ".") 0 ;; ret (-1)
      | None => set_error ("Invalid address: 0x" ++ hex8 addr) 0 ;; ret (-1)
      end
  | Some range =>
      c ← range_ready range addr words;
      if c <? 0 then ret (-1)
      else
      write_loop range addr (take (turns words) data) ;;
      guard_ub (turns words <=? length data)%nat OutOfBounds ;;
      count_ok words ;;
      mret 0
  end).
End Memsvc.
