(* ===== verification/MemsvcSpec.v ===== *)
(** * MemsvcSpec: the library as a file of registers

    The calls of [Memsvc] on a device of independent words.  A [usable]
    handle is valid and has its ranges on pages; words may be missing and
    bridges down, and the outcome of both calls is given for every case.  A
    [ready] one has all its words and bridges: there the library is the
    register bus of [MemBus], and its promises to the daemon are proved. *)

From S2P Require Import Prelude RpcMsg CText Memsvc.

Local Open Scope list_scope.

(** ** Pages *)
Class Paged (Dev : Type) `{K : Kernel Dev} : Prop :=
  page_size : 4 ≤ getpagesize ∧ (4 | getpagesize) ∧ (getpagesize | 2 ^ 32).

Section Pages.
Context {Dev : Type} {K : Kernel Dev} {PG : Paged Dev}.
Notation pagesize := (@getpagesize Dev K).

(** [maplen]: whole pages, and enough of them unless it is 0. *)
Lemma maplen_covers_pos r : 0 ≤ range_start r < range_end r → range_end r < 2 ^ 32 →
  0 ≤ maplen r ∧ (4 | maplen r) ∧ (0 < maplen r → range_end r - range_start r < maplen r).
Proof.
  intros Hse He. destruct page_size as (Hp & Hp4 & [y Hy]). unfold maplen.
  set (x := range_end r - range_start r + 1). assert (0 ≤ w32 x < 2 ^ 32) as Hw by (apply wrap_word; lia).
  assert (w32 x = x ∨ w32 x = 0) as Hcase.
  { destruct (decide (x = 2 ^ 32)) as [->|]; [by right|]. left. apply wrap_small. unfold word, x in *. lia. }
  set (len := w32 x) in *. pose proof (Z.mod_pos_bound len pagesize ltac:(lia)).
  assert (len = pagesize * (len / pagesize) + len mod pagesize) as Hdm by (apply Z.div_mod; lia).
  destruct (Z.eqb_spec (len mod pagesize) 0) as [E|E].
  - split_and!; [lia| |unfold x in *; lia]. rewrite Hdm, E, Z.add_0_r. by apply Z.divide_mul_l.
  - destruct Hcase as [Hx|H0]; [|by rewrite H0, Z.mod_0_l in E by lia].
    set (up := len + (pagesize - len mod pagesize)).
    assert (up = pagesize * (len / pagesize + 1)) as Hup by (unfold up; lia).
    assert (up ≤ 2 ^ 32) as Hle.
    { assert (pagesize * (len / pagesize) < pagesize * y) as Hlt by lia.
      apply Z.mul_lt_mono_pos_l in Hlt; [|lia]. rewrite Hup, Hy, (Z.mul_comm y). apply Z.mul_le_mono_pos_l; lia. }
    assert (w32 up = up ∨ w32 up = 0) as [-> | ->].
    { destruct (decide (up = 2 ^ 32)) as [->|]; [by right|]. left. apply wrap_small. unfold word, up in *. lia. }
    + split_and!; [unfold up; lia|rewrite Hup; by apply Z.divide_mul_l|unfold up, x in *; lia].
    + split_and!; [lia|by exists 0|lia].
Qed.
End Pages.

(** ** A device of plain registers *)
Class PlainDevice (Dev : Type) `{K : Kernel Dev} : Type := {
  word_at : Dev → Z → option Z;
  word_at_word d a v : word_at d a = Some v → word 32 v;
  plain_paged :: Paged Dev;
  mmap_aligned m d : (getpagesize | map_offset m) → 0 < map_length m → ∃ d',
    sys_mmap m d = (None, d') ∧ ∀ a, word_at d' a = word_at d a;
  load_word d a : ∃ d', sys_load a d = (word_at d a, d') ∧ ∀ b, word_at d' b = word_at d b;
  store_word d a v x : word_at d a = Some v → word 32 x → ∃ d', sys_store a x d = (true, d') ∧
    ∀ b, word_at d' b = if decide (b = a) then Some x else word_at d b;
  sigaction_done d : sys_sigaction d = true
}.

(** ** What the ranges are, without their mappings *)
Record range_key : Type := mk_key {
  k_start : Z; k_end : Z; k_readonly : bool; k_reg : Z; k_mask : Z
}.
Definition key_of (r : memsvc_range) : range_key :=
  mk_key (range_start r) (range_end r) (readonly r) (c2c_reg r) (c2c_mask r).

Definition in_key (a : Z) (w : bool) (k : range_key) : bool :=
  (k_start k <=? a) && (a <=? k_end k) && (negb w || negb (k_readonly k)).

Lemma in_range_key a w r : in_range a w r = in_key a w (key_of r).
Proof. done. Qed.

Fixpoint find_key (ks : list range_key) (a : Z) : option range_key :=
  match ks with [] => None | k :: ks => if in_key a false k then Some k else find_key ks a end.

(** No address is in two ranges. *)
Definition exclusive (ks : list range_key) : Prop :=
  ∀ k k' l, ks ≡ₚ k :: l → k' ∈ l → ∀ a, in_key a false k = true → in_key a false k' = false.

Lemma in_key_weak a k : in_key a true k = true → in_key a false k = true.
Proof. unfold in_key. cbn. rewrite !andb_true_iff. tauto. Qed.

Lemma find_key_Some ks a k : find_key ks a = Some k → k ∈ ks ∧ in_key a false k = true.
Proof.
  induction ks as [|k' ks IH]; cbn; [done|]. destruct (in_key a false k') eqn:E.
  - intros [= ->]. split; [apply elem_of_cons; by left|done].
  - intros [H1 H2]%IH. split; [apply elem_of_cons; by right|done].
Qed.

Lemma find_key_None ks a k : find_key ks a = None → k ∈ ks → in_key a false k = false.
Proof.
  induction ks as [|k' ks IH]; cbn; [by intros _ ?%elem_of_nil|].
  destruct (in_key a false k') eqn:E; [done|]. intros H [->|Hk]%elem_of_cons; [done|]. by apply IH.
Qed.

Lemma exclusive_perm ks ks' : ks ≡ₚ ks' → exclusive ks → exclusive ks'.
Proof. intros Hp He k k' l Hk. apply (He k k' l). by rewrite Hp. Qed.

(** Where a range contains the address, it is the one that is found. *)
Lemma find_key_in ks a k : exclusive ks → k ∈ ks → in_key a false k = true → find_key ks a = Some k.
Proof.
  intros He Hk Ha. destruct (find_key ks a) as [k'|] eqn:E; [|by rewrite (find_key_None _ _ _ E Hk) in Ha].
  destruct (find_key_Some _ _ _ E) as [Hk' Ha']. f_equal.
  apply list_elem_of_split in Hk as (l1 & l2 & ->).
  assert (l1 ++ k :: l2 ≡ₚ k :: (l1 ++ l2)) as Hp by solve_Permutation.
  assert (k' = k ∨ k' ∈ l1 ++ l2) as [->|Hin] by (rewrite Hp in Hk'; by apply elem_of_cons in Hk').
  { done. }
  by rewrite (He k k' _ Hp Hin a Ha) in Ha'.
Qed.

Lemma find_key_perm ks ks' a : exclusive ks → ks ≡ₚ ks' → find_key ks a = find_key ks' a.
Proof.
  intros He Hp. destruct (find_key ks' a) as [k|] eqn:E.
  - apply find_key_Some in E as [Hk Ha]. apply find_key_in; [done| |done]. by rewrite Hp.
  - destruct (find_key ks a) as [k|] eqn:E'; [|done]. apply find_key_Some in E' as [Hk Ha].
    rewrite Hp in Hk. by rewrite (find_key_None _ _ _ E Hk) in Ha.
Qed.

Lemma take_out_Some f l r rest : take_out f l = Some (r, rest) → f r = true ∧ l ≡ₚ r :: rest.
Proof.
  revert r rest. induction l as [|x l IH]; intros r rest; cbn; [done|]. destruct (f x) eqn:E.
  - by intros [= <- <-].
  - destruct (take_out f l) as [[r' l']|]; [|done]. intros [= -> <-]. destruct (IH r l' eq_refl) as [? Hp].
    split; [done|]. rewrite Hp. solve_Permutation.
Qed.

Lemma take_out_None f l r : take_out f l = None → r ∈ l → f r = false.
Proof.
  induction l as [|x l IH]; cbn; [by intros _ ?%elem_of_nil|]. destruct (f x) eqn:E; [done|].
  destruct (take_out f l) as [[r' l']|]; [done|]. intros _ [->|Hr]%elem_of_cons; [done|]. by apply IH.
Qed.

(** ** Mapping a range *)
Section Plain.
Context {Dev : Type} {K : Kernel Dev} {PD : PlainDevice Dev}.
Notation state := (memsvc_state Dev).
Notation pagesize := (@getpagesize Dev K).

Definition same_words (d d' : Dev) : Prop := ∀ a, word_at d' a = word_at d a.

Definition own_map (r : memsvc_range) : mapping := mk_mapping (range_start r) (maplen r) (negb (readonly r)).
Definition status_offset (r : memsvc_range) : Z := c2c_reg r mod pagesize.
Definition status_map (r : memsvc_range) : mapping := mk_mapping (c2c_reg r - status_offset r) pagesize false.
Definition mapped (r : memsvc_range) : memsvc_range :=
  with_c2creg (Some (status_map r)) (status_offset r) (with_map (Some (own_map r)) r).

(** A range as [memsvc_open] makes it, on page boundaries, with or without
    its mappings. *)
Definition wf_range (r : memsvc_range) : Prop :=
  0 < range_start r < range_end r ∧ range_end r < 2 ^ 32 ∧ (pagesize | range_start r) ∧
  0 ≤ c2c_reg r ∧ (4 | c2c_reg r) ∧
  (range_map r = None ∨ range_map r = Some (own_map r)) ∧
  (c2creg_map r = None ∨ c2creg_map r = Some (status_map r) ∧ c2creg_offset r = status_offset r).

Lemma mapped_wf r : wf_range r → wf_range (mapped r).
Proof. intros (? & ? & ? & ? & ? & _). repeat split; by (tauto || right). Qed.

Lemma mapped_key r : key_of (mapped r) = key_of r.
Proof. done. Qed.

(** A range on pages is mapped whole. *)
Lemma maplen_covers r : wf_range r →
  range_end r - range_start r < maplen r ∧ (4 | maplen r) ∧ 0 < maplen r.
Proof.
  intros ([Hs Hse] & He & Hps & _). destruct (maplen_covers_pos r) as (H0 & H4 & Hc); [lia|done|].
  enough (maplen r ≠ 0) by (split_and!; [apply Hc; lia|done|lia]).
  destruct page_size as (Hp & _ & [y Hy]), Hps as [x Hx]. unfold maplen.
  rewrite (wrap_small 32 (range_end r - _ + 1)) by (unfold word; lia).
  set (len := range_end r - range_start r + 1). pose proof (Z.mod_pos_bound len pagesize ltac:(lia)).
  assert (len = pagesize * (len / pagesize) + len mod pagesize) as Hdm by (apply Z.div_mod; lia).
  destruct (Z.eqb_spec (len mod pagesize) 0); [lia|]. rewrite wrap_small; [lia|]. unfold word. split; [lia|].
  assert (pagesize * (len / pagesize) < pagesize * (y - x)) as Hlt by (rewrite Z.mul_sub_distr_l; lia).
  apply Z.mul_lt_mono_pos_l in Hlt; [|lia]. assert (0 < x) by nia.
  assert (pagesize * (len / pagesize + 1) < pagesize * y) by (apply Z.mul_lt_mono_pos_l; lia). lia.
Qed.

(** An aligned word of the range is inside its mapping. *)
Lemma in_map_bounds r a : wf_range r → (4 | a) → in_key a false (key_of r) = true →
  (0 <=? a - range_start r) && (a - range_start r + 4 <=? map_length (own_map r)) = true.
Proof.
  intros Hr Ha Hin. destruct (maplen_covers r Hr) as (Hc & H4 & _). unfold in_key in Hin. cbn in Hin.
  rewrite !andb_true_iff in Hin. destruct Hin as [[H1%Z.leb_le H2%Z.leb_le] _]. cbn.
  destruct Hr as (_ & _ & Hps & _). destruct (page_size) as (_ & Hp4 & _).
  assert (4 | range_start r) as H4s by (by etrans). destruct H4 as [x Hx], Ha as [y Hy], H4s as [z Hz].
  apply andb_true_iff. split; [apply Z.leb_le; lia|]. apply Z.leb_le. lia.
Qed.

Lemma status_bounds r : wf_range r →
  (0 <=? status_offset r) && (status_offset r + 4 <=? map_length (status_map r)) = true.
Proof.
  intros (_ & _ & _ & Hc0 & Hc & _). destruct (page_size) as (Hp & Hp4 & _).
  unfold status_offset. cbn. pose proof (Z.mod_pos_bound (c2c_reg r) pagesize ltac:(lia)).
  assert (4 | c2c_reg r mod pagesize) as [x Hx].
  { rewrite Z.mod_eq by lia. apply Z.divide_sub_r; [done|]. by apply Z.divide_mul_l. }
  destruct Hp4 as [y Hy]. apply andb_true_iff. split; [apply Z.leb_le; lia|]. apply Z.leb_le. lia.
Qed.

Lemma mmap_plain {R} m (s : state) : (pagesize | map_offset m) → 0 < map_length m → ∃ d',
  mmap (R:=R) m s = (Next (Some m), set_dev d' s) ∧ same_words (dev s) d'.
Proof.
  intros Ha Hl. destruct (mmap_aligned m (dev s) Ha Hl) as (d' & Hm & Hd). exists d'. split; [|done].
  unfold mmap. by rewrite Hm.
Qed.

Lemma same_words_trans d1 d2 d3 : same_words d1 d2 → same_words d2 d3 → same_words d1 d3.
Proof. intros H1 H2 a. by rewrite H2. Qed.

Lemma with_map_id m r : range_map r = m → with_map m r = r.
Proof. intros <-. by destruct r. Qed.

Lemma with_c2creg_id m off r : c2creg_map r = m → c2creg_offset r = off → with_c2creg m off r = r.
Proof. intros <- <-. by destruct r. Qed.

Lemma set_dev_id (s : state) : set_dev (dev s) s = s.
Proof. by destruct s. Qed.

(** Activating a range leaves both its mappings in place. *)
Lemma map_range_plain {R} r (s : state) : wf_range r → ∃ d',
  map_range (R:=R) true r s = (Next (mapped r), set_dev d' s) ∧ same_words (dev s) d'.
Proof.
  intros Hr. pose proof (maplen_covers r Hr) as (_ & _ & Hml). destruct Hr as (_ & _ & Hps & Hc0 & Hc & Hm & Hcm).
  destruct (page_size) as (Hp & _).
  assert (∃ d1, ((if true && bool_decide (range_map r = None) then
       m ← mmap (mk_mapping (range_start r) (maplen r) (negb (readonly r)));
       mret (bool_decide (is_Some m), with_map m r) else mret (true, r)) : M state R _) s =
     (Next (true, with_map (Some (own_map r)) r), set_dev d1 s) ∧ same_words (dev s) d1) as (d1 & Hd1 & Hw1).
  { destruct Hm as [Hm|Hm]; rewrite Hm; cbn [andb].
    - destruct (mmap_plain (R:=R) (own_map r) s) as (d1 & Hd1 & Hw1); [done|done|]. exists d1.
      rewrite bool_decide_true by done. split; [|done]. by erewrite bind_next by exact Hd1.
    - exists (dev s). split; [|done]. by rewrite (with_map_id _ _ Hm), set_dev_id. }
  unfold map_range. erewrite bind_next by exact Hd1. cbv beta iota. cbn [andb].
  change (c2creg_map (with_map _ r)) with (c2creg_map r). change (c2c_reg (with_map _ r)) with (c2c_reg r).
  destruct Hcm as [Hcm|[Hcm Hoff]]; rewrite Hcm.
  - rewrite bool_decide_true by done. destruct (mmap_plain (R:=R) (status_map r) (set_dev d1 s)) as (d2 & Hd2 & Hw2).
    { cbn. unfold status_offset. rewrite Z.mod_eq by lia. exists (c2c_reg r / pagesize). lia. }
    { cbn. lia. }
    exists d2. cbv zeta. erewrite bind_next by exact Hd2. split; [done|]. by eapply same_words_trans.
  - rewrite bool_decide_false by done. exists d1. split; [|done]. unfold mapped.
    by rewrite with_c2creg_id.
Qed.

(** ** The registers of an open handle *)

(** Every aligned word of the range is there, and its bridge, if it has one,
    is up. *)
Definition served (d : Dev) (k : range_key) : Prop :=
  (∀ a, (4 | a) → in_key a false k = true → is_Some (word_at d a)) ∧
  (k_reg k ≠ 0 → ∃ v, word_at d (k_reg k) = Some v ∧ Z.land v (k_mask k) = k_mask k).

(** The ranges do not overlap, and no status register can be written. *)
Definition keys_ok (d : Dev) (ks : list range_key) : Prop :=
  exclusive ks ∧ (∀ k, k ∈ ks → served d k) ∧
  (∀ k k', k ∈ ks → k' ∈ ks → k_reg k ≠ 0 → in_key (k_reg k) true k' = false).

Definition ready (s : state) : Prop := ∃ h, handle s = Some h ∧ magic h = MEMSVC_VALID_HANDLE_MAGIC ∧
  Forall wf_range (first_range h) ∧ keys_ok (dev s) (key_of <$> first_range h).

(** The word at [a], when its four bytes are before the end of its range. *)
Definition reg_at (ks : list range_key) (d : Dev) (a : Z) : option Z :=
  if a mod 4 =? 0 then
    match find_key ks a with
    | Some k => if w32 (a + 4) <=? k_end k then word_at d a else None
    | None => None
    end
  else None.

Definition keys_of (s : state) : list range_key :=
  match handle s with Some h => key_of <$> first_range h | None => [] end.
Definition mem_reg (s : state) (a : Z) : option Z := reg_at (keys_of s) (dev s) a.
Definition mem_writeable (s : state) (a : Z) : bool :=
  match find_key (keys_of s) a with Some k => negb (k_readonly k) | None => false end.

(** The same ranges, in any order and mapped or not, over the same words. *)
Definition unchanged (s s' : state) : Prop :=
  ready s' ∧ keys_of s' ≡ₚ keys_of s ∧ same_words (dev s) (dev s').

Lemma keys_ok_perm d d' ks ks' : ks' ≡ₚ ks → same_words d d' → keys_ok d ks → keys_ok d' ks'.
Proof.
  intros Hp Hw (He & Hs & Hr). split_and!.
  - by eapply exclusive_perm.
  - intros k Hk. rewrite Hp in Hk. destruct (Hs k Hk) as [H1 H2]. split.
    + intros a Ha Hi. rewrite Hw. by apply H1.
    + intros Hne. destruct (H2 Hne) as (v & Hv & Hm). exists v. by rewrite Hw.
  - intros k k' Hk Hk'. rewrite Hp in Hk, Hk'. by apply Hr.
Qed.

Lemma unchanged_reg s s' : ready s → unchanged s s' →
  (∀ a, mem_reg s' a = mem_reg s a) ∧ (∀ a, mem_writeable s' a = mem_writeable s a).
Proof.
  intros (h & Hh & _ & _ & He & _) (_ & Hp & Hw). assert (exclusive (keys_of s)) as He' by (unfold keys_of; by rewrite Hh).
  split; intros a; unfold mem_reg, reg_at, mem_writeable; rewrite (find_key_perm (keys_of s) (keys_of s') a He') by done.
  - destruct (a mod 4 =? 0); [|done]. destruct (find_key _ a) as [k|]; [|done]. by rewrite Hw.
  - done.
Qed.

Lemma unchanged_refl s : ready s → unchanged s s.
Proof. intros. by split_and!. Qed.

Lemma unchanged_trans s1 s2 s3 : unchanged s1 s2 → unchanged s2 s3 → unchanged s1 s3.
Proof. intros (_ & Hp & Hw) (Hr & Hp' & Hw'). split; [done|]. split; [by rewrite Hp'|by eapply same_words_trans]. Qed.

(** *** A valid handle

    Its ranges are as [memsvc_open] makes them, on pages; the words under them
    may be missing and the bridges down. *)
Definition usable (s : state) : Prop := ∃ h, handle s = Some h ∧ magic h = MEMSVC_VALID_HANDLE_MAGIC ∧
  Forall wf_range (first_range h).

(** The same ranges, in any order and mapped or not, over the same words. *)
Definition kept (s s' : state) : Prop := usable s' ∧ keys_of s' ≡ₚ keys_of s ∧ same_words (dev s) (dev s').

Lemma ready_usable s : ready s → usable s.
Proof. intros (h & ? & ? & ? & _). by exists h. Qed.

Lemma ready_kept s s' : ready s → kept s s' → unchanged s s'.
Proof.
  intros (h & Hh & _ & _ & Hk) ((h' & Hh' & Hm & Hwf) & Hp & Hw). split; [|done].
  exists h'. split_and!; [done..|]. unfold keys_of in Hp. rewrite Hh, Hh' in Hp. by eapply keys_ok_perm.
Qed.

Lemma kept_refl s : usable s → kept s s.
Proof. intros. by split_and!. Qed.

Lemma kept_trans s1 s2 s3 : kept s1 s2 → kept s2 s3 → kept s1 s3.
Proof. intros (_ & Hp & Hw) (Hr & Hp' & Hw'). split; [done|]. split; [by rewrite Hp'|by eapply same_words_trans]. Qed.

(** The library's own steps. *)
Lemma set_error_kept {R} m e s : usable s → ∃ s', set_error (R:=R) m e s = (Next tt, s') ∧ kept s s' ∧
  bus_handler s' = bus_handler s.
Proof.
  intros (h & Hh & Hm & Hwf). unfold set_error, svc_. erewrite bind_next by (by rewrite Hh). cbn beta.
  eexists. split; [reflexivity|]. split; [|done]. split; [by eexists|]. by unfold keys_of; rewrite Hh.
Qed.

Lemma validate_usable {R} s : usable s → memsvc_validate (R:=R) true s = (Next 0, s).
Proof.
  intros (h & Hh & Hm & _). unfold memsvc_validate. erewrite bind_next by reflexivity. cbn beta.
  rewrite Hh, Hm. done.
Qed.

(** The range that is found is moved to the front, mapped. *)
Lemma find_range_hit {R} s h a w r rest : usable s → handle s = Some h → (4 | a) →
  take_out (in_range a w) (first_range h) = Some (r, rest) →
  ∃ s', find_range (R:=R) a w true s = (Next (Some (mapped r)), s') ∧ kept s s' ∧
    bus_handler s' = bus_handler s.
Proof.
  intros (h' & Hh' & Hm & Hwf) Hh Ha Ht. rewrite Hh in Hh'. injection Hh' as <-.
  destruct (take_out_Some _ _ _ _ Ht) as [_ Hp].
  assert (wf_range r ∧ Forall wf_range rest) as [Hr Hrest] by (rewrite Hp in Hwf; by apply Forall_cons in Hwf).
  unfold find_range. rewrite (proj2 (Z.eqb_eq _ _) (proj2 (Z.mod_divide a 4 ltac:(lia)) Ha)). cbn [negb].
  erewrite bind_next by (unfold svc_; by rewrite Hh). cbn beta. rewrite Ht.
  destruct (map_range_plain (R:=R) r s Hr) as (d' & Hd & Hw). erewrite bind_next by exact Hd. cbn beta.
  unfold set_ranges. rewrite bind_bind. erewrite bind_next by (unfold svc_; cbn; by rewrite Hh). cbn beta.
  erewrite bind_next by reflexivity.
  assert (key_of <$> mapped r :: rest ≡ₚ key_of <$> first_range h) as Hkp by (rewrite Hp; done).
  eexists. split; [reflexivity|]. split; [|done]. split; [|by unfold keys_of; cbn [handle set_handle]; rewrite Hh].
  eexists. split; [reflexivity|]. cbn. split; [done|]. constructor; [by apply mapped_wf|done].
Qed.

Lemma find_range_miss {R} s h a w activate : handle s = Some h →
  a mod 4 ≠ 0 ∨ take_out (in_range a w) (first_range h) = None →
  find_range (R:=R) a w activate s = (Next None, s).
Proof.
  intros Hh Hor. unfold find_range. destruct (Z.eqb_spec (a mod 4) 0) as [E|E]; [|done]. destruct Hor as [|Ht]; [done|].
  cbn [negb]. erewrite bind_next by (unfold svc_; by rewrite Hh). cbn beta. by rewrite Ht.
Qed.

(** A search that maps nothing. *)
Lemma find_range_inactive {R} s h a w r rest : usable s → handle s = Some h → (4 | a) →
  take_out (in_range a w) (first_range h) = Some (r, rest) →
  ∃ s', find_range (R:=R) a w false s = (Next (Some r), s') ∧ kept s s'.
Proof.
  intros (h' & Hh' & Hm & Hwf) Hh Ha Ht. rewrite Hh in Hh'. injection Hh' as <-.
  destruct (take_out_Some _ _ _ _ Ht) as [_ Hp].
  unfold find_range. rewrite (proj2 (Z.eqb_eq _ _) (proj2 (Z.mod_divide a 4 ltac:(lia)) Ha)). cbn [negb].
  erewrite bind_next by (unfold svc_; by rewrite Hh). cbn beta. rewrite Ht.
  erewrite bind_next by reflexivity. unfold set_ranges. rewrite bind_bind.
  erewrite bind_next by (unfold svc_; by rewrite Hh). cbn beta. erewrite bind_next by reflexivity.
  eexists. split; [reflexivity|]. unfold kept, keys_of. cbn [handle set_handle]. rewrite Hh. cbn [first_range].
  split; [|by rewrite Hp]. eexists. split; [reflexivity|]. cbn. split; [done|by rewrite <- Hp].
Qed.

Lemma device_load_kept {R} a s : usable s → ∃ s',
  device_load (R:=R) a s = (Next (word_at (dev s) a), s') ∧ kept s s' ∧ bus_handler s' = bus_handler s.
Proof.
  intros (h & Hh & Hm & Hwf). destruct (load_word (dev s) a) as (d' & Hl & Hw).
  exists (set_dev d' s). unfold device_load. rewrite Hl. split; [done|]. split; [|done]. split; [|done]. by exists h.
Qed.

Lemma ready_served s k : ready s → k ∈ keys_of s → served (dev s) k.
Proof. intros (h & Hh & _ & _ & _ & Hs & _) Hk. apply Hs. unfold keys_of in Hk. by rewrite Hh in Hk. Qed.

(** What a SIGBUS outside [memsvc_read]'s loop does. *)
Definition bus_fault {R A} (handler : bool) : flow R A := if handler then Undef DeadJump else Halt HSignal.

(** The bridge of a range: up or down, [None] when its status register does
    not answer. *)
Definition bridge (d : Dev) (k : range_key) : option bool :=
  if k_reg k =? 0 then Some true
  else match word_at d (k_reg k) with
       | Some v => Some (Z.land v (k_mask k) =? k_mask k)
       | None => None
       end.

(** The checks between the lookup and the loop. *)
Lemma range_ready_kept {R} r a n s : usable s → wf_range r → range_start r ≤ a → ∃ s',
  range_ready (R:=R) (mapped r) a n s =
    (if range_end r <? w32 (a + 4 * n) then Next (-1)
     else match bridge (dev s) (key_of r) with
          | None => bus_fault (bus_handler s)
          | Some b => Next (if b then 0 else -1)
          end, s') ∧ kept s s' ∧ bus_handler s' = bus_handler s.
Proof.
  intros Hs Hr Ha. unfold range_ready, range_check. rewrite !bool_decide_false by done. cbn [when].
  erewrite bind_next by reflexivity. erewrite bind_next by reflexivity.
  cbn [range_start range_end mapped with_c2creg with_map].
  destruct (Z.ltb_spec a (range_start r)); [lia|]. cbn [orb].
  destruct (Z.ltb_spec (range_end r) (w32 (a + 4 * n))).
  { destruct (set_error_kept (R:=R) "Address out of range" 0 s Hs) as (s' & He & Hu & Hb).
    exists s'. by erewrite bind_next by exact He. }
  unfold bridge. cbn [c2c_reg mapped with_c2creg with_map k_reg k_mask key_of].
  destruct (Z.eqb_spec (c2c_reg r) 0) as [E|E]; cbn [negb].
  { exists s. split; [done|]. split; [by apply kept_refl|done]. }
  cbn [REG32 c2creg_map c2creg_offset mapped with_c2creg with_map].
  rewrite bind_bind. rewrite (status_bounds r Hr). erewrite bind_next by reflexivity.
  replace (map_offset (status_map r) + status_offset r) with (c2c_reg r) by (cbn; lia).
  destruct (device_load_kept (R:=R) (c2c_reg r) s Hs) as (s' & Hl & Hu & Hbh).
  erewrite bind_next by exact Hl. cbn beta. destruct (word_at (dev s) (c2c_reg r)) as [v|]; last first.
  { exists s'. split; [|done]. rewrite <- Hbh. unfold mbind, M_bind, bus_error, bus_fault. by destruct (bus_handler s'). }
  erewrite bind_next by reflexivity. change (c2c_mask (mapped r)) with (c2c_mask r).
  destruct (_ =? c2c_mask r); cbn [negb]; [by exists s'|].
  destruct (set_error_kept (R:=R) "Chip2Chip bridge offline" 0 s' (proj1 Hu)) as (s2 & He & Hu2 & Hb2).
  exists s2. erewrite bind_next by exact He. split; [done|]. split; [by eapply kept_trans|congruence].
Qed.

(** One access of the loops. *)
Lemma REG32_kept {R} r a s : usable s → wf_range r → (4 | a) → in_key a false (key_of r) = true → ∃ s',
  REG32 (R:=R) (range_map (mapped r)) (a - range_start (mapped r)) s = (Next (word_at (dev s) a), s') ∧
  kept s s' ∧ bus_handler s' = bus_handler s.
Proof.
  intros Hs Hr Ha Hin. cbn [REG32 range_map range_start mapped with_c2creg with_map].
  rewrite (in_map_bounds r a Hr Ha Hin). erewrite bind_next by reflexivity.
  replace (map_offset (own_map r) + (a - range_start r)) with a by (cbn; lia).
  apply (device_load_kept (R:=R) a s Hs).
Qed.

(** The loop reads the same word every time; the jump of the handler leaves
    it with the first access. *)
Lemma read_loop_kept {R} r a n data s : usable s → wf_range r → (4 | a) → in_key a false (key_of r) = true → ∃ s',
  read_loop (R:=R) n (mapped r) a data s =
    (Next match word_at (dev s) a with
          | Some v => (true, data ++ replicate n v)
          | None => (Nat.eqb n 0, data)
          end, s') ∧ kept s s'.
Proof.
  intros Hs Hr Ha Hin. revert data s Hs. induction n as [|n IH]; intros data s Hs.
  { exists s. split; [|by apply kept_refl]. destruct (word_at _ _); [by rewrite app_nil_r|done]. }
  cbn [read_loop]. destruct (REG32_kept (R:=R) r a s Hs Hr Ha Hin) as (s1 & H1 & Hu & _).
  erewrite bind_next by exact H1. cbn beta. destruct (word_at (dev s) a) as [v|] eqn:Hv; [|by exists s1].
  pose proof Hu as (Hs1 & _ & Hw). destruct (IH (data ++ [v]) s1 Hs1) as (s2 & H2 & Hu2).
  exists s2. rewrite H2, Hw, Hv. split; [|by eapply kept_trans]. by rewrite <- app_assoc.
Qed.

(** A refusal. *)
Lemma refuse_kept {R A} (x : R) msg e s : usable s → ∃ s',
  (set_error msg e ;; ret x : M state R A) s = (Return x, s') ∧ kept s s'.
Proof.
  intros Hs. destruct (set_error_kept (R:=R) msg e s Hs) as (s' & Hse & Hu & _). exists s'.
  by erewrite bind_next by exact Hse.
Qed.

(** The range of an address, for reading or writing. *)
Definition range_at (ks : list range_key) (a : Z) (w : bool) : option range_key := find (in_key a w) ks.

Lemma range_at_read ks a : range_at ks a false = find_key ks a.
Proof. induction ks as [|k ks IH]; [done|]. cbn. by rewrite <- IH. Qed.

(** What the search in the list finds. *)
Lemma take_out_key a w l : range_at (key_of <$> l) a w =
  match take_out (in_range a w) l with Some (r, _) => Some (key_of r) | None => None end.
Proof.
  induction l as [|x l IH]; [done|]. cbn [fmap list_fmap range_at find take_out]. rewrite <- in_range_key.
  destruct (in_range a w x); [done|]. change (find _ _) with (range_at (key_of <$> l) a w). rewrite IH.
  by destruct (take_out _ l) as [[]|].
Qed.

Lemma range_at_take_out s h a w : handle s = Some h → range_at (keys_of s) a w =
  match take_out (in_range a w) (first_range h) with Some (r, _) => Some (key_of r) | None => None end.
Proof. intros Hh. unfold keys_of. rewrite Hh. apply take_out_key. Qed.

Lemma found_range s h a w r rest : usable s → handle s = Some h →
  take_out (in_range a w) (first_range h) = Some (r, rest) →
  wf_range r ∧ key_of r ∈ keys_of s ∧ in_key a w (key_of r) = true.
Proof.
  intros (h' & Hh' & _ & Hwf) Hh Ht. rewrite Hh in Hh'. injection Hh' as <-.
  destruct (take_out_Some _ _ _ _ Ht) as [Hin Hp]. split_and!; [|unfold keys_of; rewrite Hh, Hp; apply elem_of_cons; by left|done].
  rewrite Hp in Hwf. by apply Forall_cons in Hwf as [].
Qed.

Lemma in_key_read a w k : in_key a w k = true → in_key a false k = true.
Proof. destruct w; [apply in_key_weak|done]. Qed.

Lemma in_key_start a w k : in_key a w k = true → k_start k ≤ a.
Proof. unfold in_key. rewrite !andb_true_iff. intros [[H%Z.leb_le _] _]. done. Qed.

(** What the checks of a call of [n] words say: [Some true] to go on, [Some
    false] to refuse, [None] when the status register does not answer. *)
Definition checks (ks : list range_key) (d : Dev) (a n : Z) (w : bool) : option bool :=
  match range_at ks a w with
  | Some k => if (a mod 4 =? 0) && (w32 (a + 4 * n) <=? k_end k) then bridge d k else Some false
  | None => Some false
  end.

(** *** Fewer than 2^31 words *)

Lemma turns_small n : n < 2 ^ 31 → turns n = Z.to_nat n.
Proof. intros. unfold turns. by rewrite Z.min_l by lia. Qed.

Lemma count_ok_next {R} n (s : state) : n < 2 ^ 31 → count_ok (R:=R) n s = (Next tt, s).
Proof. intros. by apply guard_next, Z.ltb_lt. Qed.

(** ** memsvc_read *)

(** Both calls up to their loop: the lookup, then the checks. *)
Lemma memsvc_read_outcome a n s : usable s → 0 ≤ n < 2 ^ 31 → ∃ q s', memsvc_read a n s = (q, s') ∧ kept s s' ∧
  q = match checks (keys_of s) (dev s) a n false with
      | None => bus_fault (bus_handler s)
      | Some false => Next (-1, [])
      | Some true => match word_at (dev s) a with
                     | Some v => Next (0, replicate (Z.to_nat n) v)
                     | None => Next (if n =? 0 then 0 else -1, [])
                     end
      end.
Proof.
  intros Hs Hn. pose proof Hs as (h & Hh & _). unfold memsvc_read, fn, checks.
  erewrite bind_next by (by apply validate_usable). change (0 <? 0) with false. cbv iota.
  rewrite (range_at_take_out s h a false Hh).
  destruct (refuse_kept (A := Z * list Z) (-1, [] : list Z) ("Invalid address: 0x" ++ hex8 a)%string 0 s Hs)
    as (s0 & Hf & Hu0).
  destruct (Z.eqb_spec (a mod 4) 0) as [Ha|Ha]; cbn [andb]; last first.
  { erewrite bind_next by (eapply find_range_miss; [done|by left]). cbn beta iota. rewrite Hf.
    exists (Next (-1, [])), s0. split; [done|]. split; [done|]. by destruct (take_out _ _) as [[]|]. }
  destruct (take_out (in_range a false) (first_range h)) as [[r rest]|] eqn:Et; last first.
  { erewrite bind_next by (eapply find_range_miss; [done|by right]). cbn beta iota. rewrite Hf.
    by exists (Next (-1, [])), s0. }
  apply Z.mod_divide in Ha; [|lia]. destruct (found_range s h a false r rest Hs Hh Et) as (Hr & Hk & Hin).
  destruct (find_range_hit (R:=Z * list Z) s h a false r rest Hs Hh Ha Et) as (s1 & H1 & Hu1 & Hb1).
  erewrite bind_next by exact H1. cbn beta iota. pose proof Hu1 as (Hs1 & _ & Hw1).
  destruct (range_ready_kept (R:=Z * list Z) r a n s1 Hs1 Hr (in_key_start _ _ _ Hin)) as (s2 & H2 & Hu2 & Hb2).
  change (k_end (key_of r)) with (range_end r).
  assert (kept s s2) as Hu02 by (by eapply kept_trans). pose proof Hu02 as (Hs2 & _ & Hw2).
  assert (bridge (dev s1) (key_of r) = bridge (dev s) (key_of r)) as Hbr by (unfold bridge; by rewrite Hw1).
  rewrite Hbr, Hb1 in H2.
  destruct (Z.ltb_spec (range_end r) (w32 (a + 4 * n))) as [Hlt|Hle].
  { erewrite bind_next by exact H2. change (-1 <? 0) with true. cbv iota.
    exists (Next (-1, [])), s2. split; [done|]. split; [done|].
    by destruct (Z.leb_spec (w32 (a + 4 * n)) (range_end r)); [lia|]. }
  destruct (Z.leb_spec (w32 (a + 4 * n)) (range_end r)); [|lia].
  destruct (bridge (dev s) (key_of r)) as [[]|]; last first.
  { exists (bus_fault (bus_handler s)), s2. split; [|done]. unfold bus_fault in *. unfold mbind, M_bind. rewrite H2.
    by destruct (bus_handler s). }
  { erewrite bind_next by exact H2. change (-1 <? 0) with true. cbv iota. by exists (Next (-1, [])), s2. }
  erewrite bind_next by exact H2. cbn beta.
  change (0 <? 0) with false. cbv iota. change (range_start (mapped r)) with (range_start r) at 1.
  destruct (Z.eqb_spec (range_start r) 0); [by destruct Hr as ([? _] & _); lia|].
  erewrite bind_next by reflexivity. cbn beta. rewrite sigaction_done. cbn [negb].
  erewrite bind_next by reflexivity. rewrite (turns_small n) by lia.
  set (s3 := mk_memsvc _ _ _ true). assert (kept s s3) as Hu3.
  { destruct Hu02 as (Hr3 & Hp3 & Hw3). split; [|by split]. exact Hr3. }
  destruct (read_loop_kept (R:=Z * list Z) r a (Z.to_nat n) [] s3 (proj1 Hu3) Hr Ha Hin) as (s4 & H4 & Hu4).
  change (dev s3) with (dev s2) in H4. rewrite Hw2 in H4.
  erewrite bind_next by exact H4. cbn beta iota. assert (kept s s4) by (by eapply kept_trans).
  destruct (word_at (dev s) a) as [v|].
  - cbn [negb]. erewrite bind_next by (apply count_ok_next; lia). eexists _, s4. by split_and!.
  - destruct (Z.eqb_spec n 0) as [->|Hne]; [change (Nat.eqb (Z.to_nat 0) 0) with true|].
    + cbn [negb]. erewrite bind_next by (by apply count_ok_next). eexists _, s4. by split_and!.
    + assert (Nat.eqb (Z.to_nat n) 0 = false) as -> by (apply Nat.eqb_neq; lia). cbn [negb].
      eexists _, s4. by split_and!.
Qed.

(** On plain registers all checks succeed where the range contains the
    words. *)
Lemma checks_read s a n : ready s → checks (keys_of s) (dev s) a n false =
  Some (match find_key (keys_of s) a with
        | Some k => (a mod 4 =? 0) && (w32 (a + 4 * n) <=? k_end k)
        | None => false
        end).
Proof.
  intros Hs. unfold checks. rewrite range_at_read. destruct (find_key (keys_of s) a) as [k|] eqn:Ek; [|done].
  destruct (_ && _); [|done]. apply find_key_Some in Ek as [Hk _]. destruct (ready_served s k Hs Hk) as [_ Hb].
  unfold bridge. destruct (Z.eqb_spec (k_reg k) 0) as [|E]; [done|]. destruct (Hb E) as (v & -> & ->). by rewrite Z.eqb_refl.
Qed.

(** A read of [n] words that the range contains stores [n] samples of the one
    word at the address; any other is refused.  Nothing changes but the
    order and the mappings of the ranges. *)
Lemma memsvc_read_run a n s : ready s → 0 ≤ n < 2 ^ 31 → ∃ rc data s',
  memsvc_read a n s = (Next (rc, data), s') ∧ unchanged s s' ∧
  match find_key (keys_of s) a with
  | Some k =>
      if (a mod 4 =? 0) && (w32 (a + 4 * n) <=? k_end k) then
        rc = 0 ∧ ∃ v, word_at (dev s) a = Some v ∧ data = replicate (Z.to_nat n) v
      else rc = -1 ∧ data = []
  | None => rc = -1 ∧ data = []
  end.
Proof.
  intros Hs Hn. destruct (memsvc_read_outcome a n s (ready_usable s Hs) Hn) as (q & s' & Hr & Hu & Hq).
  apply (ready_kept s s' Hs) in Hu. rewrite (checks_read s a n Hs) in Hq.
  destruct (find_key (keys_of s) a) as [k|] eqn:Ek; [|subst q; by exists (-1), [], s'].
  destruct (Z.eqb_spec (a mod 4) 0) as [Ha|Ha]; cbn [andb] in *; [|subst q; by exists (-1), [], s'].
  destruct (_ <=? _); [|subst q; by exists (-1), [], s'].
  apply find_key_Some in Ek as [Hk Hin]. apply Z.mod_divide in Ha; [|lia].
  destruct (proj1 (ready_served s k Hs Hk) a Ha Hin) as [v Hv]. rewrite Hv in Hq |- *. subst q.
  exists 0, (replicate (Z.to_nat n) v), s'. split; [exact Hr|]. split; [exact Hu|]. split; [done|]. by exists v.
Qed.

(** ** memsvc_write *)

(** The same ranges over the words with [x], if any, at [a]. *)
Definition stored (a : Z) (x : option Z) (s s' : state) : Prop :=
  ready s' ∧ keys_of s' ≡ₚ keys_of s ∧
  ∀ b, word_at (dev s') b =
    match x with Some x => if decide (b = a) then Some x else word_at (dev s) b | None => word_at (dev s) b end.

(** A store to a range that can be written leaves the ranges in order. *)
Lemma keys_ok_store d d' ks a x k : keys_ok d ks → k ∈ ks → in_key a true k = true →
  (∀ b, word_at d' b = if decide (b = a) then Some x else word_at d b) → keys_ok d' ks.
Proof.
  intros (He & Hsv & Hsep) Hk Hin Hw. split_and!; [done| |done]. intros k' Hk'. destruct (Hsv k' Hk') as [H1 H2].
  split.
  - intros b Hb Hbi. rewrite Hw. case_decide; [by eexists|by apply H1].
  - intros Hne. destruct (H2 Hne) as (u & Hu & Hmu). exists u. split; [|done]. rewrite Hw.
    rewrite decide_False; [done|]. intros E. pose proof (Hsep k' k Hk' Hk Hne) as Hno. rewrite E in Hno. congruence.
Qed.

(** The words with [x], if any, at [a]; the ranges as before. *)
Definition written (a : Z) (x : option Z) (s s' : state) : Prop :=
  usable s' ∧ keys_of s' ≡ₚ keys_of s ∧
  ∀ b, word_at (dev s') b =
    match x with Some x => if decide (b = a) then Some x else word_at (dev s) b | None => word_at (dev s) b end.

Lemma kept_written a s1 s2 s3 x : kept s1 s2 → written a x s2 s3 → written a x s1 s3.
Proof.
  intros (_ & Hp & Hw) (Hr & Hp' & Hw'). split; [done|]. split; [by rewrite Hp'|]. intros b. rewrite Hw'.
  destruct x; [case_decide; [done|]|]; apply Hw.
Qed.

Lemma kept_written_none a s s' : kept s s' → written a None s s'.
Proof. intros (? & ? & ?). by split_and!. Qed.

(** With the word stored in a range that can be written, the handle is still
    over plain registers. *)
Lemma ready_written s s' a x k : ready s → k ∈ keys_of s → in_key a true k = true →
  written a x s s' → stored a x s s'.
Proof.
  intros (h & Hh & _ & _ & Hk) Hin Hkey ((h' & Hh' & Hm & Hwf) & Hp & Hw). split; [|by split].
  exists h'. split_and!; [done..|]. unfold keys_of in Hp, Hin. rewrite Hh in Hp, Hin. rewrite Hh' in Hp. destruct x as [x|].
  - eapply (keys_ok_perm (dev s')); [exact Hp|by intros b|]. by apply (keys_ok_store (dev s) (dev s') _ a x k).
  - by eapply keys_ok_perm.
Qed.

Lemma REG32_store_kept {R} r a x (s : state) : usable s → wf_range r → (4 | a) → in_key a true (key_of r) = true →
  word 32 x → is_Some (word_at (dev s) a) → ∃ s',
  REG32_store (R:=R) (range_map (mapped r)) (a - range_start (mapped r)) x s = (Next true, s') ∧ written a (Some x) s s'.
Proof.
  intros (h & Hh & Hm & Hwf) Hr Ha Hin Hx [v Hv]. cbn [REG32_store range_map range_start mapped with_c2creg with_map].
  rewrite (in_map_bounds r a Hr Ha (in_key_weak _ _ Hin)). erewrite bind_next by reflexivity.
  assert (readonly r = false) as Hro.
  { unfold in_key in Hin. cbn in Hin. apply andb_true_iff in Hin as [_ Hin]. by apply negb_true_iff. }
  cbn [map_write own_map]. rewrite Hro. cbn [negb].
  replace (map_offset (own_map r) + (a - range_start r)) with a by (cbn; lia).
  destruct (store_word (dev s) a v x Hv Hx) as (d' & Hst & Hw). exists (set_dev d' s).
  unfold device_store. rewrite Hst. split; [done|]. split; [by exists h|]. by split.
Qed.

(** Every word of [data] goes to the one address: the last one stays. *)
Lemma write_loop_kept {R} r a data s : usable s → wf_range r → (4 | a) →
  in_key a true (key_of r) = true → Forall (word 32) data → is_Some (word_at (dev s) a) → ∃ s',
  write_loop (R:=R) (mapped r) a data s = (Next tt, s') ∧ written a (last data) s s'.
Proof.
  intros Hs Hr Ha Hin Hd. revert s Hs. induction Hd as [|x data Hx _ IH]; intros s Hs Hv.
  { exists s. split; [done|]. by apply kept_written_none, kept_refl. }
  cbn [write_loop]. destruct (REG32_store_kept (R:=R) r a x s Hs Hr Ha Hin Hx Hv) as (s1 & H1 & (Hs1 & Hp1 & Hw1)).
  erewrite bind_next by exact H1. cbn beta iota. erewrite bind_next by reflexivity.
  destruct (IH s1 Hs1) as (s2 & H2 & Hs2 & Hp2 & Hw2); [by rewrite Hw1, decide_True|].
  exists s2. split; [exact H2|]. split; [done|]. split; [by rewrite Hp2|]. intros b. rewrite Hw2.
  destruct data as [|y data]; cbn [last]; [by rewrite Hw1|].
  change (last (x :: y :: data)) with (last (y :: data)).
  destruct (last (y :: data)) as [z|] eqn:E; [|by apply last_None in E].
  rewrite Hw1. by case_decide.
Qed.

(** Where nothing answers the first store is a bus error. *)
Lemma write_loop_fault {R} r a x data (s : state) : usable s → wf_range r → (4 | a) → in_key a true (key_of r) = true →
  (∃ d', sys_store a x (dev s) = (false, d') ∧ same_words (dev s) d') → ∃ s',
  write_loop (R:=R) (mapped r) a (x :: data) s = (bus_fault (bus_handler s), s') ∧ kept s s'.
Proof.
  intros (h & Hh & Hm & Hwf) Hr Ha Hin (d' & Hst & Hw). exists (set_dev d' s). split; [|split; [by exists h|by split]].
  assert (readonly r = false) as Hro.
  { unfold in_key in Hin. cbn in Hin. apply andb_true_iff in Hin as [_ Hin]. by apply negb_true_iff. }
  assert (REG32_store (R:=R) (range_map (mapped r)) (a - range_start (mapped r)) x s = (Next false, set_dev d' s)) as Hf.
  { cbn [REG32_store range_map range_start mapped with_c2creg with_map].
    rewrite (in_map_bounds r a Hr Ha (in_key_weak _ _ Hin)). erewrite bind_next by reflexivity.
    cbn [map_write own_map]. rewrite Hro. cbn [negb].
    replace (map_offset (own_map r) + (a - range_start r)) with a by (cbn; lia).
    unfold device_store. by rewrite Hst. }
  cbn [write_loop]. erewrite bind_next by exact Hf. unfold mbind, M_bind, bus_error, bus_fault.
  cbn [bus_handler set_dev]. by destruct (bus_handler s).
Qed.

(** Where a write may go. *)
Lemma take_out_writeable s h a r rest : ready s → handle s = Some h →
  take_out (in_range a true) (first_range h) = Some (r, rest) →
  find_key (keys_of s) a = Some (key_of r) ∧ readonly r = false.
Proof.
  intros Hs Hh Ht. destruct (found_range s h a true r rest (ready_usable s Hs) Hh Ht) as (_ & Hk & Hin). split.
  - destruct Hs as (h' & Hh' & _ & _ & He & _). apply find_key_in; [|done|by apply in_key_weak].
    unfold keys_of. by rewrite Hh'.
  - unfold in_key in Hin. cbn in Hin. apply andb_true_iff in Hin as [_ Hin]. by apply negb_true_iff.
Qed.

Lemma take_out_readonly s h a k : ready s → handle s = Some h →
  take_out (in_range a true) (first_range h) = None → find_key (keys_of s) a = Some k → k_readonly k = true.
Proof.
  intros Hs Hh Ht Hf. apply find_key_Some in Hf as [Hk Hin]. unfold keys_of in Hk. rewrite Hh in Hk.
  apply list_elem_of_fmap in Hk as (r & -> & Hr). pose proof (take_out_None _ _ _ Ht Hr) as Hno.
  rewrite in_range_key in Hno. unfold in_key in *. cbn in *. rewrite andb_true_r in Hin. rewrite Hin in Hno.
  cbn in Hno. by apply negb_false_iff.
Qed.

(** The refusal of a write: its second search names the range in the message,
    when there is one. *)
Lemma write_refused {A} s h a (msg : memsvc_range → string) msg' : usable s → handle s = Some h → ∃ s',
  ((range ← find_range a false false;
    match range with
    | Some r => set_error (msg r) 0 ;; ret (-1)
    | None => set_error msg' 0 ;; ret (-1)
    end) : M state Z A) s = (Return (-1), s') ∧ kept s s'.
Proof.
  intros Hs Hh. destruct (refuse_kept (R:=Z) (A:=A) (-1) msg' 0 s Hs) as (s0 & Hf & Hu0).
  destruct (decide (a mod 4 = 0)) as [Ha|Ha]; last first.
  { erewrite bind_next by (eapply find_range_miss; [done|by left]). cbn beta iota. eauto. }
  destruct (take_out (in_range a false) (first_range h)) as [[r rest]|] eqn:Et; last first.
  { erewrite bind_next by (eapply find_range_miss; [done|by right]). cbn beta iota. eauto. }
  apply Z.mod_divide in Ha; [|lia].
  destruct (find_range_inactive (R:=Z) s h a false r rest Hs Hh Ha Et) as (s1 & H1 & Hu1).
  erewrite bind_next by exact H1. cbn beta iota.
  destruct (refuse_kept (R:=Z) (A:=A) (-1) (msg r) 0 s1 (proj1 Hu1)) as (s2 & Hf2 & Hu2).
  exists s2. split; [exact Hf2|]. by eapply kept_trans.
Qed.

(** A write up to its loop. *)
Lemma memsvc_write_checked a n data s : usable s → ∃ s', kept s s' ∧ bus_handler s' = bus_handler s ∧
  match checks (keys_of s) (dev s) a n true with
  | None => memsvc_write a n data s = (bus_fault (bus_handler s), s')
  | Some false => ∃ s', memsvc_write a n data s = (Next (-1), s') ∧ kept s s'
  | Some true => ∃ r, wf_range r ∧ (4 | a) ∧ in_key a true (key_of r) = true ∧
      range_at (keys_of s) a true = Some (key_of r) ∧
      memsvc_write a n data s = fn (write_loop (mapped r) a (take (turns n) data) ;;
        guard_ub (turns n <=? length data)%nat OutOfBounds ;; count_ok n ;; mret 0) s'
  end.
Proof.
  intros Hs. pose proof Hs as (h & Hh & _). unfold checks. set (W := memsvc_write a n data s).
  assert (W = memsvc_write a n data s) as HW by done. clearbody W. unfold memsvc_write, fn in HW.
  erewrite bind_next in HW by (by apply validate_usable). change (0 <? 0) with false in HW. cbv iota in HW.
  rewrite (range_at_take_out s h a true Hh). assert (kept s s) as Hss by by apply kept_refl.
  assert (∀ msg msg', ∃ s', ((range ← find_range a false false;
      match range with Some r => set_error (msg r) 0 ;; ret (-1) | None => set_error msg' 0 ;; ret (-1) end) : M state Z Z) s =
      (Return (-1), s') ∧ kept s s') as Href by (intros; by apply (write_refused s h)).
  destruct (Z.eqb_spec (a mod 4) 0) as [Ha|Ha]; cbn [andb]; last first.
  { erewrite bind_next in HW by (eapply find_range_miss; [done|by left]). cbn beta iota in HW.
    edestruct Href as (s0 & Hf & Hu0). rewrite Hf in HW.
    exists s. split; [done|]. split; [done|]. destruct (take_out _ _) as [[]|]; cbv iota; by exists s0. }
  destruct (take_out (in_range a true) (first_range h)) as [[r rest]|] eqn:Et; last first.
  { erewrite bind_next in HW by (eapply find_range_miss; [done|by right]). cbn beta iota in HW.
    edestruct Href as (s0 & Hf & Hu0). rewrite Hf in HW. exists s. split; [done|]. split; [done|]. by exists s0. }
  apply Z.mod_divide in Ha; [|lia]. destruct (found_range s h a true r rest Hs Hh Et) as (Hr & Hk & Hin).
  destruct (find_range_hit (R:=Z) s h a true r rest Hs Hh Ha Et) as (s1 & H1 & Hu1 & Hb1).
  erewrite bind_next in HW by exact H1. cbn beta iota in HW. pose proof Hu1 as (Hs1 & _ & Hw1).
  destruct (range_ready_kept (R:=Z) r a n s1 Hs1 Hr (in_key_start _ _ _ Hin)) as (s2 & H2 & Hu2 & Hb2).
  change (k_end (key_of r)) with (range_end r). assert (kept s s2) as Hu02 by (by eapply kept_trans).
  assert (bridge (dev s1) (key_of r) = bridge (dev s) (key_of r)) as Hbr by (unfold bridge; by rewrite Hw1).
  rewrite Hbr, Hb1 in H2. exists s2. split; [done|]. split; [congruence|].
  destruct (Z.ltb_spec (range_end r) (w32 (a + 4 * n))) as [Hlt|Hle], (Z.leb_spec (w32 (a + 4 * n)) (range_end r)); try lia.
  { exists s2. by erewrite bind_next in HW by exact H2. }
  destruct (bridge (dev s) (key_of r)) as [[]|]; last first.
  { unfold bus_fault in *. unfold mbind, M_bind in HW. rewrite H2 in HW. by destruct (bus_handler s). }
  { exists s2. by erewrite bind_next in HW by exact H2. }
  exists r. split_and!; [done..|]. by erewrite bind_next in HW by exact H2.
Qed.

Lemma write_tail_written r a n data (s : state) : usable s → wf_range r → (4 | a) → in_key a true (key_of r) = true →
  0 ≤ n < 2 ^ 31 → n ≤ Z.of_nat (length data) → Forall (word 32) data → is_Some (word_at (dev s) a) → ∃ s',
  fn (write_loop (mapped r) a (take (turns n) data) ;;
      guard_ub (turns n <=? length data)%nat OutOfBounds ;; count_ok n ;; mret 0) s = (Next 0, s') ∧
  written a (last (take (Z.to_nat n) data)) s s'.
Proof.
  intros Hs Hr Ha Hin Hn Hlen Hd Hv. rewrite (turns_small n) by lia. unfold fn.
  destruct (write_loop_kept (R:=Z) r a (take (Z.to_nat n) data) s Hs Hr Ha Hin) as (s3 & H3 & Hst); [by apply Forall_take|done|].
  exists s3. split; [|done]. erewrite bind_next by exact H3. erewrite bind_next by (apply guard_next, Nat.leb_le; lia).
  by erewrite bind_next by (apply count_ok_next; lia).
Qed.

(** A write that a writeable range contains leaves its last word at the
    address; any other is refused and stores nothing. *)
Lemma memsvc_write_run a n data s : ready s → 0 ≤ n < 2 ^ 31 → n ≤ Z.of_nat (length data) → Forall (word 32) data →
  ∃ rc s', memsvc_write a n data s = (Next rc, s') ∧
  match find_key (keys_of s) a with
  | Some k =>
      if (a mod 4 =? 0) && negb (k_readonly k) && (w32 (a + 4 * n) <=? k_end k) then
        rc = 0 ∧ stored a (last (take (Z.to_nat n) data)) s s'
      else rc = -1 ∧ unchanged s s'
  | None => rc = -1 ∧ unchanged s s'
  end.
Proof.
  intros Hs Hn Hlen Hd. pose proof Hs as (h & Hh & _).
  destruct (memsvc_write_checked a n data s (ready_usable s Hs)) as (s1 & Hu & _ & Hc). unfold checks in Hc.
  rewrite (range_at_take_out s h a true Hh) in Hc.
  destruct (take_out (in_range a true) (first_range h)) as [[r rest]|] eqn:Et.
  - destruct (take_out_writeable s h a r rest Hs Hh Et) as [Hf Hro]. rewrite Hf. cbn [k_readonly k_end key_of] in *.
    rewrite Hro. cbn [negb]. rewrite andb_true_r.
    destruct ((a mod 4 =? 0) && _); last first.
    { destruct Hc as (s2 & -> & Hu2). exists (-1), s2. split; [done|]. split; [done|]. by apply ready_kept. }
    destruct (ready_served s (key_of r) Hs) as [Hwords Hb]; [by apply find_key_Some in Hf as []|].
    assert (bridge (dev s) (key_of r) = Some true) as Hbr.
    { unfold bridge. destruct (Z.eqb_spec (k_reg (key_of r)) 0) as [|E]; [done|].
      destruct (Hb E) as (v & -> & ->). by rewrite Z.eqb_refl. }
    rewrite Hbr in Hc. destruct Hc as (r' & Hr' & Ha & Hin & Hkey & ->). apply (inj Some) in Hkey. rewrite <- Hkey in Hin.
    destruct (write_tail_written r' a n data s1 (proj1 Hu) Hr' Ha) as (s2 & H2 & Hst); [by rewrite <- Hkey|done..| |].
    { rewrite (proj2 (proj2 Hu)). apply Hwords; [done|]. by apply in_key_weak. }
    exists 0, s2. split; [exact H2|]. split; [done|].
    apply (ready_written s s2 a _ (key_of r)); [done|by apply find_key_Some in Hf as []|done|by eapply kept_written].
  - destruct Hc as (s2 & -> & Hu2). apply (ready_kept s s2 Hs) in Hu2. exists (-1), s2. split; [done|].
    destruct (find_key (keys_of s) a) as [k|] eqn:Ek; [|done].
    rewrite (take_out_readonly s h a k Hs Hh Et Ek). by rewrite andb_false_r.
Qed.

(** A handle that is null or not valid. *)
Lemma not_valid_refused a n data (s : state) :
  (∀ h, handle s = Some h → magic h ≠ MEMSVC_VALID_HANDLE_MAGIC) → ∃ s1 s2,
  memsvc_read a n s = (Next (-1, []), s1) ∧ memsvc_write a n data s = (Next (-1), s2) ∧
  dev s1 = dev s ∧ dev s2 = dev s.
Proof.
  intros Hinv. assert (∀ R, ∃ s', memsvc_validate (R:=R) true s = (Next (-1), s') ∧ dev s' = dev s) as Hv.
  { intros R. unfold memsvc_validate. erewrite bind_next by reflexivity. cbn beta.
    destruct (handle s) as [h|] eqn:Hh; [|by exists s]. specialize (Hinv h eq_refl). unfold valid_magic.
    destruct (Z.eqb_spec (magic h) MEMSVC_VALID_HANDLE_MAGIC); [done|]. cbn [orb].
    destruct (Z.eqb_spec (magic h) MEMSVC_INVALID_HANDLE_MAGIC); cbn [negb andb]; [|by exists s].
    unfold set_error. rewrite bind_bind. erewrite bind_next by (unfold svc_; by rewrite Hh). cbn beta.
    erewrite bind_next by reflexivity. by eexists. }
  destruct (Hv (Z * list Z)%type) as (s1 & H1 & Hd1), (Hv Z) as (s2 & H2 & Hd2). exists s1, s2.
  unfold memsvc_read, memsvc_write, fn. rewrite (bind_next _ _ _ _ _ H1), (bind_next _ _ _ _ _ H2). done.
Qed.

(** ** One word, through the registers *)

Lemma word_1_in k a s : ready s → find_key (keys_of s) a = Some k → a mod 4 = 0 → is_Some (word_at (dev s) a).
Proof.
  intros Hs Hk Ha. apply find_key_Some in Hk as [Hin Hkey].
  apply (proj1 (ready_served s k Hs Hin) a); [by apply Z.mod_divide|done].
Qed.

Lemma memsvc_read_1 s a : ready s → ∃ rc data s',
  memsvc_read a 1 s = (Next (rc, data), s') ∧ unchanged s s' ∧
  match mem_reg s a with Some v => rc = 0 ∧ data = [v] | None => rc = -1 end.
Proof.
  intros Hs. destruct (memsvc_read_run a 1 s Hs ltac:(lia)) as (rc & data & t & Hrd & Hu & Hcase).
  exists rc, data, t. split; [exact Hrd|]. split; [done|]. change (4 * 1) with 4 in Hcase.
  unfold mem_reg, reg_at. destruct (find_key (keys_of s) a) as [k|]; last first.
  { destruct Hcase as [-> _]. by destruct (a mod 4 =? 0). }
  destruct (a mod 4 =? 0); cbn [andb] in Hcase; [|by destruct Hcase].
  destruct (w32 (a + 4) <=? k_end k); [|by destruct Hcase].
  destruct Hcase as (-> & v & -> & ->). done.
Qed.

Lemma memsvc_write_1 s a x : ready s → word 32 x → ∃ rc s',
  memsvc_write a 1 [x] s = (Next rc, s') ∧
  if bool_decide (is_Some (mem_reg s a)) && mem_writeable s a
  then rc = 0 ∧ stored a (Some x) s s' else rc = -1 ∧ unchanged s s'.
Proof.
  intros Hs Hx. destruct (memsvc_write_run a 1 [x] s Hs ltac:(lia) ltac:(cbn; lia) ltac:(by constructor))
    as (rc & t & Hwr & Hcase).
  exists rc, t. split; [exact Hwr|]. change (4 * 1) with 4 in Hcase.
  unfold mem_reg, reg_at, mem_writeable. destruct (find_key (keys_of s) a) as [k|] eqn:Ek; last first.
  { destruct (a mod 4 =? 0); exact Hcase. }
  destruct (Z.eqb_spec (a mod 4) 0) as [Ha|Ha]; cbn [andb] in Hcase; [|done].
  destruct (w32 (a + 4) <=? k_end k); [|by rewrite andb_false_r in Hcase].
  rewrite andb_true_r in Hcase. rewrite bool_decide_true by (by eapply word_1_in). exact Hcase.
Qed.

(** The writes of [stored], seen through the registers. *)
Lemma stored_reg s s' a x : ready s → stored a (Some x) s s' → is_Some (mem_reg s a) →
  (∀ c, mem_reg s' c = if decide (c = a) then Some x else mem_reg s c) ∧
  (∀ c, mem_writeable s' c = mem_writeable s c).
Proof.
  intros (h & Hh & _ & _ & He & _) (_ & Hp & Hw) Ha.
  assert (exclusive (keys_of s)) as He' by (unfold keys_of; by rewrite Hh).
  assert (∀ c, find_key (keys_of s') c = find_key (keys_of s) c) as Hf by (intros c; symmetry; by apply find_key_perm).
  split; intros c; unfold mem_reg, reg_at, mem_writeable in *; rewrite Hf; [|done].
  case_decide as Hc; [subst c|].
  - destruct (a mod 4 =? 0); [|by destruct Ha]. destruct (find_key _ a) as [k|]; [|by destruct Ha].
    destruct (_ <=? _); [|by destruct Ha]. by rewrite Hw, decide_True.
  - destruct (c mod 4 =? 0); [|done]. destruct (find_key _ c) as [k|]; [|done]. by rewrite Hw, decide_False.
Qed.

Lemma mem_reg_word s a v : mem_reg s a = Some v → word 32 v.
Proof.
  unfold mem_reg, reg_at. destruct (a mod 4 =? 0); [|done]. destruct (find_key _ a); [|done].
  destruct (_ <=? _); [|done]. apply word_at_word.
Qed.
End Plain.

(** ** The properties of the two calls *)
Section Calls.
Context {Dev : Type} {K : Kernel Dev} {PD : PlainDevice Dev}.

End Calls.

(** ** The simplest device: a finite map of words, pages of 4096 bytes *)
Module PlainMemory.

#[export] Instance kernel : Kernel (gmap Z Z) := {
  getpagesize := 4096;
  sys_mmap m d := (if (map_offset m mod 4096 =? 0) && (0 <? map_length m) then None else Some 22, d);
  sys_munmap _ d := d;
  sys_load a d := (w32 <$> d !! a, d);
  sys_store a x d := match d !! a with Some _ => (true, <[a := x]> d) | None => (false, d) end;
  sys_sigaction _ := true;
  strerror e := ("errno " ++ to_string e)%string
}.

#[export] Instance paged : Paged (gmap Z Z).
Proof. split; [cbn; lia|]. split; [by exists 1024|by exists 1048576]. Qed.

#[export] Instance plain : PlainDevice (gmap Z Z).
Proof.
  refine (@Build_PlainDevice (gmap Z Z) kernel (λ d a, w32 <$> d !! a) _ paged _ _ _ _).
  - intros d a v (x & _ & ->)%fmap_Some. apply wrap_word. lia.
  - intros m d Ha Hl. exists d. split; [|done]. cbn. apply Z.mod_divide in Ha; [|done].
    cbn in Ha. rewrite Ha. by destruct (Z.ltb_spec 0 (map_length m)); [|lia].
  - intros d a. by exists d.
  - intros d a v x (y & Hy & _)%fmap_Some Hx. exists (<[a := x]> d). cbn. rewrite Hy. split; [done|].
    intros b. case_decide as Hb; [by rewrite Hb, lookup_insert_eq; cbn; rewrite wrap_small|].
    by rewrite lookup_insert_ne.
  - done.
Defined.

(** One writeable range of one page, of which four words are there. *)
Definition range_example : memsvc_range := mk_range 0x64000000 0x6400000f false None None 0 0 0.
Definition words_example : gmap Z Z := {[ 0x64000000 := 5; 0x64000004 := 6; 0x64000008 := 7; 0x6400000c := 8 ]}.
Definition state_example : memsvc_state (gmap Z Z) :=
  mk_memsvc (Some (mk_handle MEMSVC_VALID_HANDLE_MAGIC EmptyString 3 [range_example])) words_example 0 false.

Lemma state_ready : ready state_example.
Proof.
  eexists. split; [reflexivity|]. split; [done|]. split.
  { constructor; [|done]. split_and!; try by (cbn; lia). all: cbn.
    - by exists 0x64000.
    - by exists 0.
    - by left.
    - by left. }
  split_and!.
  - intros k k' l Hp Hk. apply Permutation_length_1_inv in Hp. injection Hp as -> ->. by apply elem_of_nil in Hk.
  - intros k Hk. apply list_elem_of_singleton in Hk as ->. split; [|done]. intros a [x ->].
    unfold in_key. cbn. rewrite !andb_true_iff. intros [[H1%Z.leb_le H2%Z.leb_le] _].
    assert (x ∈ seqZ 0x19000000 4) as Hx by (apply elem_of_seqZ; lia).
    assert (Forall (λ x, is_Some (words_example !! (x * 4))) (seqZ 0x19000000 4)) as Hall by vm_decide.
    rewrite Forall_forall in Hall. destruct (Hall x Hx) as [v Hv]. exists (w32 v). cbn [word_at plain dev].
    cbn in Hv |- *. by rewrite Hv.
  - intros k k' Hk _ Hne. by apply list_elem_of_singleton in Hk as ->.
Qed.

Lemma absent_store d a x : word_at d a = None → ∃ d', sys_store a x d = (false, d') ∧ same_words d d'.
Proof.
  intros Hd. change (w32 <$> d !! a = None) in Hd. apply fmap_None in Hd. exists d. cbn. rewrite Hd. by split.
Qed.

(** The same range behind a bridge, whose status register is the one word of
    another page. *)
Definition bridged (status : Z) : memsvc_state (gmap Z Z) :=
  mk_memsvc (Some (mk_handle MEMSVC_VALID_HANDLE_MAGIC EmptyString 3
    [mk_range 0x64000000 0x6400000f false None None 0 0x40000008 0x4]))
    (<[0x40000008 := status]> words_example) 0 false.

Lemma bridged_usable v : usable (bridged v).
Proof.
  eexists. split; [reflexivity|]. split; [done|]. constructor; [|done]. split_and!; try by (cbn; lia). all: cbn.
  - by exists 0x64000.
  - by exists 0x10000002.
  - by left.
  - by left.
Qed.

End PlainMemory.
