(* ===== verification/Memhub.v ===== *)
(** * Memhub: one access at a time

    [xcompile/memhub/memhub.cpp]: [libmemsvc] behind a named semaphore that
    the processes of the card share.  The functions are modelled on the state
    of one process, and proved to be the bus [MemBus] promises; the processes
    together, with the signals that may kill them, are a step relation. *)

From S2P Require Import Prelude MemBus RpcMsg CText Memsvc MemsvcSpec.

Local Open Scope list_scope.

(** ** One process *)

(** The static [semaphore]: null, open, or closed but not null. *)
Inductive sem_pointer : Type := SemNull | SemOpen | SemClosed.

#[export] Instance sem_pointer_eq_dec : EqDecision sem_pointer.
Proof. solve_decision. Defined.

(** [sem_value]: the semaphore [/memhub] of the system, [None] when it does
    not exist. *)
Record hub (Dev : Type) : Type := mk_hub {
  semaphore : sem_pointer;
  sem_value : option Z;
  busy : bool;
  die_installed : bool;
  memsvc : memsvc_state Dev
}.
Arguments mk_hub {Dev} semaphore sem_value busy die_installed memsvc.
Arguments semaphore {Dev} h.
Arguments sem_value {Dev} h.
Arguments busy {Dev} h.
Arguments die_installed {Dev} h.
Arguments memsvc {Dev} h.

Section Memhub.
Context {Dev : Type} {K : Kernel Dev}.
Notation state := (hub Dev).

Definition set_sem {R} (v : Z) : M state R unit :=
  modify (λ s, mk_hub (semaphore s) (Some v) (busy s) (die_installed s) (memsvc s)).
Definition set_busy {R} (b : bool) : M state R unit :=
  modify (λ s, mk_hub (semaphore s) (sem_value s) b (die_installed s) (memsvc s)).

(** The value behind the pointer: there is none before [memhub_open] and
    after [memhub_close]. *)
Definition sem_getvalue {R} : M state R Z := λ s,
  match semaphore s, sem_value s with
  | SemOpen, Some v => (Next v, s)
  | _, _ => (Undef NullPointer, s)
  end.

Definition sem_wait {R} : M state R unit :=
  v ← sem_getvalue;
  if 0 <? v then set_sem (v - 1) else halt_with HBlocked.
Definition sem_post {R} : M state R unit := v ← sem_getvalue; set_sem (v + 1).

Definition memsvc_call {A} (m : Fn (memsvc_state Dev) A) : Fn state A := λ s,
  let r := m (memsvc s) in
  (r.1, mk_hub (semaphore s) (sem_value s) (busy s) (die_installed s) r.2).

(** [sem_open_ok]: [sem_open] succeeds; otherwise the next statement asks for
    the value of [SEM_FAILED].  A new semaphore starts at [SEM_INIT]. *)
Definition hub_open (sem_open_ok : bool) (env : open_env) : Fn state Z :=
  p ← gets semaphore;
  when (bool_decide (p = SemNull)) (
    guard_ub sem_open_ok NullPointer ;;
    modify (λ s, mk_hub SemOpen (Some (default 1 (sem_value s))) (busy s) (die_installed s) (memsvc s)) ;;
    semval ← sem_getvalue;
    when (1 <? semval) (halt_with (HExit 1))) ;;
  modify (λ s, mk_hub (semaphore s) (sem_value s) (busy s) true (memsvc s)) ;;
  memsvc_call (memsvc_open env).

(** [sem_close] leaves the pointer as it is. *)
Definition hub_close : Fn state Z :=
  p ← gets semaphore;
  guard_ub (bool_decide (p = SemOpen)) NullPointer ;;
  modify (λ s, mk_hub SemClosed (sem_value s) (busy s) (die_installed s) (memsvc s)) ;;
  memsvc_call memsvc_close.

Definition hub_read (addr words : Z) : Fn state (Z * list Z) :=
  sem_wait ;;
  set_busy true ;;
  ret ← memsvc_call (memsvc_read addr words);
  sem_post ;;
  set_busy false ;;
  mret ret.

Definition hub_write (addr words : Z) (data : list Z) : Fn state Z :=
  sem_wait ;;
  set_busy true ;;
  ret ← memsvc_call (memsvc_write addr words data);
  sem_post ;;
  set_busy false ;;
  mret ret.

(** The handler of the six signals. *)
Definition die : Fn state unit :=
  semval ← sem_getvalue;
  b ← gets busy;
  when (b && (semval =? 0)) sem_post ;;
  halt_with (HExit 1).

#[export] Instance hub_bus (sem_open_ok : bool) (env : open_env) : MemBus state := {
  memhub_open := hub_open sem_open_ok env;
  memhub_read := hub_read;
  memhub_write := hub_write
}.
End Memhub.

(** ** After memhub_close *)
Section Closed.
Context {Dev : Type} {K : Kernel Dev}.
Implicit Types s : hub Dev.

(** [memhub_close] closes the semaphore and keeps the pointer to it. *)
Theorem hub_close_closes s : semaphore s = SemOpen →
  (hub_close s).1 = (memsvc_close (memsvc s)).1 ∧ semaphore (hub_close s).2 = SemClosed.
Proof.
  intros Hs. unfold hub_close. erewrite bind_next by reflexivity. cbn beta. rewrite bool_decide_true by done.
  erewrite bind_next by reflexivity. by erewrite bind_next by reflexivity.
Qed.

(** So [memhub_open] does not open it again: it returns what [memsvc_open]
    does, and every access after that waits on a semaphore that is closed,
    which is undefined. *)
Theorem hub_reopened_unusable ok env s : semaphore s = SemClosed →
  let t := (hub_open ok env s).2 in
  (hub_open ok env s).1 = (memsvc_open env (memsvc s)).1 ∧
  (∀ a n, hub_read a n t = (Undef NullPointer, t)) ∧
  (∀ a n data, hub_write a n data t = (Undef NullPointer, t)) ∧ hub_close t = (Undef NullPointer, t).
Proof.
  intros Hs t. assert (∀ s', semaphore s' = SemClosed → sem_wait (R := Empty_set) s' = (Undef NullPointer, s')) as Hw.
  { intros s' Hs'. unfold sem_wait. apply bind_undef. unfold sem_getvalue. by rewrite Hs'. }
  assert (hub_open ok env s = memsvc_call (memsvc_open env)
    (mk_hub SemClosed (sem_value s) (busy s) true (memsvc s))) as Ho.
  { unfold hub_open. erewrite bind_next by reflexivity. cbn beta. rewrite Hs, bool_decide_false by done.
    erewrite bind_next by reflexivity. erewrite bind_next by reflexivity. by rewrite Hs. }
  assert (semaphore t = SemClosed) as Ht by (unfold t; by rewrite Ho). split; [by rewrite Ho|]. split_and!.
  - intros a n. by apply bind_undef, Hw.
  - intros a n data. by apply bind_undef, Hw.
  - unfold hub_close. erewrite bind_next by reflexivity. cbn beta. rewrite Ht. by apply bind_undef.
Qed.
End Closed.

(** ** The bus it is *)
Section Bus.
Context {Dev : Type} {K : Kernel Dev} {PD : PlainDevice Dev}.
Notation state := (hub Dev).

(** The handle is open over plain registers and nobody holds the semaphore. *)
Definition hub_ok (s : state) : Prop := semaphore s = SemOpen ∧ sem_value s = Some 1 ∧ ready (memsvc s).

(** A call of the library inside the critical section. *)
Lemma critical {A} (m : Fn (memsvc_state Dev) A) s a t : hub_ok s → m (memsvc s) = (Next a, t) → ready t →
  ∃ s', (sem_wait ;; set_busy true ;; ret ← memsvc_call m; sem_post ;; set_busy false ;; mret ret) s = (Next a, s') ∧
    hub_ok s' ∧ memsvc s' = t.
Proof.
  intros (Hp & Hv & _) Hm Ht. destruct s as [p v b i ms]. cbn in *. subst p v.
  exists (mk_hub SemOpen (Some 1) false i t). split; [|done].
  unfold sem_wait. rewrite bind_bind. erewrite bind_next by reflexivity. cbn beta iota.
  change (0 <? 1) with true. cbv iota. erewrite bind_next by reflexivity. erewrite bind_next by reflexivity.
  erewrite bind_next by (unfold memsvc_call; cbn [memsvc]; rewrite Hm; reflexivity). cbn beta.
  unfold sem_post. rewrite bind_bind. erewrite bind_next by reflexivity. cbn beta.
  by erewrite bind_next by reflexivity.
Qed.

(** What one-word accesses do, by the register. *)
Lemma hub_read_1 s a : hub_ok s → ∃ rc data s',
  hub_read a 1 s = (Next (rc, data), s') ∧ hub_ok s' ∧ unchanged (memsvc s) (memsvc s') ∧
  match mem_reg (memsvc s) a with Some v => rc = 0 ∧ data = [v] | None => rc = -1 end.
Proof.
  intros Hs. destruct (memsvc_read_1 (memsvc s) a) as (rc & data & t & Hrd & Hu & Hcase); [apply Hs|].
  destruct (critical (memsvc_read a 1) s (rc, data) t Hs Hrd (proj1 Hu)) as (s' & Hc & Hok & Ht).
  exists rc, data, s'. rewrite Ht. done.
Qed.

Lemma hub_write_1 s a x : hub_ok s → word 32 x → ∃ rc s',
  hub_write a 1 [x] s = (Next rc, s') ∧ hub_ok s' ∧
  if bool_decide (is_Some (mem_reg (memsvc s) a)) && mem_writeable (memsvc s) a
  then rc = 0 ∧ stored a (Some x) (memsvc s) (memsvc s')
  else rc = -1 ∧ unchanged (memsvc s) (memsvc s').
Proof.
  intros Hs Hx. destruct (memsvc_write_1 (memsvc s) a x) as (rc & t & Hwr & Hcase); [apply Hs|done|].
  assert (ready t) as Ht by (destruct (_ && _); apply Hcase).
  destruct (critical (memsvc_write a 1 [x]) s rc t Hs Hwr Ht) as (s' & Hc & Hok & Hst).
  exists rc, s'. rewrite Hst. done.
Qed.

(** [libmemsvc] behind the semaphore keeps every promise the daemon relies
    on. *)
#[export] Program Instance hub_registers (sem_open_ok : bool) (env : open_env) :
    @RegisterBus state (hub_bus sem_open_ok env) := {
  bus_ok := hub_ok;
  reg s := mem_reg (memsvc s);
  writeable s := mem_writeable (memsvc s)
}.
Next Obligation. intros _ _ s a v _. apply mem_reg_word. Qed.
Next Obligation.
  intros ok env s a v Hs Ha. destruct (hub_read_1 s a Hs) as (rc & data & s' & Hr & Hok & Hu & Hc).
  rewrite Ha in Hc. destruct Hc as [-> ->]. exists s'. split; [exact Hr|]. split; [done|].
  apply unchanged_reg; [apply Hs|done].
Qed.
Next Obligation.
  intros ok env s a Hs Ha. destruct (hub_read_1 s a Hs) as (rc & data & s' & Hr & Hok & Hu & Hc).
  rewrite Ha in Hc. exists rc, data, s'. split; [exact Hr|]. split; [by rewrite Hc|]. split; [done|].
  apply unchanged_reg; [apply Hs|done].
Qed.
Next Obligation.
  intros ok env s a v x Hs Ha Hwr Hx. destruct (hub_write_1 s a x Hs Hx) as (rc & s' & Hw & Hok & Hc).
  rewrite Ha, Hwr, bool_decide_true in Hc by done. destruct Hc as [-> Hst]. exists s'. split; [exact Hw|].
  split; [done|]. apply stored_reg; [apply Hs|done|by rewrite Ha].
Qed.
Next Obligation.
  intros ok env s a x Hs Hno Hx. destruct (hub_write_1 s a x Hs Hx) as (rc & s' & Hw & Hok & Hc).
  assert (bool_decide (is_Some (mem_reg (memsvc s) a)) && mem_writeable (memsvc s) a = false) as E.
  { destruct Hno as [Hno | Hno]; rewrite Hno; [|apply andb_false_r]. by rewrite bool_decide_false by (by intros []). }
  rewrite E in Hc. destruct Hc as [-> Hu]. exists (-1), s'. split; [exact Hw|]. split; [done|]. split; [done|].
  apply unchanged_reg; [apply Hs|done].
Qed.
End Bus.

(** ** The processes together

    Where a process is: outside, or between two statements of [memhub_read]
    or [memhub_write]; or dead.  [busy] is true exactly at [Accessing] and
    [Posted]. *)
Module Processes.

Inductive place : Type :=
| Outside
| Waited         (* after sem_wait *)
| Accessing      (* after busy = true: in the call of libmemsvc *)
| Posted         (* after sem_post *)
| Dead.

#[export] Instance place_eq_dec : EqDecision place.
Proof. solve_decision. Defined.

(** The value of the semaphore, and the processes. *)
Record system : Type := mk_system { value : Z; at_ : nat → place }.

Definition move (i : nat) (p : place) (f : nat → place) : nat → place :=
  λ j, if decide (j = i) then p else f j.

Definition is_busy (p : place) : bool := bool_decide (p = Accessing ∨ p = Posted).

(** The value [die] leaves. *)
Definition die_value (v : Z) (b : bool) : Z := if b && (v =? 0) then v + 1 else v.

(** One statement of one process. *)
Inductive step : system → system → Prop :=
| step_wait i v f : f i = Outside → 0 < v → step (mk_system v f) (mk_system (v - 1) (move i Waited f))
| step_busy i v f : f i = Waited → step (mk_system v f) (mk_system v (move i Accessing f))
| step_post i v f : f i = Accessing → step (mk_system v f) (mk_system (v + 1) (move i Posted f))
| step_idle i v f : f i = Posted → step (mk_system v f) (mk_system v (move i Outside f)).

(** A signal takes process [i] at one of the places [at_risk]. *)
Inductive killed (at_risk : place → bool) : system → system → Prop :=
| killed_die i v f : f i ≠ Dead → at_risk (f i) = true →
    killed at_risk (mk_system v f) (mk_system (die_value v (is_busy (f i))) (move i Dead f)).

(** What the system can come to from [s]. *)
Inductive reaches (at_risk : place → bool) (s : system) : system → Prop :=
| reaches_refl : reaches at_risk s s
| reaches_step t u : reaches at_risk s t → step t u → reaches at_risk s u
| reaches_killed t u : reaches at_risk s t → killed at_risk t u → reaches at_risk s u.

Definition initial : system := mk_system 1 (λ _, Outside).

(** The processes between [sem_wait] and [sem_post]. *)
Definition inside (p : place) : bool := bool_decide (p = Waited ∨ p = Accessing).

(** The semaphore is free and nobody is inside, or it is taken by the one
    process inside. *)
Definition balanced (s : system) : Prop :=
  (value s = 1 ∧ ∀ i, inside (at_ s i) = false) ∨
  (value s = 0 ∧ ∃ i, inside (at_ s i) = true ∧ ∀ j, j ≠ i → inside (at_ s j) = false).

Lemma move_eq i p f : move i p f i = p.
Proof. unfold move. by rewrite decide_True. Qed.
Lemma move_ne i j p f : j ≠ i → move i p f j = f j.
Proof. intros. unfold move. by rewrite decide_False. Qed.

(** A process that does not go in or out leaves the balance. *)
Lemma balanced_move i p v f : inside p = inside (f i) → balanced (mk_system v f) → balanced (mk_system v (move i p f)).
Proof.
  intros Hp. assert (∀ j, inside (move i p f j) = inside (f j)) as Hj.
  { intros j. destruct (decide (j = i)) as [->|]; [by rewrite move_eq|by rewrite move_ne]. }
  intros [[Hv Ho]|(Hv & k & Hk & Ho)]; cbn in *; [left|right]; cbn.
  - split; [done|]. intros j. by rewrite Hj.
  - split; [done|]. exists k. split; [by rewrite Hj|]. intros j. rewrite Hj. apply Ho.
Qed.

Lemma balanced_enter i p v f : inside (f i) = false → inside p = true → 0 < v → balanced (mk_system v f) →
  balanced (mk_system (v - 1) (move i p f)).
Proof.
  intros Hi Hp Hv [[Hv1 Ho]|(Hv0 & _)]; cbn in *; [|lia]. right. cbn. split; [lia|]. exists i.
  split; [by rewrite move_eq|]. intros j Hj. rewrite move_ne by done. apply Ho.
Qed.

Lemma balanced_leave i p v f : inside (f i) = true → inside p = false → balanced (mk_system v f) →
  v = 0 ∧ balanced (mk_system (v + 1) (move i p f)).
Proof.
  intros Hi Hp [[_ Ho]|(Hv0 & k & Hk & Ho)]; cbn in *; [by rewrite Ho in Hi|]. split; [done|]. left. cbn.
  split; [lia|]. intros j. destruct (decide (j = i)) as [->|Hj]; [by rewrite move_eq|]. rewrite move_ne by done.
  apply Ho. intros ->. destruct (decide (i = k)) as [->|Hik]; [done|]. by rewrite Ho in Hi.
Qed.

Lemma balanced_step s t : balanced s → step s t → balanced t.
Proof.
  intros Hs Hst. destruct Hst as [i v f Hi Hv|i v f Hi|i v f Hi|i v f Hi].
  - apply balanced_enter; [by rewrite Hi|done..].
  - apply balanced_move; [by rewrite Hi|done].
  - eapply (balanced_leave i); [by rewrite Hi|done..].
  - apply balanced_move; [by rewrite Hi|done].
Qed.

(** The places where [die] does what it is for: outside, and during the
    access. *)
Definition safe_point (p : place) : bool := bool_decide (p = Outside ∨ p = Accessing).

Lemma balanced_killed s t : balanced s → killed safe_point s t → balanced t.
Proof.
  intros Hs Hk. destruct Hk as [i v f Hd Hr]. unfold safe_point in Hr. apply bool_decide_eq_true in Hr as [Hi|Hi]; rewrite Hi.
  - unfold die_value. cbn [is_busy]. change (is_busy Outside) with false. cbn [andb].
    apply balanced_move; [by rewrite Hi|done].
  - destruct (balanced_leave i Dead v f) as [-> Hb]; [by rewrite Hi|done|done|exact Hb].
Qed.

Lemma reaches_balanced s : reaches safe_point initial s → balanced s.
Proof.
  induction 1 as [|t u _ IH Hst|t u _ IH Hk].
  - by left.
  - by eapply balanced_step.
  - by eapply balanced_killed.
Qed.

(** As long as signals come only outside or during the access, at most one
    process is in the critical section, and the semaphore is taken only while
    one is. *)
Theorem mutual_exclusion s : reaches safe_point initial s → balanced s.
Proof. apply reaches_balanced. Qed.

(** *** Nobody is locked out *)

(** Steps of the processes alone. *)
Definition nowhere (p : place) : bool := false.
Notation runs := (reaches nowhere).

Lemma runs_trans s t u : runs s t → runs t u → runs s u.
Proof. intros Hst. induction 1; eauto using reaches. Qed.

(** A process inside can leave. *)
Lemma can_post i v f : inside (f i) = true → ∃ g, runs (mk_system v f) (mk_system (v + 1) g) ∧ g i = Posted ∧
  ∀ j, j ≠ i → g j = f j.
Proof.
  unfold inside. intros [Hi|Hi]%bool_decide_eq_true.
  - exists (move i Posted (move i Accessing f)). split; [|split; [by rewrite move_eq|intros; by rewrite !move_ne]].
    eapply reaches_step; [eapply reaches_step; [apply reaches_refl|by apply step_busy]|apply step_post; by rewrite move_eq].
  - exists (move i Posted f). split; [|split; [by rewrite move_eq|intros; by rewrite move_ne]].
    eapply reaches_step; [apply reaches_refl|by apply step_post].
Qed.

(** With the semaphore free, a live process outside gets in. *)
Lemma can_enter i f : f i = Outside ∨ f i = Posted → ∃ t, runs (mk_system 1 f) t ∧ at_ t i = Accessing.
Proof.
  assert (∀ g, g i = Outside → ∃ t, runs (mk_system 1 g) t ∧ at_ t i = Accessing) as Ho.
  { intros g Hg. exists (mk_system (1 - 1) (move i Accessing (move i Waited g))). split; [|by apply move_eq].
    eapply reaches_step; [eapply reaches_step; [apply reaches_refl|apply step_wait; [done|lia]]|].
    apply step_busy. by rewrite move_eq. }
  intros [Hi|Hi]; [by apply Ho|]. destruct (Ho (move i Outside f)) as (t & Ht & Ha); [by rewrite move_eq|].
  exists t. split; [|done]. eapply runs_trans; [|exact Ht]. eapply reaches_step; [apply reaches_refl|by apply step_idle].
Qed.

(** From every state the processes can come to when signals hit only safe
    points, each live process still has a run to its access, without the help
    of a signal: the semaphore is never lost. *)
Theorem access_stays_possible s i : reaches safe_point initial s → at_ s i ≠ Dead →
  ∃ t, runs s t ∧ at_ t i = Accessing.
Proof.
  intros Hs Hi. destruct s as [v f]. cbn in Hi.
  destruct (reaches_balanced _ Hs) as [[Hv Ho]|(Hv & k & Hk & Ho)]; cbn in *; subst v.
  - apply can_enter. specialize (Ho i). by destruct (f i); auto.
  - destruct (decide (k = i)) as [->|Hne].
    + unfold inside in Hk. apply bool_decide_eq_true in Hk as [Hk|Hk].
      * exists (mk_system 0 (move i Accessing f)). split; [|by apply move_eq].
        eapply reaches_step; [apply reaches_refl|by apply step_busy].
      * exists (mk_system 0 f). split; [apply reaches_refl|done].
    + destruct (can_post k 0 f Hk) as (g & Hg & _ & Hj). destruct (can_enter i g) as (t & Ht & Ha).
      { rewrite Hj by done. specialize (Ho i ltac:(done)). by destruct (f i); auto. }
      exists t. split; [|done]. by eapply runs_trans.
Qed.

Definition anywhere (p : place) : bool := true.

(** C40: The two windows the handler leaves open.  A process killed after
    [sem_post] and before [busy = false], while another has taken the
    semaphore, posts it once more: two processes then access the memory
    together.  A process killed after [sem_wait] and before [busy = true]
    keeps the semaphore: no process gets in any more, whatever happens. *)
Theorem signal_races :
  (∃ s, reaches anywhere initial s ∧ at_ s 1%nat = Accessing ∧ at_ s 2%nat = Accessing) ∧
  (∃ s, reaches anywhere initial s ∧ (∀ i, at_ s i ≠ Dead → at_ s i = Outside) ∧
     ∀ t, reaches anywhere s t → ∀ i, inside (at_ t i) = false).
Proof.
  split.
  - eexists. split; [|split; [|]].
    + eapply reaches_step; [|apply (step_busy 2)]. 1: eapply reaches_step; [|apply (step_wait 2)].
      1: eapply reaches_killed; [|apply (killed_die anywhere 0)].
      1: eapply reaches_step; [|apply (step_busy 1)]. 1: eapply reaches_step; [|apply (step_wait 1)].
      1: eapply reaches_step; [|apply (step_post 0)]. 1: eapply reaches_step; [|apply (step_busy 0)].
      1: eapply reaches_step; [|apply (step_wait 0)]. 1: apply reaches_refl.
      all: done.
    + done.
    + done.
  - exists (mk_system 0 (move 0 Dead (move 0 Waited (λ _, Outside)))). split; [|split].
    + eapply reaches_killed; [|apply (killed_die anywhere 0 0 (move 0 Waited (λ _, Outside)))]; [|done..].
      change (move 0 Waited (λ _, Outside)) with (move 0 Waited (at_ initial)).
      eapply reaches_step; [apply reaches_refl|]. by apply (step_wait 0 1).
    + intros i. cbn. unfold move. by case_decide.
    + intros t Ht. assert (value t = 0 ∧ ∀ i, at_ t i = Outside ∨ at_ t i = Dead) as [_ Ho].
      { induction Ht as [|t u _ [Hv Ho] Hst|t u _ [Hv Ho] Hk].
        - split; [done|]. intros i. cbn. unfold move. case_decide; [by right|by left].
        - destruct Hst as [i v f Hi Hv'|i v f Hi|i v f Hi|i v f Hi]; cbn in *; [lia|..];
            by destruct (Ho i) as [E|E]; rewrite E in Hi.
        - destruct Hk as [i v f Hd Hr]. cbn in *. destruct (Ho i) as [E|E]; [|done]. rewrite E.
          split; [done|]. intros j. unfold move. case_decide; [by right|apply Ho]. }
      intros i. by destruct (Ho i) as [-> | ->].
Qed.

(** [die] of the code, on a process at [p]. *)
Lemma die_is_killed {Dev} (s : hub Dev) v : semaphore s = SemOpen → sem_value s = Some v →
  ∃ t, die s = (Halt (HExit 1), t) ∧ sem_value t = Some (die_value v (busy s)).
Proof.
  intros Hp Hv. destruct s as [p w b i m]. cbn in *. subst p w.
  unfold die, die_value, sem_post, sem_getvalue, set_sem. run_simpl. cbn [semaphore sem_value busy].
  destruct b, (v =? 0); cbn; eexists; split; reflexivity.
Qed.

Lemma mutual_exclusion_witness :
  balanced (mk_system 0 (move 3 Waited (at_ initial))).
Proof.
  apply mutual_exclusion. eapply reaches_step; [apply reaches_refl|].
  apply (step_wait 3 1); [reflexivity|lia].
Defined.

(** Process 4 gets in after process 3 has come and been killed. *)
Lemma access_stays_possible_witness :
  let s := mk_system 1 (move 3 Dead (move 3 Accessing (move 3 Waited (at_ initial)))) in
  reaches safe_point initial s ∧ at_ s 3%nat = Dead ∧ ∃ t, reaches nowhere s t ∧ at_ t 4%nat = Accessing.
Proof.
  cbv zeta. assert (reaches safe_point initial
    (mk_system 1 (move 3 Dead (move 3 Accessing (move 3 Waited (at_ initial)))))) as Hs.
  { apply (reaches_killed _ _ (mk_system 0 (move 3 Accessing (move 3 Waited (at_ initial))))).
    - apply (reaches_step _ _ (mk_system 0 (move 3 Waited (at_ initial)))); [|by apply (step_busy 3)].
      eapply reaches_step; [apply reaches_refl|]. by apply (step_wait 3 1).
    - by apply (killed_die safe_point 3 0 (move 3 Accessing (move 3 Waited (at_ initial)))). }
  split; [exact Hs|]. split; [done|]. by apply (access_stays_possible _ 4%nat Hs).
Defined.
End Processes.
