(* ===== verification/MemsvcOpen.v ===== *)
(** * MemsvcOpen: the configuration file

    What [memsvc_open] of [libmemsvc.c] makes of [/etc/memsvc.conf], written
    as the library expects it. *)

From S2P Require Import Prelude RpcMsg CText Memsvc MemsvcSpec.

Local Open Scope list_scope.

(** ** The lines of a configuration *)

(** A range as the file gives it. *)
Definition config_range (start end_ : Z) (ro : bool) (reg msk : Z) : memsvc_range :=
  mk_range start end_ ro None None 0 reg msk.

Definition print_flag (b : bool) : string := if b then "1" else "0".

Definition print_range (r : memsvc_range) : string :=
  print 16 (range_start r) ++ " " ++ print 16 (range_end r) ++ " " ++ print_flag (readonly r) ++ " " ++
  print 16 (c2c_reg r) ++ " " ++ print 16 (c2c_mask r).

Definition print_config (l : list memsvc_range) : string :=
  foldr (λ r s, (print_range r ++ newline) ++ s)%string EmptyString l.

(** The ranges a line can give: 32-bit fields, no mapping yet. *)
Definition plain_range (r : memsvc_range) : Prop :=
  word 32 (range_start r) ∧ word 32 (range_end r) ∧ word 32 (c2c_reg r) ∧ word 32 (c2c_mask r) ∧
  range_map r = None ∧ c2creg_map r = None ∧ c2creg_offset r = 0.

(** ** Reading back the fields *)
Section Fields.

Lemma skip_0x_digits base s t c : all_chars (plain_digit base) s = true → s ≠ EmptyString →
  c ≠ "x"%char → c ≠ "X"%char → skip_0x (s ++ String c t) = (s ++ String c t)%string.
Proof.
  destruct s as [|a s]; [done|]. intros Hs _ Hx HX. cbn in Hs. apply andb_true_iff in Hs as [_ Hs].
  rewrite !str_app_cons. destruct s as [|b s].
  - cbn [skip_0x]. change ("" ++ String c t)%string with (String c t). cbn [skip_0x]. unfold char_is.
    rewrite (bool_decide_false (c = "x"%char)), (bool_decide_false (c = "X"%char)) by done. by rewrite andb_false_r.
  - rewrite str_app_cons. cbn [skip_0x]. cbn in Hs. apply andb_true_iff in Hs as [Hb _].
    unfold plain_digit in Hb. apply andb_true_iff in Hb as [_ Hb%negb_true_iff]. rewrite !orb_false_iff in Hb.
    destruct Hb as [[[_ ->] ->] _]. by rewrite andb_false_r.
Qed.

(** [strtoul] reads a printed number up to the character after it. *)
Lemma strtoul_print x c t : word 32 x → digit_value c = None → c ≠ "x"%char → c ≠ "X"%char →
  strtoul_16 (print 16 x ++ String c t) = (x, false, String c t).
Proof.
  intros [Hx0 Hx] Hc Hcx HcX. destruct (print_spec 16 x) as (Hall & Hne & Hv); [lia..|].
  destruct (plain_head 16 (print 16 x) (String c t) Hall Hne) as [Hs1 Hs2].
  unfold strtoul_16. rewrite Hs1, Hs2. rewrite (skip_0x_digits 16) by done.
  rewrite leading_digits_stop by done. pose proof (leading_digits_length 16 _ Hall) as Hlen.
  destruct (leading_digits 16 (print 16 x)) as [|d ds] eqn:Ed.
  { by destruct (print 16 x). }
  rewrite leading_digits_stop, Ed by done. rewrite Hv, Hlen, str_drop_app.
  destruct (Z.ltb_spec (2 ^ 32 - 1) x); [lia|done].
Qed.

Lemma number_field_print x t : word 32 x → number_field (print 16 x ++ String " " t) = Some (x, t).
Proof. intros Hx. unfold number_field. by rewrite strtoul_print. Qed.

(** A printed line is read back. *)
Lemma parse_print_range r : plain_range r → parse_line (print_range r ++ newline) = inr r.
Proof.
  destruct r as [st en ro m cm off reg msk]. intros (Hst & Hen & Hreg & Hmsk & Hm & Hcm & Hoff). cbn in *. subst m cm off.
  unfold print_range. cbn [range_start range_end readonly c2c_reg c2c_mask].
  rewrite <- !str_app_assoc, !str_app_cons, !str_app_nil_l. unfold parse_line.
  rewrite number_field_print by done. rewrite number_field_print by done.
  assert (print_flag ro ++ String " " (print 16 reg ++ String " " (print 16 msk ++ newline)) =
          String (if ro then "1" else "0")%char (String " " (print 16 reg ++ String " " (print 16 msk ++ newline))))%string
    as -> by by destruct ro.
  rewrite number_field_print by done. unfold newline. rewrite strtoul_print by done. by destruct ro.
Qed.
End Fields.

(** ** The lines of the file *)
Section Lines.

Lemma print_length x : word 32 x → (String.length (print 16 x) ≤ 8)%nat.
Proof.
  intros Hx. unfold print. pose proof (print_loop_length (S (Z.to_nat (Z.log2 x))) 16 x EmptyString 7 ltac:(lia) Hx).
  cbn [String.length] in *. lia.
Qed.

Lemma print_range_line r : plain_range r →
  all_chars not_newline (print_range r) = true ∧ (String.length (print_range r) < 1023)%nat ∧
  String.prefix "#" (print_range r ++ newline) = false.
Proof.
  intros (Hst & Hen & Hreg & Hmsk & _).
  assert (∀ x, word 32 x → all_chars not_newline (print 16 x) = true) as Hp.
  { intros x [Hx0 Hx]. destruct (print_spec 16 x) as (Hall & _); [lia..|].
    by apply (all_chars_impl _ _ _ (plain_not_newline 16)). }
  unfold print_range. split_and!.
  - rewrite !all_chars_app, !Hp by done. by destruct (readonly r).
  - rewrite !length_str_app. pose proof (print_length _ Hst). pose proof (print_length _ Hen).
    pose proof (print_length _ Hreg). pose proof (print_length _ Hmsk).
    assert (String.length (print_flag (readonly r)) = 1%nat) as -> by by destruct (readonly r). cbn [String.length]. lia.
  - destruct Hst as [H0 H1]. destruct (print_spec 16 (range_start r)) as (Hall & Hne & _); [lia..|].
    destruct (print 16 (range_start r)) as [|c s]; [done|]. rewrite <- !str_app_assoc, str_app_cons, prefix_cons.
    cbn in Hall. apply andb_true_iff in Hall as [Hc _]. unfold char_is.
    rewrite bool_decide_false; [done|]. intros <-. by cbn in Hc.
Qed.

Lemma fgets_config l : Forall plain_range l →
  fgets_lines 1023 (print_config l) EmptyString = (λ r, print_range r ++ newline)%string <$> l.
Proof.
  induction 1 as [|r l Hr _ IH]; [done|]. cbn [print_config foldr]. fold (print_config l).
  destruct (print_range_line r Hr) as (Hn & Hlen & _). rewrite (fgets_line (print_range r)) by done.
  rewrite IH. done.
Qed.
End Lines.

(** ** memsvc_open *)
Section Open.
Context {Dev : Type} {K : Kernel Dev}.
Notation state := (memsvc_state Dev).

Lemma config_loop_ranges {R} n l (s : state) h : handle s = Some h →
  Forall (λ r, plain_range r ∧ range_start r < range_end r) l →
  config_loop (R:=R) n ((λ r, print_range r ++ newline)%string <$> l) s =
    (Next None, set_handle (Some (mk_handle (magic h) (last_error h) (memfd h) (rev l ++ first_range h))) s).
Proof.
  intros Hh Hl. revert n s h Hh. induction Hl as [|r l [Hr Hlt] _ IH]; intros n s h Hh.
  { cbn. destruct s as [h' d e b], h. cbn in *. by subst. }
  cbn [fmap list_fmap config_loop]. destruct (print_range_line r Hr) as (_ & _ & ->).
  rewrite parse_print_range by done. unfold svc_ at 1. erewrite bind_next by (by rewrite Hh). cbn beta.
  unfold set_ranges. rewrite bind_bind. erewrite bind_next by (unfold svc_; by rewrite Hh). cbn beta.
  erewrite bind_next by reflexivity. destruct (Z.leb_spec (range_end r) (range_start r)); [lia|].
  change (list_fmap _ _ ?f l) with (f <$> l). erewrite IH by reflexivity. cbn [first_range rev].
  by rewrite <- app_assoc.
Qed.

Lemma open_config l msgs err (s : state) : Forall (λ r, plain_range r ∧ range_start r < range_end r) l →
  0 ≤ cmsg_loop msgs → memsvc_open (R:=Empty_set) (mk_env None None (1, err, msgs) (inr (print_config l))) s =
    (Next 0, set_handle (Some (mk_handle MEMSVC_VALID_HANDLE_MAGIC EmptyString (cmsg_loop msgs) (rev l))) s).
Proof.
  intros Hl Hfd. unfold memsvc_open. erewrite bind_next by reflexivity. cbn [env_socket env_connect env_recvmsg env_conf].
  erewrite bind_next by reflexivity. cbn beta. erewrite bind_next by reflexivity.
  change (recvfd 1 msgs _) with (1, cmsg_loop msgs). cbn [fst snd].
  change (negb (1 =? 1)) with false. cbv iota. erewrite bind_next by reflexivity. cbn beta.
  cbn [memfd magic last_error first_range].
  destruct (Z.ltb_spec (cmsg_loop msgs) 0); [lia|].
  rewrite fgets_config by (eapply Forall_impl; [exact Hl|]; by intros r []).
  erewrite bind_next by (by eapply config_loop_ranges). cbn beta iota.
  erewrite bind_next by reflexivity. cbn beta. erewrite bind_next by reflexivity.
  cbn [memfd last_error first_range]. by rewrite app_nil_r.
Qed.

(** C22: A configuration as the library expects it is read back: when the socket,
    the descriptor and the file are there, [memsvc_open] returns 0 with a
    valid handle that has exactly the ranges of the file, the last one
    first, none of them mapped. *)
Theorem memsvc_open_config l msgs err (s : state) : Forall (λ r, plain_range r ∧ range_start r < range_end r) l →
  0 ≤ cmsg_loop msgs → memsvc_open (R:=Empty_set) (mk_env None None (1, err, msgs) (inr (print_config l))) s =
    (Next 0, set_handle (Some (mk_handle MEMSVC_VALID_HANDLE_MAGIC EmptyString (cmsg_loop msgs) (rev l))) s).
Proof. apply open_config. Qed.

(** Any call on a handle that could not be opened, or on a null one, is
    refused, and the device is not touched. *)
Theorem invalid_handle_refused a n data (s : state) :
  (∀ h, handle s = Some h → magic h ≠ MEMSVC_VALID_HANDLE_MAGIC) → ∃ s1 s2,
  memsvc_read a n s = (Next (-1, []), s1) ∧ memsvc_write a n data s = (Next (-1), s2) ∧
  dev s1 = dev s ∧ dev s2 = dev s.
Proof. apply not_valid_refused. Qed.
End Open.

(** Over plain registers: the handle is ready as soon as the ranges of the
    file start on pages, have aligned status registers and lie over the
    device. *)
Section Ready.
Context {Dev : Type} {K : Kernel Dev} {PD : PlainDevice Dev}.

Definition conf_ok (l : list memsvc_range) (d : Dev) : Prop :=
  Forall (λ r, plain_range r ∧ 0 < range_start r < range_end r ∧
    (getpagesize | range_start r) ∧ (4 | c2c_reg r)) l ∧ keys_ok d (key_of <$> l).

Lemma opened_ready l msgs err (s : memsvc_state Dev) : conf_ok l (dev s) → 0 ≤ cmsg_loop msgs → ∃ s',
  memsvc_open (R:=Empty_set) (mk_env None None (1, err, msgs) (inr (print_config l))) s = (Next 0, s') ∧
  ready s' ∧ keys_of s' ≡ₚ key_of <$> l ∧ dev s' = dev s.
Proof.
  intros [Hl Hk] Hfd. rewrite open_config; [|by eapply Forall_impl; [exact Hl|]; intros r (?&?&_); split; [done|lia]|done].
  eexists. split; [reflexivity|]. cbn [handle set_handle keys_of dev first_range].
  assert (key_of <$> rev l ≡ₚ key_of <$> l) as Hp by (by rewrite <- Permutation_rev).
  split; [|by split]. eexists. split; [reflexivity|]. cbn [magic first_range dev set_handle]. split; [done|]. split.
  - rewrite <- Permutation_rev. eapply Forall_impl; [exact Hl|].
    intros r ((Hs & He & Hc & _ & Hm & Hcm & _) & ? & ? & ?).
    destruct He, Hc. split_and!; try done; try lia; by left.
  - by eapply keys_ok_perm.
Qed.
End Ready.

Module OpenExamples.
Import PlainMemory.

Definition conf_example : list memsvc_range :=
  [config_range 0x64000000 0x67ffffff false 0x40000000 0x4; config_range 0x80000000 0x80000fff true 0 0].
(** The descriptor 3, in the second of two control messages. *)
Definition msgs_example : list cmsg := [mk_cmsg SOL_SOCKET 2 1000; mk_cmsg SOL_SOCKET SCM_RIGHTS 3].
Definition closed : memsvc_state (gmap Z Z) := mk_memsvc None ∅ 0 false.
Definition not_opened : memsvc_state (gmap Z Z) :=
  mk_memsvc (Some (mk_handle MEMSVC_INVALID_HANDLE_MAGIC EmptyString (-1) [])) ∅ 0 false.

Lemma conf_plain : Forall (λ r, plain_range r ∧ range_start r < range_end r) conf_example.
Proof. repeat constructor; cbn; lia. Qed.

Lemma memsvc_open_config_witness :
  print_config conf_example = ("64000000 67ffffff 0 40000000 4" ++ newline ++
                               "80000000 80000fff 1 0 0" ++ newline)%string ∧
  memsvc_open (R:=Empty_set) (mk_env None None (1, 0, msgs_example) (inr (print_config conf_example))) closed =
    (Next 0, set_handle (Some (mk_handle MEMSVC_VALID_HANDLE_MAGIC EmptyString 3 (rev conf_example))) closed).
Proof.
  split; [vm_compute; reflexivity|]. apply (memsvc_open_config conf_example msgs_example 0 closed conf_plain). vm_decide.
Defined.

Lemma invalid_handle_refused_witness : ∃ s1 s2,
  memsvc_read 0x64000000 1 not_opened = (Next (-1, []), s1) ∧
  memsvc_write 0x64000000 1 [5] not_opened = (Next (-1), s2) ∧ dev s1 = ∅ ∧ dev s2 = ∅.
Proof.
  apply (invalid_handle_refused 0x64000000 1 [5] not_opened). intros h [= <-]. discriminate.
Defined.
End OpenExamples.
