(* ===== verification/MemsvcBounds.v ===== *)
(** * MemsvcBounds: the library stays inside its mappings

    [MemsvcSpec] takes a device that behaves.  Here the kernel is any: [mmap]
    may fail, a load or a store may raise SIGBUS, the words may change on
    their own.  Whatever the configuration file holds and whatever calls are
    made, [libmemsvc.c] accesses no word outside a mapping and follows no
    null pointer; the one way it can end badly is a SIGBUS outside the loop of
    [memsvc_read]. *)

From S2P Require Import Prelude RpcMsg CText Memsvc MemsvcSpec.

Local Open Scope list_scope.

(** What [mmap] documents: EINVAL for an offset that is not on a page and for
    an empty mapping. *)
Class StrictMmap (Dev : Type) `{K : Kernel Dev} : Prop :=
  mmap_strict m d d' : sys_mmap m d = (None, d') → (getpagesize | map_offset m) ∧ 0 < map_length m.

Section Bounds.
Context {Dev : Type} {K : Kernel Dev} {PG : Paged Dev} {SM : StrictMmap Dev}.
Notation state := (memsvc_state Dev).
Notation pagesize := (@getpagesize Dev K).
Implicit Types s : state.

(** ** The invariant of a handle *)

(** A range of the list: the fields [memsvc_open] lets through, and mappings
    that are those of the range. *)
Definition range_inv (r : memsvc_range) : Prop :=
  0 ≤ range_start r < range_end r ∧ range_end r < 2 ^ 32 ∧ 0 ≤ c2c_reg r ∧ (4 | c2c_reg r) ∧
  (range_map r = None ∨ range_map r = Some (own_map r) ∧ (pagesize | range_start r) ∧ 0 < maplen r) ∧
  (c2creg_map r = None ∨ c2creg_map r = Some (status_map r) ∧ c2creg_offset r = status_offset r).

Definition open_inv s : Prop := ∃ h, handle s = Some h ∧ Forall range_inv (first_range h).
Definition handle_inv s : Prop := handle s = None ∨ open_inv s.

(** A SIGBUS that nothing catches, or that jumps into a call that is over. *)
Definition sigbus (e : stop) s : Prop := e = StopUndef DeadJump ∨ e = StopHalt HSignal.

(** ** Where the accesses go *)

Lemma own_map_bounds r a w : range_inv r → range_map r = Some (own_map r) → in_range a w r = true → a mod 4 = 0 →
  (0 <=? a - range_start r) && (a - range_start r + 4 <=? map_length (own_map r)) = true.
Proof.
  intros (Hse & He & _ & _ & Hm & _) Hmap Hin Ha. destruct Hm as [Hm|(_ & Hp & Hpos)]; [by rewrite Hm in Hmap|].
  destruct (maplen_covers_pos r) as (_ & [x Hx] & Hc); [lia|done|]. specialize (Hc Hpos).
  unfold in_range in Hin. apply andb_true_iff in Hin as [[H1%Z.leb_le H2%Z.leb_le]%andb_true_iff _].
  destruct page_size as (_ & Hp4 & _). destruct (Z.divide_trans _ _ _ Hp4 Hp) as [z Hz].
  apply Z.mod_divide in Ha as [y Hy]; [|done]. cbn. apply andb_true_iff. split; apply Z.leb_le; lia.
Qed.

Lemma status_map_bounds r : range_inv r →
  (0 <=? status_offset r) && (status_offset r + 4 <=? map_length (status_map r)) = true.
Proof.
  intros (_ & _ & H0 & [x Hx] & _). unfold status_offset. cbn. destruct page_size as (Hp & [y Hy] & _).
  pose proof (Z.mod_pos_bound (c2c_reg r) pagesize ltac:(lia)).
  assert ((4 | c2c_reg r mod pagesize)) as [z Hz].
  { rewrite Z.mod_eq by lia. apply Z.divide_sub_r; [by exists x|]. rewrite Hy at 1.
    rewrite <- Z.mul_assoc, (Z.mul_comm 4), Z.mul_assoc. by apply Z.divide_factor_r. }
  apply andb_true_iff. split; apply Z.leb_le; lia.
Qed.

Lemma mmap_goes {R} (Rt : R → state → Prop) m (Q : option mapping → state → Prop) s :
  (∀ t r, handle t = handle s → r = None ∨ r = Some m ∧ (pagesize | map_offset m) ∧ 0 < map_length m → Q r t) →
  wp Rt sigbus (mmap m) Q s.
Proof.
  intros Hq. unfold wp, mmap. destruct (sys_mmap m (dev s)) as [[e|] d'] eqn:E; cbn; apply Hq; try done; [by left|].
  right. split; [done|]. by eapply mmap_strict.
Qed.

(** Activating a range keeps it in order, and leaves its place. *)
Lemma map_range_goes {R} (Rt : R → state → Prop) activate r (Q : memsvc_range → state → Prop) s : range_inv r →
  (∀ r' t, handle t = handle s → range_inv r' → key_of r' = key_of r → Q r' t) →
  wp Rt sigbus (map_range activate r) Q s.
Proof.
  intros Hr Hq. unfold map_range. apply wp_bind.
  assert (∀ b r1 t, handle t = handle s → range_inv r1 → key_of r1 = key_of r →
    wp Rt sigbus (if b && bool_decide (c2creg_map r1 = None) then
        m ← mmap (mk_mapping (c2c_reg r1 - c2c_reg r1 mod pagesize) pagesize false);
        mret (with_c2creg m (c2c_reg r1 mod pagesize) r1) else mret r1) Q t) as Hsecond.
  { intros b r1 t Ht Hr1 Hk. destruct (b && _); [|by apply wp_ret, Hq]. apply wp_bind, mmap_goes.
    intros u m Hu Hm. apply wp_ret, Hq; [by rewrite Hu| |done].
    destruct Hr1 as (? & ? & ? & ? & Hm1 & _). refine (conj _ (conj _ (conj _ (conj _ (conj Hm1 _))))); try done.
    cbn. destruct Hm as [-> |(-> & _)]; [by left|by right]. }
  destruct (activate && bool_decide (range_map r = None)) eqn:E.
  - apply wp_bind, mmap_goes. intros t m Ht Hm. apply wp_ret. apply Hsecond; [done| |done].
    destruct Hr as (? & ? & ? & ? & _ & Hc). refine (conj _ (conj _ (conj _ (conj _ (conj Hm Hc))))); done.
  - apply wp_ret. by apply Hsecond.
Qed.

(** ** The operations *)

Lemma svc_goes {R} (Rt : R → state → Prop) (Q : memsvc_handle → state → Prop) s h :
  handle s = Some h → Q h s → wp Rt sigbus svc_ Q s.
Proof. intros Hh Hq. unfold wp, svc_. by rewrite Hh. Qed.

Lemma set_error_goes {R} (Rt : R → state → Prop) m e (Q : unit → state → Prop) s : open_inv s →
  (∀ t, open_inv t → Q tt t) → wp Rt sigbus (set_error m e) Q s.
Proof.
  intros (h & Hh & Hr) Hq. unfold set_error. wp_step. apply (svc_goes _ _ _ h Hh). wp_step. apply Hq.
  eexists. split; [reflexivity|]. exact Hr.
Qed.

Lemma validate_goes {R} (Rt : R → state → Prop) b (Q : Z → state → Prop) s : handle_inv s →
  (∀ t, handle_inv t → Q (-1) t) → (open_inv s → Q 0 s) → wp Rt sigbus (memsvc_validate b) Q s.
Proof.
  intros Hs Hbad Hq. unfold memsvc_validate. wp_step. wp_step.
  destruct Hs as [Hs|Hs]; [rewrite Hs; apply wp_ret, Hbad; by left|].
  pose proof Hs as (h & Hh & _). rewrite Hh. destruct (negb _); [apply wp_ret, Hbad; by right|].
  destruct (_ && b); [|by apply wp_ret, Hq]. wp_step. apply set_error_goes; [done|]. intros t Ht.
  apply wp_ret, Hbad. by right.
Qed.

Lemma find_range_goes {R} (Rt : R → state → Prop) a w act (Q : option memsvc_range → state → Prop) s : open_inv s →
  (∀ t, open_inv t → Q None t) →
  (∀ r t, open_inv t → range_inv r → in_range a w r = true → a mod 4 = 0 → Q (Some r) t) →
  wp Rt sigbus (find_range a w act) Q s.
Proof.
  intros Hs Hnone Hq. unfold find_range. destruct (Z.eqb_spec (a mod 4) 0) as [Ha|_]; cbn [negb]; [|by apply wp_ret, Hnone].
  pose proof Hs as (h & Hh & Hr). wp_step. apply (svc_goes _ _ _ h Hh). cbv beta.
  destruct (take_out _ (first_range h)) as [[r rest]|] eqn:E; [|by apply wp_ret, Hnone].
  apply take_out_Some in E as [Hin Hp]. rewrite Hp in Hr. apply Forall_cons in Hr as [Hr Hrest].
  wp_step. apply map_range_goes; [done|]. intros r' t Ht Hr' Hk. rewrite Hh in Ht.
  wp_step. unfold set_ranges. wp_step. apply (svc_goes _ _ _ h Ht). wp_step. apply wp_ret, Hq; [|done| |done].
  - eexists. split; [reflexivity|]. by constructor.
  - rewrite in_range_key in Hin |- *. by rewrite Hk.
Qed.

(** A word access at an offset inside the mapping. *)
Lemma load_goes {R} (Rt : R → state → Prop) m off (Q : option Z → state → Prop) s :
  (0 <=? off) && (off + 4 <=? map_length m) = true → (∀ x t, handle t = handle s → Q x t) →
  wp Rt sigbus (REG32 (Some m) off) Q s.
Proof. intros Hb Hq. unfold REG32. wp_step. apply wp_guard; [done|]. unfold wp, device_load. by apply Hq. Qed.

Lemma store_goes {R} (Rt : R → state → Prop) m off x (Q : bool → state → Prop) s :
  (0 <=? off) && (off + 4 <=? map_length m) = true → map_write m = true → (∀ b t, handle t = handle s → Q b t) →
  wp Rt sigbus (REG32_store (Some m) off x) Q s.
Proof.
  intros Hb Hm Hq. unfold REG32_store. wp_step. apply wp_guard; [done|]. rewrite Hm. unfold wp, device_store. by apply Hq.
Qed.

Lemma bus_error_goes {R A} (Rt : R → state → Prop) (Q : A → state → Prop) s : wp Rt sigbus bus_error Q s.
Proof. unfold wp, bus_error. destruct (bus_handler s); [by left|by right]. Qed.

Lemma open_inv_handle s t : handle t = handle s → open_inv s → open_inv t.
Proof. intros Ht (h & Hh & Hr). exists h. by rewrite Ht. Qed.

Lemma range_ready_goes {R} (Rt : R → state → Prop) r a n (Q : Z → state → Prop) s : open_inv s → range_inv r →
  (∀ t, open_inv t → Q (-1) t) → (∀ t, open_inv t → range_map r = Some (own_map r) → Q 0 t) →
  wp Rt sigbus (range_ready r a n) Q s.
Proof.
  intros Hs Hr Hbad Hq. pose proof Hr as (_ & _ & _ & _ & Hm & Hc). unfold range_ready.
  destruct Hm as [Hm|(Hm & _)]; rewrite Hm; [rewrite bool_decide_true by done|rewrite bool_decide_false by done].
  { wp_step. wp_step. wp_step. apply set_error_goes; [done|]. intros t Ht. by apply wp_ret, Hbad. }
  destruct Hc as [Hc|[Hc Hoff]]; rewrite Hc; [rewrite bool_decide_true by done|rewrite bool_decide_false by done].
  { wp_step. wp_step. wp_step. apply set_error_goes; [done|]. intros t Ht. by apply wp_ret, Hbad. }
  unfold range_check. rewrite Hm, Hc. rewrite !bool_decide_false by done. cbn [when]. wp_step. wp_step. wp_step. wp_step.
  destruct (_ || _); [wp_step; apply set_error_goes; [done|]; intros t Ht; by apply wp_ret, Hbad|].
  destruct (negb (c2c_reg r =? 0)); [|by apply wp_ret, Hq]. rewrite Hoff. wp_step.
  apply load_goes; [by apply status_map_bounds|]. intros x t Ht. apply (open_inv_handle s t) in Ht; [|done].
  wp_step. destruct x as [v|]; [|apply bus_error_goes]. wp_step.
  destruct (negb _); [wp_step; apply set_error_goes; [done|]; intros u Hu; by apply wp_ret, Hbad|by apply wp_ret, Hq].
Qed.

Lemma read_loop_goes {R} (Rt : R → state → Prop) n r a data s : open_inv s → range_inv r →
  range_map r = Some (own_map r) → in_range a false r = true → a mod 4 = 0 →
  wp Rt sigbus (read_loop n r a data) (λ p t, open_inv t ∧ (p.1 = true → length p.2 = (length data + n)%nat)) s.
Proof.
  intros Hs Hr Hm Hin Ha. revert data s Hs. induction n as [|n IH]; intros data s Hs; cbn [read_loop].
  { apply wp_ret. split; [done|]. intros _. cbn. lia. }
  rewrite Hm. wp_step. apply load_goes; [by eapply own_map_bounds|]. intros x t Ht. apply (open_inv_handle s t) in Ht; [|done].
  destruct x as [v|]; [|apply wp_ret; by split]. eapply wp_mono; [by apply IH|]. intros p u [Hu Hp]. split; [done|].
  intros Hd. rewrite (Hp Hd), length_app. cbn. lia.
Qed.

Lemma write_loop_goes {R} (Rt : R → state → Prop) r a data s : open_inv s → range_inv r →
  range_map r = Some (own_map r) → in_range a true r = true → a mod 4 = 0 →
  wp Rt sigbus (write_loop r a data) (λ _, open_inv) s.
Proof.
  intros Hs Hr Hm Hin Ha. revert s Hs. induction data as [|x data IH]; intros s Hs; cbn [write_loop]; [by apply wp_skip|].
  rewrite Hm. wp_step. apply store_goes; [by eapply own_map_bounds| |].
  { unfold in_range in Hin. apply andb_true_iff in Hin as [_ Hin]. done. }
  intros b t Ht. apply (open_inv_handle s t) in Ht; [|done]. wp_step.
  destruct b; [apply wp_skip; by apply IH|apply bus_error_goes].
Qed.

(** *** Read, write, close *)

Definition called {A} (m : Fn state A) (Q : A → state → Prop) : Prop :=
  ∀ s, handle_inv s → wp (λ _ _, False) sigbus m (λ a t, handle_inv t ∧ Q a t) s.

Lemma read_called a n : 0 ≤ n < 2 ^ 31 →
  called (memsvc_read a n) (λ p _, p.1 = 0 ∧ length p.2 = Z.to_nat n ∨ p.1 = -1).
Proof.
  intros Hn s Hs. unfold memsvc_read. wp_step. wp_step. apply validate_goes; [done| |].
  { intros t Ht. apply wp_return. split; [done|by right]. }
  clear Hs. intros Hs. cbn beta. change (0 <? 0) with false. cbv iota. wp_step. apply find_range_goes; [done| |].
  { intros t Ht. wp_step. apply set_error_goes; [done|]. intros u Hu. apply wp_return. split; by right. }
  intros r t Ht Hr Hin Ha. wp_step. apply range_ready_goes; [done|done| |].
  { intros u Hu. apply wp_return. split; by right. }
  intros u Hu Hm. cbv beta. change (0 <? 0) with false. cbv iota.
  destruct (range_start r =? 0); [apply wp_return; split; by right|]. wp_step. wp_step.
  destruct (negb _); [apply wp_return; split; by right|]. wp_step. wp_step. wp_step.
  rewrite (turns_small n) by lia. eapply wp_mono; [apply read_loop_goes; [|done..]|].
  { destruct Hu as (h & Hh & Hrs). by exists h. }
  intros [[] data] v [Hv Hlen]; cbn [negb]; [|apply wp_return; split; by right]. wp_step.
  unfold count_ok. apply wp_guard; [apply Z.ltb_lt; lia|]. apply wp_ret.
  split; [by right|]. left. split; [done|]. exact (Hlen eq_refl).
Qed.

Lemma write_called a n data : 0 ≤ n < 2 ^ 31 → n ≤ Z.of_nat (length data) →
  called (memsvc_write a n data) (λ rc _, rc = 0 ∨ rc = -1).
Proof.
  intros Hn Hlen s Hs. unfold memsvc_write. wp_step. wp_step. apply validate_goes; [done| |].
  { intros t Ht. apply wp_return. split; [done|by right]. }
  clear Hs. intros Hs. cbn beta. change (0 <? 0) with false. cbv iota. wp_step. apply find_range_goes; [done| |].
  { intros t Ht. wp_step. apply find_range_goes; [done| |].
    - intros u Hu. wp_step. apply set_error_goes; [done|]. intros v Hv. apply wp_return. split; by right.
    - intros r u Hu _ _ _. wp_step. apply set_error_goes; [done|]. intros v Hv. apply wp_return. split; by right. }
  intros r t Ht Hr Hin Ha. wp_step. apply range_ready_goes; [done|done| |].
  { intros u Hu. apply wp_return. split; by right. }
  intros u Hu Hm. cbv beta. change (0 <? 0) with false. cbv iota. wp_step.
  rewrite (turns_small n) by lia. eapply wp_mono; [by apply write_loop_goes|]. intros [] v Hv. wp_step.
  apply wp_guard; [apply Nat.leb_le; lia|]. wp_step. unfold count_ok. apply wp_guard; [apply Z.ltb_lt; lia|].
  apply wp_ret. split; [by right|by left].
Qed.

Lemma free_ranges_goes {R} (Rt : R → state → Prop) l (Q : unit → state → Prop) s :
  (∀ t, handle t = handle s → Q tt t) → wp Rt sigbus (free_ranges l) Q s.
Proof.
  intros Hq. unfold free_ranges. eapply wp_mono; [apply (wp_for_each _ _ (λ t, handle t = handle s)); [done|]|].
  - intros r t _ Ht. wp_step. wp_step. wp_step. done.
  - intros [] t Ht. by apply Hq.
Qed.

(** After [memsvc_invalidate] the handle has no ranges, whatever they were. *)
Lemma invalidate_goes {R} (Rt : R → state → Prop) h (Q : unit → state → Prop) s : handle s = Some h →
  valid_magic (magic h) = true ∨ Forall range_inv (first_range h) →
  (∀ t, open_inv t → Q tt t) → wp Rt sigbus memsvc_invalidate Q s.
Proof.
  intros Hh Hor Hq. unfold memsvc_invalidate. wp_step. apply (svc_goes _ _ _ h Hh). apply wp_when; intros Hv.
  - wp_step. apply free_ranges_goes. intros t Ht. wp_step. apply Hq. eexists. split; [reflexivity|]. constructor.
  - apply Hq. exists h. split; [done|]. destruct Hor as [Hor|]; [by rewrite Hor in Hv|done].
Qed.

Lemma close_called : called memsvc_close (λ rc _, rc = 0).
Proof.
  intros s Hs. unfold memsvc_close. wp_step. wp_step. destruct Hs as [Hs|(h & Hh & Hr)].
  - rewrite Hs. apply wp_ret. split; [by left|done].
  - rewrite Hh. wp_step. apply (invalidate_goes _ h); [done|by right|]. intros t _. wp_step. wp_step. apply wp_ret.
    split; [by left|done].
Qed.

(** *** Open *)

Lemma strtoul_word text v e rest : strtoul_16 text = (v, e, rest) → word 32 v.
Proof.
  unfold strtoul_16. destruct (split_sign _) as [neg t]. cbv zeta. generalize (match leading_digits 16 (skip_0x t) with [] => t | _ => skip_0x t end) as u. intros u.
  destruct (leading_digits 16 u) as [|d ds] eqn:E; [by intros [= <- _ _]|]. set (x := number 16 (d :: ds)).
  intros [= <- _ _]. assert (0 ≤ x) by (apply number_nonneg; [lia|rewrite <- E; apply leading_digits_nonneg]).
  destruct (Z.ltb_spec (2 ^ 32 - 1) x); [by split|]. destruct neg; [apply wrap_word; lia|]. unfold word. lia.
Qed.

Lemma number_field_word text v rest : number_field text = Some (v, rest) → word 32 v.
Proof.
  unfold number_field. destruct (strtoul_16 text) as [[x []] r] eqn:E; [done|]. apply strtoul_word in E.
  destruct r as [|c r]; [done|]. repeat case_match; by intros [= <- _].
Qed.

Lemma parse_line_range buf r : parse_line buf = inr r →
  word 32 (range_start r) ∧ word 32 (range_end r) ∧ word 32 (c2c_reg r) ∧ range_map r = None ∧ c2creg_map r = None.
Proof.
  unfold parse_line. destruct (number_field buf) as [[st b1]|] eqn:E1; [|done].
  destruct (number_field b1) as [[en b2]|] eqn:E2; [|done]. destruct b2 as [|c [|d b3]]; [done..|].
  apply number_field_word in E1, E2. intros H.
  repeat (case_match; simplify_eq); cbn; split_and!; try done; by eapply number_field_word.
Qed.

(** No line of the file gives a status register that is not aligned. *)
Definition status_aligned (env : open_env) : Prop := ∀ text buf r, env_conf env = inr text →
  buf ∈ fgets_lines 1023 text EmptyString → parse_line buf = inr r → (4 | c2c_reg r).

(** While the file is read the handle is not valid yet; a line that is
    refused may leave its range behind. *)
Definition opening s : Prop := ∃ h, handle s = Some h ∧ magic h = MEMSVC_INVALID_HANDLE_MAGIC.

Lemma config_loop_goes {R} (Rt : R → state → Prop) lineno lines (Q : option string → state → Prop) s :
  (∀ buf r, buf ∈ lines → parse_line buf = inr r → (4 | c2c_reg r)) → opening s → open_inv s →
  (∀ e t, opening t → (e = None → open_inv t) → Q e t) → wp Rt sigbus (config_loop lineno lines) Q s.
Proof.
  intros Hl Ho Hs Hq. revert lineno s Hl Ho Hs. induction lines as [|buf lines IH]; intros lineno s Hl Ho Hs; cbn [config_loop].
  { by apply wp_ret, Hq. }
  assert (∀ b r, b ∈ lines → parse_line b = inr r → (4 | c2c_reg r)) as Hl'.
  { intros b r Hb. apply Hl. apply elem_of_cons. by right. }
  destruct (String.prefix "#" buf); [by apply IH|]. destruct (parse_line buf) as [n|r] eqn:E.
  { apply wp_ret, Hq; [done|]. intros ?. done. }
  destruct Ho as (h & Hh & Hm). destruct Hs as (h' & Hh' & Hr). rewrite Hh in Hh'. injection Hh' as <-.
  wp_step. apply (svc_goes _ _ _ h Hh). wp_step. unfold set_ranges. wp_step. apply (svc_goes _ _ _ h Hh). wp_step.
  destruct (Z.leb_spec (range_end r) (range_start r)) as [Hle|Hlt].
  { apply wp_ret, Hq; [|done]. eexists. split; [reflexivity|done]. }
  apply IH; [done|by eexists|]. eexists. split; [reflexivity|]. constructor; [|done].
  destruct (parse_line_range _ _ E) as ([? ?] & [? ?] & [? ?] & Hm1 & Hm2). split_and!; try done; try (by left).
  apply (Hl buf); [apply elem_of_cons; by left|done].
Qed.

Lemma failed_goes user err (Q : Z → state → Prop) s : opening s → (∀ t, open_inv t → Q (-1) t) →
  wp (λ _ : Empty_set, λ _, False) sigbus (failed user err) Q s.
Proof.
  intros (h & Hh & Hm) Hq. unfold failed. wp_step. unfold set_error. wp_step. apply (svc_goes _ _ _ h Hh). wp_step. wp_step.
  eapply invalidate_goes; [reflexivity| |].
  - left. cbn. rewrite Hm. done.
  - intros t Ht. by apply wp_ret, Hq.
Qed.

Lemma open_called env : status_aligned env → called (memsvc_open env) (λ rc _, rc = 0 ∨ rc = -1).
Proof.
  intros Hal s _. unfold memsvc_open. wp_step. wp_step.
  assert (∀ user err t, opening t → wp (λ _ : Empty_set, λ _, False) sigbus (failed user err)
    (λ rc u, handle_inv u ∧ (rc = 0 ∨ rc = -1)) t) as Hf.
  { intros user err t Ht. apply failed_goes; [done|]. intros u Hu. split; by right. }
  set (s0 := set_handle _ s). assert (opening s0) as Ho by by eexists.
  destruct (env_socket env); [by apply Hf|]. destruct (env_connect env); [by apply Hf|].
  destruct (env_recvmsg env) as [[rv err] msgs]. wp_step. eapply svc_goes; [reflexivity|]. cbv zeta. wp_step. wp_step.
  destruct (negb _); [apply Hf; by eexists|]. wp_step. eapply svc_goes; [reflexivity|].
  destruct (_ <? 0); [apply Hf; by eexists|]. destruct (env_conf env) as [e|text] eqn:Ec; [apply Hf; by eexists|].
  wp_step. apply config_loop_goes; [intros buf r; by apply Hal| | |].
  - by eexists.
  - eexists. split; [reflexivity|]. constructor.
  - intros [e|] t Ht Hi; [by apply Hf|]. destruct (Hi eq_refl) as (h & Hh & Hr). wp_step. apply (svc_goes _ _ _ h Hh).
    wp_step. wp_step. apply wp_ret. split; [|by left]. right. eexists. split; [reflexivity|]. exact Hr.
Qed.

(** ** A session *)

(** A call of the library, with what it meets. *)
Inductive library_call : Type :=
| Open (env : open_env)
| Read (addr words : Z)
| Write (addr words : Z) (data : list Z)
| Close.

Definition perform (c : library_call) : Fn state unit :=
  match c with
  | Open env => memsvc_open env ;; skip
  | Read addr words => memsvc_read addr words ;; skip
  | Write addr words data => memsvc_write addr words data ;; skip
  | Close => memsvc_close ;; skip
  end.

(** What the caller answers for: the buffer holds the words it announces, and
    the status registers of the file are aligned. *)
Definition call_ok (c : library_call) : Prop :=
  match c with
  | Open env => status_aligned env
  | Read _ n => 0 ≤ n < 2 ^ 31
  | Write _ n data => 0 ≤ n < 2 ^ 31 ∧ n ≤ Z.of_nat (length data)
  | Close => True
  end.

Lemma called_skip {A} (m : Fn state A) Q s : called m Q → handle_inv s →
  wp (λ _ _, False) sigbus (m ;; skip) (λ _, handle_inv) s.
Proof. intros Hm Hs. wp_step. eapply wp_mono; [by apply Hm|]. intros a t [Ht _]. by apply wp_skip. Qed.

Lemma perform_safe c s : call_ok c → handle_inv s → wp (λ _ _, False) sigbus (perform c) (λ _, handle_inv) s.
Proof.
  intros Hc Hs. destruct c as [env|a n|a n data|]; cbn [perform]; (eapply called_skip; [|done]).
  - by apply open_called.
  - by apply read_called.
  - destruct Hc. by apply write_called.
  - by apply close_called.
Qed.

(** C15: Any sequence of calls, from a handle that was never opened, on any
    kernel: every call completes with the handle in order, or the process
    meets a SIGBUS outside the read loop.  In particular no access falls
    outside a mapping and no null pointer is followed. *)
Theorem session_in_bounds (cs : list library_call) s : handle s = None → Forall call_ok cs →
  let res := for_each cs perform s in
  (res.1 = Next tt ∧ handle_inv res.2) ∨ res.1 = Undef DeadJump ∨ res.1 = Halt HSignal.
Proof.
  intros Hs Hcs res. subst res.
  assert (wp (λ _ _, False) sigbus (for_each cs perform) (λ _, handle_inv) s) as Hw.
  { apply wp_for_each; [by left|]. intros c t Hc. apply perform_safe. rewrite Forall_forall in Hcs. by apply Hcs. }
  unfold wp, sigbus in Hw. destruct (for_each cs perform s) as [[[]|[]| | |] t]; cbn; [by left|..];
    destruct Hw as [[= ->]|[= ->]]; right; [by left|by right].
Qed.
End Bounds.

(** A device of four words behind a page, whose other addresses raise SIGBUS:
    a call past the file, a call past the range and a call that works; and the
    end a store can have once the handler of the reads is installed. *)
Module BoundsExamples.
Import PlainMemory.

#[export] Instance strict : StrictMmap (gmap Z Z).
Proof.
  intros m d d'. cbn. destruct (Z.eqb_spec (map_offset m mod 4096) 0) as [E|]; cbn [andb]; [|done].
  destruct (Z.ltb_spec 0 (map_length m)); [|done]. intros _. split; [by apply Z.mod_divide|done].
Qed.

Definition conf_text : string := "64000000 64000fff 0 0 0" ++ newline.
Definition env_text : open_env := mk_env None None (1, 0, [mk_cmsg SOL_SOCKET SCM_RIGHTS 3]) (inr conf_text).
Definition unopened : memsvc_state (gmap Z Z) := mk_memsvc None words_example 0 false.
Definition calls : list library_call :=
  [Open env_text; Write 0x64000004 1 [9]; Read 0x64000004 1; Read 0x64001000 1; Read 0x64000ffc 4; Read 0x64000100 1].

Lemma calls_ok : Forall call_ok calls.
Proof.
  repeat constructor; try (cbn; lia). intros text buf r [= <-] Hb. vm_compute in Hb.
  apply list_elem_of_singleton in Hb as ->. vm_compute. intros [= <-]. by exists 0.
Qed.

Lemma session_in_bounds_witness :
  let good := for_each calls perform unopened in
  let bad := for_each (calls ++ [Write 0x64000100 1 [0]]) perform unopened in
  good.1 = Next tt ∧ handle_inv good.2 ∧ bad.1 = Undef DeadJump.
Proof.
  intros good bad. split; [vm_compute; reflexivity|]. split; [|vm_compute; reflexivity].
  destruct (session_in_bounds calls unopened eq_refl calls_ok) as [[_ H]|[H|H]];
    [exact H|vm_compute in H; discriminate H..].
Defined.
End BoundsExamples.
