(* ===== verification/RwReg.v ===== *)
(** * RwReg: the two small clients of the memory libraries

    [xcompile/lib_rw_ctp7/rwreg.cc], which reads and writes one register
    through [libmemsvc] for the Python tools, and
    [xcompile/memhub/reg_stress_test.cpp], which exercises the memory hub. *)

From S2P Require Import Prelude MemBus RpcMsg CText Memsvc MemsvcSpec MemsvcOpen Memhub.

Local Open Scope list_scope.

(** ** rwreg.cc

    [memHandle] is the handle of the state. *)
Section RwReg.
Context {Dev : Type} {K : Kernel Dev}.
Notation state := (memsvc_state Dev).

(** [getData]: one word per call, [wordsDone] words done; the value returned
    and what is in [buffer]. *)
Fixpoint getData_loop (wordsToGo : nat) (address wordsDone : Z) (buffer : list Z) : Fn state (bool * list Z) :=
  match wordsToGo with
  | O => mret (true, buffer)
  | S wordsToGo =>
      '(r, readBuffer) ← memsvc_read (w32 (address + w32 (wordsDone * 4))) 1;
      if negb (r =? 0) then mret (false, buffer)
      else getData_loop wordsToGo address (wordsDone + 1) (buffer ++ readBuffer)
  end.

Definition getData (address numberOfValues : Z) : Fn state (bool * list Z) :=
  getData_loop (Z.to_nat (s32 numberOfValues)) address 0 [].

(** [getReg] and [putReg] of [rwreg.cc]. *)
Definition rw_getReg (env : open_env) (address : Z) : Fn state Z := fn (
  h ← gets handle;
  when (bool_decide (h = None)) (
    r ← call (memsvc_open env);
    when (negb (r =? 0)) (memsvc_get_last_error ;; ret 0xfefe)) ;;
  '(done, buffer) ← call (getData address 1);
  if (done : bool) then
    match buffer with v :: _ => mret v | [] => undef Uninitialised end
  else
    c ← memsvc_close;
    if negb (c =? 0) then memsvc_get_last_error ;; ret 0xcafe
    else mret 0xdeaddead).

Definition rw_putReg (env : open_env) (address value : Z) : Fn state Z := fn (
  h ← gets handle;
  when (bool_decide (h = None)) (
    r ← call (memsvc_open env);
    when (negb (r =? 0)) (ret 4)) ;;
  r ← call (memsvc_write address 1 [value]);
  if negb (r =? 0) then memsvc_get_last_error ;; ret 0xdeaddead
  else mret value).
End RwReg.

(** *** A handle that could not be opened

    A failed [memsvc_open] leaves [memHandle] pointing at a handle marked as
    invalid. *)
Section Invalid.
Context {Dev : Type} {K : Kernel Dev}.
Notation state := (memsvc_state Dev).
Implicit Types s : state.

Definition invalid s : Prop := ∃ h, handle s = Some h ∧ magic h = MEMSVC_INVALID_HANDLE_MAGIC.

Lemma validate_invalid {R} s : invalid s → ∃ s', memsvc_validate (R:=R) true s = (Next (-1), s') ∧ invalid s'.
Proof.
  intros (h & Hh & Hm). unfold memsvc_validate. erewrite bind_next by reflexivity. cbn beta. rewrite Hh, Hm.
  change (valid_magic MEMSVC_INVALID_HANDLE_MAGIC) with true. cbn [negb]. rewrite Z.eqb_refl. cbn [andb].
  unfold set_error. rewrite bind_bind. erewrite bind_next by (unfold svc_; by rewrite Hh). cbn beta.
  erewrite bind_next by reflexivity. eexists. split; [reflexivity|]. eexists. split; [reflexivity|exact Hm].
Qed.

Lemma free_ranges_next {R} l s : ∃ t, free_ranges (R:=R) l s = (Next tt, t).
Proof.
  unfold free_ranges. revert s. induction l as [|r l IH]; intros t; [by eexists|]. cbn [for_each].
  rewrite bind_bind. erewrite bind_next by reflexivity. erewrite bind_next by reflexivity. apply IH.
Qed.

Lemma close_marked {R} s h : handle s = Some h → valid_magic (magic h) = true → ∃ s',
  memsvc_close (R:=R) s = (Next 0, s') ∧ handle s' = None.
Proof.
  intros Hh Hm. unfold memsvc_close. erewrite bind_next by reflexivity. cbn beta. rewrite Hh.
  unfold memsvc_invalidate. rewrite !bind_bind. erewrite bind_next by (unfold svc_; by rewrite Hh). cbn beta.
  rewrite Hm. cbn [when].
  destruct (free_ranges_next (R:=R) (first_range h) s) as [t Ht]. rewrite !bind_bind. erewrite bind_next by exact Ht.
  erewrite bind_next by reflexivity. erewrite bind_next by reflexivity. by eexists.
Qed.

(** Opening the library ends with a handle, valid or marked. *)
Lemma failed_invalid {R} u e s : invalid s → ∃ s', failed (R:=R) u e s = (Next (-1), s') ∧ invalid s'.
Proof.
  intros (h & Hh & Hm). unfold failed, set_error. rewrite bind_bind.
  erewrite bind_next by (unfold svc_; by rewrite Hh). cbn beta. erewrite bind_next by reflexivity.
  unfold memsvc_invalidate. rewrite bind_bind. erewrite bind_next by reflexivity. cbn [magic first_range].
  rewrite Hm. change (valid_magic MEMSVC_INVALID_HANDLE_MAGIC) with true. cbn [when]. rewrite bind_bind.
  match goal with |- context [free_ranges ?l] => destruct (free_ranges_next (R:=R) l
    (mk_memsvc (Some (mk_handle (magic h) (str_take 511 (u ++ (if e =? 0 then EmptyString else strerror e)))
       (memfd h) (first_range h))) (dev s) (if e =? 0 then errno s else 0) (bus_handler s))) as [t Ht] end.
  rewrite Hm in Ht. erewrite bind_next by exact Ht. erewrite bind_next by reflexivity.
  eexists. split; [reflexivity|]. eexists. by split.
Qed.

Lemma config_loop_next {R} lines n s : invalid s → ∃ r s', config_loop (R:=R) n lines s = (Next r, s') ∧ invalid s'.
Proof.
  revert n s. induction lines as [|buf lines IH]; intros n s Hs; [by exists None, s|]. cbn [config_loop].
  destruct (String.prefix "#" buf); [by apply IH|].
  destruct (parse_line buf) as [e|r]; [by eexists _, s|]. destruct Hs as (h & Hh & Hm).
  erewrite bind_next by (unfold svc_; by rewrite Hh). cbn beta. unfold set_ranges. rewrite bind_bind.
  erewrite bind_next by (unfold svc_; by rewrite Hh). cbn beta. erewrite bind_next by reflexivity.
  destruct (_ <=? _); [|apply IH]; [eexists _, _; split; [reflexivity|]|]; by eexists.
Qed.

Lemma open_outcome env s : ∃ q t, memsvc_open (R:=Empty_set) env s = (Next q, t) ∧
  (q = 0 ∧ is_Some (handle t) ∨ q = -1 ∧ invalid t).
Proof.
  assert (∀ (P : Fn state Z), (∃ t, P s = (Next (-1), t) ∧ invalid t) → ∃ q t, P s = (Next q, t) ∧
    (q = 0 ∧ is_Some (handle t) ∨ q = -1 ∧ invalid t)) as Hfail by (intros P (t & ? & ?); exists (-1), t; auto).
  unfold memsvc_open. set (h0 := mk_handle MEMSVC_INVALID_HANDLE_MAGIC EmptyString (-1) []).
  set (s0 := set_handle (Some h0) s).
  assert (invalid s0) as H0 by by exists h0.
  destruct (env_socket env) as [err|].
  { apply Hfail. erewrite bind_next by reflexivity. by apply failed_invalid. }
  destruct (env_connect env) as [err|].
  { apply Hfail. erewrite bind_next by reflexivity. by apply failed_invalid. }
  destruct (env_recvmsg env) as [[rv err] msgs]. erewrite bind_next by reflexivity. fold s0.
  erewrite bind_next by reflexivity. cbn beta. erewrite bind_next by reflexivity.
  set (s1 := set_handle _ s0). assert (invalid s1) as H1 by by eexists.
  destruct (negb _). { by destruct (failed_invalid (R:=Empty_set) "Unable to retrieve memory descriptor from memsvc: " err s1 H1)
    as (t & Ht & Hi); exists (-1), t; auto. }
  erewrite bind_next by reflexivity. cbn beta.
  destruct (_ <? 0). { by destruct (failed_invalid (R:=Empty_set) "Unable to retrieve memory descriptor from memsvc" 0 s1 H1)
    as (t & Ht & Hi); exists (-1), t; auto. }
  destruct (env_conf env) as [e|text].
  { destruct (failed_invalid (R:=Empty_set) "Unable to open memsvc configuration file: " e s1 H1) as (t & Ht & Hi).
    exists (-1), t; auto. }
  destruct (config_loop_next (R:=Empty_set) (fgets_lines 1023 text EmptyString) 0 s1 H1) as (r & s2 & Hc & H2).
  erewrite bind_next by exact Hc. destruct r as [cfgerr|].
  { destruct (failed_invalid (R:=Empty_set) cfgerr 0 s2 H2) as (t & Ht & Hi). exists (-1), t; auto. }
  destruct H2 as (h & Hh & _). cbn beta iota. erewrite bind_next by (unfold svc_; by rewrite Hh). cbn beta.
  erewrite bind_next by reflexivity. eexists _, _. split; [reflexivity|]. left. split; [done|]. by eexists.
Qed.

(** With a null pointer both open the library first. *)
Lemma open_if_null {R} env (c : M state R unit) s q t : handle s = None →
  memsvc_open (R:=Empty_set) env s = (Next q, t) →
  when (bool_decide (handle s = None)) (r ← call (memsvc_open env); when (negb (r =? 0)) c) s =
    if q =? 0 then (Next tt, t) else c t.
Proof.
  intros Hh Ho. rewrite bool_decide_true by done. cbn [when]. erewrite bind_next by (by apply call_next).
  cbn beta. by destruct (q =? 0).
Qed.

Lemma open_not_null {R} (c : M state R unit) s : is_Some (handle s) →
  when (bool_decide (handle s = None)) c s = (Next tt, s).
Proof. intros [h Hh]. by rewrite bool_decide_false by (by rewrite Hh). Qed.

Lemma rw_opened env a x s t : handle s = None → memsvc_open (R:=Empty_set) env s = (Next 0, t) → is_Some (handle t) →
  rw_getReg env a s = rw_getReg env a t ∧ rw_putReg env a x s = rw_putReg env a x t.
Proof.
  intros Hh Ho Ht. split; unfold rw_getReg, rw_putReg, fn.
  - erewrite bind_next by reflexivity. cbn beta. erewrite bind_next by (by rewrite (open_if_null _ _ _ 0 t)).
    symmetry. erewrite bind_next by reflexivity. cbn beta. by erewrite bind_next by (by apply open_not_null).
  - erewrite bind_next by reflexivity. cbn beta. erewrite bind_next by (by rewrite (open_if_null _ _ _ 0 t)).
    symmetry. erewrite bind_next by reflexivity. cbn beta. by erewrite bind_next by (by apply open_not_null).
Qed.

Lemma rw_not_opened env a x s t : handle s = None → memsvc_open (R:=Empty_set) env s = (Next (-1), t) → invalid t →
  rw_getReg env a s = (Next 0xfefe, t) ∧ rw_putReg env a x s = (Next 4, t).
Proof.
  intros Hh Ho (h & Ht & _). split; unfold rw_getReg, rw_putReg, fn; erewrite bind_next by reflexivity; cbn beta.
  - erewrite bind_return; [reflexivity|]. rewrite (open_if_null _ _ _ (-1) t) by done. cbn [Z.eqb].
    unfold memsvc_get_last_error. rewrite bind_bind. erewrite bind_next by (unfold svc_; by rewrite Ht). reflexivity.
  - erewrite bind_return; [reflexivity|]. by rewrite (open_if_null _ _ _ (-1) t).
Qed.

(** With such a handle [putReg] returns 0xdeaddead and keeps it, so that it
    does so however often it is called, whatever [memsvc_open] would find by
    now; [getReg] returns 0xdeaddead once and closes it, and the next call
    opens the library again. *)
Lemma rw_invalid_handle env a x s : invalid s → ∃ s1 s2,
  rw_putReg env a x s = (Next 0xdeaddead, s1) ∧ invalid s1 ∧
  rw_getReg env a s = (Next 0xdeaddead, s2) ∧ handle s2 = None.
Proof.
  intros Hs. destruct (validate_invalid (R:=Z) s Hs) as (s1 & H1 & Hi1).
  destruct (validate_invalid (R:=Z * list Z) s Hs) as (s2 & H2 & Hi2).
  assert (∃ s3, memsvc_close (R:=Z) s2 = (Next 0, s3) ∧ handle s3 = None) as (s3 & H3 & Hn).
  { destruct Hi2 as (h2 & Hh2 & Hm2). apply (close_marked s2 h2 Hh2). by rewrite Hm2. }
  assert (bool_decide (handle s = None) = false) as Hopen by (destruct Hs as (h & Hh & _); by rewrite Hh).
  exists s1, s3. split_and!; [|done| |done].
  - unfold rw_putReg, fn. erewrite bind_next by reflexivity. cbn beta. rewrite Hopen. erewrite bind_next by reflexivity.
    erewrite bind_next by (apply call_next; unfold memsvc_write, fn; erewrite bind_next by exact H1; reflexivity).
    destruct Hi1 as (h1 & Hh1 & _). cbn beta. change (negb (-1 =? 0)) with true. cbv iota.
    unfold memsvc_get_last_error. rewrite bind_bind. by erewrite bind_next by (unfold svc_; by rewrite Hh1).
  - unfold rw_getReg, fn. erewrite bind_next by reflexivity. cbn beta. rewrite Hopen. erewrite bind_next by reflexivity.
    erewrite bind_next; last first.
    { apply call_next. unfold getData. change (Z.to_nat (s32 1)) with 1%nat. cbn [getData_loop].
      erewrite bind_next by (unfold memsvc_read, fn; erewrite bind_next by exact H2; reflexivity). reflexivity. }
    cbn beta iota. by erewrite bind_next by exact H3.
Qed.
End Invalid.

(** *** What they return *)
Section RwRegSpec.
Context {Dev : Type} {K : Kernel Dev} {PD : PlainDevice Dev}.
Notation state := (memsvc_state Dev).

(** [getData] gathers consecutive registers, a call per word. *)
Lemma getData_loop_plain n a done buffer vs (s : state) : ready s → length vs = n →
  (∀ i v, vs !! i = Some v → mem_reg s (w32 (a + w32 ((done + Z.of_nat i) * 4))) = Some v) → ∃ s',
  getData_loop n a done buffer s = (Next (true, buffer ++ vs), s') ∧ unchanged s s'.
Proof.
  revert done buffer vs s. induction n as [|n IH]; intros done buffer vs s Hs Hl Hv.
  { destruct vs; [|done]. exists s. rewrite app_nil_r. split; [done|]. by apply unchanged_refl. }
  destruct vs as [|v vs]; [done|]. cbn [getData_loop].
  destruct (memsvc_read_1 s (w32 (a + w32 (done * 4))) Hs) as (rc & data & s1 & Hr & Hu & Hc).
  pose proof (Hv O v eq_refl) as H0. rewrite Z.add_0_r in H0. rewrite H0 in Hc. destruct Hc as [-> ->].
  erewrite bind_next by exact Hr. cbn beta iota. change (negb (0 =? 0)) with false. cbv iota.
  destruct (IH (done + 1) (buffer ++ [v]) vs s1) as (s2 & H2 & Hu2).
  - apply Hu.
  - by injection Hl.
  - intros i w Hi. rewrite (proj1 (unchanged_reg s s1 Hs Hu)).
    replace (done + 1 + Z.of_nat i) with (done + Z.of_nat (S i)) by lia. by apply Hv.
  - exists s2. rewrite H2. rewrite <- app_assoc. split; [done|]. by eapply unchanged_trans.
Qed.

(** Unlike a call of [memsvc_read] for several words, [getData] returns the
    registers at consecutive addresses. *)
Theorem getData_consecutive a vs (s : state) : ready s → Z.of_nat (length vs) < 2 ^ 31 →
  (∀ i v, vs !! i = Some v → mem_reg s (w32 (a + 4 * Z.of_nat i)) = Some v) → ∃ s',
  getData a (Z.of_nat (length vs)) s = (Next (true, vs), s') ∧ unchanged s s'.
Proof.
  intros Hs Hl Hv. unfold getData.
  assert (Z.to_nat (s32 (Z.of_nat (length vs))) = length vs) as ->.
  { unfold s32. rewrite Z.mod_small by lia. lia. }
  apply (getData_loop_plain _ a 0 [] vs); [done|done|]. intros i v Hi. rewrite Z.add_0_l. rewrite <- (Hv i v Hi). f_equal.
  unfold wrap. rewrite Zplus_mod_idemp_r. f_equal. lia.
Qed.

Lemma getReg_run env a (s : state) : ready s → word 32 a → bool_decide (handle s = None) = false → ∃ s1,
  rw_getReg env a s = (Next (default 0xdeaddead (mem_reg s a)), s1) ∧
  match mem_reg s a with Some _ => unchanged s s1 | None => handle s1 = None end.
Proof.
  intros Hs Ha Hopen. destruct (memsvc_read_1 s a Hs) as (rc & data & s1 & Hr & Hu & Hc).
  unfold rw_getReg, fn. erewrite bind_next by reflexivity. cbn beta. rewrite Hopen. erewrite bind_next by reflexivity.
  assert (w32 (a + w32 (0 * 4)) = a) as Ha0 by (change (w32 (0 * 4)) with 0; rewrite Z.add_0_r; by apply wrap_small).
  destruct (mem_reg s a) as [v|].
  - destruct Hc as [-> ->]. exists s1. erewrite bind_next; last first.
    { apply call_next. unfold getData. change (Z.to_nat (s32 1)) with 1%nat. cbn [getData_loop]. rewrite Ha0.
      erewrite bind_next by exact Hr. reflexivity. }
    done.
  - destruct (proj1 Hu) as (h1 & Hh1 & Hm1 & _).
    destruct (close_marked (R:=Z) s1 h1 Hh1) as (s2 & Hcl & Hn); [by rewrite Hm1|]. exists s2. erewrite bind_next; last first.
    { apply call_next. unfold getData. change (Z.to_nat (s32 1)) with 1%nat. cbn [getData_loop]. rewrite Ha0.
      erewrite bind_next by exact Hr. rewrite Hc. reflexivity. }
    cbn beta iota. erewrite bind_next by exact Hcl. done.
Qed.

(** What the two do on the registers of the open handle of [t], called from
    [s]. *)
Definition on_registers env a x (s t : state) : Prop := ∃ s1 s2,
  rw_getReg env a s = (Next (default 0xdeaddead (mem_reg t a)), s1) ∧
  match mem_reg t a with Some _ => unchanged t s1 | None => handle s1 = None end ∧
  rw_putReg env a x s =
    (Next (if bool_decide (is_Some (mem_reg t a)) && mem_writeable t a then x else 0xdeaddead), s2) ∧
  if bool_decide (is_Some (mem_reg t a)) && mem_writeable t a
  then stored a (Some x) t s2 else unchanged t s2.

Lemma ready_registers env a x (s : state) : ready s → word 32 a → word 32 x → on_registers env a x s s.
Proof.
  intros Hs Ha Hx. assert (bool_decide (handle s = None) = false) as Hopen
    by (destruct Hs as (h & Hh & _); by rewrite Hh).
  destruct (getReg_run env a s Hs Ha Hopen) as (s1 & Hg & Hg').
  destruct (memsvc_write_1 s a x Hs Hx) as (rc & s2 & Hw & Hc). exists s1, s2. split; [exact Hg|]. split; [exact Hg'|].
  assert (∃ h, handle s2 = Some h) as [h Hh].
  { destruct (_ && _); destruct Hc as (_ & (h & Hh & _) & _); eauto. }
  unfold rw_putReg, fn. erewrite bind_next by reflexivity. cbn beta. rewrite Hopen. erewrite bind_next by reflexivity.
  erewrite bind_next by (by apply call_next). cbn beta.
  destruct (bool_decide _ && mem_writeable s a); destruct Hc as [-> Hst].
  - by split.
  - cbn [negb Z.eqb]. erewrite bind_next; [|unfold memsvc_get_last_error; erewrite bind_next by (unfold svc_; by rewrite Hh);
      reflexivity]. by split.
Qed.

(** C37: On an open handle [getReg] returns the register; where there is none it
    closes the handle and returns 0xdeaddead - never 0xcafe.  [putReg] writes
    a register that can be written and returns the value; otherwise it
    returns 0xdeaddead and writes nothing.  With no handle both open the
    library first and then do the same on what was opened; when that fails
    [getReg] returns 0xfefe and [putReg] 4, and the handle stays, marked
    invalid.  On such a handle [putReg] returns 0xdeaddead and keeps it, and
    [getReg] returns 0xdeaddead and drops it. *)
Theorem rw_register env a x (s : state) : word 32 a → word 32 x →
  (ready s → on_registers env a x s s) ∧
  (handle s = None → ∃ q t, memsvc_open (R:=Empty_set) env s = (Next q, t) ∧
     (q = 0 ∧ (ready t → on_registers env a x s t) ∨
      q = -1 ∧ invalid t ∧ rw_getReg env a s = (Next 0xfefe, t) ∧ rw_putReg env a x s = (Next 4, t))) ∧
  (invalid s → ∃ s1 s2,
     rw_getReg env a s = (Next 0xdeaddead, s1) ∧ handle s1 = None ∧
     rw_putReg env a x s = (Next 0xdeaddead, s2) ∧ invalid s2).
Proof.
  intros Ha Hx. split_and!.
  - intros Hs. by apply ready_registers.
  - intros Hh. destruct (open_outcome env s) as (q & t & Ho & Hq). exists q, t. split; [exact Ho|].
    destruct Hq as [[-> Ht]|[-> Hi]]; [left|right]; (split; [done|]).
    + intros Hr. destruct (rw_opened env a x s t Hh Ho Ht) as [Hg Hp]. unfold on_registers. rewrite Hg, Hp.
      by apply ready_registers.
    + split; [exact Hi|]. by apply rw_not_opened.
  - intros Hi. destruct (rw_invalid_handle env a x s Hi) as (s1 & s2 & Hp & Hi' & Hg & Hn).
    exists s2, s1. by split_and!.
Qed.
End RwRegSpec.

(** ** reg_stress_test.cpp

    The loop of [main] over the memory hub, with the pairs it prints as
    errors. *)
Section Stress.
Context {B : Type} `{MB : MemBus B}.

Definition on_hub {A} (m : Fn B A) : Fn (B * list (Z * Z)) A := λ s, let r := m s.1 in (r.1, (r.2, s.2)).

Definition stress_turn (i : Z) : Fn (B * list (Z * Z)) unit :=
  on_hub (memhub_write 0x66400008 1 [i]) ;;
  '(_, data) ← on_hub (memhub_read 0x66400008 1);
  let test_data := match data with v :: _ => v | [] => 0 end in
  let test_data := Z.land test_data 0xffff in
  when (negb (test_data =? Z.land i 0xffff)) (modify (λ s, (s.1, s.2 ++ [(i, test_data)]))).

End Stress.

(** [main]; the process ends with its last statement *)
Definition stress_main {Dev} {K : Kernel Dev} (sem_open_ok : bool) (env : open_env) :
    Fn (hub Dev * list (Z * Z)) unit :=
  r ← on_hub (hub_open sem_open_ok env);
  when (negb (r =? 0)) (halt_with (HExit 1)) ;;
  for_each (seqZ 0 1000000) (stress_turn (MB := hub_bus sem_open_ok env)) ;;
  on_hub hub_close ;;
  skip.

Section StressSpec.
Context {B : Type} `{MB : MemBus B} {RB : RegisterBus B}.

(** On a hub whose test register can be written the loop prints nothing, and
    leaves every other register as it was. *)
Theorem stress_silent (l : list Z) (b : B) : bus_ok b → is_Some (reg b 0x66400008) → writeable b 0x66400008 = true →
  Forall (word 32) l → ∃ b', for_each l stress_turn (b, []) = (Next tt, (b', [])) ∧ bus_ok b' ∧
  ∀ c, c ≠ 0x66400008 → reg b' c = reg b c.
Proof.
  intros Hb Hr Hw Hl. revert b Hb Hr Hw. induction Hl as [|i l Hi _ IH]; intros b Hb Hr Hw; [by exists b|].
  destruct Hr as [v Hv]. destruct (write_reg b 0x66400008 v i Hb Hv Hw Hi) as (b1 & Hw1 & Hb1 & Hreg1 & Hwr1).
  destruct (read_reg b1 0x66400008 i Hb1) as (b2 & Hr2 & Hb2 & Hreg2 & Hwr2); [by rewrite Hreg1, decide_True|].
  destruct (IH b2 Hb2) as (b3 & H3 & Hb3 & Hreg3).
  { rewrite Hreg2, Hreg1, decide_True by done. by eexists. }
  { by rewrite Hwr2, Hwr1. }
  exists b3. split; [|split; [done|intros c Hc; by rewrite Hreg3, Hreg2, Hreg1, decide_False]].
  cbn [for_each]. erewrite bind_next; [exact H3|]. unfold stress_turn.
  erewrite bind_next by (unfold on_hub; cbn [fst snd]; rewrite Hw1; reflexivity).
  erewrite bind_next by (unfold on_hub; cbn [fst snd]; rewrite Hr2; reflexivity). cbn beta iota.
  by rewrite Z.eqb_refl.
Qed.
End StressSpec.

(** ** Concrete runs *)
Module RwRegExamples.
Import PlainMemory Ram.

Definition no_env : open_env := mk_env (Some 2) None (0, 0, []) (inl 2).

Lemma getData_consecutive_witness : ∃ s', getData 0x64000000 3 state_example = (Next (true, [5; 6; 7]), s') ∧
  unchanged state_example s'.
Proof.
  apply (getData_consecutive 0x64000000 [5; 6; 7] state_example state_ready); [cbn; lia|].
  intros [|[|[|i]]] v Hv; [injection Hv as <-; vm_compute; reflexivity..|done].
Defined.

(** On an open handle, with none, and with one that could not be opened. *)
Definition null_handle : memsvc_state (gmap Z Z) := mk_memsvc None words_example 0 false.

Lemma rw_register_witness : (ready state_example ∧ ∃ s1 s2,
    rw_getReg no_env 0x64000008 state_example = (Next 7, s1) ∧
    rw_putReg no_env 0x64000008 9 state_example = (Next 9, s2) ∧
    stored 0x64000008 (Some 9) state_example s2) ∧
  (∃ t, rw_getReg no_env 0x64000008 null_handle = (Next 0xfefe, t) ∧
    rw_putReg no_env 0x64000008 9 null_handle = (Next 4, t) ∧ invalid t ∧
    ∃ u, rw_putReg no_env 0x64000008 9 t = (Next 0xdeaddead, u)).
Proof.
  assert (word 32 0x64000008) as Ha by by split. assert (word 32 9) as Hx by by split.
  split.
  - split; [apply state_ready|].
    destruct (proj1 (rw_register no_env 0x64000008 9 state_example Ha Hx) state_ready)
      as (s1 & s2 & Hg & _ & Hp & Hst). exists s1, s2. split; [exact Hg|]. split; [exact Hp|exact Hst].
  - destruct (proj1 (proj2 (rw_register no_env 0x64000008 9 null_handle Ha Hx)) eq_refl)
      as (q & t & Ho & [[-> _]|(-> & Hi & Hg & Hp)]); [vm_compute in Ho; discriminate|].
    exists t. split; [exact Hg|]. split; [exact Hp|]. split; [exact Hi|].
    destruct (proj2 (proj2 (rw_register no_env 0x64000008 9 t Ha Hx)) Hi) as (_ & u & _ & _ & Hu & _).
    by exists u.
Defined.

(** The library cannot be opened at first, and can be later on: [putReg] fails
    until a [getReg] has failed too. *)
Definition later_env : open_env :=
  mk_env None None (1, 0, [mk_cmsg SOL_SOCKET SCM_RIGHTS 3]) (inr (print_config [range_example])).
Definition late_session : Fn (memsvc_state (gmap Z Z)) (list Z) :=
  a ← rw_putReg no_env 0x64000008 9;
  b ← rw_putReg later_env 0x64000008 9;
  c ← rw_putReg later_env 0x64000008 9;
  d ← rw_getReg later_env 0x64000008;
  e ← rw_getReg later_env 0x64000008;
  f ← rw_putReg later_env 0x64000008 9;
  mret [a; b; c; d; e; f].

Example late_session_results : (late_session (mk_memsvc None words_example 0 false)).1 =
  Next [4; 0xdeaddead; 0xdeaddead; 0xdeaddead; 7; 9].
Proof. vm_compute. reflexivity. Qed.

Lemma stress_silent_witness : ∃ b', for_each [0; 1; 65535; 65536] stress_turn ({[ 0x66400008 := 3 ]}, []) =
    (Next tt, (b', [])) ∧ bus_ok b' ∧ ∀ c, c ≠ 0x66400008 → reg b' c = reg ({[ 0x66400008 := 3 ]} : ram) c.
Proof.
  apply (stress_silent (B := ram) [0; 1; 65535; 65536] {[ 0x66400008 := 3 ]}); [done|vm_compute; by eexists|done|].
  repeat constructor; done.
Defined.
End RwRegExamples.
