(* ===== verification/Daemon.v ===== *)
(** * Daemon: the IPbus daemon over the memory libraries

    The layers put together: [run_io] and the packet engine of [Client.cpp]
    on the memory hub of [memhub.cpp] on [libmemsvc.c], from the bytes of a
    connection to the registers of the ranges in [/etc/memsvc.conf]. *)

From S2P Require Import Prelude MemBus RpcMsg CText Memsvc MemsvcSpec Memhub MemsvcOpen.
From S2P Require Import Words IpbusWire Ipbus IpbusSpec IpbusFrame IpbusSafe IpbusServer IpbusRun.

Local Open Scope list_scope.

Section Daemon.
Context {Dev : Type} {K : Kernel Dev} {PD : PlainDevice Dev} (sem_open_ok : bool) (env : open_env).
Variable size_bits : Z.    (* the width of size_t *)
Hypothesis size_bits_ok : 32 ≤ size_bits.
Notation state := (hub Dev).

(** ** Opening the hub *)

(** A process that has not opened the hub, with nobody in the critical
    section. *)
Definition fresh (h : state) : Prop := semaphore h = SemNull ∧ (sem_value h = None ∨ sem_value h = Some 1).

(** What [memhub_open] finds: the socket hands out a descriptor, and the file
    describes ranges of the device. *)
Definition configured (l : list memsvc_range) (d : Dev) : Prop :=
  sem_open_ok = true ∧ conf_ok l d ∧
  ∃ err msgs, 0 ≤ cmsg_loop msgs ∧ env = mk_env None None (1, err, msgs) (inr (print_config l)).

Lemma hub_open_ready l h : fresh h → configured l (dev (memsvc h)) → ∃ h',
  hub_open sem_open_ok env h = (Next 0, h') ∧ hub_ok h' ∧ keys_of (memsvc h') ≡ₚ key_of <$> l.
Proof.
  intros [Hn Hv] (-> & Hc & err & msgs & Hmsgs & ->). destruct h as [p v b i ms]. cbn in *. subst p.
  destruct (opened_ready l msgs err ms Hc Hmsgs) as (t & Ho & Hr & Hk & _).
  exists (mk_hub SemOpen (Some 1) b true t). split; [|done].
  unfold hub_open. erewrite bind_next by reflexivity. cbn beta. rewrite bool_decide_true by done. cbn [when].
  erewrite (bind_next _ _ _ tt (mk_hub SemOpen (Some 1) b i ms)).
  - erewrite bind_next by reflexivity. unfold memsvc_call. cbn [memsvc]. by rewrite Ho.
  - cbn [guard_ub]. erewrite bind_next by reflexivity. by destruct Hv as [-> | ->].
Qed.

(** The hub the first packet finds: the one that is open, or the one that
    [process_frame] opens. *)
Definition usable (l : list memsvc_range) (c : client state) : Prop :=
  if c_inited c then hub_ok (c_bus c) else fresh (c_bus c) ∧ configured l (dev (memsvc (c_bus c))).
Definition hub_of (c : client state) : state :=
  if c_inited c then c_bus c else (hub_open sem_open_ok env (c_bus c)).2.

Lemma hub_of_ready l c : usable l c → hub_ok (hub_of c) ∧ ∀ q r,
  @process_frame _ (hub_bus sem_open_ok env) (mk_pstate q r (c_inited c) (c_bus c)) =
  @process_frame _ (hub_bus sem_open_ok env) (mk_pstate q r true (hub_of c)).
Proof.
  unfold usable, hub_of. destruct (c_inited c); [done|]. intros [Hf Hc].
  destruct (hub_open_ready l _ Hf Hc) as (h' & Ho & Hok & _). split; [by rewrite Ho|].
  intros q r. apply process_frame_opens. cbn. by rewrite Ho.
Qed.

(** ** Arbitrary packets *)

(** The hub completes every access, of any number of words. *)
#[export] Program Instance hub_total : @TotalBus state (hub_bus sem_open_ok env) := { bus_inv := hub_ok }.
Next Obligation.
  intros h a n Hh Hn. destruct (memsvc_read_run a n (memsvc h)) as (rc & data & t & Hr & Hu & Hc); [apply Hh|lia|].
  destruct (critical (memsvc_read a n) h (rc, data) t Hh Hr (proj1 Hu)) as (h' & Hc' & Hok & _).
  exists rc, data, h'. split; [exact Hc'|]. split; [done|]. intros ->.
  destruct (find_key _ a); [destruct (_ && _)|]; [|by destruct Hc..].
  destruct Hc as (_ & v & Hv & ->). rewrite length_replicate. split; [done|]. apply Forall_replicate. by eapply word_at_word.
Qed.
Next Obligation.
  intros h a data Hh Hn Hd. destruct (memsvc_write_run a (Z.of_nat (length data)) data (memsvc h))
    as (rc & t & Hw & Hc); [apply Hh|lia|lia|done|].
  assert (ready t) as Ht by (destruct (find_key _ a); [destruct (_ && _)|]; apply Hc).
  destruct (critical (memsvc_write a (Z.of_nat (length data)) data) h rc t Hh Hw Ht) as (h' & Hc' & Hok & _).
  by exists rc, h'.
Qed.

(** ** Packets and frames *)

Lemma packet_over_memhub (h : state) ts r i : hub_ok h →
  Forall (txn_ok (mem_writeable (memsvc h)) (mem_reg (memsvc h))) ts → ∃ h',
  @process_control_packet _ (hub_bus sem_open_ok env) (mk_pstate (ts ≫= encode) r i h) =
    (Next tt, mk_pstate [] (r ++ (exec_all (mem_writeable (memsvc h)) ts (mem_reg (memsvc h))).1) i h') ∧
  hub_ok h' ∧
  (∀ c, mem_reg (memsvc h') c = (exec_all (mem_writeable (memsvc h)) ts (mem_reg (memsvc h))).2 c) ∧
  ∀ c, mem_writeable (memsvc h') c = mem_writeable (memsvc h) c.
Proof.
  intros Hh Hts. destruct (@control_packet_exec _ (hub_bus sem_open_ok env) (hub_registers sem_open_ok env)
    (mem_writeable (memsvc h)) ts h (mem_reg (memsvc h)) r i) as (h' & Hp & Hok & Hreg & Hwr); [by split_and!|done|].
  exists h'. split_and!; [exact Hp|exact Hok|exact Hreg|exact Hwr].
Qed.

(** C1: From bytes to registers: a frame with a control packet of well-formed
    transactions is answered by the frame of its header and what the
    transactions mean on the registers that [/etc/memsvc.conf] maps, and
    leaves the registers as they say.  The first packet opens the hub; after
    every packet the semaphore is free and the handle open, so that the next
    one is served alike. *)
Theorem daemon_serves_frame conf c l ph ts writecount : usable conf c →
  let h := hub_of c in
  let run := exec_all (mem_writeable (memsvc h)) ts (mem_reg (memsvc h)) in
  Forall (txn_ok (mem_writeable (memsvc h)) (mem_reg (memsvc h))) ts →
  standard_header ph = true → Z.land ph 0x0f = 0 → Forall (word 32) (ph :: (ts ≫= encode)) →
  ibuf c ++ l = frame (vec2str (ph :: (ts ≫= encode))) →
  4 + Z.of_nat (length (vec2str (ph :: (ts ≫= encode)))) < 2 ^ 32 → ∃ h',
  @run_io _ (hub_bus sem_open_ok env) size_bits (RecvData l) writecount c =
    (Next true, mk_client []
      (erase_front (wrap size_bits writecount) (obuf c ++ frame (vec2str (answer ph run.1)))) true h') ∧
  hub_ok h' ∧ (∀ a, mem_reg (memsvc h') a = run.2 a) ∧
  ∀ a, mem_writeable (memsvc h') a = mem_writeable (memsvc h) a.
Proof.
  intros Hu h run Hts Hs Ht Hw Hbuf Hlen. destruct (hub_of_ready conf c Hu) as [Hh Hpf]. fold h in Hh, Hpf.
  destruct (packet_over_memhub h ts [] true Hh Hts) as (h' & Hp & Hok & Hreg & Hwr). fold run in Hp, Hreg.
  exists h'. split; [|done].
  assert (@process_frame _ (hub_bus sem_open_ok env) (mk_pstate (ph :: (ts ≫= encode)) [] (c_inited c) (c_bus c)) =
    (Next tt, mk_pstate [] (answer ph run.1) true h')) as Hf.
  { rewrite Hpf. erewrite process_frame_control by (exact Hs || exact Ht || exact Hp). reflexivity. }
  exact (@run_io_frame _ (hub_bus sem_open_ok env) size_bits size_bits_ok c l _ _ writecount Hbuf Hw Hlen Hf).
Qed.

(** ** Arbitrary runs *)

(** The server with no connection yet, the hub open or still to be opened. *)
Definition starts (l : list memsvc_range) (s : server state) : Prop :=
  clients s = [] ∧ if s_inited s then hub_ok (s_bus s) else fresh (s_bus s) ∧ configured l (dev (memsvc (s_bus s))).

End Daemon.

(** A page of registers behind the hub, opened by the first packet: a read, a
    write and a read-modify-write, and an address that is not mapped. *)
Module DaemonExamples.
Import PlainMemory.

Definition conf_example : list memsvc_range := [range_example].
Definition env_example : open_env := mk_env None None (1, 0, [mk_cmsg SOL_SOCKET SCM_RIGHTS 3]) (inr (print_config conf_example)).
Definition hub_example : hub (gmap Z Z) :=
  mk_hub SemNull None false false (mk_memsvc None words_example 0 false).
Definition packet : list (Z * txn) :=
  [(1, TRead 0); (2, TWrite 1 9); (3, TRmwSum 2 3); (4, TRead 0x1000)].
Definition bytes_example : list Z := frame (vec2str (0x200001f0 :: (packet ≫= encode))).

Lemma conf_example_ok : conf_ok conf_example words_example.
Proof.
  destruct state_ready as (h & Hh & _ & _ & Hk). injection Hh as <-. split; [|exact Hk].
  constructor; [|done]. split; [by repeat split|]. split; [cbn; lia|]. split; [by exists 0x64000|by exists 0].
Qed.

Lemma daemon_serves_frame_witness :
  let c := mk_client [] [] false hub_example in
  usable true env_example conf_example c ∧ ∃ h',
  @run_io _ (hub_bus true env_example) 32 (RecvData bytes_example) 0 c =
    (Next true, mk_client []
      (frame (vec2str [0x200001f0; 0x20010100; 5; 0x20020110; 0x20030150; 7; 0x20040104])) true h') ∧
  hub_ok h' ∧ mem_reg (memsvc h') 0x64000004 = Some 9 ∧ mem_reg (memsvc h') 0x64000008 = Some 10.
Proof.
  intros c. assert (usable true env_example conf_example c) as Hu.
  { split; [split; [done|by left]|]. split; [done|]. split; [apply conf_example_ok|]. exists 0, [mk_cmsg SOL_SOCKET SCM_RIGHTS 3]. split; [vm_decide|done]. }
  split; [exact Hu|].
  destruct (daemon_serves_frame true env_example 32 ltac:(lia) conf_example c bytes_example 0x200001f0 packet 0 Hu)
    as (h' & Hr & Hok & Hreg & _).
  - repeat constructor; vm_compute; intuition discriminate.
  - reflexivity.
  - reflexivity.
  - vm_decide.
  - reflexivity.
  - vm_compute. reflexivity.
  - exists h'. split; [rewrite Hr; vm_compute; reflexivity|]. split; [exact Hok|]. rewrite !Hreg.
    split; vm_compute; reflexivity.
Defined.
(** A connection, then a frame that is no frame, a frame of the example, and
    the first byte of another. *)
Definition turn_example (l : list Z) : turn_input :=
  mk_input (SelectReady (bool_decide (l = [])) (λ _, true)) (λ _, (RecvData l, 0)) 4 0.
Definition ins_example : list turn_input := [turn_example []; turn_example [0; 0; 0; 9; 1; 2; 3; 4]; turn_example bytes_example].

Lemma turn_example_ok l : Forall (word 8) l → input_ok (turn_example l).
Proof. intros Hl. split; [unfold fd_ok; vm_decide|]. by intros f k [= <-]. Qed.

Definition start_example : @server (hub (gmap Z Z)) := mk_server [] [] false hub_example.

End DaemonExamples.
