(* ===== verification/MemsvcSim.v ===== *)
(** * MemsvcSim: the library over two kernels at once

    [memsvc_read] and [memsvc_write] use the memory device only through the
    calls of [Kernel].  Two runs over two kernels therefore do the same as long
    as the two devices answer alike; [sim] says so, and that runs which have
    got out of step stay so.  [Interleave] uses it to cut a call into its
    single device operations. *)

From S2P Require Import Prelude RpcMsg CText Memsvc.

Local Open Scope list_scope.

(** [rel]: the devices are in step.  An operation of the library keeps them
    so, with the same answer, or one of them is [lost], and remains lost
    whatever it is asked. *)
Record similar {D1 D2} {K1 : Kernel D1} {K2 : Kernel D2}
    (rel : D1 → D2 → Prop) (lost1 : D1 → Prop) (lost2 : D2 → Prop) : Prop := {
  same_page : @getpagesize D1 K1 = @getpagesize D2 K2;
  same_strerror e : @strerror D1 K1 e = @strerror D2 K2 e;
  same_sigaction d1 d2 : rel d1 d2 → sys_sigaction d1 = sys_sigaction d2;
  rel_mmap m d1 d2 : rel d1 d2 → let r1 := sys_mmap m d1 in let r2 := sys_mmap m d2 in
    r1.1 = r2.1 ∧ rel r1.2 r2.2 ∨ lost1 r1.2 ∨ lost2 r2.2;
  rel_load a d1 d2 : rel d1 d2 → let r1 := sys_load a d1 in let r2 := sys_load a d2 in
    r1.1 = r2.1 ∧ rel r1.2 r2.2 ∨ lost1 r1.2 ∨ lost2 r2.2;
  rel_store a x d1 d2 : rel d1 d2 → let r1 := sys_store a x d1 in let r2 := sys_store a x d2 in
    r1.1 = r2.1 ∧ rel r1.2 r2.2 ∨ lost1 r1.2 ∨ lost2 r2.2;
  lost1_mmap m d : lost1 d → lost1 (sys_mmap m d).2;
  lost1_load a d : lost1 d → lost1 (sys_load a d).2;
  lost1_store a x d : lost1 d → lost1 (sys_store a x d).2;
  lost2_mmap m d : lost2 d → lost2 (sys_mmap m d).2;
  lost2_load a d : lost2 d → lost2 (sys_load a d).2;
  lost2_store a x d : lost2 d → lost2 (sys_store a x d).2
}.

Section Sim.
Context {D1 D2 : Type} {K1 : Kernel D1} {K2 : Kernel D2}.
Context (rel : D1 → D2 → Prop) (lost1 : D1 → Prop) (lost2 : D2 → Prop).
Context (HS : similar rel lost1 lost2).
Notation state1 := (memsvc_state D1).
Notation state2 := (memsvc_state D2).

Definition in_step (s : state1) (t : state2) : Prop :=
  handle s = handle t ∧ errno s = errno t ∧ bus_handler s = bus_handler t ∧ rel (dev s) (dev t).
Definition out_of_step (s : state1) (t : state2) : Prop := lost1 (dev s) ∨ lost2 (dev t).

Definition sim {R A} (m1 : M state1 R A) (m2 : M state2 R A) : Prop :=
  keeps (λ s, lost1 (dev s)) m1 ∧ keeps (λ t, lost2 (dev t)) m2 ∧
  ∀ s t, in_step s t →
    (m1 s).1 = (m2 t).1 ∧ in_step (m1 s).2 (m2 t).2 ∨ out_of_step (m1 s).2 (m2 t).2.

(** ** The combinators *)

(** A statement that goes no further changes nothing. *)
Lemma sim_stop {R A} (r : flow R A) : sim (λ s, (r, s)) (λ t, (r, t)).
Proof. split_and!; [by intros s ?..|]. intros s t Hst. by left. Qed.
Lemma sim_ret {R A} (a : A) : sim (R:=R) (mret a) (mret a).
Proof. apply sim_stop. Qed.
Lemma sim_return {R A} (r : R) : sim (A:=A) (ret r) (ret r).
Proof. apply sim_stop. Qed.
Lemma sim_undef {R A} u : sim (R:=R) (A:=A) (undef u) (undef u).
Proof. apply sim_stop. Qed.
Lemma sim_halt {R A} h : sim (R:=R) (A:=A) (halt_with h) (halt_with h).
Proof. apply sim_stop. Qed.
Lemma sim_skip {R} : sim (R:=R) skip skip.
Proof. apply sim_stop. Qed.
Lemma sim_guard {R} b u : sim (R:=R) (guard_ub b u) (guard_ub b u).
Proof. destruct b; apply sim_stop. Qed.

Lemma sim_gets {R A} (f : state1 → A) (g : state2 → A) : (∀ s t, in_step s t → f s = g t) →
  sim (R:=R) (gets f) (gets g).
Proof. intros Hfg. split_and!; [by intros s ?..|]. intros s t Hst. left. cbn. by rewrite (Hfg s t). Qed.

Lemma sim_modify {R} (f : state1 → state1) (g : state2 → state2) :
  (∀ s, dev (f s) = dev s) → (∀ t, dev (g t) = dev t) → (∀ s t, in_step s t → in_step (f s) (g t)) →
  sim (R:=R) (modify f) (modify g).
Proof.
  intros Hf Hg Hfg. split_and!.
  - intros s Hs. cbn. by rewrite Hf.
  - intros t Ht. cbn. by rewrite Hg.
  - intros s t Hst. left. split; [done|]. by apply Hfg.
Qed.

Lemma sim_bind {R A B} (m1 : M state1 R A) m2 (k1 : A → M state1 R B) k2 : sim m1 m2 →
  (∀ a, sim (k1 a) (k2 a)) → sim (m1 ≫= k1) (m2 ≫= k2).
Proof.
  intros (Hk1 & Hk2 & Hm) Hk. split_and!.
  { apply keeps_bind; [done|]. intros a. apply Hk. }
  { apply keeps_bind; [done|]. intros a. apply Hk. }
  intros s t Hst. specialize (Hm s t Hst). unfold mbind, M_bind.
  destruct (m1 s) as [f1 s'], (m2 t) as [f2 t']. cbn in Hm. destruct Hm as [[<- Hst']|Hout].
  - destruct f1; [by apply Hk|by left..].
  - right. destruct Hout as [Ho|Ho]; [left|right].
    + destruct f1 as [a| | | |]; [|done..]. exact (proj1 (Hk a) s' Ho).
    + destruct f2 as [a| | | |]; [|done..]. exact (proj1 (proj2 (Hk a)) t' Ho).
Qed.

Lemma sim_when {R} b (m1 : M state1 R unit) m2 : sim m1 m2 → sim (when b m1) (when b m2).
Proof. intros Hm. destruct b; [done|apply sim_skip]. Qed.

Lemma sim_fn {A} (m1 : M state1 A A) m2 : sim m1 m2 → sim (fn m1) (fn m2).
Proof.
  intros (Hk1 & Hk2 & Hm). split_and!; [by apply keeps_fn..|]. intros s t Hst. specialize (Hm s t Hst).
  unfold fn. destruct (m1 s) as [f1 s'], (m2 t) as [f2 t']. cbn in Hm. destruct Hm as [[<- Hst']|Hout].
  - left. by destruct f1.
  - right. by destruct f1, f2.
Qed.

(** A device operation whose answer the statement turns into its value. *)
Lemma sim_device {R A X} (o1 : D1 → X * D1) (o2 : D2 → X * D2) (m1 : M state1 R A) (m2 : M state2 R A) :
  (∀ s, dev (m1 s).2 = (o1 (dev s)).2) → (∀ t, dev (m2 t).2 = (o2 (dev t)).2) →
  (∀ d1 d2, rel d1 d2 → (o1 d1).1 = (o2 d2).1 ∧ rel (o1 d1).2 (o2 d2).2 ∨ lost1 (o1 d1).2 ∨ lost2 (o2 d2).2) →
  (∀ d, lost1 d → lost1 (o1 d).2) → (∀ d, lost2 d → lost2 (o2 d).2) →
  (∀ s t, in_step s t → (o1 (dev s)).1 = (o2 (dev t)).1 → rel (o1 (dev s)).2 (o2 (dev t)).2 →
     (m1 s).1 = (m2 t).1 ∧ in_step (m1 s).2 (m2 t).2) →
  sim m1 m2.
Proof.
  intros Hd1 Hd2 Hrel Hl1 Hl2 Hm. split_and!.
  - intros s Hs. rewrite Hd1. by apply Hl1.
  - intros t Ht. rewrite Hd2. by apply Hl2.
  - intros s t Hst. destruct (Hrel (dev s) (dev t)) as [[He Hr]|Hout]; [apply Hst| |].
    + left. by apply Hm.
    + right. unfold out_of_step. by rewrite Hd1, Hd2.
Qed.
End Sim.
Arguments sim {D1 D2} rel lost1 lost2 {R A} m1 m2.
Arguments in_step {D1 D2} rel s t.

Create HintDb sim.
#[export] Hint Resolve sim_ret sim_return sim_undef sim_halt sim_skip sim_guard : sim.

(** Go through the statements of two texts of the same function. *)
Ltac sim_step :=
  first
  [ progress eauto with sim nocore
  | apply sim_bind; [|intros ?]
  | apply sim_fn
  | apply sim_when
  | case_match ].
Ltac sim_tac := repeat sim_step.

(** ** The library *)
Section Library.
Context {D1 D2 : Type} {K1 : Kernel D1} {K2 : Kernel D2}.
Context (rel : D1 → D2 → Prop) (lost1 : D1 → Prop) (lost2 : D2 → Prop).
Context (HS : similar rel lost1 lost2).
Notation simulates := (sim rel lost1 lost2).

Lemma sim_svc {R} : simulates (svc_ (R:=R)) svc_.
Proof.
  split_and!; [by intros s Hs; unfold svc_; destruct (handle s)..|]. intros s t Hst. left.
  unfold svc_. rewrite <- (proj1 Hst). by destruct (handle s).
Qed.
Hint Resolve sim_svc : sim.

Lemma sim_errno {R} : simulates (gets (R:=R) (errno (Dev:=D1))) (gets (errno (Dev:=D2))).
Proof. apply sim_gets. by intros s t (_ & He & _). Qed.
Hint Resolve sim_errno : sim.

Lemma sim_set_error {R} user err : simulates (set_error (R:=R) user err) (set_error user err).
Proof.
  unfold set_error. apply sim_bind; [apply sim_svc|]. intros h. apply sim_modify; [done..|].
  intros s t (Hh & He & Hb & Hr). unfold in_step. cbn. by rewrite (same_strerror _ _ _ HS), He, Hb.
Qed.
Hint Resolve sim_set_error : sim.

Lemma sim_set_ranges {R} l : simulates (set_ranges (R:=R) l) (set_ranges l).
Proof.
  unfold set_ranges. apply sim_bind; [apply sim_svc|]. intros h. apply sim_modify; [done..|].
  by intros s t (Hh & He & Hb & Hr).
Qed.
Hint Resolve sim_set_ranges : sim.

Lemma sim_mmap {R} m : simulates (mmap (R:=R) m) (mmap m).
Proof.
  unfold mmap. eapply (sim_device _ _ _ (sys_mmap m) (sys_mmap m)).
  - intros s. cbn. by case_match.
  - intros t. cbn. by case_match.
  - apply HS.
  - apply HS.
  - apply HS.
  - intros s t (Hh & He & Hb & _) Ha Hr. cbn zeta. rewrite <- Ha. unfold in_step.
    by destruct (sys_mmap m (dev s)).1; cbn; rewrite Hh, ?He, Hb.
Qed.
Hint Resolve sim_mmap : sim.

Lemma sim_load {R} a : simulates (device_load (R:=R) a) (device_load a).
Proof.
  unfold device_load. eapply (sim_device _ _ _ (sys_load a) (sys_load a)); [done..|apply HS|apply HS|apply HS|].
  intros s t (Hh & He & Hb & _) Ha Hr. cbn. by rewrite Ha.
Qed.
Lemma sim_store {R} a x : simulates (device_store (R:=R) a x) (device_store a x).
Proof.
  unfold device_store. eapply (sim_device _ _ _ (sys_store a x) (sys_store a x)); [done..|apply HS|apply HS|apply HS|].
  intros s t (Hh & He & Hb & _) Ha Hr. cbn. by rewrite Ha.
Qed.
Hint Resolve sim_load sim_store : sim.

Lemma same_maplen r : @maplen D1 K1 r = @maplen D2 K2 r.
Proof. unfold maplen. by rewrite (same_page _ _ _ HS). Qed.

Lemma sim_map_range {R} activate cur : simulates (map_range (R:=R) activate cur) (map_range activate cur).
Proof. unfold map_range. rewrite same_maplen, (same_page _ _ _ HS). sim_tac. Qed.
Hint Resolve sim_map_range : sim.

Lemma sim_find_range {R} a w activate : simulates (find_range (R:=R) a w activate) (find_range a w activate).
Proof. unfold find_range. sim_tac. Qed.
Hint Resolve sim_find_range : sim.

Lemma sim_validate {R} v : simulates (memsvc_validate (R:=R) v) (memsvc_validate v).
Proof.
  unfold memsvc_validate. apply sim_bind; [|intros h; sim_tac]. apply sim_gets. by intros s t (Hh & _).
Qed.
Hint Resolve sim_validate : sim.

Lemma sim_bus_error {R A} : simulates (bus_error (R:=R) (A:=A)) bus_error.
Proof.
  split_and!; [by intros s ?..|]. intros s t Hst. left. unfold bus_error. cbn.
  destruct Hst as (Hh & He & Hb & Hr). by rewrite Hb.
Qed.
Hint Resolve sim_bus_error : sim.

Lemma sim_REG32 {R} base offset : simulates (REG32 (R:=R) base offset) (REG32 base offset).
Proof. unfold REG32. sim_tac. Qed.
Lemma sim_REG32_store {R} base offset x : simulates (REG32_store (R:=R) base offset x) (REG32_store base offset x).
Proof. unfold REG32_store. sim_tac. Qed.
Hint Resolve sim_REG32 sim_REG32_store : sim.

Lemma sim_range_ready {R} r a n : simulates (range_ready (R:=R) r a n) (range_ready r a n).
Proof. unfold range_ready, range_check. sim_tac. Qed.
Hint Resolve sim_range_ready : sim.

Lemma sim_read_loop {R} n r a data : simulates (read_loop (R:=R) n r a data) (read_loop n r a data).
Proof. revert data. induction n as [|n IH]; intros data; cbn [read_loop]; sim_tac. Qed.
Lemma sim_write_loop {R} r a data : simulates (write_loop (R:=R) r a data) (write_loop r a data).
Proof. induction data as [|x data IH]; cbn [write_loop]; sim_tac. Qed.
Hint Resolve sim_read_loop sim_write_loop : sim.

Lemma sim_sigaction {R} :
  simulates (gets (R:=R) (λ s, sys_sigaction (dev s))) (gets (λ t, sys_sigaction (dev t))).
Proof. apply sim_gets. intros s t (_ & _ & _ & Hr). by apply HS. Qed.
Lemma sim_handler {R} : simulates
  (modify (R:=R) (λ s, mk_memsvc (handle s) (dev s) (errno s) true))
  (modify (λ s, mk_memsvc (handle s) (dev s) (errno s) true)).
Proof. apply sim_modify; [done..|]. by intros s t (Hh & He & Hb & Hr). Qed.
Hint Resolve sim_sigaction sim_handler : sim.

Lemma sim_memsvc_read a n : simulates (memsvc_read a n) (memsvc_read a n).
Proof. unfold memsvc_read, count_ok. sim_tac. Qed.

Lemma sim_memsvc_write a n data : simulates (memsvc_write a n data) (memsvc_write a n data).
Proof. unfold memsvc_write, count_ok. sim_tac. Qed.
End Library.
