(* ===== verification/Interleave.v ===== *)
(** * Interleave: processes on one memory, operation by operation

    [Memhub.Processes] has an access as one step.  Here the processes of the
    card run the calls of [memhub.cpp] on [libmemsvc.c] with every single
    operation on the device - a load, a store, an [mmap] - a step of its own,
    between any two of which other processes may run.  What a process does
    next is computed from the code of the library and the answers it has got
    so far, and nothing else.  The theorem is that the semaphore makes the
    calls atomic: the results and the memory are those of the same calls run
    one after the other. *)

From S2P Require Import Prelude RpcMsg CText Memsvc MemsvcSpec Memhub MemsvcSim.

Local Open Scope list_scope.

(** ** Device operations *)

Inductive op : Type :=
| OpMmap (m : mapping)
| OpLoad (a : Z)
| OpStore (a x : Z).

Inductive answer : Type :=
| GotMmap (e : option Z)
| GotLoad (v : option Z)
| GotStore (b : bool).

#[export] Instance mapping_eq_dec : EqDecision mapping.
Proof. solve_decision. Defined.
#[export] Instance op_eq_dec : EqDecision op.
Proof. solve_decision. Defined.
#[export] Instance answer_eq_dec : EqDecision answer.
Proof. solve_decision. Defined.

(** A process's signal actions are its own: what [sigaction] says does not
    depend on the device. *)
Class OwnSignals (Dev : Type) `{K : Kernel Dev} : Type := {
  sigaction_answer : bool;
  sigaction_own d : sys_sigaction d = sigaction_answer
}.

Section Operations.
Context {Dev : Type} {K : Kernel Dev}.

Definition perform (o : op) (d : Dev) : answer * Dev :=
  match o with
  | OpMmap m => let r := sys_mmap m d in (GotMmap r.1, r.2)
  | OpLoad a => let r := sys_load a d in (GotLoad r.1, r.2)
  | OpStore a x => let r := sys_store a x d in (GotStore r.1, r.2)
  end.

(** *** The answers so far

    The device as a process knows it: the answers it has been given, the
    oldest first, and the operation it waits for when they are used up.  What
    the code does after that operation is not looked at. *)
Record replay : Type := mk_replay { given : list answer; asked : option op }.

Definition ask (o : op) (r : replay) : option answer * replay :=
  match asked r with
  | Some _ => (None, r)
  | None =>
      match given r with
      | [] => (None, mk_replay [] (Some o))
      | x :: l => (Some x, mk_replay l None)
      end
  end.

#[export] Instance replay_kernel {OS : OwnSignals Dev} : Kernel replay := {
  getpagesize := @getpagesize Dev K;
  sys_mmap m r := let p := ask (OpMmap m) r in
    (match p.1 with Some (GotMmap e) => e | _ => None end, p.2);
  sys_munmap m r := r;
  sys_load a r := let p := ask (OpLoad a) r in
    (match p.1 with Some (GotLoad v) => v | _ => None end, p.2);
  sys_store a x r := let p := ask (OpStore a x) r in
    (match p.1 with Some (GotStore b) => b | _ => false end, p.2);
  sys_sigaction r := sigaction_answer;
  strerror := @strerror Dev K
}.

(** *** A device that keeps a log *)
Record logged : Type := mk_logged { entries : list (op * answer); real : Dev }.

Definition log (o : op) (x : logged) : answer * logged :=
  let p := perform o (real x) in (p.1, mk_logged (entries x ++ [(o, p.1)]) p.2).

#[local] Instance logged_kernel : Kernel logged := {
  getpagesize := @getpagesize Dev K;
  sys_mmap m x := let r := sys_mmap m (real x) in (r.1, (log (OpMmap m) x).2);
  sys_munmap m x := mk_logged (entries x) (sys_munmap m (real x));
  sys_load a x := let r := sys_load a (real x) in (r.1, (log (OpLoad a) x).2);
  sys_store a v x := let r := sys_store a v (real x) in (r.1, (log (OpStore a v) x).2);
  sys_sigaction x := sys_sigaction (real x);
  strerror := @strerror Dev K
}.

(** [l] is what happens on [d] when its operations are performed, and [d'] is
    left. *)
Fixpoint chain (d : Dev) (l : list (op * answer)) (d' : Dev) : Prop :=
  match l with
  | [] => d' = d
  | e :: l => (perform e.1 d).1 = e.2 ∧ chain (perform e.1 d).2 l d'
  end.

Lemma chain_snoc d l d' o : chain d l d' → chain d (l ++ [(o, (perform o d').1)]) (perform o d').2.
Proof.
  revert d. induction l as [|e l IH]; intros d; cbn.
  - by intros ->.
  - intros [He Hl]. split; [done|]. by apply IH.
Qed.

(** The entry after [k] others is what happens on the device they leave. *)
Lemma chain_next d l d' k o x d1 : chain d l d' → l !! k = Some (o, x) → chain d (take k l) d1 →
  (perform o d1).1 = x ∧ chain d (take (S k) l) (perform o d1).2.
Proof.
  revert d k. induction l as [|e l IH]; intros d [|k]; cbn; [done..| |].
  - intros [He Hl] [= ->] ->. split; [exact He|]. split; [exact He|done].
  - intros [He Hl] Hk [_ Hd1]. destruct (IH _ k Hl Hk Hd1) as [Hx Hc]. by split_and!.
Qed.

Lemma chain_unique d l d1 d2 : chain d l d1 → chain d l d2 → d1 = d2.
Proof. revert d. induction l as [|e l IH]; intros d; cbn; [by intros -> ->|]. intros [_ H1] [_ H2]. eauto. Qed.

(** *** The three devices side by side *)

(** The log and the device under it. *)
Lemma logged_real d0 : similar (K1 := logged_kernel) (K2 := K) (λ x d, real x = d ∧ chain d0 (entries x) d)
  (λ _, False) (λ _, False).
Proof.
  assert (∀ o x d, real x = d ∧ chain d0 (entries x) d →
    real (log o x).2 = (perform o d).2 ∧ chain d0 (entries (log o x).2) (perform o d).2) as Hlog.
  { intros o x d [<- Hc]. split; [done|]. by apply chain_snoc. }
  split; [done|done| | | | |done..].
  - by intros x d [<- _].
  - intros m x d Hr. left. destruct (Hlog (OpMmap m) x d Hr) as [H1 H2]. split; [cbn; by destruct Hr as [-> _]|done].
  - intros a x d Hr. left. destruct (Hlog (OpLoad a) x d Hr) as [H1 H2]. split; [cbn; by destruct Hr as [-> _]|done].
  - intros a v x d Hr. left. destruct (Hlog (OpStore a v) x d Hr) as [H1 H2]. split; [cbn; by destruct Hr as [-> _]|done].
Qed.

Context {OS : OwnSignals Dev}.

(** The log and the first [k] answers of it: in step until the operation
    [k], which is the one asked for. *)
Definition within (l : list (op * answer)) (k : nat) (r : replay) (x : logged) : Prop :=
  asked r = None ∧ entries x `prefix_of` l ∧ (length (entries x) ≤ k)%nat ∧
  given r = drop (length (entries x)) (take k l.*2).
Definition beyond (l : list (op * answer)) (k : nat) (r : replay) : Prop :=
  ∃ o, asked r = Some o ∧ fst <$> l !! k = Some o.
Definition astray (l : list (op * answer)) (x : logged) : Prop := ¬ entries x `prefix_of` l.

Lemma astray_log l o x : astray l x → astray l (log o x).2.
Proof. intros Hx [l' Hl]. apply Hx. exists ((o, (perform o (real x)).1) :: l'). rewrite Hl. cbn. by rewrite <- app_assoc. Qed.

Lemma beyond_ask l k o r : beyond l k r → beyond l k (ask o r).2.
Proof. intros (o' & Ho & Hl). unfold ask. rewrite Ho. by exists o'. Qed.

Lemma within_log l k o r x : within l k r x →
  ((ask o r).1 = Some (log o x).1 ∧ within l k (ask o r).2 (log o x).2) ∨
  beyond l k (ask o r).2 ∨ astray l (log o x).2.
Proof.
  intros (Ha & Hp & Hlen & Hg). unfold ask. rewrite Ha.
  destruct (decide (entries (log o x).2 `prefix_of` l)) as [[l' Hl]|]; [|by right; right].
  cbn [log snd entries] in Hl. rewrite <- app_assoc in Hl. cbn in Hl.
  assert (l !! length (entries x) = Some (o, (perform o (real x)).1)) as Hat.
  { rewrite Hl. by apply list_lookup_middle. }
  destruct (decide (length (entries x) = k)) as [Hk|Hk].
  - right. left. rewrite Hg, drop_ge by (rewrite length_take; lia). exists o. split; [done|]. subst k. by rewrite Hat.
  - left. rewrite Hg.
    assert (take k l.*2 !! length (entries x) = Some (perform o (real x)).1) as Htk.
    { rewrite lookup_take_lt by lia. by rewrite list_lookup_fmap, Hat. }
    rewrite (drop_S _ _ _ Htk). split; [done|]. unfold within. cbn [log snd entries asked given fst].
    rewrite length_app. cbn [length]. replace (length (entries x) + 1)%nat with (S (length (entries x))) by lia.
    split_and!; [done| |lia|done]. exists l'. rewrite Hl. by rewrite <- app_assoc.
Qed.

Lemma replay_logged l k : similar (K1 := replay_kernel) (K2 := logged_kernel) (within l k) (beyond l k) (astray l).
Proof.
  split; [done|done| | | | | | | | | |]; try (intros; by (apply beyond_ask || apply astray_log)).
  - intros r x _. cbn. by rewrite sigaction_own.
  - intros m r x Hr. destruct (within_log l k (OpMmap m) r x Hr) as [[Ha Hw]|Ho]; [left|by right].
    cbn in Ha |- *. by rewrite Ha.
  - intros a r x Hr. destruct (within_log l k (OpLoad a) r x Hr) as [[Ha Hw]|Ho]; [left|by right].
    cbn in Ha |- *. by rewrite Ha.
  - intros a v r x Hr. destruct (within_log l k (OpStore a v) r x Hr) as [[Ha Hw]|Ho]; [left|by right].
    cbn in Ha |- *. by rewrite Ha.
Qed.
End Operations.

(** ** The calls, cut into operations *)

Inductive hub_call : Type :=
| Read (addr words : Z)
| Write (addr words : Z) (data : list Z).

(** The call of [libmemsvc] under the semaphore: the value returned, and the
    words stored in the buffer of a read. *)
Definition library {Dev} {K : Kernel Dev} (c : hub_call) : Fn (memsvc_state Dev) (Z * list Z) :=
  match c with
  | Read addr words => memsvc_read addr words
  | Write addr words data => rc ← memsvc_write addr words data; mret (rc, [])
  end.

(** [memhub_read], [memhub_write] *)
Definition memhub {Dev} {K : Kernel Dev} (c : hub_call) : Fn (hub Dev) (Z * list Z) :=
  match c with
  | Read addr words => hub_read addr words
  | Write addr words data => rc ← hub_write addr words data; mret (rc, [])
  end.

(** What a process has of the library's state: all but the device. *)
Abbreviation own_state := (memsvc_state unit).
Definition with_device {Dev} (l : own_state) (d : Dev) : memsvc_state Dev :=
  mk_memsvc (handle l) d (errno l) (bus_handler l).
Definition own {Dev} (s : memsvc_state Dev) : own_state := mk_memsvc (handle s) tt (errno s) (bus_handler s).

Lemma with_device_own {Dev} (s : memsvc_state Dev) : with_device (own s) (dev s) = s.
Proof. by destruct s. Qed.
Lemma own_with_device {Dev} l (d : Dev) : own (with_device l d) = l.
Proof. by destruct l as [h [] e b]. Qed.

Lemma sim_library {D1 D2} {K1 : Kernel D1} {K2 : Kernel D2} rel lost1 lost2 c : similar rel lost1 lost2 →
  sim rel lost1 lost2 (library (K:=K1) c) (library (K:=K2) c).
Proof.
  intros HS. destruct c; cbn [library]; [by apply sim_memsvc_read|].
  apply sim_bind; [by apply sim_memsvc_write|]. intros rc. apply sim_ret.
Qed.

Section Cut.
Context {Dev : Type} {K : Kernel Dev} {OS : OwnSignals Dev}.

(** What a process that has the answers [l] to its operations so far does
    next: another operation, or its call ends. *)
Inductive next : Type :=
| Asks (o : op)
| Ends (r : flow Empty_set (Z * list Z)) (l : own_state).

Definition continue (c : hub_call) (l : own_state) (answers : list answer) : next :=
  let r := library (K := replay_kernel) c (with_device l (mk_replay answers None)) in
  match asked (dev r.2) with
  | Some o => Asks o
  | None => Ends r.1 (own r.2)
  end.

(** The first operations of a call on [d], nobody else interfering: their
    answers, and the device they leave. *)
Inductive performs (c : hub_call) (l : own_state) (d : Dev) : list answer → Dev → Prop :=
| performs_none : performs c l d [] d
| performs_one answers d1 o : performs c l d answers d1 → continue c l answers = Asks o →
    performs c l d (answers ++ [(perform o d1).1]) (perform o d1).2.

(** The log of a whole call. *)
Definition run_log (c : hub_call) (l : own_state) (d : Dev) : list (op * answer) :=
  entries (dev (library (K := logged_kernel) c (with_device l (mk_logged [] d))).2).

Lemma run_log_real c l d :
  let r := library (K := logged_kernel) c (with_device l (mk_logged [] d)) in
  let r' := library c (with_device l d) in
  r.1 = r'.1 ∧ own r.2 = own r'.2 ∧ chain d (run_log c l d) (dev r'.2).
Proof.
  destruct (sim_library _ _ _ c (logged_real d)) as (_ & _ & Hs).
  destruct (Hs (with_device l (mk_logged [] d)) (with_device l d)) as [[He (Hh & Herr & Hb & Hr & Hc)]|[[]|[]]];
    [done|]. cbv zeta. split; [exact He|]. split; [|exact Hc]. unfold own. by rewrite Hh, Herr, Hb.
Qed.

(** The process that has the first [k] answers of the log. *)
Lemma continue_log c l d k : (k ≤ length (run_log c l d))%nat →
  match continue c l (take k (run_log c l d).*2) with
  | Asks o => fst <$> run_log c l d !! k = Some o
  | Ends r l' => k = length (run_log c l d) ∧ r = (library c (with_device l d)).1 ∧ l' = own (library c (with_device l d)).2
  end.
Proof.
  intros Hk. destruct (run_log_real c l d) as (Hr & Hl & _).
  destruct (sim_library _ _ _ c (replay_logged (run_log c l d) k)) as (_ & _ & Hs).
  specialize (Hs (with_device l (mk_replay (take k (run_log c l d).*2) None)) (with_device l (mk_logged [] d))).
  unfold continue. destruct Hs as [[He (Hh & Herr & Hb & (Ha & Hp & Hlen & _))]|[(o & Ha & Ho)|Ha]].
  - split_and!; [done|done|done|]. split_and!; [done|apply prefix_nil|cbn; lia|done].
  - rewrite Ha. change (length (run_log c l d) ≤ k)%nat in Hlen. split; [lia|].
    rewrite He, Hr. split; [done|]. rewrite <- Hl. unfold own. by rewrite Hh, Herr, Hb.
  - by rewrite Ha.
  - by destruct Ha.
Qed.

Lemma performs_log c l d answers d1 : performs c l d answers d1 →
  (length answers ≤ length (run_log c l d))%nat ∧
  answers = take (length answers) (run_log c l d).*2 ∧ chain d (take (length answers) (run_log c l d)) d1.
Proof.
  destruct (run_log_real c l d) as (_ & _ & Hc). induction 1 as [|answers d1 o _ (Hlen & Ha & Hd) Ho].
  - split_and!; [cbn; lia|done|done].
  - pose proof (continue_log c l d (length answers) Hlen) as Hn. rewrite <- Ha, Ho in Hn.
    apply fmap_Some in Hn as ([o' x] & Hat & ->). cbn [fst].
    destruct (chain_next _ _ _ _ _ _ _ Hc Hat Hd) as [Hx Hd']. rewrite Hx. rewrite length_app. cbn [length].
    replace (length answers + 1)%nat with (S (length answers)) by lia. split_and!; [|  |done].
    + by apply lookup_lt_Some in Hat.
    + rewrite (take_S_r _ _ x); [by rewrite <- Ha|]. by rewrite list_lookup_fmap, Hat.
Qed.

(** The call run operation by operation is the call. *)
Lemma performs_ends c l d answers d1 r l' : performs c l d answers d1 → continue c l answers = Ends r l' →
  library c (with_device l d) = (r, with_device l' d1).
Proof.
  intros Hp He. destruct (performs_log _ _ _ _ _ Hp) as (Hlen & Ha & Hd).
  pose proof (continue_log c l d (length answers) Hlen) as Hn. rewrite <- Ha, He in Hn. destruct Hn as (Hk & -> & ->).
  destruct (run_log_real c l d) as (_ & _ & Hc). rewrite take_ge in Hd by lia.
  rewrite (chain_unique _ _ _ _ Hd Hc), with_device_own. by destruct (library c _).
Qed.
End Cut.

(** ** The processes *)

(** Where a process is in [memhub_read] or [memhub_write], with the answers to
    the operations of the call it has made. *)
Inductive stage : Type :=
| Outside
| Waited (c : hub_call)                              (* after sem_wait *)
| Accessing (c : hub_call) (answers : list answer)   (* after busy = true *)
| Posted                                             (* after sem_post *)
| Dead.

Record process : Type := mk_process { stage_of : stage; own_of : own_state }.

(** What has happened: a call that returned, or one cut short by the death of
    its process, with what it had done and whether [die] has posted the
    semaphore. *)
Inductive event : Type :=
| Completed (i : nat) (c : hub_call) (r : Z * list Z)
| Interrupted (i : nat) (c : hub_call) (answers : list answer) (posted : bool).

Inductive action : Type :=
| Enter (i : nat) (c : hub_call)   (* sem_wait *)
| SetBusy (i : nat)                (* busy = true *)
| Operate (i : nat)                (* the next device operation *)
| Leave (i : nat)                  (* the call has returned; sem_post *)
| ClearBusy (i : nat)              (* busy = false; return *)
| Signal (i : nat)                 (* one of the six signals: die *)
| BusError (i : nat).              (* killed by a SIGBUS, which die does not handle *)

Section System.
Context {Dev : Type} {K : Kernel Dev} {OS : OwnSignals Dev}.

(** [history] is a record for the theorem: no step looks at it. *)
Record system : Type := mk_system {
  sem : Z;
  memory : Dev;
  process_of : nat → process;
  history : list event
}.

Definition update {X} (i : nat) (x : X) (f : nat → X) : nat → X := λ j, if decide (j = i) then x else f j.

(** One action, [None] when it is not possible. *)
Definition act (a : action) (s : system) : option system :=
  let go i v d st l h := Some (mk_system v d (update i (mk_process st l) (process_of s)) (history s ++ h)) in
  match a with
  | Enter i c =>
      let p := process_of s i in
      match stage_of p with
      | Outside => if 0 <? sem s then go i (sem s - 1) (memory s) (Waited c) (own_of p) [] else None
      | _ => None
      end
  | SetBusy i =>
      let p := process_of s i in
      match stage_of p with
      | Waited c => go i (sem s) (memory s) (Accessing c []) (own_of p) []
      | _ => None
      end
  | Operate i =>
      let p := process_of s i in
      match stage_of p with
      | Accessing c answers =>
          match continue c (own_of p) answers with
          | Asks o =>
              let r := perform o (memory s) in
              go i (sem s) r.2 (Accessing c (answers ++ [r.1])) (own_of p) []
          | Ends _ _ => None
          end
      | _ => None
      end
  | Leave i =>
      let p := process_of s i in
      match stage_of p with
      | Accessing c answers =>
          match continue c (own_of p) answers with
          | Ends (Next r) l => go i (sem s + 1) (memory s) Posted l [Completed i c r]
          | _ => None
          end
      | _ => None
      end
  | ClearBusy i =>
      let p := process_of s i in
      match stage_of p with
      | Posted => go i (sem s) (memory s) Outside (own_of p) []
      | _ => None
      end
  | Signal i =>
      let p := process_of s i in
      match stage_of p with
      | Outside | Waited _ => go i (sem s) (memory s) Dead (own_of p) []
      | Accessing c answers =>
          go i (Processes.die_value (sem s) true) (memory s) Dead (own_of p)
            [Interrupted i c answers true]
      | Posted => go i (Processes.die_value (sem s) true) (memory s) Dead (own_of p) []
      | Dead => None
      end
  | BusError i =>
      let p := process_of s i in
      match stage_of p with
      | Accessing c answers =>
          match continue c (own_of p) answers with
          | Ends (Halt _) _ => go i (sem s) (memory s) Dead (own_of p) [Interrupted i c answers false]
          | _ => None
          end
      | _ => None
      end
  end.

(** A signal where [die] does what it is for, as in [Processes.safe_point]. *)
Definition safe (a : action) (s : system) : bool :=
  match a with
  | Signal i => match stage_of (process_of s i) with Outside | Accessing _ _ => true | _ => false end
  | _ => true
  end.

Fixpoint run (l : list action) (s : system) : option system :=
  match l with
  | [] => Some s
  | a :: l => if safe a s then s ← act a s; run l s else None
  end.

(** Processes with the states [ls] of the library, none of them in a call. *)
Definition outside (ls : nat → own_state) (d : Dev) : system :=
  mk_system 1 d (λ i, mk_process Outside (ls i)) [].

Definition inside (st : stage) : bool := match st with Waited _ | Accessing _ _ => true | _ => false end.

(** ** The same calls, one after the other *)

(** A process alone on the card. *)
Definition alone (l : own_state) (d : Dev) : hub Dev := mk_hub SemOpen (Some 1) false true (with_device l d).

(** The history [h] run from the states [ls] on [d]: each completed call is a
    whole run of [memhub_read] or [memhub_write] that returns what it returned,
    of each interrupted one the operations it had made; [ls'] and [d'] are
    left. *)
Inductive in_sequence (ls : nat → own_state) (d : Dev) : list event → (nat → own_state) → Dev → Prop :=
| seq_none : in_sequence ls d [] ls d
| seq_completed h ls' d' i c r l d'' : in_sequence ls d h ls' d' →
    memhub c (alone (ls' i) d') = (Next r, alone l d'') →
    in_sequence ls d (h ++ [Completed i c r]) (update i l ls') d''
| seq_interrupted h ls' d' i c answers posted d'' : in_sequence ls d h ls' d' →
    performs c (ls' i) d' answers d'' →
    in_sequence ls d (h ++ [Interrupted i c answers posted]) ls' d''.
End System.
Arguments system Dev : clear implicits.

Section Atomic.
Context {Dev : Type} {K : Kernel Dev} {OS : OwnSignals Dev}.
Implicit Types (s : system Dev) (d : Dev).

Lemma memhub_alone c l d r t : library c (with_device l d) = (Next r, t) →
  memhub c (alone l d) = (Next r, alone (own t) (dev t)).
Proof.
  intros Hl. unfold alone. rewrite (with_device_own t).
  assert (∀ {A} (m : Fn (memsvc_state Dev) A) a u, m (with_device l d) = (Next a, u) →
    (sem_wait ;; set_busy true ;; ret ← memsvc_call m; sem_post ;; set_busy false ;; mret ret)
      (mk_hub SemOpen (Some 1) false true (with_device l d)) = (Next a, mk_hub SemOpen (Some 1) false true u)) as Hcrit.
  { intros A m a u Hm. unfold sem_wait. rewrite bind_bind. erewrite bind_next by reflexivity. cbn beta iota.
    change (0 <? 1) with true. cbv iota. erewrite bind_next by reflexivity. erewrite bind_next by reflexivity.
    erewrite bind_next by (unfold memsvc_call; cbn [memsvc]; rewrite Hm; reflexivity). cbn beta.
    unfold sem_post. rewrite bind_bind. by erewrite bind_next by reflexivity. }
  destruct c as [a n|a n data]; cbn [library memhub] in *; [by apply Hcrit|].
  unfold mbind, M_bind in Hl. destruct (memsvc_write a n data (with_device l d)) as [[rc| | | |] u] eqn:E; try done.
  injection Hl as <- <-. erewrite bind_next by (by apply Hcrit). done.
Qed.

Lemma update_eq {X} i (x : X) f : update i x f i = x.
Proof. unfold update. by rewrite decide_True. Qed.
Lemma update_ne {X} i j (x : X) f : j ≠ i → update i x f j = f j.
Proof. intros. unfold update. by rewrite decide_False. Qed.

(** What a process inside has done to the memory, since it got in. *)
Definition at_work (st : stage) (l : own_state) (d m : Dev) : Prop :=
  match st with
  | Waited _ => m = d
  | Accessing c answers => performs c l d answers m
  | _ => False
  end.

(** The semaphore was given back. *)
Definition gives_back (e : event) : Prop :=
  match e with Completed _ _ _ => True | Interrupted _ _ _ posted => posted = true end.

(** The history so far leaves [ls] and [d]; nobody is inside and the memory is
    [d], or one process is and is at work on it.  The semaphore is free when
    nobody is inside, but for a process that a bus error has killed there. *)
Definition explained (ls0 : nat → own_state) (d0 : Dev) s (ls : nat → own_state) d : Prop :=
  in_sequence ls0 d0 (history s) ls d ∧ (∀ i, own_of (process_of s i) = ls i) ∧
  ((∀ i, inside (stage_of (process_of s i)) = false) ∧ memory s = d ∧ 0 ≤ sem s ≤ 1 ∧
     (Forall gives_back (history s) → sem s = 1) ∨
   sem s = 0 ∧ ∃ i, (∀ j, j ≠ i → inside (stage_of (process_of s j)) = false) ∧
     at_work (stage_of (process_of s i)) (ls i) d (memory s)).

(** A process inside is the one at work. *)
Lemma explained_inside ls0 d0 s ls d i : explained ls0 d0 s ls d → inside (stage_of (process_of s i)) = true →
  sem s = 0 ∧ (∀ j, j ≠ i → inside (stage_of (process_of s j)) = false) ∧
  at_work (stage_of (process_of s i)) (ls i) d (memory s).
Proof.
  intros (_ & _ & [(Ho & _)|(Hv & k & Ho & Hw)]) Hi; [by rewrite Ho in Hi|]. split; [done|].
  destruct (decide (i = k)) as [->|Hne]; [done|]. by rewrite Ho in Hi.
Qed.
(** One process has moved, and is at work. *)
Lemma explained_busy ls0 d0 s i st m h ls' d' : in_sequence ls0 d0 (history s ++ h) ls' d' →
  (∀ j, own_of (process_of s j) = ls' j) → (∀ j, j ≠ i → inside (stage_of (process_of s j)) = false) →
  at_work st (ls' i) d' m →
  explained ls0 d0 (mk_system 0 m (update i (mk_process st (own_of (process_of s i))) (process_of s)) (history s ++ h)) ls' d'.
Proof.
  intros Hseq Hown Ho Hw. split; [done|]. cbn [process_of sem memory]. split.
  - intros j. destruct (decide (j = i)) as [->|]; [rewrite update_eq|rewrite update_ne by done]; apply Hown.
  - right. split; [done|]. exists i. rewrite update_eq. split; [|done]. intros j Hj. rewrite update_ne by done. by apply Ho.
Qed.

(** One process has moved, and nobody is at work. *)
Lemma explained_free ls0 d0 s i st l v m h ls' : in_sequence ls0 d0 (history s ++ h) ls' m →
  (∀ j, j ≠ i → own_of (process_of s j) = ls' j) → l = ls' i → inside st = false → 0 ≤ v ≤ 1 →
  (Forall gives_back (history s ++ h) → v = 1) →
  (∀ j, j ≠ i → inside (stage_of (process_of s j)) = false) →
  explained ls0 d0 (mk_system v m (update i (mk_process st l) (process_of s)) (history s ++ h)) ls' m.
Proof.
  intros Hseq Hown Hl Hst Hv Hv1 Ho. split; [done|]. cbn [process_of sem memory]. split.
  - intros j. destruct (decide (j = i)) as [->|]; [by rewrite update_eq|rewrite update_ne by done; by apply Hown].
  - left. split; [|done]. intros j. destruct (decide (j = i)) as [->|]; [by rewrite update_eq|].
    rewrite update_ne by done. by apply Ho.
Qed.

(** One process has moved outside; whoever is at work goes on. *)
Lemma explained_aside ls0 d0 s i st ls d : explained ls0 d0 s ls d → inside (stage_of (process_of s i)) = false →
  inside st = false →
  explained ls0 d0 (mk_system (sem s) (memory s) (update i (mk_process st (own_of (process_of s i))) (process_of s))
    (history s ++ [])) ls d.
Proof.
  intros (Hseq & Hown & Hcase) Hi Hst. rewrite app_nil_r. split; [done|]. cbn [process_of sem memory]. split.
  { intros j. destruct (decide (j = i)) as [->|]; [rewrite update_eq|rewrite update_ne by done]; apply Hown. }
  destruct Hcase as [(Ho & Hm & Hv)|(Hv & k & Ho & Hw)]; [left|right].
  - cbn [history]. split; [|done]. intros j. destruct (decide (j = i)) as [->|]; [by rewrite update_eq|by rewrite update_ne].
  - split; [done|]. exists k. assert (k ≠ i) as Hki.
    { intros ->. by destruct (stage_of (process_of s i)). }
    rewrite update_ne by done. split; [|done]. intros j Hj.
    destruct (decide (j = i)) as [->|]; [by rewrite update_eq|rewrite update_ne by done; by apply Ho].
Qed.

Lemma explained_act ls0 d0 s ls d a s' : explained ls0 d0 s ls d → safe a s = true → act a s = Some s' →
  ∃ ls' d', explained ls0 d0 s' ls' d'.
Proof.
  intros He Hsafe Ha. pose proof He as (Hseq & Hown & Hcase).
  destruct a as [i c|i|i|i|i|i|i]; unfold act, safe in *; pose proof (explained_inside _ _ _ _ _ i He) as Hin;
    destruct (stage_of (process_of s i)) as [|c0|c0 answers| |] eqn:Est; try done; cbn [inside] in Hin.
  - destruct (Z.ltb_spec 0 (sem s)) as [Hlt|]; [|done]. injection Ha as <-.
    destruct Hcase as [(Ho & Hm & Hv)|(Hv & _)]; [|lia]. exists ls, d.
    replace (sem s - 1) with 0 by lia. apply explained_busy; [by rewrite app_nil_r|done|done|done].
  - injection Ha as <-. destruct (Hin eq_refl) as (Hv & Ho & Hw). exists ls, d. rewrite Hv. cbn in Hw. rewrite Hw.
    apply explained_busy; [by rewrite app_nil_r|done|done|constructor].
  - destruct (Hin eq_refl) as (Hv & Ho & Hw). rewrite Hown in Ha.
    destruct (continue c0 (ls i) answers) as [o|] eqn:Ec; [|done]. injection Ha as <-. exists ls, d. rewrite Hv, <- Hown.
    apply explained_busy; [by rewrite app_nil_r|done|done|]. by constructor.
  - destruct (Hin eq_refl) as (Hv & Ho & Hw). rewrite Hown in Ha.
    destruct (continue c0 (ls i) answers) as [|[r| | | |] l] eqn:Ec; try done. injection Ha as <-.
    pose proof (memhub_alone _ _ _ _ _ (performs_ends _ _ _ _ _ _ _ Hw Ec)) as Hm. rewrite own_with_device in Hm.
    exists (update i l ls), (memory s). apply explained_free.
    + by eapply seq_completed.
    + intros j Hj. by rewrite update_ne.
    + by rewrite update_eq.
    + done.
    + lia.
    + lia.
    + done.
  - injection Ha as <-. exists ls, d. apply explained_aside; [done|by rewrite Est|done].
  - injection Ha as <-. exists ls, d. apply explained_aside; [done|by rewrite Est|done].
  - injection Ha as <-. destruct (Hin eq_refl) as (Hv & Ho & Hw). rewrite Hv. exists ls, (memory s).
    apply explained_free; [by eapply seq_interrupted|done|done|done|cbn; lia|done|done].
  - destruct (Hin eq_refl) as (Hv & Ho & Hw). rewrite Hown in Ha.
    destruct (continue c0 (ls i) answers) as [|[| | | |h] l] eqn:Ec; try done. injection Ha as <-. rewrite Hv, <- Hown.
    exists ls, (memory s). apply explained_free; [by eapply seq_interrupted|done|done|done|lia| |done].
    by intros [_ [? _]%Forall_cons]%Forall_app.
Qed.

Lemma run_explained ls0 d0 l s s' : run l s = Some s' → ∀ ls d, explained ls0 d0 s ls d →
  ∃ ls' d', explained ls0 d0 s' ls' d'.
Proof.
  revert s. induction l as [|a l IH]; intros s; cbn [run]; [intros [= <-]; eauto|].
  destruct (safe a s) eqn:Hs; [|done]. intros (t & Ha & Hr)%bind_Some ls d He.
  destruct (explained_act _ _ _ _ _ _ _ He Hs Ha) as (ls1 & d1 & H1). by eapply IH.
Qed.

Lemma outside_explained ls d : explained ls d (outside ls d) ls d.
Proof. split; [constructor|]. split; [done|]. left. by split_and!. Qed.

(** C3: The hub makes the calls of its clients atomic.  Whatever order the
    processes take their device operations in, and whichever of them are
    killed outside or during an access, the calls that have returned have
    returned what they return when they are run whole, one after the other in
    the order of [history], and the memory is the one this leaves - but for
    what the one process inside has done in its call. *)
Theorem calls_atomic ls d l s : run l (outside ls d) = Some s → ∃ ls' d',
  in_sequence ls d (history s) ls' d' ∧ (∀ i, own_of (process_of s i) = ls' i) ∧
  ((∀ i, inside (stage_of (process_of s i)) = false) → memory s = d') ∧
  ∀ i, inside (stage_of (process_of s i)) = true →
    at_work (stage_of (process_of s i)) (ls' i) d' (memory s) ∧
    ∀ j, j ≠ i → inside (stage_of (process_of s j)) = false.
Proof.
  intros Hr. destruct (run_explained ls d _ _ _ Hr ls d (outside_explained ls d)) as (ls' & d' & He).
  exists ls', d'. pose proof He as (Hseq & Hown & Hcase). split_and!; [done|done| |].
  - intros Ho. destruct Hcase as [(_ & Hm & _)|(_ & k & _ & Hw)]; [done|]. specialize (Ho k).
    by destruct (stage_of (process_of s k)).
  - intros i Hi. destruct (explained_inside _ _ _ _ _ i He Hi) as (_ & Ho & Hw). by split.
Qed.
End Atomic.

(** ** Who is locked out *)
Section Locked.
Context {Dev : Type} {K : Kernel Dev} {OS : OwnSignals Dev}.

(** The semaphore taken and nobody inside: nobody gets in any more. *)
Lemma nobody_enters l (s s' : system Dev) : sem s = 0 → (∀ i, inside (stage_of (process_of s i)) = false) →
  run l s = Some s' → sem s' = 0 ∧ ∀ i, inside (stage_of (process_of s' i)) = false.
Proof.
  intros Hv Ho. assert (∀ a (t t' : system Dev), sem t = 0 → (∀ i, inside (stage_of (process_of t i)) = false) → safe a t = true →
    act a t = Some t' → sem t' = 0 ∧ ∀ i, inside (stage_of (process_of t' i)) = false) as Hact.
  { intros a t t' Ht Hto Hsafe Ha. assert (∀ i st, inside st = false → ∀ j,
      inside (stage_of (update i (mk_process st (own_of (process_of t i))) (process_of t) j)) = false) as Hup.
    { intros i st Hst j. unfold update. case_decide; [done|apply Hto]. }
    destruct a as [i c|i|i|i|i|i|i]; unfold act, safe in *; specialize (Hto i);
      destruct (stage_of (process_of t i)) as [|c0|c0 answers| |]; try done; rewrite ?Ht in Ha; cbn in Ha;
      try discriminate Ha; injection Ha as <-; (split; [done|by apply Hup]). }
  revert s Hv Ho. induction l as [|a l IH]; intros s Hv Ho; cbn [run]; [by intros [= <-]|].
  destruct (safe a s) eqn:Hs; [|done]. intros (t & Ha & Hr)%bind_Some.
  destruct (Hact a s t Hv Ho Hs Ha) as [Hv' Ho']. by apply (IH t).
Qed.

Definition actor (a : action) : nat :=
  match a with Enter i _ | SetBusy i | Operate i | Leave i | ClearBusy i | Signal i | BusError i => i end.

(** An action is its process's own. *)
Lemma run_others l (s s' : system Dev) j : run l s = Some s' → Forall (λ a, actor a ≠ j) l →
  process_of s' j = process_of s j.
Proof.
  revert s. induction l as [|a l IH]; intros s; cbn [run]; [by intros [= <-]|].
  destruct (safe a s); [|done]. intros (t & Ha & Hr)%bind_Some [Hj Hl]%Forall_cons. rewrite (IH t Hr Hl). clear -Ha Hj.
  destruct a; unfold act in Ha; cbn [actor] in Hj;
    destruct (stage_of _); try done; repeat case_match; try done; injection Ha as <-; cbn; unfold update; by rewrite decide_False.
Qed.
End Locked.

(** ** The processes of [Memhub] again

    In [Memhub.Processes] an access is one step.  The actions here are steps
    there, but for the operations of an access, which are none, and a death by
    a bus error, which [Memhub.Processes] does not have. *)
Section Coarser.
Context {Dev : Type} {K : Kernel Dev} {OS : OwnSignals Dev}.
Implicit Types s : system Dev.

Definition place_of (st : stage) : Processes.place :=
  match st with
  | Outside => Processes.Outside
  | Waited _ => Processes.Waited
  | Accessing _ _ => Processes.Accessing
  | Posted => Processes.Posted
  | Dead => Processes.Dead
  end.

Definition stands_for (t : Processes.system) s : Prop :=
  Processes.value t = sem s ∧ ∀ i, Processes.at_ t i = place_of (stage_of (process_of s i)).

(** The places from which [safe] lets a signal take a process. *)
Lemma safe_place i s : safe (Signal i) s = Processes.safe_point (place_of (stage_of (process_of s i))).
Proof. cbn. by destruct (stage_of _). Qed.

Lemma stands_for_move t s i st l v m h : (∀ j, Processes.at_ t j = place_of (stage_of (process_of s j))) →
  stands_for (Processes.mk_system v (Processes.move i (place_of st) (Processes.at_ t)))
    (mk_system v m (update i (mk_process st l) (process_of s)) h).
Proof. intros Ht. split; [done|]. intros j. cbn. unfold Processes.move, update. by case_decide. Qed.

(** The signal that ends the process is a death of the coarser model. *)
Local Ltac signal_dies :=
  match goal with
  | Ha : Some _ = Some _, Hi : ?f ?i = _, Hmv : context [stands_for] |- ∃ _, stands_for _ _ ∧ (_ = Processes.mk_system ?v _ ∨ _) =>
      injection Ha as <-; pose proof (Processes.killed_die (λ _, true) i v f) as Hk; rewrite Hi in Hk;
      eexists; (split; [by apply (Hmv i Dead)|]); right; right; (split; [by apply Hk|by eexists])
  end.

(** Every action that is not a bus error is a step of the coarser model, leaves
    its state as it is (an operation inside the access), or, for a signal, is a
    death in it. *)
Lemma act_coarser a s s' t : stands_for t s → act a s = Some s' → (∀ i, a ≠ BusError i) → ∃ t', stands_for t' s' ∧
  (t' = t ∨ Processes.step t t' ∨ Processes.killed (λ _, true) t t' ∧ ∃ i, a = Signal i).
Proof.
  destruct t as [v f]. intros [Hv Hf] Ha Hb. cbn in Hv, Hf. subst v. pose proof (stands_for_move (Processes.mk_system (sem s) f) s) as Hmv.
  cbn in Hmv. destruct a as [i c|i|i|i|i|i|i]; [..|by destruct (Hb i)]; unfold act in Ha; pose proof (Hf i) as Hi;
    destruct (stage_of (process_of s i)) as [|c0|c0 answers| |] eqn:Est; try done; cbn in Hi.
  - destruct (Z.ltb_spec 0 (sem s)); [|done]. injection Ha as <-.
    eexists. split; [by apply Hmv|]. right; left. by apply Processes.step_wait.
  - injection Ha as <-. eexists. split; [by apply Hmv|]. right; left. by apply Processes.step_busy.
  - destruct (continue c0 _ answers); [|done]. injection Ha as <-. eexists. split; [|by left].
    split; [done|]. intros j. cbn. unfold update. case_decide; [by subst j|apply Hf].
  - destruct (continue c0 _ answers) as [|[] l]; try done. injection Ha as <-.
    eexists. split; [by apply Hmv|]. right; left. by apply Processes.step_post.
  - injection Ha as <-. eexists. split; [by apply Hmv|]. right; left. by apply Processes.step_idle.
  - signal_dies.
  - signal_dies.
  - signal_dies.
  - signal_dies.
Qed.
End Coarser.

(** ** Runs *)
Module InterleaveExamples.
Import PlainMemory.

#[export] Instance signals : OwnSignals (gmap Z Z).
Proof. exact (Build_OwnSignals _ _ true (λ _, eq_refl)). Defined.

(** Processes that have opened the library on a page of four words. *)
Definition start_example : system (gmap Z Z) := outside (λ _, own state_example) words_example.

(** A call from beginning to end: two mappings, and [n] words. *)
Definition whole (i : nat) (c : hub_call) (n : nat) : list action :=
  [Enter i c; SetBusy i] ++ replicate n (Operate i) ++ [Leave i; ClearBusy i].

(** Process 0 is killed between the two words of a write; process 1 reads what
    this left, and process 2 is in the middle of its own call. *)
Definition calls_example : list action :=
  [Enter 0 (Write 0x64000004 2 [1; 2]); SetBusy 0; Operate 0; Operate 0; Operate 0; Signal 0] ++
  whole 1 (Read 0x64000004 1) 3 ++ [Enter 2 (Write 0x64000008 1 [9]); SetBusy 2; Operate 2].

Lemma calls_atomic_witness : ∃ s ls' d',
  run calls_example start_example = Some s ∧
  history s = [Interrupted 0 (Write 0x64000004 2 [1; 2]) [GotMmap None; GotMmap None; GotStore true] true;
               Completed 1 (Read 0x64000004 1) (0, [1])] ∧
  in_sequence (λ _, own state_example) words_example (history s) ls' d' ∧
  performs (Write 0x64000008 1 [9]) (ls' 2%nat) d' [GotMmap None] (memory s).
Proof.
  destruct (run calls_example start_example) as [s|] eqn:E; [|vm_compute in E; discriminate].
  destruct (calls_atomic (λ _, own state_example) words_example calls_example s E) as (ls' & d' & Hseq & _ & _ & Hin).
  exists s, ls', d'. split; [done|].
  assert (history <$> run calls_example start_example = Some
    [Interrupted 0 (Write 0x64000004 2 [1; 2]) [GotMmap None; GotMmap None; GotStore true] true;
     Completed 1 (Read 0x64000004 1) (0, [1])]) as Hh by (vm_compute; reflexivity).
  assert ((λ s, stage_of (process_of s 2%nat)) <$> run calls_example start_example = Some
    (Accessing (Write 0x64000008 1 [9]) [GotMmap None])) as H2 by (vm_compute; reflexivity).
  rewrite E in Hh, H2. injection Hh as Hh. injection H2 as H2. split; [exact Hh|]. split; [exact Hseq|].
  specialize (Hin 2%nat). rewrite H2 in Hin. apply (Hin eq_refl).
Defined.

(** Two processes that each add 1 to a register the way the daemon does, by a
    read and a write: the semaphore is free in between, and one of the two
    additions is lost. *)
Definition increments_example : list action :=
  whole 0 (Read 0x64000004 1) 3 ++ whole 1 (Read 0x64000004 1) 3 ++
  whole 0 (Write 0x64000004 1 [7]) 1 ++ whole 1 (Write 0x64000004 1 [7]) 1.

Theorem rmw_lost_update : ∃ s, run increments_example start_example = Some s ∧
  history s = [Completed 0 (Read 0x64000004 1) (0, [6]); Completed 1 (Read 0x64000004 1) (0, [6]);
               Completed 0 (Write 0x64000004 1 [7]) (0, []); Completed 1 (Write 0x64000004 1 [7]) (0, [])] ∧
  memory s !! 0x64000004 = Some 7.
Proof.
  assert ((λ s, (history s, memory s !! 0x64000004)) <$> run increments_example start_example = Some
    ([Completed 0 (Read 0x64000004 1) (0, [6]); Completed 1 (Read 0x64000004 1) (0, [6]);
      Completed 0 (Write 0x64000004 1 [7]) (0, []); Completed 1 (Write 0x64000004 1 [7]) (0, [])], Some 7)) as H
    by (vm_compute; reflexivity).
  apply fmap_Some in H as (s & Hs & He). exists s. split; [exact Hs|]. injection He as H1 H2.
  split; [exact (eq_sym H1)|exact (eq_sym H2)].
Qed.

(** SIGBUS is not among the signals [die] is installed for: a process killed
    by one in [memsvc_write] keeps the semaphore, and nobody gets in any
    more. *)
Theorem bus_error_locks : ∃ l s, run l (outside (λ _, own state_example) (delete 0x64000008 words_example)) = Some s ∧
  stage_of (process_of s 0%nat) = Dead ∧
  ∀ l' s', run l' s = Some s' → ∀ i, inside (stage_of (process_of s' i)) = false.
Proof.
  set (s0 := outside (λ _, own state_example) (delete 0x64000008 words_example)).
  set (l := [Enter 0 (Write 0x64000008 1 [9]); SetBusy 0; Operate 0; Operate 0; Operate 0; BusError 0]).
  exists l. destruct (run l s0) as [s|] eqn:E; [|vm_compute in E; discriminate]. exists s. split; [done|].
  assert ((λ s, (sem s, stage_of (process_of s 0%nat))) <$> run l s0 = Some (0, Dead)) as H by (vm_compute; reflexivity).
  rewrite E in H. cbn [fmap option_fmap option_map] in H. injection H as Hv Hd. split; [exact Hd|].
  intros l' s' Hr. eapply nobody_enters; [exact Hv| |exact Hr]. intros i.
  destruct (decide (i = 0%nat)) as [->|Hi]; [by rewrite Hd|].
  rewrite (run_others l s0 s i E); [done|]. repeat constructor; cbn; congruence.
Qed.
End InterleaveExamples.
