(* ===== verification/Interrupted.v ===== *)
(** * Interrupted: what a call that was cut short has done

    A process killed in the middle of a call leaves behind the operations it
    had made.  Of these only the stores of [memsvc_write] are to be seen in the
    registers: they are the first words of its buffer, in their order, all at
    the address of the call. *)

From S2P Require Import Prelude RpcMsg CText Memsvc MemsvcSpec Memhub MemsvcSim Interleave.

Local Open Scope list_scope.

(** The stores among the operations, with address and word. *)
Definition store_of (e : op * answer) : option (Z * Z) := match e.1 with OpStore a x => Some (a, x) | _ => None end.
Definition stores (l : list (op * answer)) : list (Z * Z) := omap store_of l.

Lemma stores_app l1 l2 : stores (l1 ++ l2) = stores l1 ++ stores l2.
Proof. apply omap_app. Qed.

Lemma stores_cons e l : stores (e :: l) = match store_of e with Some p => p :: stores l | None => stores l end.
Proof. done. Qed.

(** ** The stores of a call *)
Section Log.
Context {Dev : Type} {K : Kernel Dev} {PG : Paged Dev} (ks : list range_key).
#[local] Existing Instance logged_kernel.
Notation state := (memsvc_state (@logged Dev)).
Implicit Types s : state.

(** A range on pages, of which a mapping of the memory begins where the range
    does. *)
Definition map_ok (r : memsvc_range) : Prop :=
  (∀ m, range_map r = Some m → map_offset m = range_start r) ∧ (@getpagesize Dev K | range_start r) ∧ 0 < @maplen Dev K r.

(** A mapping that [mmap] accepts. *)
Definition fine (e : op * answer) : Prop :=
  match e.1 with OpMmap m => (@getpagesize Dev K | map_offset m) ∧ 0 < map_length m | _ => True end.

(** The stores so far are [l], and the ranges are those of [ks]. *)
Definition quiet (l : list (Z * Z)) s : Prop :=
  (stores (entries (dev s)) = l ∧ Forall fine (entries (dev s))) ∧
  ∃ h, handle s = Some h ∧ Forall map_ok (first_range h) ∧ key_of <$> first_range h ≡ₚ ks.

Notation stays l m Q := (wp (λ _, quiet l) (λ _, quiet l) m Q).

(** An operation more that is no store. *)
Lemma quiet_log l s t e : handle t = handle s → entries (dev t) = entries (dev s) ++ [e] → store_of e = None → fine e →
  quiet l s → quiet l t.
Proof.
  unfold quiet. intros -> -> He Hf ([Hl Hfs] & Hh). split; [|done]. split; [|by apply Forall_app; split; [|constructor]].
  rewrite stores_app, Hl. cbn. rewrite He. apply app_nil_r.
Qed.

Lemma keeps_svc {R} l : keeps (R:=R) (quiet l) svc_.
Proof. intros s Hs. unfold svc_. by destruct (handle s). Qed.

Lemma keeps_set_error {R} l user e : keeps (R:=R) (quiet l) (set_error user e).
Proof.
  intros s (Hl & h & Hh & Hm & Hk). unfold set_error, svc_, mbind, M_bind. rewrite Hh. split; [exact Hl|].
  eexists. split; [reflexivity|]. by split.
Qed.

Lemma keeps_validate {R} l b : keeps (R:=R) (quiet l) (memsvc_validate b).
Proof. unfold memsvc_validate. pose proof @keeps_set_error. keeps_tac. Qed.

Lemma mmap_stays {R} l m s : (@getpagesize Dev K | map_offset m) → 0 < map_length m → quiet l s →
  wp (λ _ : R, quiet l) (λ _, quiet l) (mmap m) (λ r t, quiet l t ∧ (r = None ∨ r = Some m)) s.
Proof.
  intros Ha Hlen Hs. unfold wp, mmap. cbn. destruct (sys_mmap m (real (dev s))) as [[e|] d']; cbn; (split; [|auto]);
    by eapply (quiet_log _ s).
Qed.

Lemma map_range_stays {R} l act r s : quiet l s → map_ok r →
  wp (λ _ : R, quiet l) (λ _, quiet l) (map_range act r) (λ r' t, quiet l t ∧ map_ok r' ∧ key_of r' = key_of r) s.
Proof.
  intros Hs Hr. unfold map_range. wp_step.
  eapply (wp_mono _ _ _ (λ p t, quiet l t ∧ map_ok p.2 ∧ key_of p.2 = key_of r)).
  - destruct (act && _); [|by wp_step]. destruct Hr as (Hr & Hp & Hlen). wp_step.
    eapply wp_mono; [by apply mmap_stays|]. intros m t [Ht Hm]. wp_step.
    split; [done|]. split; [|done]. split; [|by split]. intros m' Hm'. cbn in *.
    destruct Hm as [-> | ->]; [done|]. by injection Hm' as <-.
  - intros [act' r'] t (Ht & Hr' & Hk). cbn beta iota. destruct (act' && _); [|by wp_step]. cbv zeta. wp_step.
    destruct (@page_size Dev K PG) as (Hpos & _). eapply wp_mono; [apply mmap_stays; [|cbn; lia|done]|].
    { cbn. rewrite Z.mod_eq by lia. exists (c2c_reg r' / @getpagesize Dev K). lia. }
    intros m u [Hu _]. by wp_step.
Qed.

Lemma find_range_stays {R} l a w act s : quiet l s →
  wp (λ _ : R, quiet l) (λ _, quiet l) (find_range a w act) (λ o t, quiet l t ∧ ∀ r, o = Some r →
    map_ok r ∧ a mod 4 = 0 ∧ ∃ k, k ∈ ks ∧ in_key a w k = true) s.
Proof.
  intros Hs. unfold find_range. destruct (Z.eqb_spec (a mod 4) 0) as [Ha|]; cbn [negb]; [|by wp_step].
  pose proof Hs as (Hl & h & Hh & Hm & Hk). wp_step. unfold wp at 1, svc_. rewrite Hh.
  destruct (take_out _ (first_range h)) as [[r rest]|] eqn:E; [|by wp_step].
  apply take_out_Some in E as [Hin Hp]. rewrite Hp in Hm, Hk. apply Forall_cons in Hm as [Hr Hrest].
  wp_step. eapply wp_mono; [by apply map_range_stays|]. intros r' t ((Hl' & h' & Hh' & _) & Hr' & Hkr). wp_step.
  unfold set_ranges. wp_step. unfold wp at 1, svc_. rewrite Hh'. do 2 wp_step. split.
  - split; [exact Hl'|]. eexists. split; [reflexivity|]. cbn [first_range]. split; [by constructor|].
    rewrite <- Hk, !fmap_cons, Hkr. done.
  - intros r'' [= <-]. split_and!; [done..|]. exists (key_of r). split; [|by rewrite <- in_range_key].
    rewrite <- Hk, fmap_cons. apply elem_of_cons. by left.
Qed.

Lemma keeps_device_load {R} l a : keeps (R:=R) (quiet l) (device_load a).
Proof.
  intros s Hs. by eapply (quiet_log _ s).
Qed.
Lemma keeps_REG32 {R} l base offset : keeps (R:=R) (quiet l) (REG32 base offset).
Proof. unfold REG32. pose proof @keeps_device_load. keeps_tac. Qed.
Lemma keeps_bus_error {R A} l : keeps (R:=R) (A:=A) (quiet l) bus_error.
Proof. by intros s Hs. Qed.

Lemma keeps_range_ready {R} l r a n : keeps (R:=R) (quiet l) (range_ready r a n).
Proof.
  unfold range_ready, range_check. pose proof @keeps_set_error. pose proof @keeps_REG32. pose proof @keeps_bus_error. keeps_tac.
Qed.
Lemma keeps_read_loop {R} l n r a data : keeps (R:=R) (quiet l) (read_loop n r a data).
Proof. pose proof @keeps_REG32. revert data. induction n; intros data; cbn [read_loop]; keeps_tac. Qed.

(** A statement that keeps the stores, as a [wp]. *)
Lemma wp_keeps {R A} (I : state → Prop) (m : M state R A) s : keeps I m → I s → wp (λ _, I) (λ _, I) m (λ _, I) s.
Proof. intros Hm Hs. specialize (Hm s Hs). unfold wp. by destruct (m s) as [[] t]. Qed.

(** A read stores nothing in the memory. *)
Lemma memsvc_read_quiet l a n : keeps (quiet l) (memsvc_read a n).
Proof.
  unfold memsvc_read. pose proof @keeps_set_error. pose proof @keeps_range_ready. pose proof @keeps_validate.
  pose proof @keeps_read_loop. apply keeps_fn. apply keeps_bind; [eauto|]. intros v. case_match; [apply keeps_return|].
  apply keeps_bind; [|intros r; unfold count_ok; keeps_tac; by apply keeps_modify].
  - intros s Hs. pose proof (find_range_stays (R:=Z * list Z) l a false true s Hs) as Hf. unfold wp in Hf.
    by destruct (find_range _ _ _ s) as [[] t]; cbn; [apply Hf|..].
Qed.

(** *** A write *)

(** The first words of [data], all at [a], and none when [a] is in no range that
    can be written. *)
Definition wrote (a : Z) (data : list Z) s : Prop :=
  ∃ j, quiet (pair a <$> take j data) s ∧ (j ≠ 0%nat → a mod 4 = 0 ∧ ∃ k, k ∈ ks ∧ in_key a true k = true).

Lemma quiet_wrote a data s : quiet [] s → wrote a data s.
Proof. intros Hs. by exists 0%nat. Qed.

Lemma REG32_store_wrote {R} a x m offset data j s : map_offset m + offset = a → data !! j = Some x →
  quiet (pair a <$> take j data) s →
  wp (λ _ : R, wrote a data) (λ _, quiet (pair a <$> take j data)) (REG32_store (Some m) offset x)
    (λ _, quiet (pair a <$> take (S j) data)) s.
Proof.
  intros Ha Hx Hs. unfold REG32_store, guard_ub. destruct (_ && _); [|done]. wp_step. wp_step.
  destruct (negb _); [done|]. unfold wp, device_store. cbn. destruct Hs as ([Hl Hf] & Hs). split; [|exact Hs]. cbn. split.
  - rewrite stores_app, Hl, (take_S_r _ _ x Hx), fmap_app. cbn. by rewrite Ha.
  - apply Forall_app. by split; [|constructor].
Qed.

Lemma write_loop_wrote {R} a r data s : map_ok r → a mod 4 = 0 → (∃ k, k ∈ ks ∧ in_key a true k = true) → quiet [] s →
  wp (λ _ : R, wrote a data) (λ _, wrote a data) (write_loop r a data) (λ _, wrote a data) s.
Proof.
  intros Hr Ha Hk. set (P := wrote a data).
  assert (∀ l j, data = take j data ++ l → length (take j data) = j → ∀ t, quiet (pair a <$> take j data) t →
    wp (λ _ : R, P) (λ _, P) (write_loop r a l) (λ _, P) t) as Hgen.
  2: { intros Hs. by apply (Hgen data 0%nat). }
  assert (∀ j t, quiet (pair a <$> take j data) t → P t) as HP by (intros j t Ht; by exists j).
  intros l. induction l as [|x l IH]; intros j Hj Hlen t Ht; cbn [write_loop]; [wp_step; by eapply HP|].
  destruct (range_map r) as [m|] eqn:Em; [|by eapply HP]. wp_step.
  assert (data !! j = Some x) as Hx by (rewrite Hj; by apply list_lookup_middle).
  assert (wp (λ _ : R, P) (λ _, P) (REG32_store (Some m) (a - range_start r) x)
    (λ _, quiet (pair a <$> take (S j) data)) t) as Hst.
  { pose proof (REG32_store_wrote (R:=R) a x m (a - range_start r) data j t) as H. rewrite (proj1 Hr m Em) in H.
    specialize (H ltac:(lia) Hx Ht). unfold wp in *. destruct (REG32_store _ _ _ t) as [[] u]; try done; by eapply HP. }
  eapply wp_mono; [exact Hst|]. intros b u Hu. wp_step.
  assert (wp (λ _ : R, P) (λ _, P) (write_loop r a l) (λ _, P) u) as Hrest.
  { apply (IH (S j)); [|rewrite (take_S_r _ _ x Hx), length_app, Hlen; cbn; lia|done].
    rewrite (take_S_r _ _ x Hx), <- app_assoc. exact Hj. }
  destruct b; [wp_step; exact Hrest|]. unfold wp, bus_error. destruct (bus_handler u); by eapply HP.
Qed.

Lemma wp_wrote {R A} a data (m : M state R A) s : keeps (quiet []) m → quiet [] s →
  wp (λ _, wrote a data) (λ _, wrote a data) m (λ _, quiet []) s.
Proof.
  intros Hm Hs. specialize (Hm s Hs). apply (quiet_wrote a data) in Hm as Hw. unfold wp. by destruct (m s) as [[] t].
Qed.

Lemma memsvc_write_wrote a n data s : quiet [] s → wrote a (take (turns n) data) (memsvc_write a n data s).2.
Proof.
  intros Hs. set (w := take (turns n) data).
  assert (wp (λ _ : Empty_set, wrote a w) (λ _, wrote a w) (memsvc_write a n data) (λ _, wrote a w) s) as Hw.
  2: { unfold wp in Hw. by destruct (memsvc_write a n data s) as [[] t]. }
  pose proof @keeps_set_error as He. pose proof (quiet_wrote a w) as Hq.
  assert (∀ msg e t, quiet [] t → wp (R:=Z) (A:=Z) (λ _, wrote a w) (λ _, wrote a w) (set_error msg e ;; ret (-1)) (λ _, wrote a w) t) as Hrefuse.
  { intros msg e t Ht. wp_step. eapply wp_mono; [by apply wp_wrote|]. intros [] u Hu. wp_step. by apply Hq. }
  unfold memsvc_write. wp_step. wp_step. eapply wp_mono; [apply wp_wrote; [apply keeps_validate|done]|].
  clear s Hs. intros v s Hs. cbn beta. case_match; [wp_step; by apply Hq|]. wp_step.
  eapply wp_impl; [by apply (find_range_stays [])|intros; by apply Hq..|]. clear s Hs. intros [r|] s (Hs & Hr); cbn beta iota.
  - destruct (Hr r eq_refl) as (Hmap & Ha & Hk). wp_step. eapply wp_mono; [apply wp_wrote; [apply keeps_range_ready|done]|].
    clear s Hs. intros c s Hs. cbn beta. case_match; [wp_step; by apply Hq|]. wp_step.
    eapply wp_mono; [by apply write_loop_wrote|]. intros [] t Ht. unfold count_ok, guard_ub.
    destruct (_ <=? _)%nat; [|exact Ht]. wp_step. wp_step. destruct (n <? 2 ^ 31); [|exact Ht]. by repeat wp_step.
  - wp_step. eapply wp_impl; [by apply (find_range_stays [])|intros; by apply Hq..|]. clear s Hs Hr. intros [r|] s (Hs & _); by apply Hrefuse.
Qed.
End Log.

(** ** On a device of plain words *)
Section Words.
Context {Dev : Type} {K : Kernel Dev} {PD : PlainDevice Dev} {OS : OwnSignals Dev}.
Implicit Types (d : Dev).

(** The file [f] after the stores [l]. *)
Definition after_stores (l : list (Z * Z)) (f : Z → option Z) : Z → option Z :=
  foldl (λ f p b, if decide (b = p.1) then Some p.2 else f b) f l.

Lemma chain_words d l d' f : chain d l d' → Forall fine l →
  Forall (λ p, is_Some (word_at d p.1) ∧ word 32 p.2) (stores l) → (∀ b, word_at d b = f b) →
  ∀ b, word_at d' b = after_stores (stores l) f b.
Proof.
  revert d f. induction l as [|[o x] l IH]; intros d f Hc Hf Hs Hw; cbn [chain] in Hc; [by subst d'|].
  destruct Hc as [_ Hc]. apply Forall_cons in Hf as [Ho Hf]. destruct o as [m|a|a v]; cbn in Ho, Hs |- *.
  - destruct Ho as [Ha Hlen]. destruct (mmap_aligned m d Ha Hlen) as (d1 & E & Hsame). cbn in Hc. rewrite E in Hc.
    apply (IH d1); [done|done| |intros b; by rewrite Hsame]. eapply Forall_impl; [exact Hs|]. intros p. by rewrite Hsame.
  - destruct (load_word d a) as (d1 & E & Hsame). cbn in Hc. rewrite E in Hc.
    apply (IH d1); [done|done| |intros b; by rewrite Hsame]. eapply Forall_impl; [exact Hs|]. intros p. by rewrite Hsame.
  - apply Forall_cons in Hs as [[[u Hu] Hv] Hs]. cbn in Hu, Hv. destruct (store_word d a u v Hu Hv) as (d1 & E & Hst).
    cbn in Hc. rewrite E in Hc. apply (IH d1); [done|done| |intros b; rewrite Hst; cbn; by rewrite Hw].
    eapply Forall_impl; [exact Hs|]. intros p [Hp ?]. split; [|done]. rewrite Hst. case_decide; [by eexists|done].
Qed.

(** Stores at one address: the last one stays. *)
Lemma after_stores_last a xs f b :
  after_stores (pair a <$> xs) f b =
  match last xs with Some x => if decide (b = a) then Some x else f b | None => f b end.
Proof.
  revert f. induction xs as [|x xs IH]; intros f; [done|]. rewrite fmap_cons. unfold after_stores in *. cbn [foldl fst snd].
  rewrite IH, last_cons. by destruct (last xs); [case_decide|].
Qed.

(** How many stores a process has made, by the answers it has. *)
Definition is_store (x : answer) : bool := match x with GotStore _ => true | _ => false end.
Definition stores_made (answers : list answer) : nat := length (filter is_store answers).

Lemma chain_stores d l d' : chain d l d' → length (stores l) = stores_made l.*2.
Proof.
  unfold stores_made. revert d. induction l as [|[o x] l IH]; intros d Hc; [done|]. destruct Hc as [Hx Hc].
  specialize (IH _ Hc). cbn in Hx. rewrite fmap_cons. cbn [snd]. rewrite filter_cons, stores_cons.
  by destruct o; subst x; cbn [store_of fst perform length]; rewrite IH.
Qed.

(** The operations of a call, from a process whose ranges are in order. *)
Lemma run_log_stores ks c (l : own_state) d : (∃ h, handle l = Some h ∧ Forall map_ok (first_range h) ∧ key_of <$> first_range h ≡ₚ ks) →
  Forall fine (run_log c l d) ∧
  match c with
  | Read _ _ => stores (run_log c l d) = []
  | Write a n data => ∃ j, stores (run_log c l d) = pair a <$> take j (take (turns n) data) ∧
      (j ≠ 0%nat → a mod 4 = 0 ∧ ∃ k, k ∈ ks ∧ in_key a true k = true)
  end.
Proof.
  intros Hh. set (s0 := with_device l (mk_logged [] d)).
  assert (quiet ks [] s0) as H0 by (split; [by split|exact Hh]).
  unfold run_log. fold s0. destruct c as [a n|a n data]; cbn [library].
  - destruct (memsvc_read_quiet ks [] a n s0 H0) as [[Hs Hf] _]. by split.
  - pose proof (memsvc_write_wrote ks a n data s0 H0) as (j & [[Hs Hf] _] & Hj).
    assert ((rc ← memsvc_write (K := logged_kernel) a n data; mret (rc, ([] : list Z))) s0 = 
      (let p := memsvc_write (K := logged_kernel) a n data s0 in (match p.1 with Next rc => Next (rc, []) | Return r => Return r | Throw e => Throw e | Undef u => Undef u | Halt h => Halt h end, p.2))) as E.
    { unfold mbind, M_bind. by destruct (memsvc_write (K := logged_kernel) a n data s0) as [[]]. }
    rewrite E. cbv zeta. cbn [snd]. split; [exact Hf|]. by exists j.
Qed.

(** The operations a process has made when it has the answers [answers]. *)
Lemma performs_stores ks c (l : own_state) d answers d' :
  (∃ h, handle l = Some h ∧ Forall map_ok (first_range h) ∧ key_of <$> first_range h ≡ₚ ks) →
  performs c l d answers d' → ∃ log, chain d log d' ∧ Forall fine log ∧
  match c with
  | Read _ _ => stores log = []
  | Write a n data => stores log = pair a <$> take (stores_made answers) data ∧
      (stores_made answers ≠ 0%nat → a mod 4 = 0 ∧ ∃ k, k ∈ ks ∧ in_key a true k = true)
  end.
Proof.
  intros Hh Hp. destruct (performs_log _ _ _ _ _ Hp) as (_ & Ha & Hd).
  destruct (run_log_stores ks c l d Hh) as [Hf Hst]. set (log := run_log c l d) in *. set (k := length answers) in *.
  exists (take k log). split; [exact Hd|]. split; [by apply Forall_take|].
  assert (length (stores (take k log)) = stores_made answers) as Hmade.
  { rewrite (chain_stores d _ d' Hd). f_equal. by rewrite fmap_take, <- Ha. }
  assert (stores log = stores (take k log) ++ stores (drop k log)) as Happ by (by rewrite <- stores_app, take_drop).
  destruct c as [a n|a n data].
  - rewrite Hst in Happ. symmetry in Happ. by apply app_nil in Happ as [? _].
  - destruct Hst as (j & Hst & Hj). rewrite Hst in Happ. set (m := stores_made answers) in *.
    pose proof (f_equal length Happ) as Hl. rewrite length_app, Hmade, length_fmap, !length_take in Hl. split.
    + apply (f_equal (take m)) in Happ. rewrite <- Hmade in Happ at 2. rewrite take_app_length in Happ. rewrite <- Happ.
      rewrite <- fmap_take, !take_take. f_equal. f_equal. lia.
    + intros Hm. apply Hj. lia.
Qed.
End Words.
