(* ===== verification/HubRegisters.v ===== *)
(** * HubRegisters: one file of registers for all processes

    What [Interleave] says of the order of the calls, and [MemsvcSpec] of each
    of them, put together: the processes that share the memory hub see one
    file of registers, on which their calls are single steps. *)

From S2P Require Import Prelude RpcMsg CText Memsvc MemsvcSpec Memhub MemsvcSim Interleave Interrupted.

Local Open Scope list_scope.

(** ** The file of registers *)

Section Registers.
(* the ranges of the configuration file *)
Context (ks : list range_key).

(** A call of [n] words at [a] is for a register. *)
Definition serves (a n : Z) (w : bool) : bool :=
  match find_key ks a with
  | Some k => (a mod 4 =? 0) && (negb w || negb (k_readonly k)) && (w32 (a + 4 * n) <=? k_end k)
  | None => false
  end.

(** What a call returns, and the registers it leaves: a read returns as many
    copies of the register as it has words, a write leaves its last word. *)
Definition register_call (c : hub_call) (f : Z → option Z) : (Z * list Z) * (Z → option Z) :=
  match c with
  | Read a n =>
      match f a with
      | Some v => if serves a n false then ((0, replicate (Z.to_nat n) v), f) else ((-1, []), f)
      | None => ((-1, []), f)
      end
  | Write a n data =>
      if serves a n true then
        ((0, []), match last (take (Z.to_nat n) data) with
                  | Some x => λ b, if decide (b = a) then Some x else f b
                  | None => f
                  end)
      else ((-1, []), f)
  end.

(** What a call that was cut short leaves: of a write as many words as it has
    stored, of which the last is there. *)
Definition register_partial (c : hub_call) (answers : list answer) (f : Z → option Z) : Z → option Z :=
  match c with
  | Read _ _ => f
  | Write a _ data =>
      match last (take (stores_made answers) data) with
      | Some x => λ b, if decide (b = a) then Some x else f b
      | None => f
      end
  end.

(** The history as steps on the file: [None] where a call has not returned
    what it does there. *)
Definition register_step (f : Z → option Z) (e : event) : option (Z → option Z) :=
  match e with
  | Completed i c r => let p := register_call c f in if decide (p.1 = r) then Some p.2 else None
  | Interrupted i c answers _ => Some (register_partial c answers f)
  end.
Definition register_history (h : list event) (f : Z → option Z) : option (Z → option Z) :=
  foldl (λ o e, f ← o; register_step f e) (Some f) h.
End Registers.

(** A call as C programs make it: the buffer is long enough. *)
Definition call_ok (c : hub_call) : Prop :=
  match c with
  | Read _ n => 0 ≤ n < 2 ^ 31
  | Write _ n data => 0 ≤ n < 2 ^ 31 ∧ n ≤ Z.of_nat (length data) ∧ Forall (word 32) data
  end.
Definition event_ok (e : event) : Prop := match e with Completed _ c _ | Interrupted _ c _ _ => call_ok c end.

Section Plain.
Context {Dev : Type} {K : Kernel Dev} {PD : PlainDevice Dev} {OS : OwnSignals Dev}.
Implicit Types (d : Dev).

(** A process that has opened the library with the ranges [ks]. *)
Definition opened (ks : list range_key) (l : own_state) d : Prop :=
  ready (with_device l d) ∧ keys_of (with_device l d) ≡ₚ ks.

Lemma ready_exclusive (s : memsvc_state Dev) : ready s → exclusive (keys_of s).
Proof. intros (h & Hh & _ & _ & He & _). unfold keys_of. by rewrite Hh. Qed.

(** The calls of one process leave the others as ready as they were. *)
Lemma opened_shared ks l1 l2 d1 d2 : opened ks l1 d1 → opened ks l2 d2 → opened ks l1 d2.
Proof.
  intros [(h1 & Hh1 & Hm1 & Hw1 & _) Hp1] [(h2 & Hh2 & _ & _ & Hk2) Hp2]. split; [|exact Hp1].
  exists h1. split_and!; [done..|]. unfold keys_of in *. rewrite Hh1 in Hp1. rewrite Hh2 in Hp2.
  eapply keys_ok_perm; [|by intros a|exact Hk2]. by rewrite Hp1, Hp2.
Qed.

(** A call of one process, as a step on the file. *)
Lemma library_registers ks c l d : opened ks l d → call_ok c → ∃ r t,
  library c (with_device l d) = (Next r, t) ∧ opened ks (own t) (dev t) ∧
  ∀ f, (∀ a, word_at d a = f a) → r = (register_call ks c f).1 ∧ ∀ a, word_at (dev t) a = (register_call ks c f).2 a.
Proof.
  intros [Hr Hp] Hc. pose proof (ready_exclusive _ Hr) as Hex. unfold opened.
  destruct c as [a n|a n data]; cbn [library call_ok register_call] in *; unfold serves.
  - destruct (memsvc_read_run a n _ Hr Hc) as (rc & data & t & Hrun & (Ht & Htp & Hw) & Hcase).
    exists (rc, data), t. rewrite with_device_own. split; [done|]. split; [split; [done|by rewrite Htp]|].
    intros f Hf. rewrite (find_key_perm _ _ a Hex Hp) in Hcase. cbn [dev with_device] in *. unfold same_words in Hw.
    destruct (find_key ks a) as [k|].
    + cbn [negb orb]. rewrite andb_true_r. destruct (_ && _).
      * destruct Hcase as (-> & v & Hv & ->). rewrite Hf in Hv. rewrite Hv. split; [done|]. intros b. by rewrite Hw.
      * destruct Hcase as [-> ->]. destruct (f a); (split; [done|]); intros b; by rewrite Hw.
    + destruct Hcase as [-> ->]. destruct (f a); (split; [done|]); intros b; by rewrite Hw.
  - destruct Hc as (Hn & Hlen & Hd).
    destruct (memsvc_write_run a n data _ Hr Hn Hlen Hd) as (rc & t & Hrun & Hcase).
    exists (rc, []), t. rewrite with_device_own. split; [by erewrite bind_next by exact Hrun|].
    rewrite (find_key_perm _ _ a Hex Hp) in Hcase. cbn [dev with_device] in *.
    destruct (find_key ks a) as [k|]; [|destruct Hcase as (-> & Ht & Htp & Hw)].
    2: { split; [split; [done|by rewrite Htp]|]. intros f Hf. split; [done|]. intros b. by rewrite Hw. }
    cbn [negb orb]. destruct (_ && _); destruct Hcase as (-> & Ht & Htp & Hw);
      (split; [split; [done|by rewrite Htp]|]); intros f Hf; (split; [done|]); intros b; cbn [snd].
    + rewrite Hw. cbn [dev with_device]. destruct (last _); [by case_decide|done].
    + by rewrite Hw.
Qed.

Lemma wf_map_ok r : wf_range r → map_ok r.
Proof.
  intros Hr. split; [|split; [apply Hr|by apply maplen_covers]]. intros m Em.
  destruct Hr as (_ & _ & _ & _ & _ & [Hn|Hn] & _); rewrite Hn in Em; [done|]. by injection Em as <-.
Qed.

(** The operations of a call that was cut short. *)
Lemma performs_registers ks c l d answers d' : opened ks l d → call_ok c → performs c l d answers d' →
  opened ks l d' ∧ ∀ f, (∀ a, word_at d a = f a) → ∀ a, word_at d' a = register_partial c answers f a.
Proof.
  intros Ho Hc Hp. pose proof Ho as [(h & Hh & Hm & Hwf & Hok) Hks]. cbn [handle dev with_device] in *.
  unfold keys_of in Hks. cbn [handle with_device] in Hks. rewrite Hh in Hks.
  assert (keys_ok d ks) as Hok1 by (eapply keys_ok_perm; [|by intros a|exact Hok]; by rewrite Hks).
  assert (keys_ok d' ks → opened ks l d') as Hopen.
  { intros Hok'. split; [|exact (proj2 Ho)]. exists h. cbn [handle dev with_device]. split_and!; [done..|].
    eapply keys_ok_perm; [exact Hks|by intros a|exact Hok']. }
  destruct (performs_stores ks c l d answers d') as (log & Hd & Hf & Hst); [|done|].
  { exists h. split_and!; [done| |done]. eapply Forall_impl; [exact Hwf|]. apply wf_map_ok. }
  pose proof (chain_words d log d' (word_at d) Hd Hf) as Hw.
  destruct c as [a n|a n data]; cbn [register_partial call_ok] in *.
  - rewrite Hst in Hw. specialize (Hw (Forall_nil_2 _) (λ b, eq_refl)). cbn in Hw.
    split; [|intros f Hff b; by rewrite Hw]. apply Hopen. by eapply keys_ok_perm.
  - destruct Hst as [Hst Hm0], Hc as (_ & _ & Hdw). set (m := stores_made answers) in *. rewrite Hst in Hw.
    assert (Forall (λ p, is_Some (word_at d p.1) ∧ word 32 p.2) (pair a <$> take m data)) as Hall.
    { apply Forall_fmap. destruct (decide (m = 0%nat)) as [->|Hne]; [done|]. destruct (Hm0 Hne) as (Ha4 & k & Hk & Hin).
      eapply Forall_impl; [by apply Forall_take|]. intros x Hx. split; [|done]. destruct Hok1 as (_ & Hsv & _).
      apply (proj1 (Hsv k Hk) a); [by apply Z.mod_divide|by apply in_key_weak]. }
    specialize (Hw Hall (λ b, eq_refl)). setoid_rewrite after_stores_last in Hw.
    split; [apply Hopen|intros f Hff b; rewrite Hw; destruct (last (take m data)); [case_decide|]; done].
    destruct (last (take m data)) as [x|] eqn:El; [|by eapply keys_ok_perm].
    assert (m ≠ 0%nat) as Hne by (intros E; by rewrite E in El). destruct (Hm0 Hne) as (_ & k & Hk & Hin).
    by apply (keys_ok_store d d' ks a x k).
Qed.

Lemma in_sequence_registers ks ls d h ls' d' : in_sequence ls d h ls' d' → (∀ i, opened ks (ls i) d) →
  Forall event_ok h → (∀ i, opened ks (ls' i) d') ∧
  ∃ f, register_history ks h (word_at d) = Some f ∧ ∀ a, word_at d' a = f a.
Proof.
  intros Hs Ho. induction Hs as [|h ls' d' i c r l d'' Hs IH Hm|h ls' d' i c answers posted d'' Hs IH Hp]; intros Hh.
  - split; [done|]. by exists (word_at d).
  - apply Forall_app in Hh as [Hh [Hc _]%Forall_cons]. destruct (IH Hh) as (Ho' & f & Hf & Hw).
    destruct (library_registers ks c (ls' i) d' (Ho' i) Hc) as (r' & t & Hl & Ht & Hreg).
    destruct (Hreg f Hw) as [Hr Hd].
    rewrite (memhub_alone _ _ _ _ _ Hl) in Hm.
    pose proof (f_equal (λ p, memsvc p.2) Hm) as Hlib. apply (f_equal fst) in Hm. cbn in Hlib, Hm. injection Hm as ->.
    assert (dev t = d'') as <- by exact (f_equal dev Hlib).
    assert (own t = l) as <- by (apply (f_equal own) in Hlib; by rewrite !own_with_device in Hlib).
    split.
    + intros j. unfold update. case_decide; [done|]. by eapply opened_shared.
    + exists (register_call ks c f).2. split; [|exact Hd]. unfold register_history in *. rewrite foldl_snoc, Hf.
      cbn. by rewrite decide_True.
  - apply Forall_app in Hh as [Hh [Hc _]%Forall_cons]. destruct (IH Hh) as (Ho' & f & Hf & Hw).
    destruct (performs_registers ks c (ls' i) d' answers d'' (Ho' i) Hc Hp) as [Hi Hd]. split.
    + intros j. by apply (opened_shared ks (ls' j) (ls' i) d' d'').
    + exists (register_partial c answers f). split; [|by apply Hd]. unfold register_history in *. by rewrite foldl_snoc, Hf.
Qed.

Lemma run_registers ks ls d l s : (∀ i, opened ks (ls i) d) → run l (outside ls d) = Some s →
  Forall event_ok (history s) → ∃ f, register_history ks (history s) (word_at d) = Some f ∧
    ((∀ i, inside (stage_of (process_of s i)) = false) → ∀ a, word_at (memory s) a = f a).
Proof.
  intros Ho Hr Hh. destruct (run_explained ls d _ _ _ Hr ls d (outside_explained ls d)) as (ls' & d' & Hseq & _ & Hcase).
  destruct (in_sequence_registers ks _ _ _ _ _ Hseq Ho Hh) as (_ & f & Hf & Hw). exists f. split; [done|].
  intros Hno a. destruct Hcase as [(_ & -> & _)|(_ & k & _ & Hk)]; [apply Hw|].
  specialize (Hno k). by destruct (stage_of (process_of s k)).
Qed.

(** C4: The processes of the card see one file of registers.  When they have
    opened the library with the same ranges, every call that has returned has
    returned what it does as one step on the registers that the calls before it
    left, and the memory holds these registers whenever no process is inside.
    Of a call whose process was killed the words it had stored are there, and
    nothing else. *)
Theorem hub_is_register_file ks ls d l s : (∀ i, opened ks (ls i) d) → run l (outside ls d) = Some s →
  Forall event_ok (history s) → ∃ f, register_history ks (history s) (word_at d) = Some f ∧
    ((∀ i, inside (stage_of (process_of s i)) = false) → ∀ a, word_at (memory s) a = f a).
Proof. apply run_registers. Qed.
End Plain.

(** A write that is cut short after its first word, a write and a read behind each other, the reader inside before the writer
    has returned; then a read that leaves the range. *)
Module RegistersExamples.
Import PlainMemory InterleaveExamples.

Definition exchange_example : list action :=
  [Enter 3 (Write 0x64000000 2 [7; 8]); SetBusy 3; Operate 3; Operate 3; Operate 3; Signal 3;
   Enter 0 (Write 0x64000004 2 [1; 2]); SetBusy 0; Operate 0; Operate 0; Operate 0; Operate 0; Leave 0;
   Enter 1 (Read 0x64000004 1); ClearBusy 0; SetBusy 1; Operate 1; Operate 1; Operate 1; Leave 1] ++
  whole 2 (Read 0x6400000c 1) 2.

Lemma hub_is_register_file_witness : ∃ s f, run exchange_example start_example = Some s ∧
  history s = [Interrupted 3 (Write 0x64000000 2 [7; 8]) [GotMmap None; GotMmap None; GotStore true] true;
               Completed 0 (Write 0x64000004 2 [1; 2]) (0, []); Completed 1 (Read 0x64000004 1) (0, [2]);
               Completed 2 (Read 0x6400000c 1) (-1, [])] ∧
  register_history [key_of range_example] (history s) (word_at words_example) = Some f ∧ f 0x64000000 = Some 7.
Proof.
  destruct (run exchange_example start_example) as [s|] eqn:E; [|vm_compute in E; discriminate].
  assert (history <$> run exchange_example start_example = Some
    [Interrupted 3 (Write 0x64000000 2 [7; 8]) [GotMmap None; GotMmap None; GotStore true] true;
     Completed 0 (Write 0x64000004 2 [1; 2]) (0, []); Completed 1 (Read 0x64000004 1) (0, [2]);
     Completed 2 (Read 0x6400000c 1) (-1, [])]) as Hh by (vm_compute; reflexivity).
  rewrite E in Hh. cbn [fmap option_fmap option_map] in Hh. injection Hh as Hh.
  destruct (hub_is_register_file [key_of range_example] (λ _, own state_example) words_example exchange_example s)
    as (f & Hf & _).
  - intros i. split; [exact state_ready|reflexivity].
  - exact E.
  - rewrite Hh. repeat (apply Forall_cons; split; [vm_decide|]). by apply Forall_nil.
  - exists s, f. split; [reflexivity|]. split; [exact Hh|]. split; [exact Hf|].
    assert ((λ g, g 0x64000000) <$> register_history [key_of range_example] (history s) (word_at words_example) = Some (Some 7)) as H
      by (rewrite Hh; vm_compute; reflexivity).
    rewrite Hf in H. exact (inj Some _ _ H).
Defined.
End RegistersExamples.
