(* ===== verification/Progress.v ===== *)
(** * Progress: every call gets its turn

    The other half of [HubRegisters]: no order of the device operations leads
    the processes into a state they cannot go on from.  Whoever is inside gets
    out in finitely many operations, and then any process gets in. *)

From S2P Require Import Prelude RpcMsg CText Memsvc MemsvcSpec Memhub MemsvcSim Interleave HubRegisters.

Local Open Scope list_scope.

(** The call a process is inside with. *)
Definition call_inside (st : stage) : option hub_call :=
  match st with Waited c | Accessing c _ => Some c | _ => None end.

Section Runs.
Context {Dev : Type} {K : Kernel Dev} {OS : OwnSignals Dev}.
Implicit Types (s : system Dev) (d : Dev).

Lemma run_app l l' s s' t : run l s = Some s' → run l' s' = Some t → run (l ++ l') s = Some t.
Proof.
  revert s. induction l as [|a l IH]; intros s; cbn [run app]; [by intros [= <-]|].
  destruct (safe a s); [|done]. intros (u & -> & Hr)%bind_Some Ht. cbn. by apply IH.
Qed.

(** The state after process [i] has moved to [st], with [v] and [m] left. *)
Definition moved s i v m st l (h : list event) : system Dev :=
  mk_system v m (update i (mk_process st l) (process_of s)) (history s ++ h).

Lemma stage_moved s i v m st l h : stage_of (process_of (moved s i v m st l h) i) = st.
Proof. cbn. by rewrite update_eq. Qed.
Lemma own_moved s i v m st l h : own_of (process_of (moved s i v m st l h) i) = l.
Proof. cbn. by rewrite update_eq. Qed.

(** Process [i] inside with a call that returns: it gets out, having called
    [sem_post]. *)
Lemma call_returns s i c answers d r t :
  stage_of (process_of s i) = Accessing c answers →
  performs c (own_of (process_of s i)) d answers (memory s) →
  library c (with_device (own_of (process_of s i)) d) = (Next r, t) →
  ∃ l s', run l s = Some s' ∧ history s' = history s ++ [Completed i c r] ∧ sem s' = sem s + 1 ∧
    stage_of (process_of s' i) = Posted ∧ ∀ j, j ≠ i → process_of s' j = process_of s j.
Proof.
  remember (length (run_log c (own_of (process_of s i)) d) - length answers)%nat as n eqn:En.
  revert s answers En. induction n as [n IH] using lt_wf_ind. intros s answers -> Hst Hp Hlib.
  set (l0 := own_of (process_of s i)) in *. destruct (performs_log _ _ _ _ _ Hp) as (Hlen & Ha & _).
  pose proof (continue_log c l0 d (length answers) Hlen) as Hn. rewrite <- Ha in Hn.
  destruct (continue c l0 answers) as [o|r' l'] eqn:Ec.
  - apply fmap_Some in Hn as (e & Hn & _). apply lookup_lt_Some in Hn.
    set (r0 := perform o (memory s)).
    set (s1 := moved s i (sem s) r0.2 (Accessing c (answers ++ [r0.1])) l0 []).
    assert (act (Operate i) s = Some s1) as Hact.
    { unfold act. rewrite Hst. fold l0. by rewrite Ec. }
    assert (own_of (process_of s1 i) = l0) as Hl1 by apply own_moved.
    destruct (IH (length (run_log c l0 d) - length (answers ++ [r0.1]))%nat) with (s := s1) (answers := answers ++ [r0.1])
      as (l & s' & Hr & Hh & Hs & Hst' & Hj).
    + rewrite length_app. cbn. lia.
    + by rewrite Hl1.
    + apply stage_moved.
    + rewrite Hl1. by apply performs_one.
    + by rewrite Hl1.
    + exists (Operate i :: l), s'. cbn [run safe]. rewrite Hact. split; [exact Hr|]. rewrite Hh. cbn [moved history s1].
      rewrite app_nil_r. split_and!; [done|done|done|]. intros j Hne. rewrite Hj by done. cbn. by rewrite update_ne.
  - destruct Hn as (_ & Hr' & _). rewrite Hlib in Hr'. cbn in Hr'. subst r'.
    exists [Leave i], (moved s i (sem s + 1) (memory s) Posted l' [Completed i c r]).
    split_and!; [| |done|apply stage_moved|].
    + cbn [run safe]. unfold act. rewrite Hst. fold l0. by rewrite Ec.
    + done.
    + intros j Hne. cbn. by rewrite update_ne.
Qed.

(** The same from [sem_wait] on. *)
Lemma inside_returns s i c d r t : call_inside (stage_of (process_of s i)) = Some c →
  at_work (stage_of (process_of s i)) (own_of (process_of s i)) d (memory s) →
  library c (with_device (own_of (process_of s i)) d) = (Next r, t) →
  ∃ l s', run l s = Some s' ∧ history s' = history s ++ [Completed i c r] ∧ sem s' = sem s + 1 ∧
    stage_of (process_of s' i) = Posted ∧ ∀ j, j ≠ i → process_of s' j = process_of s j.
Proof.
  intros Hc Hw Hlib. destruct (stage_of (process_of s i)) as [|c'|c' answers| |] eqn:Est; try done; injection Hc as ->.
  - set (l0 := own_of (process_of s i)) in *. cbn in Hw. set (s1 := moved s i (sem s) (memory s) (Accessing c []) l0 []).
    assert (own_of (process_of s1 i) = l0) as Hl1 by apply own_moved.
    destruct (call_returns s1 i c [] d r t) as (l & s' & Hr & Hh & Hs & Hst' & Hj).
    + apply stage_moved.
    + rewrite Hl1. cbn [s1 moved memory]. rewrite Hw. constructor.
    + by rewrite Hl1.
    + exists (SetBusy i :: l), s'. cbn [run safe]. unfold act. rewrite Est. fold l0.
      split; [exact Hr|]. rewrite Hh. cbn [s1 moved history]. rewrite app_nil_r. split_and!; [done|done|done|].
      intros j Hne. rewrite Hj by done. cbn. by rewrite update_ne.
  - by apply (call_returns s i c answers d r t).
Qed.
End Runs.

Section Progress.
Context {Dev : Type} {K : Kernel Dev} {PD : PlainDevice Dev} {OS : OwnSignals Dev}.
Implicit Types (s : system Dev) (d : Dev).

(** What an action adds to the history: nothing that keeps the semaphore, but
    where a bus error ends the process. *)
Lemma act_history a s s' : act a s = Some s' → ∃ h, history s' = history s ++ h ∧
  (Forall gives_back h ∨ ∃ i c answers u l, h = [Interrupted i c answers false] ∧
     stage_of (process_of s i) = Accessing c answers ∧ continue c (own_of (process_of s i)) answers = Ends (Halt u) l).
Proof.
  destruct a as [i c|i|i|i|i|i|i]; unfold act; intros Ha;
    destruct (stage_of (process_of s i)) as [|c0|c0 answers| |] eqn:Est; try done; repeat case_match; try done;
    injection Ha as <-; eexists; (split; [reflexivity|]); try (left; by repeat constructor).
  right. by repeat eexists.
Qed.

Lemma run_history l s s' : run l s = Some s' → history s `prefix_of` history s'.
Proof.
  revert s. induction l as [|a l IH]; intros s; cbn [run]; [by intros [= <-]|].
  destruct (safe a s); [|done]. intros (t & Ha & Hr)%bind_Some. destruct (act_history a s t Ha) as (h & Hh & _).
  etrans; [|by apply IH]. rewrite Hh. by eexists.
Qed.

(** No call meets a bus error: it is for registers, or it is refused. *)
Lemma no_bus_error ks ls d s ls' d' i c answers u l : (∀ i, opened ks (ls i) d) → explained ls d s ls' d' →
  Forall event_ok (history s) → call_ok c → stage_of (process_of s i) = Accessing c answers →
  continue c (own_of (process_of s i)) answers ≠ Ends (Halt u) l.
Proof.
  intros Ho He Hh Hc Hst Hend. pose proof He as (Hseq & Hown & _).
  destruct (explained_inside _ _ _ _ _ i He) as (_ & _ & Hw); [by rewrite Hst|]. rewrite Hst in Hw. cbn in Hw.
  rewrite Hown in Hend. pose proof (performs_ends _ _ _ _ _ _ _ Hw Hend) as Hlib.
  destruct (in_sequence_registers ks _ _ _ _ _ Hseq Ho Hh) as (Ho' & _).
  destruct (library_registers ks c (ls' i) d' (Ho' i) Hc) as (r & t & Hr & _). by rewrite Hlib in Hr.
Qed.

(** So the semaphore is given back for every process that was killed. *)
Lemma run_gives_back ks ls d l s s' ls1 d1 : (∀ i, opened ks (ls i) d) → explained ls d s ls1 d1 → run l s = Some s' →
  Forall event_ok (history s') → Forall gives_back (history s) → Forall gives_back (history s').
Proof.
  intros Ho. revert s ls1 d1. induction l as [|a l IH]; intros s ls1 d1 He; cbn [run]; [by intros [= <-]|].
  destruct (safe a s) eqn:Hsafe; [|done]. intros (t & Ha & Hr)%bind_Some Hok Hb.
  destruct (explained_act _ _ _ _ _ _ _ He Hsafe Ha) as (ls2 & d2 & Ht). apply (IH t ls2 d2 Ht Hr Hok).
  destruct (run_history l t s' Hr) as [h' Hh']. rewrite Hh' in Hok. apply Forall_app in Hok as [Hok _].
  destruct (act_history a s t Ha) as (h & Hh & Hcase). rewrite Hh in Hok |- *. apply Forall_app in Hok as [Hok Hokh].
  apply Forall_app. split; [done|]. destruct Hcase as [|(i & c & answers & u & l' & -> & Hst & Hend)]; [done|].
  apply Forall_cons in Hokh as [Hc _]. by destruct (no_bus_error ks ls d s ls1 d1 i c answers u l' Ho He Hok Hc Hst).
Qed.

(** A state the processes can be in when they have opened the library with the
    same ranges and their calls are as C programs make them. *)
Definition in_order ks ls d s : Prop :=
  (∀ i, opened ks (ls i) d) ∧ (∃ ls' d', explained ls d s ls' d') ∧ Forall event_ok (history s) ∧
  ∀ i c, call_inside (stage_of (process_of s i)) = Some c → call_ok c.

(** It stays so. *)
Lemma in_order_run ks ls d l s s' : in_order ks ls d s → run l s = Some s' → Forall event_ok (history s') →
  (∀ i c, call_inside (stage_of (process_of s' i)) = Some c → call_ok c) → in_order ks ls d s'.
Proof.
  intros (Ho & (ls' & d' & He) & _ & _) Hr Hh Hc. split; [done|]. split; [by eapply run_explained|done].
Qed.

(** The process inside gets out; nobody else moves. *)
Lemma inside_leaves ks ls d s i : in_order ks ls d s → inside (stage_of (process_of s i)) = true → ∃ l s' c r,
  call_inside (stage_of (process_of s i)) = Some c ∧ run l s = Some s' ∧ in_order ks ls d s' ∧
  history s' = history s ++ [Completed i c r] ∧ sem s' = 1 ∧ stage_of (process_of s' i) = Posted ∧
  ∀ j, j ≠ i → process_of s' j = process_of s j.
Proof.
  intros Hin Hi. pose proof Hin as (Ho & (ls' & d' & He) & Hh & Hok).
  assert (∃ c, call_inside (stage_of (process_of s i)) = Some c) as [c Hc] by (destruct (stage_of (process_of s i)); eauto; done).
  destruct (explained_inside _ _ _ _ _ i He Hi) as (Hsem & Hout & Hw). pose proof He as (Hseq & Hown & _).
  destruct (in_sequence_registers ks _ _ _ _ _ Hseq Ho Hh) as (Ho' & _).
  destruct (library_registers ks c (ls' i) d' (Ho' i) (Hok i c Hc)) as (r & t & Hlib & _).
  destruct (inside_returns s i c d' r t Hc) as (l & s' & Hr & Hhist & Hsem' & Hst & Hj); [by rewrite Hown..|].
  exists l, s', c, r. split_and!; [done|done| |done|lia|done|done]. apply (in_order_run ks ls d l s); [done|done| |].
  - rewrite Hhist. apply Forall_app. split; [done|]. constructor; [|done]. by apply (Hok i).
  - intros j c' Hc'. destruct (decide (j = i)) as [->|Hne]; [by rewrite Hst in Hc'|]. rewrite Hj in Hc' by done. by apply (Hok j).
Qed.

(** With the semaphore free a process gets in, and out again. *)
Lemma call_completes ks ls d s i c : in_order ks ls d s → sem s = 1 → stage_of (process_of s i) = Outside → call_ok c →
  ∃ l s' r, run l s = Some s' ∧ history s' = history s ++ [Completed i c r] ∧ stage_of (process_of s' i) = Outside.
Proof.
  intros Hin Hsem Hst Hc. set (l0 := own_of (process_of s i)). set (s1 := moved s i (sem s - 1) (memory s) (Waited c) l0 []).
  assert (run [Enter i c] s = Some s1) as Hr1.
  { cbn [run safe]. unfold act. rewrite Hst, (proj2 (Z.ltb_lt 0 (sem s))) by lia. reflexivity. }
  assert (stage_of (process_of s1 i) = Waited c) as Hst1 by apply stage_moved.
  assert (in_order ks ls d s1) as Hin1.
  { apply (in_order_run ks ls d [Enter i c] s); [done|exact Hr1| |].
    - cbn [s1 moved history]. rewrite app_nil_r. apply Hin.
    - intros j c' Hc'. destruct (decide (j = i)) as [->|Hne]; [rewrite Hst1 in Hc'; by injection Hc' as <-|].
      cbn [s1 moved process_of] in Hc'. rewrite update_ne in Hc' by done. destruct Hin as (_ & _ & _ & Hok). by apply (Hok j). }
  destruct (inside_leaves ks ls d s1 i Hin1) as (l & s2 & c' & r & Hc' & Hr2 & _ & Hh2 & _ & Hst2 & _); [by rewrite Hst1|].
  rewrite Hst1 in Hc'. injection Hc' as <-.
  exists ([Enter i c] ++ l ++ [ClearBusy i]), (moved s2 i (sem s2) (memory s2) Outside (own_of (process_of s2 i)) []), r.
  split_and!; [|cbn [moved history]; rewrite app_nil_r, Hh2; cbn [s1 moved history]; by rewrite app_nil_r|apply stage_moved].
  eapply run_app; [exact Hr1|]. eapply run_app; [exact Hr2|]. cbn [run safe]. unfold act. by rewrite Hst2.
Qed.

(** C7: Every call gets its turn, on a device of plain registers with a word at
    every address of the ranges, so that no bus error keeps the semaphore
    ([Interleave.InterleaveExamples.bus_error_locks]).  Whatever the processes
    have done so far, killed in a call or not, a process that is outside can
    complete any call it makes: there is a run from here in which at most one
    other call, the one that is inside, returns before it. *)
Theorem calls_complete ks ls d l s i c : (∀ j, opened ks (ls j) d) → run l (outside ls d) = Some s →
  Forall event_ok (history s) → (∀ j c', call_inside (stage_of (process_of s j)) = Some c' → call_ok c') →
  stage_of (process_of s i) = Outside → call_ok c → ∃ l' s' h r,
  run l' s = Some s' ∧ history s' = history s ++ h ++ [Completed i c r] ∧ (length h ≤ 1)%nat ∧
  stage_of (process_of s' i) = Outside.
Proof.
  intros Ho Hr Hh Hok Hst Hc.
  pose proof (run_gives_back ks ls d l _ s ls d Ho (outside_explained ls d) Hr Hh (Forall_nil_2 _)) as Hback.
  destruct (run_explained ls d _ _ _ Hr ls d (outside_explained ls d)) as (ls' & d' & He).
  assert (in_order ks ls d s) as Hin by (split_and!; eauto). pose proof He as (_ & _ & Hcase).
  destruct Hcase as [(_ & _ & _ & Hfree)|(_ & k & _ & Hw)].
  - destruct (call_completes ks ls d s i c Hin) as (l' & s' & r & H1 & H2 & H3); [|done|done|].
    { by apply Hfree. }
    exists l', s', [], r. split_and!; [done|done|cbn; lia|done].
  - assert (inside (stage_of (process_of s k)) = true) as Hk by (by destruct (stage_of (process_of s k))).
    destruct (inside_leaves ks ls d s k Hin Hk) as (l1 & s1 & c1 & r1 & _ & Hr1 & Hin1 & Hh1 & Hsem1 & _ & Hj).
    assert (i ≠ k) as Hik by (intros ->; by rewrite Hst in Hk).
    destruct (call_completes ks ls d s1 i c Hin1 Hsem1) as (l2 & s2 & r2 & Hr2 & Hh2 & Hst2); [by rewrite Hj|done|].
    exists (l1 ++ l2), s2, [Completed k c1 r1], r2. split_and!; [by eapply run_app| |done|done].
    rewrite Hh2, Hh1. by rewrite <- app_assoc.
Qed.
End Progress.

(** Process 2 has been killed in the middle of a write, process 0 is in the
    middle of one; process 1 wants to read. *)
Module ProgressExamples.
Import PlainMemory InterleaveExamples.

Definition midway_example : list action :=
  [Enter 2 (Write 0x64000004 2 [3; 4]); SetBusy 2; Operate 2; Operate 2; Operate 2; Signal 2;
   Enter 0 (Write 0x64000004 2 [1; 2]); SetBusy 0; Operate 0; Operate 0; Operate 0].

Lemma calls_complete_witness : ∃ s l' s' h r, run midway_example start_example = Some s ∧
  run l' s = Some s' ∧ history s' = history s ++ h ++ [Completed 1 (Read 0x64000004 1) r] ∧ (length h ≤ 1)%nat.
Proof.
  destruct (run midway_example start_example) as [s|] eqn:E; [|vm_compute in E; discriminate].
  assert ((λ s, (history s, stage_of (process_of s 0%nat), stage_of (process_of s 1%nat), stage_of (process_of s 2%nat))) <$> run midway_example start_example =
    Some ([Interrupted 2 (Write 0x64000004 2 [3; 4]) [GotMmap None; GotMmap None; GotStore true] true], Accessing (Write 0x64000004 2 [1; 2]) [GotMmap None; GotMmap None; GotStore true], Outside, Dead)) as Hs
    by (vm_compute; reflexivity).
  rewrite E in Hs. cbn [fmap option_fmap option_map] in Hs. injection Hs as Hh H0 H1 H2.
  destruct (calls_complete [key_of range_example] (λ _, own state_example) words_example midway_example s 1 (Read 0x64000004 1))
    as (l' & s' & h & r & Hr & Hh' & Hlen & _).
  - intros i. split; [exact state_ready|reflexivity].
  - exact E.
  - rewrite Hh. repeat (apply Forall_cons; split; [vm_decide|]). by apply Forall_nil.
  - intros j c'. destruct (decide (j = 0%nat)) as [->|Hj].
    + rewrite H0. intros [= <-]. vm_decide.
    + destruct (decide (j = 2%nat)) as [->|Hj2]; [by rewrite H2|].
      rewrite (run_others _ _ _ j E); [done|]. repeat constructor; cbn; congruence.
  - exact H1.
  - cbn. lia.
  - exists s, l', s', h, r. split; [reflexivity|]. split; [exact Hr|]. split; [exact Hh'|exact Hlen].
Defined.
End ProgressExamples.
