(* ===== verification/DaemonShared.v ===== *)
(** * DaemonShared: the daemon among other processes

    [Daemon] has the IPbus daemon alone on the memory hub.  Here it is one of
    the processes of [Interleave]: between any two of its accesses, also within
    one packet, other processes make theirs.  The clients of the daemon do not
    notice them, as long as they leave alone the registers the packets use. *)

From S2P Require Import Prelude MemBus RpcMsg CText Memsvc MemsvcSpec Memhub MemsvcSim Interleave HubRegisters.
From S2P Require Import Words IpbusWire Ipbus IpbusSpec IpbusFrame IpbusSim.

Local Open Scope list_scope.

#[export] Instance hub_call_eq_dec : EqDecision hub_call.
Proof. solve_decision. Defined.

(** ** The daemon's side of a history *)

(** The calls a process has made, with what they returned. *)
Definition script : Type := list (hub_call * (Z * list Z)).

Definition calls_of (i : nat) (h : list event) : script :=
  omap (λ e, match e with
             | Completed j c r => if decide (j = i) then Some (c, r) else None
             | Interrupted _ _ _ _ => None
             end) h.

(** The bus of a process that goes through such a script: a call that is not
    the next one of the script is one the process did not make, and gets no
    answer; the library was opened before. *)
Definition next_answer (c : hub_call) : Fn script (Z * list Z) := λ l,
  match l with
  | (c', r) :: l' => if decide (c' = c) then (Next r, l') else (Halt HBlocked, l)
  | [] => (Halt HBlocked, l)
  end.

#[export] Instance script_bus : MemBus script := {
  memhub_open := halt_with HBlocked;
  memhub_read addr words := next_answer (Read addr words);
  memhub_write addr words data := p ← next_answer (Write addr words data); mret p.1
}.

(** The packets [ps] one after the other on an open hub, with their responses:
    [None] when the engine does not return from one of them. *)
Fixpoint serve_packets {B} {HB : MemBus B} (ps : list (list Z)) (b : B) : option (list (list Z) * B) :=
  match ps with
  | [] => Some ([], b)
  | p :: ps =>
      match process_frame (mk_pstate p [] true b) with
      | (Next _, s) => '(rs, b') ← serve_packets ps (bus s); Some (response s :: rs, b')
      | _ => None
      end
  end.

(** Their meaning: a packet is its header and its transactions. *)
Definition packet_words (p : Z * list (Z * txn)) : list Z := p.1 :: (p.2 ≫= encode).

Fixpoint exec_packets (wr : Z → bool) (ps : list (Z * list (Z * txn))) (f : regs) : list (list Z) * regs :=
  match ps with
  | [] => ([], f)
  | (h, ts) :: ps =>
      let run := exec_all wr ts f in
      let rest := exec_packets wr ps run.2 in
      (IpbusFrame.answer h run.1 :: rest.1, rest.2)
  end.

Definition packet_ok (wr : Z → bool) (f : regs) (p : Z * list (Z * txn)) : Prop :=
  standard_header p.1 = true ∧ Z.land p.1 0x0f = 0 ∧ Forall (txn_ok wr f) p.2.

Section Packets.
Context {B : Type} {HB : MemBus B} {rep : B → regs → Prop} {wr : Z → bool} {dom : Z → Prop}.
Context {HS : Shows rep wr dom}.

Lemma serve_packets_exec ps b f : rep b f → Forall (packet_ok wr f) ps →
  Forall (λ p, Forall (λ t, txn_on dom t.2) p.2) ps → ∃ b',
  serve_packets (packet_words <$> ps) b = Some ((exec_packets wr ps f).1, b') ∧ rep b' (exec_packets wr ps f).2.
Proof.
  revert b f. induction ps as [|[h ts] ps IH]; intros b f Hrep Hok Hon; [by exists b|].
  apply Forall_cons in Hok as [(Hs & Ht & Hts) Hok]. apply Forall_cons in Hon as [Hot Hon]. cbn [fst snd] in *.
  destruct (control_packet_shows ts b f [] true Hrep Hot Hts) as (b1 & Hp & Hrep1).
  destruct (IH b1 (exec_all wr ts f).2 Hrep1) as (b2 & Hr & Hrep2); [|done|].
  - eapply Forall_impl; [exact Hok|]. intros [h' ts'] (Hs' & Ht' & Hts'). split_and!; [done..|].
    eapply Forall_impl; [exact Hts'|]. intros t. apply txn_ok_mapped. intros a. apply exec_all_mapped.
  - exists b2. split; [|exact Hrep2]. rewrite fmap_cons. cbn [serve_packets exec_packets fst snd].
    change (packet_words (h, ts)) with (h :: (ts ≫= encode)).
    erewrite (process_frame_control h) by (exact Hs || exact Ht || exact Hp). cbn [bus set_response response].
    by rewrite Hr.
Qed.
End Packets.

Lemma serve_packets_agree {B1 B2} {H1 : MemBus B1} {H2 : MemBus B2} (rel : B1 → B2 → Prop) ps b1 b2 rs b1' :
  like rel → rel b1 b2 → serve_packets ps b1 = Some (rs, b1') → ∃ b2',
  serve_packets ps b2 = Some (rs, b2') ∧ rel b1' b2'.
Proof.
  intros HL. revert b1 b2 rs. induction ps as [|p ps IH]; intros b1 b2 rs Hb; cbn [serve_packets].
  { intros [= <- <-]. by exists b2. }
  destruct (agree_process_frame rel HL (mk_pstate p [] true b1) (mk_pstate p [] true b2)) as [[He Ha]|Hh]; [by split_and!| |].
  - destruct (process_frame (mk_pstate p [] true b1)) as [f1 s1], (process_frame (mk_pstate p [] true b2)) as [f2 s2].
    cbn [fst snd] in He, Ha. subst f2. destruct f1; try done. destruct Ha as (_ & -> & _ & Hb').
    intros ([rs' b'] & Hr & [= <- <-])%bind_Some. destruct (IH _ _ _ Hb' Hr) as (b2' & -> & Hrel). by exists b2'.
  - destruct (process_frame (mk_pstate p [] true b1)) as [f1 s1]. cbn [fst] in Hh. by subst f1.
Qed.

(** ** The file of registers between the daemon's calls *)

Section Shared.
(* the ranges of the configuration file, the daemon, and its addresses *)
Context (ks : list range_key) (i : nat) (dom : Z → Prop).

(** The registers a one-word access reaches. *)
Definition registers (f : Z → option Z) : regs := λ a, if serves ks a 1 false then f a else None.
Definition writeable_registers (a : Z) : bool := serves ks a 1 true.

(** A call of another process, or one that was cut short, that changes no
    register of [dom]. *)
Definition leaves (e : event) : Prop :=
  match e with
  | Completed j (Write a _ _) _ => j ≠ i → ¬ dom a
  | Interrupted _ (Write a _ _) _ _ => ¬ dom a
  | _ => True
  end.

(** A history still to happen, and the file it starts from.  A call of the
    daemon is made when the others have made theirs before it. *)
Record crowd : Type := mk_crowd { todo : list event; file : Z → option Z }.

Fixpoint others (h : list event) (f : Z → option Z) : crowd :=
  match h with
  | Completed j c r :: h' => if decide (j = i) then mk_crowd h f else others h' (register_call ks c f).2
  | Interrupted _ c answers _ :: h' => others h' (register_partial c answers f)
  | [] => mk_crowd h f
  end.

Definition crowd_call (c : hub_call) : Fn crowd (Z * list Z) := λ s,
  let t := others (todo s) (file s) in
  let p := register_call ks c (file t) in
  (Next p.1, mk_crowd (tail (todo t)) p.2).

#[local] Instance crowd_bus : MemBus crowd := {
  memhub_open := mret 0;
  memhub_read addr words := crowd_call (Read addr words);
  memhub_write addr words data := p ← crowd_call (Write addr words data); mret p.1
}.

Lemma register_history_cons e h f :
  register_history ks (e :: h) f = (f' ← register_step ks f e; register_history ks h f').
Proof.
  unfold register_history. cbn [foldl mbind option_bind]. destruct (register_step ks f e) as [f'|]; [done|].
  cbn. induction h as [|e' h IH]; [done|]. exact IH.
Qed.

(** The others leave the daemon's script and the end of the history alone. *)
Lemma others_history h f : Forall event_ok h →
  let t := others h f in
  calls_of i (todo t) = calls_of i h ∧ (∀ g, register_history ks h f = Some g → register_history ks (todo t) (file t) = Some g) ∧
  Forall event_ok (todo t) ∧ (todo t = [] ∨ ∃ c r h', todo t = Completed i c r :: h').
Proof.
  intros Hh. revert f. induction Hh as [|e h He Hh IH]; intros f; [cbn; auto|]. destruct e as [j c r|j c answers posted]; cbn [others].
  2: { destruct (IH (register_partial c answers f)) as (Hc & Hg & He' & Ht). split_and!; [exact Hc| |done|done].
       intros g. rewrite register_history_cons. apply Hg. }
  case_decide as Hj.
  - subst j. cbn [todo file]. split_and!; [done..| |]; [by constructor|right; eauto].
  - destruct (IH (register_call ks c f).2) as (Hc & Hg & He' & Ht). cbn [calls_of omap list_omap].
    rewrite decide_False by done. split_and!; [exact Hc| |done|done]. intros g. rewrite register_history_cons. cbn [register_step].
    case_decide; [|done]. apply Hg.
Qed.

(** The script a process has gone through and the history it is part of. *)
Definition part_of (g : Z → option Z) (l : script) (s : crowd) : Prop :=
  l = calls_of i (todo s) ∧ Forall event_ok (todo s) ∧ register_history ks (todo s) (file s) = Some g.

Lemma part_of_call g c : answers_like (part_of g) (next_answer c) (crowd_call c).
Proof.
  intros l s (-> & Hok & Hg). destruct (others_history (todo s) (file s) Hok) as (Hc & Hg' & Hok' & Ht).
  specialize (Hg' g Hg). unfold crowd_call. rewrite <- Hc. destruct Ht as [->|(c' & r & h' & Et)]; [by right|].
  rewrite Et in *. cbn [calls_of omap list_omap]. rewrite decide_True by done. unfold next_answer.
  case_decide as Heq; [|by right]. subst c'. left. rewrite register_history_cons in Hg'. cbn [register_step] in Hg'.
  case_decide as Hr; [|done]. cbn [fst snd tail]. split; [by rewrite Hr|]. split; [done|].
  split; [by apply Forall_cons in Hok' as [_ ?]|exact Hg'].
Qed.

Lemma part_of_like g : like (part_of g).
Proof.
  split.
  - intros l s Hls. by right.
  - intros a n. apply part_of_call.
  - intros a n data l s Hls. pose proof (part_of_call g (Write a n data) l s Hls) as Hc. cbn [memhub_write script_bus crowd_bus].
    unfold mbind, M_bind. destruct (next_answer _ l) as [f1 l'], (crowd_call _ s) as [f2 s']. cbn [fst snd] in Hc.
    destruct Hc as [[<- Hls']| ->]; [left|by right]. by destruct f1.
Qed.

(** *** What the daemon sees *)

(** The registers [f] on the daemon's addresses. *)
Definition sees (s : crowd) (f : regs) : Prop :=
  Forall event_ok (todo s) ∧ Forall leaves (todo s) ∧ (∀ a v, file s a = Some v → word 32 v) ∧
  (∀ a, serves ks a 1 false = true → is_Some (file s a)) ∧ ∀ a, dom a → registers (file s) a = f a.

(** A write to a file of words leaves one, with the same registers in it. *)
Lemma write_file a data f : Forall (word 32) data → (∀ a v, f a = Some v → word 32 v) →
  (∀ a, serves ks a 1 false = true → is_Some (f a)) →
  let g := match last data with Some x => λ b, if decide (b = a) then Some x else f b | None => f end in
  (∀ a v, g a = Some v → word 32 v) ∧ (∀ a, serves ks a 1 false = true → is_Some (g a)).
Proof.
  intros Hd Hw Hs. destruct (last data) as [x|] eqn:El; [|by split]. cbn. split.
  - intros c v. case_decide; [|apply Hw]. intros [= <-]. apply last_Some in El as [l ->].
    by apply Forall_app in Hd as [_ [Hx _]%Forall_cons].
  - intros c Hc. case_decide; [by eexists|by apply Hs].
Qed.

Lemma register_call_file c f : call_ok c → (∀ a v, f a = Some v → word 32 v) →
  (∀ a, serves ks a 1 false = true → is_Some (f a)) →
  let g := (register_call ks c f).2 in
  (∀ a v, g a = Some v → word 32 v) ∧ (∀ a, serves ks a 1 false = true → is_Some (g a)).
Proof.
  intros Hc Hw Hs. destruct c as [a n|a n data]; cbn [register_call call_ok] in *.
  - destruct (f a); [case_match|]; by split.
  - destruct (serves ks a n true); [|by split]. apply write_file; [by apply Forall_take, Hc|done..].
Qed.

Lemma register_partial_file c answers f : call_ok c → (∀ a v, f a = Some v → word 32 v) →
  (∀ a, serves ks a 1 false = true → is_Some (f a)) →
  let g := register_partial c answers f in
  (∀ a v, g a = Some v → word 32 v) ∧ (∀ a, serves ks a 1 false = true → is_Some (g a)).
Proof.
  intros Hc Hw Hs. destruct c as [a n|a n data]; [by split|]. apply write_file; [by apply Forall_take, Hc|done..].
Qed.

(** Another process's call, seen from the daemon. *)
Lemma leaves_registers j c r f a : leaves (Completed j c r) → j ≠ i → dom a → (register_call ks c f).2 a = f a.
Proof.
  intros Hl Hj Ha. destruct c as [b n|b n data]; cbn [register_call leaves] in *.
  - destruct (f b); [case_match|]; done.
  - destruct (serves ks b n true); [|done]. destruct (last _); [|done]. cbn. case_decide; [|done]. subst. by destruct (Hl Hj).
Qed.

Lemma leaves_partial j c answers posted f a : leaves (Interrupted j c answers posted) → dom a →
  register_partial c answers f a = f a.
Proof.
  intros Hl Ha. destruct c as [b n|b n data]; cbn [register_partial leaves] in *; [done|].
  destruct (last _); [|done]. case_decide; [|done]. by subst.
Qed.

Lemma sees_others s f : sees s f → sees (others (todo s) (file s)) f.
Proof.
  destruct s as [h g]. unfold sees. cbn [todo file]. intros (Hh & Hl & Hw & Hs & Hf). revert g Hw Hs Hf.
  induction Hh as [|e h He Hh IH]; intros g Hw Hs Hf; [by split_and!|]. apply Forall_cons in Hl as [Hle Hl].
  destruct e as [j c r|j c answers posted]; cbn [others].
  2: { destruct (register_partial_file c answers g He Hw Hs) as [Hw' Hs']. apply IH; [done..|].
       intros a Ha. rewrite <- Hf by done. unfold registers. by rewrite (leaves_partial j c answers posted). }
  case_decide as Hj; [by split_and!; [constructor|constructor|..]|].
  destruct (register_call_file c g He Hw Hs) as [Hw' Hs']. apply IH; [done..|].
  intros a Ha. rewrite <- Hf by done. unfold registers. by rewrite (leaves_registers j c r).
Qed.

Lemma sees_tail s f g f' : sees s f → (∀ a v, g a = Some v → word 32 v) →
  (∀ a, serves ks a 1 false = true → is_Some (g a)) → (∀ a, dom a → registers g a = f' a) →
  sees (mk_crowd (tail (todo s)) g) f'.
Proof. intros (Hh & Hl & _ & _ & _) Hw Hs Hf. split_and!; [by apply Forall_tail..|done|done|done]. Qed.

Lemma serves_writeable a : serves ks a 1 true = true → serves ks a 1 false = true.
Proof. unfold serves. destruct (find_key ks a); [|done]. destruct (k_readonly _), (a mod 4 =? 0); done. Qed.

#[local] Instance sees_shows : Shows sees writeable_registers dom.
Proof.
  split.
  - intros s f a Hs Ha. apply sees_others in Hs. cbn [memhub_read crowd_bus]. unfold crowd_call.
    destruct (others (todo s) (file s)) as [h g] eqn:Et. pose proof Hs as (_ & _ & Hw & Hm & Hf). cbn [todo file] in *.
    destruct (register_call_file (Read a 1) g ltac:(cbn; lia) Hw Hm) as [Hw' Hm'].
    rewrite <- Hf by done. unfold registers. cbn [register_call] in *.
    destruct (serves ks a 1 false) eqn:Es; [destruct (Hm a Es) as [v Hv]; rewrite Hv in *|].
    + exists 0, [v], (mk_crowd (tail h) g). split_and!; [done|by eapply (sees_tail _ f g f Hs)|done|done|by eapply Hw].
    + exists (-1), [], (mk_crowd (tail h) g). split_and!; [by destruct (g a)|by eapply (sees_tail _ f g f Hs)|done].
  - intros s f a v Hs Ha Hv. apply sees_others in Hs. cbn [memhub_write crowd_bus].
    unfold mbind, M_bind, crowd_call, writeable_registers. cbn beta zeta.
    destruct (others (todo s) (file s)) as [h g] eqn:Et. pose proof Hs as (_ & _ & Hw & Hm & Hf). cbn [todo file] in *.
    destruct (register_call_file (Write a 1 [v]) g) as [Hw' Hm']; [cbn; split_and!; [lia|lia|cbn; lia|by constructor]|done|done|].
    rewrite <- Hf by done. unfold registers. cbn [register_call] in *.
    destruct (serves ks a 1 true) eqn:Es.
    + rewrite (serves_writeable a Es). destruct (Hm a (serves_writeable a Es)) as [x Hx]. rewrite Hx.
      exists 0, (mk_crowd (tail h) (λ b, if decide (b = a) then Some v else g b)). split; [done|]. split; [done|].
      eapply (sees_tail (mk_crowd h g) f _ _ Hs); [exact Hw'|exact Hm'|].
      intros b Hb. unfold registers, upd. cbn. rewrite <- Hf by done. unfold registers.
      case_decide; [subst b; by rewrite (serves_writeable a Es)|done].
    + exists (-1), (mk_crowd (tail h) g). split; [done|]. assert (sees (mk_crowd (tail h) g) f) by (by eapply (sees_tail _ f g f Hs)).
      destruct (serves ks a 1 false), (g a); done.
  - intros s f g Hfg (Hh & Hl & Hw & Hm & Hf). split_and!; [done..|]. intros a Ha. by rewrite Hf.
Qed.

(** What is still to happen when the daemon is through changes nothing it
    sees. *)
Lemma sees_rest s f g : sees s f → calls_of i (todo s) = [] → register_history ks (todo s) (file s) = Some g →
  ∀ a, dom a → registers g a = f a.
Proof.
  destruct s as [h g0]. intros Hs Hc Hg. pose proof (sees_others _ _ Hs) as (Hh' & _ & _ & _ & Hf').
  destruct (others_history h g0) as (Hc' & Hg' & _ & Ht); [apply Hs|]. cbn [todo file] in *. specialize (Hg' g Hg).
  destruct Ht as [Ht|(c & r & h' & Ht)]; rewrite Ht in *.
  - injection Hg' as <-. exact Hf'.
  - rewrite Hc in Hc'. cbn [calls_of omap list_omap] in Hc'. by rewrite decide_True in Hc'.
Qed.
End Shared.

Section Clients.
Context {Dev : Type} {K : Kernel Dev} {PD : PlainDevice Dev} {OS : OwnSignals Dev}.
Implicit Types (d : Dev).

(** Every word of the ranges is one of the device. *)
Lemma opened_serves ks l d a : opened ks l d → serves ks a 1 false = true → is_Some (word_at d a).
Proof.
  intros [Hr Hp] Hs. destruct (memsvc_read_run a 1 _ Hr ltac:(lia)) as (rc & data & t & _ & _ & Hc).
  rewrite (find_key_perm _ _ a (ready_exclusive _ Hr) Hp) in Hc. unfold serves in Hs.
  destruct (find_key ks a) as [k|]; [|done]. cbn [negb orb] in Hs. rewrite andb_true_r in Hs. rewrite Hs in Hc.
  destruct Hc as (_ & v & Hv & _). by exists v.
Qed.

(** C5: The daemon among other processes of the card.  Whatever they do on the
    memory hub between its accesses, and in the middle of them, and whichever of
    them are killed, as long as they write none of the registers [dom] its
    packets use, its answers are those of the transactions executed one after
    the other on these registers, as if the daemon were alone; and they hold
    what the transactions have left there. *)
Theorem daemon_among_others ks ls d l s i dom ps rsps rest :
  (∀ j, opened ks (ls j) d) → run l (outside ls d) = Some s → Forall event_ok (history s) →
  let wr := writeable_registers ks in
  let f := registers ks (word_at d) in
  Forall (packet_ok wr f) ps → Forall (λ p, Forall (λ t, txn_on dom t.2) p.2) ps →
  Forall (leaves i dom) (history s) →
  serve_packets (packet_words <$> ps) (calls_of i (history s)) = Some (rsps, rest) →
  rsps = (exec_packets wr ps f).1 ∧
  (rest = [] → (∀ j, inside (stage_of (process_of s j)) = false) → ∀ a, dom a →
    registers ks (word_at (memory s)) a = (exec_packets wr ps f).2 a).
Proof.
  intros Ho Hr Hh wr f Hps Hon Hl Hserve.
  destruct (run_registers ks ls d l s Ho Hr Hh) as (g & Hg & Hmem).
  set (start := mk_crowd (history s) (word_at d)).
  assert (sees ks i dom start f) as Hsees.
  { split_and!; [done|done|apply word_at_word| |done]. intros a. by apply (opened_serves ks (ls i)). }
  destruct (serve_packets_exec (HB := crowd_bus ks i) (HS := sees_shows ks i dom) ps start f Hsees Hps Hon)
    as (b & Hexec & Hb).
  destruct (serve_packets_agree (H2 := crowd_bus ks i) (part_of ks i g) (packet_words <$> ps) (calls_of i (history s)) start rsps rest)
    as (b' & Hexec' & Hrest & Hok & Hg'); [apply part_of_like|by split_and!|done|].
  rewrite Hexec in Hexec'. injection Hexec' as <- <-. split; [done|]. intros -> Hno a Ha.
  etransitivity; [|exact (sees_rest ks i dom b _ g Hb (eq_sym Hrest) Hg' a Ha)]. unfold registers. by rewrite (Hmem Hno).
Qed.
End Clients.

(** The daemon adds 3 to a register; another process writes the next register
    between its read and its write. *)
Module SharedExamples.
Import PlainMemory InterleaveExamples.

Definition shared_example : list action :=
  whole 0 (Read 0x64000004 1) 3 ++ whole 1 (Write 0x64000008 1 [9]) 3 ++ whole 0 (Write 0x64000004 1 [9]) 1.
Definition packets_example : list (Z * list (Z * txn)) := [(0x200001f0, [(1, TRmwSum 1 3); (2, TCfgRead 0 1)])].
Notation keys := [key_of range_example].

Lemma daemon_among_others_witness : ∃ s,
  run shared_example start_example = Some s ∧
  serve_packets (packet_words <$> packets_example) (calls_of 0 (history s)) =
    Some ([[0x200001f0; 0x20010150; 6; 0x20020160; 0]], []) ∧
  registers keys (word_at (memory s)) 0x64000004 = Some 9.
Proof.
  destruct (run shared_example start_example) as [s|] eqn:E; [|vm_compute in E; discriminate].
  assert ((λ s, (history s, stage_of (process_of s 0%nat), stage_of (process_of s 1%nat))) <$> run shared_example start_example =
    Some ([Completed 0 (Read 0x64000004 1) (0, [6]); Completed 1 (Write 0x64000008 1 [9]) (0, []);
           Completed 0 (Write 0x64000004 1 [9]) (0, [])], Outside, Outside)) as Hh by (vm_compute; reflexivity).
  rewrite E in Hh. cbn [fmap option_fmap option_map] in Hh. injection Hh as Hh H0 H1.
  assert (serve_packets (packet_words <$> packets_example) (calls_of 0 (history s)) =
    Some ([[0x200001f0; 0x20010150; 6; 0x20020160; 0]], [])) as Hserve by (rewrite Hh; vm_compute; reflexivity).
  exists s. split; [reflexivity|]. split; [exact Hserve|].
  destruct (daemon_among_others keys (λ _, own state_example) words_example shared_example s 0 (λ a, a = 0x64000004)
    packets_example [[0x200001f0; 0x20010150; 6; 0x20020160; 0]] []) as [_ Hreg].
  - intros j. split; [exact state_ready|reflexivity].
  - exact E.
  - rewrite Hh. repeat (apply Forall_cons; split; [vm_decide|]). by apply Forall_nil.
  - repeat constructor; vm_compute; intuition discriminate.
  - repeat constructor.
  - rewrite Hh. repeat (apply Forall_cons; split; [cbn [leaves]; first [exact I|lia]|]). by apply Forall_nil.
  - exact Hserve.
  - rewrite (Hreg eq_refl); [vm_compute; reflexivity| |reflexivity]. intros j.
    destruct (decide (j = 0%nat)) as [->|Hj0]; [by rewrite H0|]. destruct (decide (j = 1%nat)) as [->|Hj1]; [by rewrite H1|].
    rewrite (run_others _ _ _ j E); [done|]. repeat constructor; cbn; congruence.
Defined.
End SharedExamples.
