(* ===== verification/ServerShared.v ===== *)
(** * ServerShared: the whole daemon among other processes

    [DaemonShared] is about packets of transactions.  Here the whole server of
    [ipbus.cpp] is the process: its turns, its connections with whatever bytes
    they bring, and the packet engine on every word of them.  As long as the
    other processes write none of the registers it uses, it cannot tell, and
    nor can its clients, that it is not alone on the memory hub. *)

From S2P Require Import Prelude MemBus RpcMsg CText Memsvc MemsvcSpec Memhub MemsvcSim Interleave HubRegisters.
From S2P Require Import Words IpbusWire Ipbus IpbusSpec IpbusFrame IpbusServer IpbusSim DaemonShared.

Local Open Scope list_scope.

(** The register a call is for. *)
Definition call_addr (c : hub_call) : Z := match c with Read a _ | Write a _ _ => a end.

Section Shared.
Context (ks : list range_key) (i : nat) (dom : Z → Prop).

(** A call is the same step on two files that agree on [dom]. *)
Lemma register_call_agree c f g : dom (call_addr c) → (∀ a, dom a → f a = g a) →
  (register_call ks c f).1 = (register_call ks c g).1 ∧
  ∀ a, dom a → (register_call ks c f).2 a = (register_call ks c g).2 a.
Proof.
  intros Hc Hfg. destruct c as [a n|a n data]; cbn [call_addr register_call] in *.
  - rewrite (Hfg a Hc). destruct (g a); [case_match|]; by split.
  - destruct (serves ks a n true); [|by split]. destruct (last _); [|by split]. split; [done|].
    intros b Hb. cbn. case_decide; [done|by apply Hfg].
Qed.

(** The others change nothing there. *)
Lemma others_dom h f : Forall (leaves i dom) h → Forall (leaves i dom) (todo (others ks i h f)) ∧
  ∀ a, dom a → file (others ks i h f) a = f a.
Proof.
  intros Hh. revert f. induction Hh as [|e h He Hh IH]; intros f; [done|]. destruct e as [j c r|j c answers posted]; cbn [others].
  - case_decide as Hj; [split; [by constructor|done]|]. destruct (IH (register_call ks c f).2) as [Hl Hf].
    split; [exact Hl|]. intros a Ha. rewrite Hf by done. by apply (leaves_registers ks i dom j c r).
  - destruct (IH (register_partial c answers f)) as [Hl Hf]. split; [exact Hl|]. intros a Ha.
    rewrite Hf by done. by apply (leaves_partial i dom j c answers posted).
Qed.
End Shared.

(** ** One process and the hub it would have alone *)
Section Alone.
Context {Dev : Type} {K : Kernel Dev} {PD : PlainDevice Dev} {OS : OwnSignals Dev}.
Implicit Types h : hub Dev.

Definition word_of_hub h : Z → option Z := word_at (dev (memsvc h)).

(** An open hub with the ranges [ks] that nobody else uses. *)
Definition hub_alone (ks : list range_key) h : Prop := hub_ok h ∧ keys_of (memsvc h) ≡ₚ ks.

(** What a call does on it. *)
Lemma hub_call_registers ks c h : hub_alone ks h → call_ok c → ∃ h',
  memhub c h = (Next (register_call ks c (word_of_hub h)).1, h') ∧ hub_alone ks h' ∧
  ∀ a, word_of_hub h' a = (register_call ks c (word_of_hub h)).2 a.
Proof.
  intros [Hok Hks] Hc.
  assert (opened ks (own (memsvc h)) (dev (memsvc h))) as Ho.
  { unfold opened. rewrite with_device_own. split; [apply Hok|exact Hks]. }
  destruct (library_registers ks c _ _ Ho Hc) as (r & t & Hlib & Ht & Hreg). rewrite with_device_own in Hlib.
  destruct (Hreg _ (λ a, eq_refl)) as [-> Hw]. destruct Ht as [Ht Htk]. rewrite with_device_own in Ht, Htk.
  set (p := register_call ks c (word_of_hub h)). fold (word_of_hub h) in Hw, Hlib. fold p in Hw, Hlib.
  assert (∃ h', memhub c h = (Next p.1, h') ∧ hub_ok h' ∧ memsvc h' = t) as (h' & Hm & Hok' & <-).
  2: { exists h'. split_and!; done. }
  clearbody p. destruct c as [a n|a n data]; cbn [library memhub] in *.
  - by apply critical.
  - unfold mbind, M_bind in Hlib. destruct (memsvc_write a n data (memsvc h)) as [[rc| | | |] u] eqn:E; try done.
    injection Hlib as E1 ->. destruct (critical _ _ _ _ Hok E Ht) as (h' & Hrun & Hok' & Hm). exists h'.
    split; [|done]. unfold hub_write. erewrite bind_next by exact Hrun. by rewrite <- E1.
Qed.
End Alone.

(** ** The daemon's script and the hub it would have alone *)
Section Lone.
Context {Dev : Type} {K : Kernel Dev} {PD : PlainDevice Dev} {OS : OwnSignals Dev}.
Context (ks : list range_key) (i : nat) (dom : Z → Prop) (sem_open_ok : bool) (env : open_env).
Implicit Types (h : hub Dev) (d : Dev).

(** [g] is the file the history ends with; the hub holds the registers of
    [dom] at this point of it. *)
Definition shares (g : Z → option Z) (l : script) h : Prop := ∃ s,
  part_of ks i g l s ∧ Forall (leaves i dom) (todo s) ∧ Forall (λ p, dom (call_addr p.1)) l ∧
  hub_alone ks h ∧ ∀ a, dom a → word_of_hub h a = file s a.

Lemma shares_call g c : answers_like (shares g) (next_answer c) (memhub c).
Proof.
  intros l h (s & (-> & Hok & Hg) & Hl & Hd & Ha & Hf).
  destruct (others_history ks i (todo s) (file s) Hok) as (Hc & Hg' & Hok' & Ht). specialize (Hg' g Hg).
  destruct (others_dom ks i dom (todo s) (file s) Hl) as [Hl' Hf'].
  set (t := others ks i (todo s) (file s)) in *. rewrite <- Hc in *. unfold next_answer.
  destruct Ht as [Et|(c' & r & h' & Et)]; rewrite Et in *; [by right|].
  cbn [calls_of omap list_omap] in *. rewrite decide_True in * by done. fold (calls_of i h') in *.
  case_decide as Heq; [subst c'|by right]. left. cbn [fst snd].
  rewrite register_history_cons in Hg'. cbn [register_step] in Hg'. case_decide as Hr; [|done].
  apply Forall_cons in Hd as [Hdc Hd], Hok' as [Hco Hok'], Hl' as [_ Hl'].
  destruct (hub_call_registers ks c h Ha Hco) as (h2 & Hm & Ha2 & Hw).
  destruct (register_call_agree ks dom c (word_of_hub h) (file t) Hdc) as [E1 E2].
  { intros a Hda. by rewrite Hf, Hf'. }
  rewrite Hm. cbn [fst snd]. split; [by rewrite E1, Hr|].
  exists (mk_crowd h' (register_call ks c (file t)).2). split_and!; [by split_and!|done|done|apply Ha2..|].
  intros a Hda. by rewrite Hw, E2.
Qed.

Lemma shares_like g : like (H2 := hub_bus sem_open_ok env) (shares g).
Proof.
  split.
  - intros l h _. by right.
  - intros a n. apply (shares_call g (Read a n)).
  - intros a n data l h Hlh. pose proof (shares_call g (Write a n data) l h Hlh) as Hc. cbn [memhub] in Hc.
    cbn [memhub_write script_bus hub_bus]. unfold mbind, M_bind in *.
    destruct (next_answer _ l) as [f1 l'], (hub_write _ _ _ h) as [f2 h']. cbn [fst snd] in Hc.
    destruct Hc as [[-> Hlh']| ->]; [left|by right]. by destruct f2.
Qed.

(** At the end of the script what is left of the history is the others'. *)
Lemma shares_end g h a : shares g [] h → dom a → g a = word_of_hub h a.
Proof.
  intros (s & (Hn & Hok & Hg) & Hl & _ & _ & Hf) Ha.
  destruct (others_history ks i (todo s) (file s) Hok) as (Hc & Hg' & _ & Ht). specialize (Hg' g Hg).
  destruct (others_dom ks i dom (todo s) (file s) Hl) as [_ Hf']. rewrite Hf, <- Hf' by done.
  destruct Ht as [Et|(c' & r & h' & Et)]; rewrite Et in *; [by injection Hg' as <-|].
  rewrite <- Hn in Hc. cbn [calls_of omap list_omap] in Hc. by rewrite decide_True in Hc.
Qed.

(** C6: The whole daemon among other processes.  Let the calls of process [i] in a
    run be those that the server makes over some turns, on whatever bytes its
    connections bring, and let the other processes, killed or not, write none
    of the registers it uses.  Then the turns come out as on a hub of its own:
    with the same outcome, the same connections, with the same bytes to be
    sent and to be read, and the same registers. *)
Theorem server_among_others size_bits listenfd acl ls d l s cs cl ins h :
  (∀ j, opened ks (ls j) d) → run l (outside ls d) = Some s → Forall event_ok (history s) →
  Forall (leaves i dom) (history s) → Forall (λ p, dom (call_addr p.1)) (calls_of i (history s)) →
  hub_alone ks h → dev (memsvc h) = d →
  let among := server_run size_bits listenfd acl ins (mk_server cs cl true (calls_of i (history s))) in
  let lone := @server_run _ (hub_bus sem_open_ok env) size_bits listenfd acl ins (mk_server cs cl true h) in
  among.1 ≠ Halt HBlocked →
  among.1 = lone.1 ∧ clients among.2 = clients lone.2 ∧ closed among.2 = closed lone.2 ∧
  (s_bus among.2 = [] → (∀ j, inside (stage_of (process_of s j)) = false) →
     ∀ a, dom a → word_at (memory s) a = word_of_hub (s_bus lone.2) a).
Proof.
  intros Ho Hr Hh Hl Hd Ha Hdev among lone Hgoes.
  destruct (run_registers ks ls d l s Ho Hr Hh) as (g & Hg & Hmem).
  assert (shares g (calls_of i (history s)) h) as Hs.
  { exists (mk_crowd (history s) (word_at d)). split_and!; try done. intros a _. unfold word_of_hub. by rewrite Hdev. }
  destruct (agree_server_run (H2 := hub_bus sem_open_ok env) (shares g) (shares_like g) size_bits listenfd acl ins
    (mk_server cs cl true (calls_of i (history s))) (mk_server cs cl true h)) as [[He (Hc & Hcl & _ & Hb)]|Hblk];
    [by split_and!| |by destruct Hgoes].
  split_and!; [exact He|exact Hc|exact Hcl|]. intros Hn Hno a Hda. rewrite Hmem by done.
  apply shares_end; [|done]. rewrite <- Hn. exact Hb.
Qed.
End Lone.

(** Two connections in one turn: the first adds 3 to a register, the second
    reads it.  Another process writes the next register between the read and
    the write of the first. *)
Module ServerSharedExamples.
Import PlainMemory InterleaveExamples SharedExamples.

Definition crowded_example : list action := shared_example ++ whole 0 (Read 0x64000004 1) 1.
Definition sent_example (f : Z) : list Z :=
  frame (vec2str (0x200001f0 :: encode (if f =? 4 then (1, TRmwSum 1 3) else (2, TRead 1)))).
Definition turns_example : list turn_input :=
  [mk_input (SelectReady false (λ _, true)) (λ f, (RecvData (sent_example f), 0)) 0 0].
Definition conns_example : list conn := [mk_conn 4 [] []; mk_conn 5 [] []].
Definition lone_example : hub (gmap Z Z) := mk_hub SemOpen (Some 1) false true state_example.

Lemma server_among_others_witness : ∃ s,
  run crowded_example start_example = Some s ∧
  clients (server_run 32 3 None turns_example (mk_server conns_example [] true (calls_of 0 (history s)))).2 =
    [mk_conn 4 [] (frame (vec2str [0x200001f0; 0x20010150; 6]));
     mk_conn 5 [] (frame (vec2str [0x200001f0; 0x20020100; 9]))] ∧
  word_at (memory s) 0x64000004 = Some 9.
Proof.
  destruct (run crowded_example start_example) as [s|] eqn:E; [|vm_compute in E; discriminate].
  assert ((λ s, (history s, stage_of (process_of s 0%nat), stage_of (process_of s 1%nat))) <$> run crowded_example start_example =
    Some ([Completed 0 (Read 0x64000004 1) (0, [6]); Completed 1 (Write 0x64000008 1 [9]) (0, []);
           Completed 0 (Write 0x64000004 1 [9]) (0, []); Completed 0 (Read 0x64000004 1) (0, [9])], Outside, Outside)) as Hh
    by (vm_compute; reflexivity).
  rewrite E in Hh. cbn [fmap option_fmap option_map] in Hh. injection Hh as Hh H0 H1.
  exists s. split; [reflexivity|].
  destruct (server_among_others [key_of range_example] 0 (λ a, a = 0x64000004) true (mk_env (Some 2) None (0, 0, []) (inl 2)) 32 3 None (λ _, own state_example)
    words_example crowded_example s conns_example [] turns_example lone_example) as (_ & Hc & _ & Hm).
  - intros j. split; [exact state_ready|reflexivity].
  - exact E.
  - rewrite Hh. repeat (apply Forall_cons; split; [vm_decide|]). by apply Forall_nil.
  - rewrite Hh. repeat (apply Forall_cons; split; [cbn [leaves]; first [exact I|lia]|]). by apply Forall_nil.
  - rewrite Hh. repeat (apply Forall_cons; split; [reflexivity|]). by apply Forall_nil.
  - split; [|reflexivity]. split; [reflexivity|]. split; [reflexivity|exact state_ready].
  - reflexivity.
  - rewrite Hh. vm_compute. discriminate.
  - split; [rewrite Hh; vm_compute; reflexivity|]. rewrite Hm; [vm_compute; reflexivity|rewrite Hh; vm_compute; reflexivity| |reflexivity].
    intros j. destruct (decide (j = 0%nat)) as [->|Hj0]; [by rewrite H0|]. destruct (decide (j = 1%nat)) as [->|Hj1]; [by rewrite H1|].
    rewrite (run_others _ _ _ j E); [done|]. repeat constructor; cbn; congruence.
Defined.
End ServerSharedExamples.
